(* ===== verification/_CoqProject ===== *)
-Q . S2P
Prelude.v
GoUnicode.v
GoStrings.v
GoPath.v
GoCrypto.v
GoFloat.v
Parc.v
Principal.v
Policy.v
CacheIface.v
RefWorld.v
Engine.v
AuthzCache.v
AuthzMemory.v
RedisBus.v
Cluster.v
Revocation.v
Gin.v
Extractor.v
ApiKey.v
Claims.v
AuthnMiddleware.v
AuthzMiddleware.v
Versioning.v
GoStrconv.v
SearchTypes.v
SearchCoerce.v
GoFmt.v
Search.v
SearchSql.v
SearchPgx.v
OAuthProvider.v
Pipeline.v
Endpoint.v
Health.v
GenericCache.v
Identity.v
