(* ===== verification/Prelude.v ===== *)
(** * shared-go: a verification development

    The repository is a Go library of building blocks for HTTP services:
    authentication ([authn]), authorization ([authz]) with its permission
    caches ([authz/cache]), API versioning for gin ([versioning]), a
    driver-agnostic search compiler ([search]) with its PostgreSQL executor
    ([search/pgx]), a generic cache ([cache]), health checks ([health]) and
    request-scoped identity ([identity]).  A service puts the authn middleware
    before the authz middleware; the authn middleware extracts a credential,
    validates it and stores a [Principal] in the gin context; the authz
    middleware and guards read it and ask the policy engine, which evaluates
    requirements and, for PARC requirements, reads permission bundles through
    a two-tier cache that revocations invalidate.

    ** How Go is modelled

    Functions are Rocq functions, and [(A, error)] results are [res E A].  State
    is passed explicitly; an operation under a mutex is one step.  Where code
    shares pointers (API key records, device codes) the state has a heap.
    Iteration over Go maps and the completion order of goroutines are
    arguments over which theorems quantify.  Goroutines that outlive a call
    (the listener of the tiered cache, the forwarder of a Redis subscription,
    the unsubscribing goroutines of the memory bus, the janitor) are steps of
    transition systems.  Integers whose overflow matters are wrapped to 64 bits
    ([wrap64]); times are Unix nanoseconds, and an operation reads the clock
    once.  Strings are byte strings, read as UTF-8 where Go does so.
    [any] holds JSON-like values.  Panics are a value ([None] or [Err]) where
    the code can reach one.

    Third-party code is a parameter with its documented behaviour as the laws
    of a class ([JwtLib], [OidcLib], [CacheSpec], the Redis [ClientSpec]s,
    [GoCache], [LikeSpec], ...) or as named hypotheses; concrete instances in
    the witness modules show that the laws can be met.

    ** Files

    - [Prelude]: results, [any], machine integers, tactics, the [go] hints.
    - [GoUnicode], [GoStrings], [GoPath], [GoCrypto]: the parts of the Go
      standard library the code uses: UTF-8 with the case mappings and white
      space of Unicode, [strings], [path.Match], SHA-256, hex, base64.
    - [GoStrconv]: [strconv.Quote] and the shortest decimal of a [float64], as
      error messages show them; a quoted text reads back as itself.
    - [GoFmt]: [fmt.Sprintf] with one string argument, every directive of the
      format included.
    - [GoFloat]: binary64 arithmetic on [SpecFloat], with the lemmas that bound
      a rounded quotient, sum or comparison by the exact value.
    - [Parc]: [authz/parc.go].  Deny overrides, independence of rule order,
      prefix patterns, tenant scoping.
    - [Principal]: [authn/principal.go].
    - [Policy]: [authz/policy.go] and the in-memory repository of
      [authz/repository.go].
    - [CacheIface], [RefWorld]: the contract of [authz/cache/cache.go] as a
      class, a reference provider, and a concrete world.
    - [Engine]: [authz/engine.go].  Evaluation is fail-closed conjunction; the
      requirements of the package mean what they say, but for the unread
      [RequireAll] of role requirements; the cache-aside PARC handler refines
      evaluation on the repository.
    - [AuthzCache]: [authz/cache/redis.go] (module [Redis]) and
      [authz/cache/tiered.go] (module [Tiered]).  The Redis provider meets
      [CacheSpec].  Runs of the tiered provider interleave the parts of its
      operations (no lock spans the tiers): they serve only values that were
      set at most ttl + l1TTL and twice the longest wait of a part ago.
    - [AuthzMemory]: [authz/cache/memory.go].  The provider meets [CacheSpec];
      the bus never sends on or closes a closed channel; module [Provider]
      constructs and closes both.
    - [RedisBus]: the forwarding goroutine of [SubscribeRevocations] behind a
      server and a bounded client channel that may drop messages.  What reaches
      the channel is delivered in order and without loss until cancellation.
    - [Cluster]: several tiered providers over one second tier and one bus that
      delivers at most once.  A confirmed revocation holds at the publisher and
      at every process whose listener has consumed the message, and the
      listeners cannot fail to consume what arrived.
    - [Revocation]: PARC handlers of several processes over those caches and a
      permission repository, every operation of a decision a step of its own.
      Decisions lag the repository by at most grantTTL + l1TTL and the time
      operations wait; a confirmed revocation is effective for every policy at
      every process the message reaches, and at the others when those lifetimes
      are over; the race that a fetch under way wins.
    - [Gin]: what handlers read from and call on a gin context.
    - [Extractor]: [authn/extractor.go].  Which credential a request carries,
      and each error in its case.
    - [ApiKey]: [authn/apikey_validator.go].  Round trip, permanent revocation,
      soundness in every reachable store.
    - [Claims]: [authn/normalizer.go], [jwt_validator.go], [oidc_validator.go].
    - [AuthnMiddleware]: [authn/authenticator.go], [middleware.go], [guards.go],
      [builder.go].  The middleware and guards admit exactly whom they should;
      an end-to-end theorem for API keys.
    - [AuthzMiddleware]: [authz/middleware.go], [guard.go], [builder.go].  Next
      is called exactly when the policy is satisfied; the fallback policy.
    - [Versioning]: [versioning/].  Pattern matching against a declarative
      specification, most-specific lookup in any iteration order and when ties
      make it depend on the order, that the re-dispatching middleware settles
      every request when versions have no slash, and that it does not otherwise.
    - [SearchTypes], [SearchCoerce], [Search], [SearchPgx]: [search/] and
      [search/pgx/].  Pages tile the result, LIKE patterns mean the user's
      term, coercion is type-sound, error messages are unambiguous about the
      names in them, compiled queries are fully parameterised, and an executed
      search returns the page it reports, on a database that executes what the
      text of its statements says.
    - [SearchSql]: a reader for the statements the package writes (condition,
      order and window) and a three-valued evaluator for their conditions,
      EXISTS subqueries included, what a request asks of a row, that the
      compiled text selects exactly those rows, and that no row of another
      tenant is among them.
    - [OAuthProvider]: [authn/oauthprovider/provider.go].  Single-use codes; by
      invariants over runs, every token goes back to an authorization with its
      PKCE challenge or to an approved device; minted claims normalise to the
      right principal.
    - [Pipeline]: provider, validator, both middlewares and the endpoint guard
      in one chain: a granted code leads to the endpoint exactly when the policy
      holds, and a bearer request reaches it exactly when the parser accepts its
      token under the configured key and options and the policies hold.
    - [Endpoint]: that chain in a deployment of [Revocation]: a valid token of a
      revoked principal does not reach an endpoint that asks for a permission.
    - [Health]: [health/] and its probes.  The worst status in every
      interleaving; durations printed exactly below 2048 hours; the pool
      pressure decided as the exact fraction; classification of probes.
    - [GenericCache]: [cache/], [cache/memory], [cache/rediscache].  The
      documented contract, histories of operations verified against it, two
      stores that meet it, and so what a [Get] of each returns.
    - [Identity]: [identity/identity.go].

    ** Bounds and fuel

    [GoPath.path_Match] runs its loops with fuel one more than the pattern's
    length, and [path_Match_total] shows that this never runs out.  The
    versioning middleware is re-entered through the engine; its model [serve]
    carries a number of passes, and [serve_settles] shows that three are enough
    (at most two rewrites) when the version format admits no slash.  The
    SQL reader of [SearchSql] gets three units of fuel per lexeme and two more,
    and [compile_means] and [search_pages] show that every compiled text is
    read within it.
    [GoFmt.Sprintf1] gets one unit per character of the format and one more;
    [doPrintf_fuel] shows that more would change nothing.
    [GoStrconv.shortest] tries one to seventeen digits, and seventeen identify
    every binary64 number.
    SHA-256, other parsing and formatting are structural recursion.

    ** Not modelled

    gin's router, the drivers (pgx, scany, go-redis, ristretto, go-cache),
    JWT and OIDC cryptography, RSA, JSON text and regular expressions other
    than the default version format are parameters.  Context deadlines appear
    where code branches on them.  The number of clock readings within one call
    is abstracted to one.  Strategies a client may add to the interfaces of the
    versioning and counting packages are not: the models of
    [VersionReadingStrategy] and [Counter] have the strategies of the packages.
    Tests, documentation and build files are outside the development. *)

From stdpp Require Export base strings list gmap sets pretty sorting.
From Stdlib Require Export ZArith Lia Ascii.
From Stdlib Require Import SpecFloat.

Set Default Proof Using "Type".

#[global] Arguments String.append !_ _ / : simpl nomatch.

(** ** Results of fallible Go code

    A Go function returning [(A, error)] is modelled by [res E A]: the code
    under [src/] never returns a meaningful value together with a non-nil
    error, except where a definition says so and returns a pair. *)
Inductive res (E A : Type) : Type :=
| Ok (a : A)
| Err (e : E).
Arguments Ok {E A} a.
Arguments Err {E A} e.

Declare Scope go_scope.
Delimit Scope go_scope with go.

Notation "'let?' x := c 'in' k" :=
  (match c with Ok x => k | Err e => Err e end)
  (at level 10, x pattern, c at level 100, k at level 200) : go_scope.

Open Scope go_scope.

Definition is_Ok {E A} (r : res E A) : bool :=
  match r with Ok _ => true | Err _ => false end.

(** [mapM] over [res]: the first error stops the traversal, as a Go loop with
    an early [return err] does. *)
Fixpoint res_mapM {E A B} (f : A -> res E B) (l : list A) : res E (list B) :=
  match l with
  | [] => Ok []
  | x :: l' => let? y := f x in let? ys := res_mapM f l' in Ok (y :: ys)
  end.

(** ** Dynamically typed values ([any])

    JSON-decoded data and the other dynamic types the code switches on.
    [AFloat] is an IEEE 754 binary64 datum, [ATime] a [time.Time] as Unix
    nanoseconds, [AOther] any other dynamic type by its [%T] name. *)
Inductive any : Type :=
| ANil
| ABool (b : bool)
| AString (s : string)
| AFloat (f : spec_float)
| AInt (z : Z)
| AInt64 (z : Z)
| ATime (t : Z)
| ASlice (l : list any)
| AStrings (l : list string)
| AMap (m : gmap string any)
| AOther (typ : string).

(** Type assertions [v.(string)], [v.([]any)], [v.(map[string]any)]. *)
Definition as_string (v : any) : option string :=
  match v with AString s => Some s | _ => None end.
Definition as_slice (v : any) : option (list any) :=
  match v with ASlice l => Some l | _ => None end.
Definition as_map (v : any) : option (gmap string any) :=
  match v with AMap m => Some m | _ => None end.

(** ** Machine integers

    Go's [int] and [int64] are 64-bit two's complement on the supported
    platforms; [wrap64] is the value an operation leaves in the register. *)
Definition min_int64 : Z := -9223372036854775808.
Definition max_int64 : Z := 9223372036854775807.
Definition wrap64 (z : Z) : Z := (z + 2 ^ 63) mod 2 ^ 64 - 2 ^ 63.
Definition in_int64 (z : Z) : Prop := (min_int64 <= z <= max_int64)%Z.

#[global] Instance in_int64_dec z : Decision (in_int64 z).
Proof. unfold in_int64. apply _. Defined.

Lemma wrap64_id z : in_int64 z -> wrap64 z = z.
Proof.
  unfold in_int64, min_int64, max_int64, wrap64. intros H.
  rewrite Z.mod_small; lia.
Qed.

Lemma wrap64_range z : in_int64 (wrap64 z).
Proof.
  unfold in_int64, min_int64, max_int64, wrap64.
  pose proof (Z.mod_pos_bound (z + 2 ^ 63) (2 ^ 64)). lia.
Qed.

(** ** Shared automation *)
Create HintDb go.
#[export] Hint Resolve wrap64_id wrap64_range : go.

(** Case analysis on the conditionals of translated code, keeping the
    decided proposition. *)
Ltac go_case :=
  repeat (case_bool_decide || case_match); simplify_eq/=; try done.

(** Split the conjunctions a guard leaves behind. *)
Ltac go_split := repeat match goal with
  | H : _ && _ = true |- _ => apply andb_true_iff in H as [? ?]
  | H : _ || _ = false |- _ => apply orb_false_iff in H as [? ?]
  | H : negb _ = true |- _ => apply negb_true_iff in H
  | H : negb _ = false |- _ => apply negb_false_iff in H
  | H : bool_decide _ = true |- _ => apply bool_decide_eq_true in H
  | H : bool_decide _ = false |- _ => apply bool_decide_eq_false in H
  end.

(** ** Generic list lemmas *)
Lemma res_mapM_length {E A B} (f : A -> res E B) l l' :
  res_mapM f l = Ok l' -> length l' = length l.
Proof.
  revert l'. induction l as [|x l IH]; intros l' H; simpl in *; [by simplify_eq|].
  destruct (f x); [|done]. destruct (res_mapM f l) eqn:E'; [|done].
  simplify_eq/=. f_equal. by apply IH.
Qed.

Lemma res_mapM_Forall2 {E A B} (f : A -> res E B) l l' :
  res_mapM f l = Ok l' <-> Forall2 (fun x y => f x = Ok y) l l'.
Proof.
  revert l'. induction l as [|x l IH]; intros l'; simpl.
  - split; [intros [= <-]; constructor | by inversion 1].
  - split.
    + destruct (f x) eqn:E1; [|done]. destruct (res_mapM f l) eqn:E2; [|done].
      intros [= <-]. constructor; [done|]. by apply IH.
    + inversion 1 as [|? y ? l'' Hxy Hl]; subst. rewrite Hxy.
      apply IH in Hl. by rewrite Hl.
Qed.

Lemma existsb_Exists {A} (f : A -> bool) l :
  existsb f l = true <-> exists x, x ∈ l /\ f x = true.
Proof.
  rewrite existsb_exists. setoid_rewrite list_elem_of_In. done.
Qed.

Lemma forallb_elem_of {A} (f : A -> bool) l :
  forallb f l = true <-> forall x, x ∈ l -> f x = true.
Proof.
  rewrite forallb_forall. setoid_rewrite list_elem_of_In. done.
Qed.

Lemma existsb_Permutation {A} (f : A -> bool) l l' :
  l ≡ₚ l' -> existsb f l = existsb f l'.
Proof.
  intros Hp. apply eq_true_iff_eq. rewrite !existsb_Exists.
  by setoid_rewrite Hp.
Qed.
