(* ===== verification/GoUnicode.v ===== *)
(** * UTF-8, case and white space of characters: [unicode/utf8] and [unicode]

    Decoding and encoding of runes, the runes a [range] loop over a string
    visits, that decoding inverts encoding, and the simple case mappings, simple case folding and white space of
    Unicode, as the [strings] functions use them.  The tables list, for each run
    of mapped characters from [lo] to [hi] in steps of [step], the distance to
    the image; they agree for the Unicode versions 14 and 15. *)
From S2P Require Import Prelude.

Local Open Scope string_scope.
Local Open Scope Z_scope.

(** ** UTF-8 *)
Definition RuneError : Z := 65533.

Definition byte_at (i : nat) (s : string) : option Z :=
  match String.get i s with
  | Some a => Some (Z.of_N (N_of_ascii a))
  | None => None
  end.

Definition in_range (lo hi : Z) (b : Z) : bool := (lo <=? b) && (b <=? hi).

(** Size of the sequence a leading byte announces and the range of its second
    byte ([utf8.first] and [utf8.acceptRanges]). *)
Definition first_info (b : Z) : option (nat * Z * Z) :=
  if in_range 194 223 b then Some (2%nat, 128, 191)
  else if b =? 224 then Some (3%nat, 160, 191)
  else if b =? 237 then Some (3%nat, 128, 159)
  else if in_range 225 239 b then Some (3%nat, 128, 191)
  else if b =? 240 then Some (4%nat, 144, 191)
  else if in_range 241 243 b then Some (4%nat, 128, 191)
  else if b =? 244 then Some (4%nat, 128, 143)
  else None.

(** [utf8.DecodeRuneInString] *)
Definition decode_rune (s : string) : Z * nat :=
  match byte_at 0 s with
  | None => (RuneError, 0%nat)
  | Some b0 =>
      if b0 <? 128 then (b0, 1%nat) else
      match first_info b0 with
      | None => (RuneError, 1%nat)
      | Some (sz, lo, hi) =>
          match byte_at 1 s with
          | None => (RuneError, 1%nat)
          | Some b1 =>
              if negb (in_range lo hi b1) then (RuneError, 1%nat) else
              if (sz =? 2)%nat then (Z.land b0 31 * 64 + Z.land b1 63, 2%nat) else
              match byte_at 2 s with
              | None => (RuneError, 1%nat)
              | Some b2 =>
                  if negb (in_range 128 191 b2) then (RuneError, 1%nat) else
                  if (sz =? 3)%nat
                  then (Z.land b0 15 * 4096 + Z.land b1 63 * 64 + Z.land b2 63, 3%nat)
                  else
                  match byte_at 3 s with
                  | None => (RuneError, 1%nat)
                  | Some b3 =>
                      if negb (in_range 128 191 b3) then (RuneError, 1%nat) else
                      (Z.land b0 7 * 262144 + Z.land b1 63 * 4096
                       + Z.land b2 63 * 64 + Z.land b3 63, 4%nat)
                  end
              end
          end
      end
  end.

Lemma decode_rune_pos s : s <> "" -> (1 <= snd (decode_rune s))%nat.
Proof.
  destruct s as [|a s]; [done|]. intros _. unfold decode_rune.
  unfold byte_at at 1. cbn [String.get].
  repeat (case_match; cbn [snd]; try lia).
Qed.

(** [utf8.AppendRune]: surrogates and numbers out of range become [RuneError]. *)
Definition byte_of (n : Z) : ascii := ascii_of_N (Z.to_N n).
Definition encode_rune (r : Z) : string :=
  let r := if in_range 0 1114111 r && negb (in_range 55296 57343 r) then r else RuneError in
  if r <? 128 then String (byte_of r) ""
  else if r <? 2048 then
    String (byte_of (192 + r / 64)) (String (byte_of (128 + r mod 64)) "")
  else if r <? 65536 then
    String (byte_of (224 + r / 4096)) (String (byte_of (128 + r / 64 mod 64))
      (String (byte_of (128 + r mod 64)) ""))
  else
    String (byte_of (240 + r / 262144)) (String (byte_of (128 + r / 4096 mod 64))
      (String (byte_of (128 + r / 64 mod 64)) (String (byte_of (128 + r mod 64)) ""))).

(** The runes of [for _, r := range s]; [skip] bytes belong to the last one. *)
Fixpoint runes_skip (skip : nat) (s : string) : list Z :=
  match s with
  | EmptyString => []
  | String _ s' =>
      match skip with
      | S skip' => runes_skip skip' s'
      | O => let '(r, n) := decode_rune s in r :: runes_skip (n - 1) s'
      end
  end.
Definition runes (s : string) : list Z := runes_skip 0 s.
Definition string_of_runes (l : list Z) : string := String.concat "" (map encode_rune l).

Fixpoint is_ascii (s : string) : bool :=
  match s with
  | EmptyString => true
  | String a s' => (N_of_ascii a <? 128)%N && is_ascii s'
  end.

(** ** Case *)
Fixpoint map_rune (table : list (Z * Z * Z * Z)) (r : Z) : Z :=
  match table with
  | [] => r
  | (lo, hi, step, delta) :: table' =>
      if in_range lo hi r && ((r - lo) mod step =? 0) then r + delta else map_rune table' r
  end.

(** Simple lower-case mappings outside ASCII. *)
Definition lower_table : list (Z * Z * Z * Z) :=
  [(192, 214, 1, 32); (216, 222, 1, 32); (256, 302, 2, 1); (304, 304, 1, -199); (306, 310, 2, 1);
   (313, 327, 2, 1); (330, 374, 2, 1); (376, 376, 1, -121); (377, 381, 2, 1); (385, 385, 1, 210);
   (386, 388, 2, 1); (390, 390, 1, 206); (391, 391, 1, 1); (393, 394, 1, 205); (395, 395, 1, 1);
   (398, 398, 1, 79); (399, 399, 1, 202); (400, 400, 1, 203); (401, 401, 1, 1);
   (403, 403, 1, 205); (404, 404, 1, 207); (406, 406, 1, 211); (407, 407, 1, 209);
   (408, 408, 1, 1); (412, 412, 1, 211); (413, 413, 1, 213); (415, 415, 1, 214); (416, 420, 2, 1);
   (422, 422, 1, 218); (423, 423, 1, 1); (425, 425, 1, 218); (428, 428, 1, 1); (430, 430, 1, 218);
   (431, 431, 1, 1); (433, 434, 1, 217); (435, 437, 2, 1); (439, 439, 1, 219); (440, 440, 1, 1);
   (444, 444, 1, 1); (452, 452, 1, 2); (453, 453, 1, 1); (455, 455, 1, 2); (456, 456, 1, 1);
   (458, 458, 1, 2); (459, 475, 2, 1); (478, 494, 2, 1); (497, 497, 1, 2); (498, 500, 2, 1);
   (502, 502, 1, -97); (503, 503, 1, -56); (504, 542, 2, 1); (544, 544, 1, -130);
   (546, 562, 2, 1); (570, 570, 1, 10795); (571, 571, 1, 1); (573, 573, 1, -163);
   (574, 574, 1, 10792); (577, 577, 1, 1); (579, 579, 1, -195); (580, 580, 1, 69);
   (581, 581, 1, 71); (582, 590, 2, 1); (880, 882, 2, 1); (886, 886, 1, 1); (895, 895, 1, 116);
   (902, 902, 1, 38); (904, 906, 1, 37); (908, 908, 1, 64); (910, 911, 1, 63); (913, 929, 1, 32);
   (931, 939, 1, 32); (975, 975, 1, 8); (984, 1006, 2, 1); (1012, 1012, 1, -60);
   (1015, 1015, 1, 1); (1017, 1017, 1, -7); (1018, 1018, 1, 1); (1021, 1023, 1, -130);
   (1024, 1039, 1, 80); (1040, 1071, 1, 32); (1120, 1152, 2, 1); (1162, 1214, 2, 1);
   (1216, 1216, 1, 15); (1217, 1229, 2, 1); (1232, 1326, 2, 1); (1329, 1366, 1, 48);
   (4256, 4293, 1, 7264); (4295, 4295, 1, 7264); (4301, 4301, 1, 7264); (5024, 5103, 1, 38864);
   (5104, 5109, 1, 8); (7312, 7354, 1, -3008); (7357, 7359, 1, -3008); (7680, 7828, 2, 1);
   (7838, 7838, 1, -7615); (7840, 7934, 2, 1); (7944, 7951, 1, -8); (7960, 7965, 1, -8);
   (7976, 7983, 1, -8); (7992, 7999, 1, -8); (8008, 8013, 1, -8); (8025, 8031, 2, -8);
   (8040, 8047, 1, -8); (8072, 8079, 1, -8); (8088, 8095, 1, -8); (8104, 8111, 1, -8);
   (8120, 8121, 1, -8); (8122, 8123, 1, -74); (8124, 8124, 1, -9); (8136, 8139, 1, -86);
   (8140, 8140, 1, -9); (8152, 8153, 1, -8); (8154, 8155, 1, -100); (8168, 8169, 1, -8);
   (8170, 8171, 1, -112); (8172, 8172, 1, -7); (8184, 8185, 1, -128); (8186, 8187, 1, -126);
   (8188, 8188, 1, -9); (8486, 8486, 1, -7517); (8490, 8490, 1, -8383); (8491, 8491, 1, -8262);
   (8498, 8498, 1, 28); (8544, 8559, 1, 16); (8579, 8579, 1, 1); (9398, 9423, 1, 26);
   (11264, 11311, 1, 48); (11360, 11360, 1, 1); (11362, 11362, 1, -10743);
   (11363, 11363, 1, -3814); (11364, 11364, 1, -10727); (11367, 11371, 2, 1);
   (11373, 11373, 1, -10780); (11374, 11374, 1, -10749); (11375, 11375, 1, -10783);
   (11376, 11376, 1, -10782); (11378, 11378, 1, 1); (11381, 11381, 1, 1);
   (11390, 11391, 1, -10815); (11392, 11490, 2, 1); (11499, 11501, 2, 1); (11506, 11506, 1, 1);
   (42560, 42604, 2, 1); (42624, 42650, 2, 1); (42786, 42798, 2, 1); (42802, 42862, 2, 1);
   (42873, 42875, 2, 1); (42877, 42877, 1, -35332); (42878, 42886, 2, 1); (42891, 42891, 1, 1);
   (42893, 42893, 1, -42280); (42896, 42898, 2, 1); (42902, 42920, 2, 1);
   (42922, 42922, 1, -42308); (42923, 42923, 1, -42319); (42924, 42924, 1, -42315);
   (42925, 42925, 1, -42305); (42926, 42926, 1, -42308); (42928, 42928, 1, -42258);
   (42929, 42929, 1, -42282); (42930, 42930, 1, -42261); (42931, 42931, 1, 928);
   (42932, 42946, 2, 1); (42948, 42948, 1, -48); (42949, 42949, 1, -42307);
   (42950, 42950, 1, -35384); (42951, 42953, 2, 1); (42960, 42960, 1, 1); (42966, 42968, 2, 1);
   (42997, 42997, 1, 1); (65313, 65338, 1, 32); (66560, 66599, 1, 40); (66736, 66771, 1, 40);
   (66928, 66938, 1, 39); (66940, 66954, 1, 39); (66956, 66962, 1, 39); (66964, 66965, 1, 39);
   (68736, 68786, 1, 64); (71840, 71871, 1, 32); (93760, 93791, 1, 32); (125184, 125217, 1, 34)].

(** Simple upper-case mappings outside ASCII. *)
Definition upper_table : list (Z * Z * Z * Z) :=
  [(181, 181, 1, 743); (224, 246, 1, -32); (248, 254, 1, -32); (255, 255, 1, 121);
   (257, 303, 2, -1); (305, 305, 1, -232); (307, 311, 2, -1); (314, 328, 2, -1);
   (331, 375, 2, -1); (378, 382, 2, -1); (383, 383, 1, -300); (384, 384, 1, 195);
   (387, 389, 2, -1); (392, 392, 1, -1); (396, 396, 1, -1); (402, 402, 1, -1); (405, 405, 1, 97);
   (409, 409, 1, -1); (410, 410, 1, 163); (414, 414, 1, 130); (417, 421, 2, -1);
   (424, 424, 1, -1); (429, 429, 1, -1); (432, 432, 1, -1); (436, 438, 2, -1); (441, 441, 1, -1);
   (445, 445, 1, -1); (447, 447, 1, 56); (453, 453, 1, -1); (454, 454, 1, -2); (456, 456, 1, -1);
   (457, 457, 1, -2); (459, 459, 1, -1); (460, 460, 1, -2); (462, 476, 2, -1); (477, 477, 1, -79);
   (479, 495, 2, -1); (498, 498, 1, -1); (499, 499, 1, -2); (501, 501, 1, -1); (505, 543, 2, -1);
   (547, 563, 2, -1); (572, 572, 1, -1); (575, 576, 1, 10815); (578, 578, 1, -1);
   (583, 591, 2, -1); (592, 592, 1, 10783); (593, 593, 1, 10780); (594, 594, 1, 10782);
   (595, 595, 1, -210); (596, 596, 1, -206); (598, 599, 1, -205); (601, 601, 1, -202);
   (603, 603, 1, -203); (604, 604, 1, 42319); (608, 608, 1, -205); (609, 609, 1, 42315);
   (611, 611, 1, -207); (613, 613, 1, 42280); (614, 614, 1, 42308); (616, 616, 1, -209);
   (617, 617, 1, -211); (618, 618, 1, 42308); (619, 619, 1, 10743); (620, 620, 1, 42305);
   (623, 623, 1, -211); (625, 625, 1, 10749); (626, 626, 1, -213); (629, 629, 1, -214);
   (637, 637, 1, 10727); (640, 640, 1, -218); (642, 642, 1, 42307); (643, 643, 1, -218);
   (647, 647, 1, 42282); (648, 648, 1, -218); (649, 649, 1, -69); (650, 651, 1, -217);
   (652, 652, 1, -71); (658, 658, 1, -219); (669, 669, 1, 42261); (670, 670, 1, 42258);
   (837, 837, 1, 84); (881, 883, 2, -1); (887, 887, 1, -1); (891, 893, 1, 130);
   (940, 940, 1, -38); (941, 943, 1, -37); (945, 961, 1, -32); (962, 962, 1, -31);
   (963, 971, 1, -32); (972, 972, 1, -64); (973, 974, 1, -63); (976, 976, 1, -62);
   (977, 977, 1, -57); (981, 981, 1, -47); (982, 982, 1, -54); (983, 983, 1, -8);
   (985, 1007, 2, -1); (1008, 1008, 1, -86); (1009, 1009, 1, -80); (1010, 1010, 1, 7);
   (1011, 1011, 1, -116); (1013, 1013, 1, -96); (1016, 1016, 1, -1); (1019, 1019, 1, -1);
   (1072, 1103, 1, -32); (1104, 1119, 1, -80); (1121, 1153, 2, -1); (1163, 1215, 2, -1);
   (1218, 1230, 2, -1); (1231, 1231, 1, -15); (1233, 1327, 2, -1); (1377, 1414, 1, -48);
   (4304, 4346, 1, 3008); (4349, 4351, 1, 3008); (5112, 5117, 1, -8); (7296, 7296, 1, -6254);
   (7297, 7297, 1, -6253); (7298, 7298, 1, -6244); (7299, 7300, 1, -6242); (7301, 7301, 1, -6243);
   (7302, 7302, 1, -6236); (7303, 7303, 1, -6181); (7304, 7304, 1, 35266); (7545, 7545, 1, 35332);
   (7549, 7549, 1, 3814); (7566, 7566, 1, 35384); (7681, 7829, 2, -1); (7835, 7835, 1, -59);
   (7841, 7935, 2, -1); (7936, 7943, 1, 8); (7952, 7957, 1, 8); (7968, 7975, 1, 8);
   (7984, 7991, 1, 8); (8000, 8005, 1, 8); (8017, 8023, 2, 8); (8032, 8039, 1, 8);
   (8048, 8049, 1, 74); (8050, 8053, 1, 86); (8054, 8055, 1, 100); (8056, 8057, 1, 128);
   (8058, 8059, 1, 112); (8060, 8061, 1, 126); (8064, 8071, 1, 8); (8080, 8087, 1, 8);
   (8096, 8103, 1, 8); (8112, 8113, 1, 8); (8115, 8115, 1, 9); (8126, 8126, 1, -7205);
   (8131, 8131, 1, 9); (8144, 8145, 1, 8); (8160, 8161, 1, 8); (8165, 8165, 1, 7);
   (8179, 8179, 1, 9); (8526, 8526, 1, -28); (8560, 8575, 1, -16); (8580, 8580, 1, -1);
   (9424, 9449, 1, -26); (11312, 11359, 1, -48); (11361, 11361, 1, -1); (11365, 11365, 1, -10795);
   (11366, 11366, 1, -10792); (11368, 11372, 2, -1); (11379, 11379, 1, -1); (11382, 11382, 1, -1);
   (11393, 11491, 2, -1); (11500, 11502, 2, -1); (11507, 11507, 1, -1); (11520, 11557, 1, -7264);
   (11559, 11559, 1, -7264); (11565, 11565, 1, -7264); (42561, 42605, 2, -1);
   (42625, 42651, 2, -1); (42787, 42799, 2, -1); (42803, 42863, 2, -1); (42874, 42876, 2, -1);
   (42879, 42887, 2, -1); (42892, 42892, 1, -1); (42897, 42899, 2, -1); (42900, 42900, 1, 48);
   (42903, 42921, 2, -1); (42933, 42947, 2, -1); (42952, 42954, 2, -1); (42961, 42961, 1, -1);
   (42967, 42969, 2, -1); (42998, 42998, 1, -1); (43859, 43859, 1, -928);
   (43888, 43967, 1, -38864); (65345, 65370, 1, -32); (66600, 66639, 1, -40);
   (66776, 66811, 1, -40); (66967, 66977, 1, -39); (66979, 66993, 1, -39); (66995, 67001, 1, -39);
   (67003, 67004, 1, -39); (68800, 68850, 1, -64); (71872, 71903, 1, -32); (93792, 93823, 1, -32);
   (125218, 125251, 1, -34)].

(** Simple case folding outside ASCII. *)
Definition fold_table : list (Z * Z * Z * Z) :=
  [(181, 181, 1, 775); (192, 214, 1, 32); (216, 222, 1, 32); (256, 302, 2, 1); (306, 310, 2, 1);
   (313, 327, 2, 1); (330, 374, 2, 1); (376, 376, 1, -121); (377, 381, 2, 1); (383, 383, 1, -268);
   (385, 385, 1, 210); (386, 388, 2, 1); (390, 390, 1, 206); (391, 391, 1, 1); (393, 394, 1, 205);
   (395, 395, 1, 1); (398, 398, 1, 79); (399, 399, 1, 202); (400, 400, 1, 203); (401, 401, 1, 1);
   (403, 403, 1, 205); (404, 404, 1, 207); (406, 406, 1, 211); (407, 407, 1, 209);
   (408, 408, 1, 1); (412, 412, 1, 211); (413, 413, 1, 213); (415, 415, 1, 214); (416, 420, 2, 1);
   (422, 422, 1, 218); (423, 423, 1, 1); (425, 425, 1, 218); (428, 428, 1, 1); (430, 430, 1, 218);
   (431, 431, 1, 1); (433, 434, 1, 217); (435, 437, 2, 1); (439, 439, 1, 219); (440, 440, 1, 1);
   (444, 444, 1, 1); (452, 452, 1, 2); (453, 453, 1, 1); (455, 455, 1, 2); (456, 456, 1, 1);
   (458, 458, 1, 2); (459, 475, 2, 1); (478, 494, 2, 1); (497, 497, 1, 2); (498, 500, 2, 1);
   (502, 502, 1, -97); (503, 503, 1, -56); (504, 542, 2, 1); (544, 544, 1, -130);
   (546, 562, 2, 1); (570, 570, 1, 10795); (571, 571, 1, 1); (573, 573, 1, -163);
   (574, 574, 1, 10792); (577, 577, 1, 1); (579, 579, 1, -195); (580, 580, 1, 69);
   (581, 581, 1, 71); (582, 590, 2, 1); (837, 837, 1, 116); (880, 882, 2, 1); (886, 886, 1, 1);
   (895, 895, 1, 116); (902, 902, 1, 38); (904, 906, 1, 37); (908, 908, 1, 64); (910, 911, 1, 63);
   (913, 929, 1, 32); (931, 939, 1, 32); (962, 962, 1, 1); (975, 975, 1, 8); (976, 976, 1, -30);
   (977, 977, 1, -25); (981, 981, 1, -15); (982, 982, 1, -22); (984, 1006, 2, 1);
   (1008, 1008, 1, -54); (1009, 1009, 1, -48); (1012, 1012, 1, -60); (1013, 1013, 1, -64);
   (1015, 1015, 1, 1); (1017, 1017, 1, -7); (1018, 1018, 1, 1); (1021, 1023, 1, -130);
   (1024, 1039, 1, 80); (1040, 1071, 1, 32); (1120, 1152, 2, 1); (1162, 1214, 2, 1);
   (1216, 1216, 1, 15); (1217, 1229, 2, 1); (1232, 1326, 2, 1); (1329, 1366, 1, 48);
   (4256, 4293, 1, 7264); (4295, 4295, 1, 7264); (4301, 4301, 1, 7264); (5112, 5117, 1, -8);
   (7296, 7296, 1, -6222); (7297, 7297, 1, -6221); (7298, 7298, 1, -6212); (7299, 7300, 1, -6210);
   (7301, 7301, 1, -6211); (7302, 7302, 1, -6204); (7303, 7303, 1, -6180); (7304, 7304, 1, 35267);
   (7312, 7354, 1, -3008); (7357, 7359, 1, -3008); (7680, 7828, 2, 1); (7835, 7835, 1, -58);
   (7838, 7838, 1, -7615); (7840, 7934, 2, 1); (7944, 7951, 1, -8); (7960, 7965, 1, -8);
   (7976, 7983, 1, -8); (7992, 7999, 1, -8); (8008, 8013, 1, -8); (8025, 8031, 2, -8);
   (8040, 8047, 1, -8); (8072, 8079, 1, -8); (8088, 8095, 1, -8); (8104, 8111, 1, -8);
   (8120, 8121, 1, -8); (8122, 8123, 1, -74); (8124, 8124, 1, -9); (8126, 8126, 1, -7173);
   (8136, 8139, 1, -86); (8140, 8140, 1, -9); (8152, 8153, 1, -8); (8154, 8155, 1, -100);
   (8168, 8169, 1, -8); (8170, 8171, 1, -112); (8172, 8172, 1, -7); (8184, 8185, 1, -128);
   (8186, 8187, 1, -126); (8188, 8188, 1, -9); (8486, 8486, 1, -7517); (8490, 8490, 1, -8383);
   (8491, 8491, 1, -8262); (8498, 8498, 1, 28); (8544, 8559, 1, 16); (8579, 8579, 1, 1);
   (9398, 9423, 1, 26); (11264, 11311, 1, 48); (11360, 11360, 1, 1); (11362, 11362, 1, -10743);
   (11363, 11363, 1, -3814); (11364, 11364, 1, -10727); (11367, 11371, 2, 1);
   (11373, 11373, 1, -10780); (11374, 11374, 1, -10749); (11375, 11375, 1, -10783);
   (11376, 11376, 1, -10782); (11378, 11378, 1, 1); (11381, 11381, 1, 1);
   (11390, 11391, 1, -10815); (11392, 11490, 2, 1); (11499, 11501, 2, 1); (11506, 11506, 1, 1);
   (42560, 42604, 2, 1); (42624, 42650, 2, 1); (42786, 42798, 2, 1); (42802, 42862, 2, 1);
   (42873, 42875, 2, 1); (42877, 42877, 1, -35332); (42878, 42886, 2, 1); (42891, 42891, 1, 1);
   (42893, 42893, 1, -42280); (42896, 42898, 2, 1); (42902, 42920, 2, 1);
   (42922, 42922, 1, -42308); (42923, 42923, 1, -42319); (42924, 42924, 1, -42315);
   (42925, 42925, 1, -42305); (42926, 42926, 1, -42308); (42928, 42928, 1, -42258);
   (42929, 42929, 1, -42282); (42930, 42930, 1, -42261); (42931, 42931, 1, 928);
   (42932, 42946, 2, 1); (42948, 42948, 1, -48); (42949, 42949, 1, -42307);
   (42950, 42950, 1, -35384); (42951, 42953, 2, 1); (42960, 42960, 1, 1); (42966, 42968, 2, 1);
   (42997, 42997, 1, 1); (43888, 43967, 1, -38864); (65313, 65338, 1, 32); (66560, 66599, 1, 40);
   (66736, 66771, 1, 40); (66928, 66938, 1, 39); (66940, 66954, 1, 39); (66956, 66962, 1, 39);
   (66964, 66965, 1, 39); (68736, 68786, 1, 64); (71840, 71871, 1, 32); (93760, 93791, 1, 32);
   (125184, 125217, 1, 34)].

Definition unicode_ToLower (r : Z) : Z :=
  if r <? 128 then if in_range 65 90 r then r + 32 else r else map_rune lower_table r.
Definition unicode_ToUpper (r : Z) : Z :=
  if r <? 128 then if in_range 97 122 r then r - 32 else r else map_rune upper_table r.
(** The representative of the orbit of [unicode.SimpleFold]. *)
Definition unicode_Fold (r : Z) : Z :=
  if r <? 128 then if in_range 65 90 r then r + 32 else r else map_rune fold_table r.

(** The ends of the runs. *)
Definition table_ends (table : list (Z * Z * Z * Z)) : list Z :=
  concat (map (fun '(lo, hi, _, _) => if lo =? hi then [lo] else [lo; hi]) table).

(** Lower case is lower case, and characters with the same lower or upper case
    fold alike, the dotted and the dotless Turkish letter apart. *)
Example lower_images_fixed :
  forallb (fun r => unicode_ToLower (unicode_ToLower r) =? unicode_ToLower r) (table_ends lower_table) = true.
Proof. vm_compute. reflexivity. Qed.
Example fold_agrees :
  forallb (fun r => bool_decide (r ∈ [304; 305]) || (unicode_Fold (unicode_ToLower r) =? unicode_Fold r))
    (table_ends lower_table) = true.
Proof. vm_compute. reflexivity. Qed.

(** ** White space *)

(** [unicode.IsSpace]: the characters with the property White_Space. *)
Definition space_runes : list Z :=
  [9; 10; 11; 12; 13; 32; 133; 160; 5760; 8192; 8193; 8194; 8195; 8196; 8197; 8198; 8199; 8200;
   8201; 8202; 8232; 8233; 8239; 8287; 12288].

(** ** Decoding inverts encoding *)
Lemma land31 b : Z.land b 31 = b mod 32. Proof. exact (Z.land_ones b 5 ltac:(lia)). Qed.
Lemma land15 b : Z.land b 15 = b mod 16. Proof. exact (Z.land_ones b 4 ltac:(lia)). Qed.
Lemma land7 b : Z.land b 7 = b mod 8. Proof. exact (Z.land_ones b 3 ltac:(lia)). Qed.
Lemma land63 b : Z.land b 63 = b mod 64. Proof. exact (Z.land_ones b 6 ltac:(lia)). Qed.

Lemma in_range_spec lo hi b : in_range lo hi b = true <-> lo <= b <= hi.
Proof. unfold in_range. rewrite andb_true_iff, !Z.leb_le. lia. Qed.

Definition valid_rune (r : Z) : Prop := 0 <= r <= 1114111 /\ ~ 55296 <= r <= 57343.

Lemma encode_valid r : valid_rune r ->
  (if in_range 0 1114111 r && negb (in_range 55296 57343 r) then r else RuneError) = r.
Proof.
  intros [H1 H2]. rewrite (proj2 (in_range_spec _ _ _) H1).
  destruct (in_range 55296 57343 r) eqn:E; [|done]. apply in_range_spec in E. lia.
Qed.

Lemma byte_at_S n a s : byte_at (S n) (String a s) = byte_at n s.
Proof. done. Qed.
Lemma byte_at_0 a s : byte_at 0 (String a s) = Some (Z.of_N (N_of_ascii a)).
Proof. done. Qed.

Lemma byte_of_ascii a n : n = Z.of_N (N_of_ascii a) -> byte_of n = a.
Proof. intros ->. unfold byte_of. rewrite N2Z.id. apply ascii_N_embedding. Qed.

Ltac byte_facts :=
  repeat match goal with
  | a : ascii |- _ =>
      lazymatch goal with
      | _ : 0 <= Z.of_N (N_of_ascii a) < 256 |- _ => fail
      | _ => assert (0 <= Z.of_N (N_of_ascii a) < 256) by (pose proof (N_ascii_bounded a); lia)
      end
  end.

Lemma first_info_spec b sz lo hi : first_info b = Some (sz, lo, hi) ->
  (sz = 2%nat /\ 194 <= b <= 223 /\ lo = 128 /\ hi = 191) \/
  (sz = 3%nat /\ 224 <= b <= 239 /\ 128 <= lo /\ hi <= 191 /\ (b = 224 -> lo = 160) /\ (b = 237 -> hi = 159)) \/
  (sz = 4%nat /\ 240 <= b <= 244 /\ 128 <= lo /\ hi <= 191 /\ (b = 240 -> lo = 144) /\ (b = 244 -> hi = 143)).
Proof.
  unfold first_info.
  repeat (case_match; [intros; simplify_eq;
    repeat match goal with H : in_range _ _ _ = true |- _ => apply in_range_spec in H
                      | H : (_ =? _) = true |- _ => apply Z.eqb_eq in H end; lia|]).
  repeat match goal with H : in_range _ _ _ = false |- _ => clear H end.
  done.
Qed.

Lemma encode_2 r : valid_rune r -> 128 <= r < 2048 ->
  encode_rune r = String (byte_of (192 + r / 64)) (String (byte_of (128 + r mod 64)) "").
Proof.
  intros V H. unfold encode_rune. rewrite encode_valid by done.
  by rewrite (proj2 (Z.ltb_ge r 128)), (proj2 (Z.ltb_lt r 2048)) by lia.
Qed.
Lemma encode_3 r : valid_rune r -> 2048 <= r < 65536 ->
  encode_rune r = String (byte_of (224 + r / 4096)) (String (byte_of (128 + r / 64 mod 64))
      (String (byte_of (128 + r mod 64)) "")).
Proof.
  intros V H. unfold encode_rune. rewrite encode_valid by done.
  by rewrite (proj2 (Z.ltb_ge r 128)), (proj2 (Z.ltb_ge r 2048)), (proj2 (Z.ltb_lt r 65536)) by lia.
Qed.
Lemma encode_4 r : valid_rune r -> 65536 <= r ->
  encode_rune r = String (byte_of (240 + r / 262144)) (String (byte_of (128 + r / 4096 mod 64))
      (String (byte_of (128 + r / 64 mod 64)) (String (byte_of (128 + r mod 64)) ""))).
Proof.
  intros V H. unfold encode_rune. rewrite encode_valid by done.
  by rewrite (proj2 (Z.ltb_ge r 128)), (proj2 (Z.ltb_ge r 2048)), (proj2 (Z.ltb_ge r 65536)) by lia.
Qed.
Lemma encode_1 r : 0 <= r < 128 -> encode_rune r = String (byte_of r) "".
Proof.
  intros H. unfold encode_rune. rewrite encode_valid by (split; lia).
  by rewrite (proj2 (Z.ltb_lt r 128)) by lia.
Qed.

Ltac by_bytes := byte_facts; Z.to_euclidean_division_equations; lia.

(** What decodes to a rune starts with its encoding; anything else is one byte
    read as [RuneError]. *)
Lemma decode_rune_inv a s r w :
  decode_rune (String a s) = (r, w) ->
  (r = RuneError /\ w = 1%nat /\ 128 <= Z.of_N (N_of_ascii a)) \/
  (valid_rune r /\ String.length (encode_rune r) = w /\ exists t, String a s = encode_rune r +:+ t).
Proof.
  unfold decode_rune. rewrite byte_at_0. set (b0 := Z.of_N (N_of_ascii a)).
  destruct (b0 <? 128) eqn:E0.
  { apply Z.ltb_lt in E0. intros [= <- <-]. right. assert (0 <= b0) by (unfold b0; lia).
    rewrite encode_1 by done. split_and!; [split; lia|done|]. exists s. simpl.
    by rewrite (byte_of_ascii a). }
  apply Z.ltb_ge in E0.
  assert (Bad : forall k : Prop, (RuneError, 1%nat) = (r, w) ->
    (r = RuneError /\ w = 1%nat /\ 128 <= b0) \/ k) by (intros k [= <- <-]; by left).
  destruct (first_info b0) as [[[sz lo] hi]|] eqn:Ef; [|by apply Bad].
  apply first_info_spec in Ef.
  destruct s as [|a1 s]; [by apply Bad|]. rewrite byte_at_S, byte_at_0. set (b1 := Z.of_N (N_of_ascii a1)).
  destruct (in_range lo hi b1) eqn:E1; cbn [negb]; [|by apply Bad]. apply in_range_spec in E1.
  rewrite !land31, !land15, !land7, !land63.
  destruct Ef as [(-> & Hb)|[(-> & Hb)|(-> & Hb)]]; cbn [Nat.eqb].
  - intros [= <- <-]. right.
    assert (V : 128 <= b0 mod 32 * 64 + b1 mod 64 < 2048) by (unfold b0, b1 in *; by_bytes).
    assert (Hv : valid_rune (b0 mod 32 * 64 + b1 mod 64)) by (split; lia).
    rewrite encode_2 by done. split_and!; [done|done|]. exists s. cbn [String.append].
    rewrite (byte_of_ascii a), (byte_of_ascii a1); [done|..]; unfold b0, b1 in *; by_bytes.
  - destruct s as [|a2 s]; [by apply Bad|]. rewrite ?byte_at_S, byte_at_0. set (b2 := Z.of_N (N_of_ascii a2)).
    destruct (in_range 128 191 b2) eqn:E2; cbn [negb]; [|by apply Bad]. apply in_range_spec in E2.
    rewrite !land63. intros [= <- <-]. right. set (r := b0 mod 16 * 4096 + _ + _).
    assert (V : 2048 <= r < 65536 /\ ~ 55296 <= r <= 57343) by (unfold r, b0, b1, b2 in *; by_bytes).
    assert (Hv : valid_rune r) by (split; lia).
    rewrite encode_3 by tauto. split_and!; [done|done|]. exists s. cbn [String.append].
    rewrite (byte_of_ascii a), (byte_of_ascii a1), (byte_of_ascii a2); [done|..];
      unfold r, b0, b1, b2 in *; by_bytes.
  - destruct s as [|a2 s]; [by apply Bad|]. rewrite ?byte_at_S, byte_at_0. set (b2 := Z.of_N (N_of_ascii a2)).
    destruct (in_range 128 191 b2) eqn:E2; cbn [negb]; [|by apply Bad]. apply in_range_spec in E2.
    destruct s as [|a3 s]; [by apply Bad|]. rewrite ?byte_at_S, byte_at_0. set (b3 := Z.of_N (N_of_ascii a3)).
    destruct (in_range 128 191 b3) eqn:E3; cbn [negb]; [|by apply Bad]. apply in_range_spec in E3.
    rewrite !land63. intros [= <- <-]. right. set (r := b0 mod 8 * 262144 + _ + _ + _).
    assert (V : 65536 <= r <= 1114111) by (unfold r, b0, b1, b2, b3 in *; by_bytes).
    assert (Hv : valid_rune r) by (split; lia).
    rewrite encode_4 by tauto. split_and!; [done|done|]. exists s. cbn [String.append].
    rewrite (byte_of_ascii a), (byte_of_ascii a1), (byte_of_ascii a2), (byte_of_ascii a3); [done|..];
      unfold r, b0, b1, b2, b3 in *; by_bytes.
Qed.
