(* ===== verification/GoStrings.v ===== *)
(** * The parts of Go's [strings] package the repository uses

    A Go string is a byte string, modelled by [string] (a list of 8-bit
    characters).  The case and space functions read it as UTF-8, as Go does. *)
From S2P Require Import Prelude GoUnicode.

Local Open Scope string_scope.

(** ** Definitions *)

Definition str_is_empty (s : string) : bool := bool_decide (s = "").

Definition HasPrefix (s p : string) : bool := String.prefix p s.

(** [s[n:]] for [n <= len(s)]. *)
Fixpoint str_drop (n : nat) (s : string) : string :=
  match n, s with
  | O, _ => s
  | S n', String _ s' => str_drop n' s'
  | S _, EmptyString => EmptyString
  end.

Definition TrimPrefix (s p : string) : string :=
  if HasPrefix s p then str_drop (String.length p) s else s.

(** [strings.Cut]: the text before and after the first occurrence of [sep]. *)
Fixpoint str_cut (sep s : string) : option (string * string) :=
  if HasPrefix s sep then Some ("", str_drop (String.length sep) s)
  else match s with
       | EmptyString => None
       | String c s' =>
           match str_cut sep s' with
           | Some (a, b) => Some (String c a, b)
           | None => None
           end
       end.

Definition Contains (s sub : string) : bool :=
  match str_cut sub s with Some _ => true | None => false end.

(** [strings.Split(s, c)] for a one-byte separator. *)
Fixpoint Split (c : ascii) (s : string) : list string :=
  match s with
  | EmptyString => [""]
  | String a s' =>
      if bool_decide (a = c) then "" :: Split c s'
      else match Split c s' with
           | [] => [String a ""]
           | w :: ws => String a w :: ws
           end
  end.

(** [strings.SplitN(s, sep, 2)]. *)
Definition SplitN2 (s sep : string) : list string :=
  match str_cut sep s with
  | Some (a, b) => [a; b]
  | None => [s]
  end.

(** [strings.SplitAfter(s, sep)] for a non-empty separator: at most
    [len(s)/len(sep) + 1] pieces, so [S (len s)] iterations are enough. *)
Fixpoint SplitAfter_fuel (fuel : nat) (s sep : string) : list string :=
  match fuel with
  | O => [s]
  | S fuel' =>
      match str_cut sep s with
      | Some (a, b) => (a +:+ sep) :: SplitAfter_fuel fuel' b sep
      | None => [s]
      end
  end.
Definition SplitAfter (s sep : string) : list string :=
  SplitAfter_fuel (S (String.length s)) s sep.

Definition Join (l : list string) (sep : string) : string := String.concat sep l.

(** The UTF-8 encodings of white space.  No encoding is a part of another, so a
    leading or trailing space is one of them at that end of the text. *)
Definition space_codes : list string := map encode_rune space_runes.

Definition str_rev (s : string) : string := String.string_of_list_ascii (rev (String.list_ascii_of_string s)).

Definition starts (codes : list string) (s : string) : bool := existsb (HasPrefix s) codes.

(** Drop the codes in front; [skip] bytes belong to the last one found. *)
Fixpoint trim_codes (codes : list string) (skip : nat) (s : string) : string :=
  match s with
  | EmptyString => EmptyString
  | String _ s' =>
      match skip with
      | S skip' => trim_codes codes skip' s'
      | O => match find (HasPrefix s) codes with
             | Some c => trim_codes codes (String.length c - 1) s'
             | None => s
             end
      end
  end.
Definition trim_left (s : string) : string := trim_codes space_codes 0 s.
Definition trim_right (s : string) : string :=
  str_rev (trim_codes (map str_rev space_codes) 0 (str_rev s)).
Definition TrimSpace (s : string) : string := trim_right (trim_left s).

Definition lower_char (a : ascii) : ascii :=
  let n := nat_of_ascii a in
  if ((65 <=? n) && (n <=? 90))%nat then ascii_of_nat (n + 32) else a.
Definition upper_char (a : ascii) : ascii :=
  let n := nat_of_ascii a in
  if ((97 <=? n) && (n <=? 122))%nat then ascii_of_nat (n - 32) else a.

Fixpoint str_map (f : ascii -> ascii) (s : string) : string :=
  match s with
  | EmptyString => EmptyString
  | String a s' => String (f a) (str_map f s')
  end.
(** Byte-wise on ASCII; otherwise rune by rune, bytes that are not UTF-8
    becoming U+FFFD. *)
Definition ToLower (s : string) : string :=
  if is_ascii s then str_map lower_char s else string_of_runes (map unicode_ToLower (runes s)).
Definition ToUpper (s : string) : string :=
  if is_ascii s then str_map upper_char s else string_of_runes (map unicode_ToUpper (runes s)).
Definition EqualFold (s t : string) : bool :=
  if is_ascii s && is_ascii t then bool_decide (str_map lower_char s = str_map lower_char t)
  else bool_decide (map unicode_Fold (runes s) = map unicode_Fold (runes t)).

(** Per-byte substitution: a [strings.NewReplacer] whose patterns are single
    bytes, and [strings.ReplaceAll] of one byte by a string. *)
Fixpoint str_flat_map (f : ascii -> string) (s : string) : string :=
  match s with
  | EmptyString => EmptyString
  | String a s' => f a +:+ str_flat_map f s'
  end.
Definition ReplaceAll (c : ascii) (by_ : string) (s : string) : string :=
  str_flat_map (fun a => if bool_decide (a = c) then by_ else String a "") s.

Fixpoint str_forallb (p : ascii -> bool) (s : string) : bool :=
  match s with
  | EmptyString => true
  | String a s' => p a && str_forallb p s'
  end.
Definition str_existsb (p : ascii -> bool) (s : string) : bool :=
  negb (str_forallb (fun a => negb (p a)) s).

(** [strings.ContainsAny(s, chars)] *)
Definition char_in (a : ascii) (chars : string) : bool :=
  str_existsb (fun b => bool_decide (a = b)) chars.
Definition ContainsAny (s chars : string) : bool :=
  str_existsb (fun a => char_in a chars) s.

(** The double quote, the backslash. *)
Definition dq : ascii := ascii_of_nat 34.
Definition bslash : ascii := ascii_of_nat 92.
Definition quote (s : string) : string := String dq (s +:+ String dq "").

(** [sort.Strings]: byte-wise lexicographic order.  The sorted permutation of
    a list of strings is unique, so the algorithm does not matter. *)
Definition str_leb (s t : string) : bool := String.leb s t.
Definition str_le (s t : string) : Prop := str_leb s t = true.
#[global] Instance str_le_dec s t : Decision (str_le s t).
Proof. unfold str_le. apply _. Defined.
Definition SortStrings (l : list string) : list string := merge_sort str_le l.

#[global] Arguments HasPrefix : simpl never.
#[global] Arguments TrimPrefix : simpl never.
#[global] Arguments TrimSpace : simpl never.
#[global] Arguments ToLower : simpl never.
#[global] Arguments ToUpper : simpl never.
#[global] Arguments EqualFold : simpl never.

(** ** Lemmas *)

Lemma str_app_nil_r s : s +:+ "" = s.
Proof. induction s; simpl; [done | by f_equal]. Qed.

Lemma str_app_assoc s t u : (s +:+ t) +:+ u = s +:+ (t +:+ u).
Proof. induction s; simpl; [done | by f_equal]. Qed.

Lemma str_length_app s t :
  String.length (s +:+ t) = (String.length s + String.length t)%nat.
Proof. induction s; simpl; [done | by f_equal]. Qed.

Lemma str_app_cancel_l s t u : s +:+ t = s +:+ u -> t = u.
Proof. induction s; simpl; [done|]. intros [= H]. by apply IHs. Qed.

Lemma str_drop_app p s : str_drop (String.length p) (p +:+ s) = s.
Proof. induction p; simpl; done. Qed.

Lemma str_drop_0 s : str_drop 0 s = s.
Proof. by destruct s. Qed.

Lemma HasPrefix_spec s p : HasPrefix s p = true <-> exists t, s = p +:+ t.
Proof.
  unfold HasPrefix. revert s. induction p as [|a p IH]; intros s; simpl.
  - split; [by exists s | by destruct s].
  - destruct s as [|b s]; simpl.
    + split; [done | intros [t [=]]].
    + destruct (ascii_dec a b) as [->|Hne].
      * rewrite IH. split; intros [t Ht]; exists t; congruence.
      * split; [done | intros [t [=]]; congruence].
Qed.

Lemma HasPrefix_app p t : HasPrefix (p +:+ t) p = true.
Proof. apply HasPrefix_spec. eauto. Qed.

Lemma TrimPrefix_app p t : TrimPrefix (p +:+ t) p = t.
Proof. unfold TrimPrefix. rewrite HasPrefix_app. apply str_drop_app. Qed.

Lemma str_cut_prefix sep t : str_cut sep (sep +:+ t) = Some ("", t).
Proof.
  pose proof (HasPrefix_app sep t) as H.
  destruct (sep +:+ t) as [|c u] eqn:E.
  - simpl. rewrite H. f_equal. f_equal. rewrite <- E. apply str_drop_app.
  - simpl. rewrite H. f_equal. f_equal. rewrite <- E. apply str_drop_app.
Qed.

Lemma str_cut_Some sep s a b :
  str_cut sep s = Some (a, b) -> s = a +:+ (sep +:+ b).
Proof.
  revert a b. induction s as [|c s IH]; intros a b; simpl.
  - destruct (HasPrefix "" sep) eqn:Hp; [|done].
    apply HasPrefix_spec in Hp as [t Ht].
    destruct sep; [|done]. simpl in *. intros [= <- <-]. done.
  - destruct (HasPrefix (String c s) sep) eqn:Hp.
    + apply HasPrefix_spec in Hp as [t Ht]. rewrite Ht.
      rewrite str_drop_app. intros [= <- <-]. done.
    + destruct (str_cut sep s) as [[a' b']|] eqn:E; [|done].
      intros [= <- <-]. simpl. f_equal. by apply IH.
Qed.

Lemma Contains_spec s sub :
  Contains s sub = true <-> exists a b, s = a +:+ (sub +:+ b).
Proof.
  unfold Contains. split.
  - destruct (str_cut sub s) as [[a b]|] eqn:E; [|done]. intros _.
    exists a, b. by apply str_cut_Some.
  - intros (a & b & ->). induction a as [|c a IH]; simpl.
    + by rewrite str_cut_prefix.
    + destruct (HasPrefix _ _); [done|].
      by destruct (str_cut sub (a +:+ (sub +:+ b))) as [[? ?]|].
Qed.

(** The pieces of [SplitAfter] concatenate to the input. *)
Lemma SplitAfter_fuel_concat fuel s sep :
  Join (SplitAfter_fuel fuel s sep) "" = s.
Proof.
  revert s. induction fuel as [|fuel IH]; intros s; simpl; [done|].
  destruct (str_cut sep s) as [[a b]|] eqn:E; [|done].
  apply str_cut_Some in E. rewrite E, <- str_app_assoc. specialize (IH b).
  unfold Join in *. destruct (SplitAfter_fuel fuel b sep) eqn:E'; simpl in *.
  - subst b. by rewrite str_app_nil_r.
  - by rewrite IH.
Qed.

(** When the input starts with the separator, dropping the first piece drops
    exactly that prefix. *)
Lemma SplitAfter_tail sep t :
  sep <> "" ->
  Join (drop 1 (SplitAfter (sep +:+ t) sep)) "" = t.
Proof.
  intros Hne. unfold SplitAfter.
  change (SplitAfter_fuel (S (String.length (sep +:+ t))) (sep +:+ t) sep) with
    (match str_cut sep (sep +:+ t) with
     | Some (a, b) => (a +:+ sep) :: SplitAfter_fuel (String.length (sep +:+ t)) b sep
     | None => [sep +:+ t]
     end).
  rewrite str_cut_prefix. cbn [drop].
  apply SplitAfter_fuel_concat.
Qed.

(** *** Split *)
Lemma Split_nonempty c s : Split c s <> [].
Proof. destruct s; simpl; [done|]. case_bool_decide; [done|]. by case_match. Qed.

Definition no_char (c : ascii) (s : string) : bool :=
  str_forallb (fun a => negb (bool_decide (a = c))) s.

Lemma Split_no_char c s : Forall (fun w => no_char c w = true) (Split c s).
Proof.
  induction s as [|a s IH]; simpl; [by repeat constructor|].
  case_bool_decide; [by constructor|].
  destruct (Split c s) as [|w ws]; simpl.
  - repeat constructor. unfold no_char. simpl. by case_bool_decide.
  - inversion IH; subst. constructor; [|done]. unfold no_char in *. simpl.
    by case_bool_decide.
Qed.

Lemma Join_Split c s : Join (Split c s) (String c "") = s.
Proof.
  unfold Join. induction s as [|a s IH]; simpl; [done|].
  case_bool_decide as Ha.
  - destruct (Split c s) as [|w ws] eqn:E; [by apply Split_nonempty in E|].
    rewrite <- IH. simpl. by subst.
  - destruct (Split c s) as [|w ws] eqn:E; [by apply Split_nonempty in E|].
    rewrite <- IH. simpl. by destruct ws.
Qed.

Lemma Split_no_sep c w : no_char c w = true -> Split c w = [w].
Proof.
  unfold no_char. induction w as [|a w IH]; simpl; [done|]. intros H. go_split.
  rewrite bool_decide_false by done. by rewrite IH.
Qed.

Lemma Split_cons c w s :
  no_char c w = true -> Split c (w +:+ String c s) = w :: Split c s.
Proof.
  unfold no_char. induction w as [|a w IH]; simpl; intros H.
  - by rewrite bool_decide_true.
  - go_split. rewrite bool_decide_false by done. by rewrite IH.
Qed.

(** The first occurrence of a one-byte separator after a text free of it. *)
(** What precedes the first cut has no separator. *)
Lemma str_cut_char_inv c s a b :
  str_cut (String c "") s = Some (a, b) -> s = a +:+ String c b /\ no_char c a = true.
Proof.
  revert a. induction s as [|x s IH]; intros a; [done|]. cbn [str_cut].
  destruct (HasPrefix (String x s) (String c "")) eqn:Hp.
  - intros [= <- <-]. apply HasPrefix_spec in Hp as [t Ht]. injection Ht as -> ->.
    split; [done|done].
  - destruct (str_cut (String c "") s) as [[a' b']|]; [|done]. intros [= <- <-].
    destruct (IH a' eq_refl) as [-> Hn]. split; [done|]. unfold no_char in *. simpl. rewrite Hn, andb_true_r.
    apply negb_true_iff, bool_decide_eq_false. intros ->.
    pose proof (HasPrefix_app (String c "") (a' +:+ String c b')) as H. simpl in H, Hp. congruence.
Qed.

Lemma str_cut_char c w s :
  no_char c w = true -> str_cut (String c "") (w +:+ String c s) = Some (w, s).
Proof.
  unfold no_char. induction w as [|a w IH]; intros H.
  - apply (str_cut_prefix (String c "")).
  - simpl in H. go_split. cbn [String.append str_cut].
    assert (HasPrefix (String a (w +:+ String c s)) (String c "") = false) as ->.
    { unfold HasPrefix. simpl. destruct (ascii_dec c a); [congruence|done]. }
    by rewrite IH.
Qed.

Lemma Split_Join c l :
  l <> [] -> Forall (fun w => no_char c w = true) l ->
  Split c (Join l (String c "")) = l.
Proof.
  intros Hne Hl. induction Hl as [|w l Hw Hl IH]; [done|].
  destruct l as [|w' l]; unfold Join in *; simpl.
  - by apply Split_no_sep.
  - rewrite Split_cons by done. f_equal. by apply IH.
Qed.

(** *** Trimming *)
(** No leading and no trailing space. *)
Definition trimmed (s : string) : Prop :=
  starts space_codes s = false /\ starts (map str_rev space_codes) (str_rev s) = false.

Lemma str_rev_involutive s : str_rev (str_rev s) = s.
Proof.
  unfold str_rev. rewrite String.list_ascii_of_string_of_list_ascii, rev_involutive.
  apply String.string_of_list_ascii_of_string.
Qed.

Lemma list_ascii_app s t :
  String.list_ascii_of_string (s +:+ t) = (String.list_ascii_of_string s ++ String.list_ascii_of_string t)%list.
Proof. induction s as [|a s IH]; simpl; [done|]. by rewrite IH. Qed.

Lemma string_of_list_app l l' :
  String.string_of_list_ascii (l ++ l')%list = String.string_of_list_ascii l +:+ String.string_of_list_ascii l'.
Proof. induction l as [|a l IH]; simpl; [done|]. by rewrite IH. Qed.

Lemma str_rev_app s t : str_rev (s +:+ t) = str_rev t +:+ str_rev s.
Proof. unfold str_rev. by rewrite list_ascii_app, rev_app_distr, string_of_list_app. Qed.

Lemma HasPrefix_more s t c : HasPrefix s c = true -> HasPrefix (s +:+ t) c = true.
Proof.
  unfold HasPrefix. revert s. induction c as [|x c IH]; intros s; [by destruct s, t|].
  destruct s as [|y s]; [done|]. simpl. destruct (ascii_dec x y); [apply IH|done].
Qed.

Lemma starts_more codes s t : starts codes (s +:+ t) = false -> starts codes s = false.
Proof.
  unfold starts. rewrite <- !not_true_iff_false, !existsb_exists. intros H (c & Hc & Hp). apply H.
  exists c. split; [done|]. by apply HasPrefix_more.
Qed.

Section trim_codes.
Context (codes : list string) (nonempty : forallb (fun c => negb (str_is_empty c)) codes = true).

Lemma starts_empty : starts codes "" = false.
Proof using nonempty.
  apply not_true_iff_false. unfold starts. rewrite existsb_exists. intros (c & Hc & Hp).
  rewrite forallb_forall in nonempty. specialize (nonempty c Hc). by destruct c.
Qed.

Lemma trim_codes_clean k s : starts codes (trim_codes codes k s) = false.
Proof using nonempty.
  revert k. induction s as [|a s IH]; intros k; [apply starts_empty|]. cbn [trim_codes].
  destruct k; [|apply IH]. destruct (find (HasPrefix (String a s)) codes) eqn:E; [apply IH|].
  apply not_true_iff_false. unfold starts. rewrite existsb_exists. intros (c & Hc & Hp).
  rewrite (find_none _ _ E c Hc) in Hp. done.
Qed.

Lemma trim_codes_id s : starts codes s = false -> trim_codes codes 0 s = s.
Proof using Type.
  destruct s as [|a s]; [done|]. intros H. cbn [trim_codes].
  destruct (find (HasPrefix (String a s)) codes) as [c|] eqn:E; [|done].
  apply find_some in E as [Hc Hp]. exfalso. revert H. apply not_false_iff_true.
  unfold starts. apply existsb_exists. eauto.
Qed.

Lemma trim_codes_suffix k s : exists p, s = p +:+ trim_codes codes k s.
Proof using Type.
  revert k. induction s as [|a s IH]; intros k; [by exists ""|]. cbn [trim_codes].
  assert (Hd : forall k, exists p, String a s = p +:+ trim_codes codes k s).
  { intros k'. destruct (IH k') as [p Hp]. exists (String a p). simpl. by rewrite <- Hp. }
  destruct k; [|apply Hd]. destruct (find _ codes); [apply Hd|]. by exists "".
Qed.
End trim_codes.

Lemma codes_nonempty : forallb (fun c => negb (str_is_empty c)) space_codes = true.
Proof. vm_compute. reflexivity. Qed.
Lemma rev_codes_nonempty : forallb (fun c => negb (str_is_empty c)) (map str_rev space_codes) = true.
Proof. vm_compute. reflexivity. Qed.

Lemma TrimSpace_trimmed s : trimmed (TrimSpace s).
Proof.
  unfold TrimSpace, trim_right. set (t := trim_left s). split.
  - destruct (trim_codes_suffix (map str_rev space_codes) 0 (str_rev t)) as [p Hp].
    apply (f_equal str_rev) in Hp. rewrite str_rev_involutive, str_rev_app in Hp.
    eapply starts_more. rewrite <- Hp. apply trim_codes_clean, codes_nonempty.
  - rewrite str_rev_involutive. apply trim_codes_clean, rev_codes_nonempty.
Qed.

Lemma TrimSpace_id s : trimmed s -> TrimSpace s = s.
Proof.
  intros [H1 H2]. unfold TrimSpace, trim_right, trim_left. rewrite (trim_codes_id _ _ H1).
  rewrite (trim_codes_id _ _ H2). apply str_rev_involutive.
Qed.

Lemma TrimSpace_idemp s : TrimSpace (TrimSpace s) = TrimSpace s.
Proof. apply TrimSpace_id, TrimSpace_trimmed. Qed.

(** *** Case mapping *)

(** The Kelvin sign is a K; a no-break space is a space; a stray byte is no
    character, whatever it is. *)
Example unicode_strings :
  let kelvin := encode_rune 8490 in let nbsp := encode_rune 160 in
  ToLower (kelvin +:+ "ELVIN") = "kelvin" /\ EqualFold kelvin "k" = true /\
  TrimSpace (nbsp +:+ " x" +:+ nbsp) = "x" /\
  ToLower (String (ascii_of_nat 255) "") = ToLower (String (ascii_of_nat 254) "").
Proof. vm_compute. done. Qed.

Create Rewrite HintDb go.
#[export] Hint Rewrite TrimSpace_idemp str_app_nil_r : go.

(** *** Sorting *)
Lemma str_leb_trans s t u : str_leb s t = true -> str_leb t u = true -> str_leb s u = true.
Proof.
  unfold str_leb, String.leb. revert t u.
  induction s as [|a s IH]; intros [|b t] [|c u]; simpl; try done.
  unfold Ascii.compare.
  destruct (N.compare_spec (N_of_ascii a) (N_of_ascii b)) as [Hab|Hab|Hab];
    destruct (N.compare_spec (N_of_ascii b) (N_of_ascii c)) as [Hbc|Hbc|Hbc];
    destruct (N.compare_spec (N_of_ascii a) (N_of_ascii c)) as [Hac|Hac|Hac];
    try done; try lia.
  apply IH.
Qed.

#[global] Instance str_le_trans : Transitive str_le.
Proof. intros s t u. apply str_leb_trans. Qed.
#[global] Instance str_le_total : Total str_le.
Proof. intros s t. apply String.leb_total. Qed.
#[global] Instance str_le_antisymm : AntiSymm (=) str_le.
Proof. intros s t. apply String.leb_antisym. Qed.

Lemma SortStrings_Permutation l : SortStrings l ≡ₚ l.
Proof. apply merge_sort_Permutation. Qed.

Lemma SortStrings_sorted l : Sorted str_le (SortStrings l).
Proof. apply Sorted_merge_sort, _. Qed.

(** The result does not depend on the order in which a map was iterated. *)
Lemma SortStrings_proper l l' : l ≡ₚ l' -> SortStrings l = SortStrings l'.
Proof.
  intros Hp. apply (Sorted_unique str_le); try apply SortStrings_sorted.
  by rewrite !SortStrings_Permutation.
Qed.

(** *** Decimal printing ([%d]) *)
Definition itoa (z : Z) : string := pretty z.

Lemma itoa_inj z z' : itoa z = itoa z' -> z = z'.
Proof. apply (inj pretty). Qed.

#[global] Arguments Join : simpl never.
#[global] Arguments Split : simpl never.
