(* ===== verification/GoPath.v ===== *)
(** * Go's [path.Match]

    The glob matcher of the standard library, as [authz.matchGlob] calls it:
    [scanChunk], [matchChunk], [getEsc] and the chunk loop of [Match].  Loops
    that consume the pattern carry fuel; [path_Match] supplies [S (len
    pattern)] and [path_Match_total] shows that it never runs out. *)
From S2P Require Import Prelude GoUnicode GoStrings.

Local Open Scope string_scope.
Local Open Scope Z_scope.

(** ** The matcher *)
Inductive path_err : Set := ErrBadPattern | OutOfFuel.

Definition is_char (c : ascii) (a : ascii) : bool := bool_decide (a = c).

(** [len(s) > 0 && s[0] == c], with the text after that byte. *)
Definition eat (c : ascii) (s : string) : option string :=
  match s with
  | String a s' => if is_char c a then Some s' else None
  | EmptyString => None
  end.

(** [getEsc]: one possibly escaped rune of a character class, which must not
    end the chunk. *)
Definition getEsc (chunk : string) : res path_err (Z * string) :=
  match chunk with
  | EmptyString => Err ErrBadPattern
  | String c chunk' =>
      if is_char "-" c || is_char "]" c then Err ErrBadPattern else
      let chunk := if is_char bslash c then chunk' else chunk in
      if str_is_empty chunk then Err ErrBadPattern else
      let '(r, n) := decode_rune chunk in
      if (r =? RuneError) && (n =? 1)%nat then Err ErrBadPattern else
      let nchunk := str_drop n chunk in
      if str_is_empty nchunk then Err ErrBadPattern else Ok (r, nchunk)
  end.

(** The range loop of a character class: whether [r] is in one of the ranges,
    and the pattern after the closing bracket. *)
Fixpoint parse_ranges (fuel : nat) (chunk : string) (r : Z) (seen matched : bool)
  : res path_err (bool * string) :=
  match fuel with
  | O => Err OutOfFuel
  | S fuel' =>
      match eat "]" chunk, seen with
      | Some chunk', true => Ok (matched, chunk')
      | _, _ =>
          let? (lo, chunk1) := getEsc chunk in
          let? (hi, chunk2) :=
            match eat "-" chunk1 with
            | Some chunk1' => getEsc chunk1'
            | None => Ok (lo, chunk1)
            end in
          parse_ranges fuel' chunk2 r true
            (matched || ((lo <=? r) && (r <=? hi)))
      end
  end.

(** [matchChunk]: [Ok (Some rest)] when the chunk matches a prefix of [s]. *)
Fixpoint matchChunk_fuel (fuel : nat) (chunk s : string) (failed : bool)
  : res path_err (option string) :=
  match chunk with
  | EmptyString => Ok (if failed then None else Some s)
  | String c chunk1 =>
      match fuel with
      | O => Err OutOfFuel
      | S fuel' =>
          let failed := failed || str_is_empty s in
          let literal (a : ascii) (rest : string) :=
            match failed, s with
            | false, String b s' => matchChunk_fuel fuel' rest s' (negb (bool_decide (a = b)))
            | _, _ => matchChunk_fuel fuel' rest s true
            end in
          if is_char "[" c then
            let '(r, s') :=
              if failed then (0, s)
              else let '(r, n) := decode_rune s in (r, str_drop n s) in
            let '(negated, chunk2) :=
              match eat "^" chunk1 with
              | Some chunk1' => (true, chunk1')
              | None => (false, chunk1)
              end in
            let? (matched, chunk3) := parse_ranges (S (String.length chunk2)) chunk2 r false false in
            matchChunk_fuel fuel' chunk3 s' (failed || Bool.eqb matched negated)
          else if is_char "?" c then
            match failed, s with
            | false, String b _ =>
                matchChunk_fuel fuel' chunk1 (str_drop (snd (decode_rune s)) s) (is_char "/" b)
            | _, _ => matchChunk_fuel fuel' chunk1 s true
            end
          else if is_char bslash c then
            match chunk1 with
            | EmptyString => Err ErrBadPattern
            | String a rest => literal a rest
            end
          else literal c chunk1
      end
  end.
Definition matchChunk (chunk s : string) : res path_err (option string) :=
  matchChunk_fuel (String.length chunk) chunk s false.

Fixpoint skip_stars (p : string) : bool * string :=
  match p with
  | String a p' => if is_char "*" a then (true, snd (skip_stars p')) else (false, p)
  | EmptyString => (false, p)
  end.

Fixpoint scan_from (inrange : bool) (p : string) : string * string :=
  match p with
  | EmptyString => ("", "")
  | String c p' =>
      if is_char bslash c then
        match p' with
        | EmptyString => (String c "", "")
        | String d p'' => let '(a, b) := scan_from inrange p'' in (String c (String d a), b)
        end
      else if is_char "*" c && negb inrange then ("", p)
      else
        let inrange := if is_char "[" c then true
                       else if is_char "]" c then false else inrange in
        let '(a, b) := scan_from inrange p' in (String c a, b)
  end.

(** [scanChunk]: whether the chunk is preceded by stars, the chunk, the rest. *)
Definition scanChunk (pattern : string) : bool * string * string :=
  let '(star, p) := skip_stars pattern in
  let '(chunk, rest) := scan_from false p in (star, chunk, rest).

(** The inner loop of [Match]: skip one byte more each time, never a slash. *)
Fixpoint star_search (chunk : string) (last : bool) (name : string)
  : res path_err (option string) :=
  match name with
  | EmptyString => Ok None
  | String a name' =>
      if is_char "/" a then Ok None else
      match matchChunk chunk name' with
      | Err e => Err e
      | Ok (Some t) =>
          if last && negb (str_is_empty t) then star_search chunk last name' else Ok (Some t)
      | Ok None => star_search chunk last name'
      end
  end.

(** Before a mismatch is reported the rest of the pattern is checked. *)
Fixpoint check_rest (fuel : nat) (pattern : string) : res path_err bool :=
  if str_is_empty pattern then Ok false else
  match fuel with
  | O => Err OutOfFuel
  | S fuel' =>
      let '(_, chunk, rest) := scanChunk pattern in
      match matchChunk chunk "" with
      | Err e => Err e
      | Ok _ => check_rest fuel' rest
      end
  end.

Fixpoint Match_fuel (fuel : nat) (pattern name : string) : res path_err bool :=
  if str_is_empty pattern then Ok (str_is_empty name) else
  match fuel with
  | O => Err OutOfFuel
  | S fuel' =>
      let '(star, chunk, rest) := scanChunk pattern in
      if star && str_is_empty chunk then Ok (no_char "/" name) else
      match matchChunk chunk name with
      | Ok (Some t) =>
          if str_is_empty t || negb (str_is_empty rest) then Match_fuel fuel' rest t
          else if star then
            match star_search chunk (str_is_empty rest) name with
            | Err e => Err e
            | Ok (Some t) => Match_fuel fuel' rest t
            | Ok None => check_rest fuel' rest
            end
          else check_rest fuel' rest
      | Err e => Err e
      | Ok None =>
          if star then
            match star_search chunk (str_is_empty rest) name with
            | Err e => Err e
            | Ok (Some t) => Match_fuel fuel' rest t
            | Ok None => check_rest fuel' rest
            end
          else check_rest fuel' rest
      end
  end.

(** [path.Match(pattern, name)] *)
Definition path_Match (pattern name : string) : res path_err bool :=
  Match_fuel (String.length pattern) pattern name.

Example path_Match_1 : path_Match "rep_*" "rep_12" = Ok true. Proof. reflexivity. Qed.
Example path_Match_2 : path_Match "a*b?[x-z]" "a__b_y" = Ok true. Proof. reflexivity. Qed.
Example path_Match_3 : path_Match "*/x" "a/b/x" = Ok false. Proof. reflexivity. Qed.
Example path_Match_4 : path_Match "a[" "zz" = Err ErrBadPattern. Proof. reflexivity. Qed.
Example path_Match_5 : path_Match "*[a/]b*c" "ab/bc" = Ok false. Proof. reflexivity. Qed.

(** ** Totality: the fuel is enough *)
Lemma str_drop_length n s : String.length (str_drop n s) = (String.length s - n)%nat.
Proof. revert s. induction n; intros [|a s]; simpl; try done. Qed.

Lemma str_is_empty_spec s : str_is_empty s = true <-> s = "".
Proof. unfold str_is_empty. by rewrite bool_decide_eq_true. Qed.

Lemma str_is_empty_false s : str_is_empty s = false <-> s <> "".
Proof. unfold str_is_empty. by rewrite bool_decide_eq_false. Qed.

Lemma getEsc_shorter c r c' :
  getEsc c = Ok (r, c') -> (String.length c' < String.length c)%nat.
Proof.
  unfold getEsc. destruct c as [|a c]; [done|]. case_match; [done|].
  set (d := if is_char bslash a then c else String a c).
  destruct (str_is_empty d) eqn:Hd; [done|]. apply str_is_empty_false in Hd.
  pose proof (decode_rune_pos d Hd).
  destruct (decode_rune d) as [r' n] eqn:Er. simpl in *.
  case_match; [done|]. case_match; [done|]. intros [= <- <-].
  rewrite str_drop_length.
  assert (String.length d <= S (String.length c))%nat
    by (unfold d; destruct (is_char bslash a); simpl; lia).
  destruct d; [done|]. simpl in *. lia.
Qed.

Lemma getEsc_fuel c : getEsc c <> Err OutOfFuel.
Proof.
  unfold getEsc. destruct c; [done|]. repeat (case_match; try done).
Qed.

Lemma eat_length c s s' : eat c s = Some s' -> String.length s = S (String.length s').
Proof. destruct s; simpl; [done|]. case_match; [|done]. by intros [= <-]. Qed.

(** What fuelled functions guarantee: enough fuel, and a shorter rest. *)
Lemma parse_ranges_spec fuel chunk r seen m :
  (String.length chunk < fuel)%nat ->
  parse_ranges fuel chunk r seen m <> Err OutOfFuel /\
  forall b rest, parse_ranges fuel chunk r seen m = Ok (b, rest) ->
    (String.length rest < String.length chunk)%nat.
Proof.
  revert chunk seen m. induction fuel as [|fuel IH]; intros chunk seen m Hf; [lia|].
  cbn [parse_ranges].
  destruct (eat "]" chunk) as [chunk'|] eqn:Ee; [destruct seen|].
  { apply eat_length in Ee. split; [done|]. intros b rest [= <- <-]. lia. }
  all: clear Ee; pose proof (getEsc_fuel chunk) as Hg;
    (destruct (getEsc chunk) as [[lo chunk1]|e] eqn:E1; [|split; [congruence|done]]);
    apply getEsc_shorter in E1; clear Hg;
    (destruct (eat "-" chunk1) as [c2|] eqn:E2;
      [ apply eat_length in E2; pose proof (getEsc_fuel c2);
        destruct (getEsc c2) as [[hi chunk2]|e] eqn:E3; [apply getEsc_shorter in E3|split; [congruence|done]]
      | ]).
  all: match goal with |- parse_ranges _ ?c _ true ?b <> _ /\ _ =>
         destruct (IH c true b) as [H1 H2]; [lia|] end;
    (split; [done|]); intros b rest H'; apply H2 in H'; lia.
Qed.

Lemma matchChunk_fuel_spec fuel chunk s failed :
  (String.length chunk <= fuel)%nat ->
  matchChunk_fuel fuel chunk s failed <> Err OutOfFuel.
Proof.
  revert chunk s failed. induction fuel as [|fuel IH]; intros [|c chunk] s failed Hf;
    simpl in Hf; try done; try lia.
  cbn [matchChunk_fuel].
  case_match; [|case_match; [|case_match]].
  - destruct (if _ : bool then (0, s) else _) as [r s'].
    destruct (eat "^" chunk) as [c2|] eqn:E;
      [apply eat_length in E; set (d := c2) in * | set (d := chunk) in *].
    all: destruct (parse_ranges_spec (S (String.length d)) d r false false) as [H1 H2]; [lia|];
      destruct (parse_ranges _ d _ _ _) as [[m chunk3]|e]; [|congruence];
      specialize (H2 _ _ eq_refl); apply IH; unfold d in *; lia.
  - case_match; [apply IH; lia|]. case_match; [apply IH; lia|]. apply IH; lia.
  - destruct chunk as [|a chunk]; [done|]. simpl in Hf.
    case_match; [apply IH; lia|]. case_match; apply IH; lia.
  - case_match; [apply IH; lia|]. case_match; apply IH; lia.
Qed.

Lemma matchChunk_total chunk s : matchChunk chunk s <> Err OutOfFuel.
Proof. apply matchChunk_fuel_spec. done. Qed.
#[local] Hint Resolve matchChunk_total : core.

Lemma star_search_total chunk last name : star_search chunk last name <> Err OutOfFuel.
Proof.
  induction name as [|a name IH]; simpl; [done|].
  case_match; [done|]. pose proof (matchChunk_total chunk name).
  repeat (case_match; try done); congruence.
Qed.


Lemma scan_from_app p b :
  fst (scan_from b p) +:+ snd (scan_from b p) = p.
Proof.
  remember (String.length p) as n eqn:Hn.
  assert (Hle : (String.length p <= n)%nat) by lia. clear Hn.
  revert p b Hle. induction n as [|n IH]; intros [|c p] b Hle; simpl in *; try done; try lia.
  case_match.
  - destruct p as [|d p]; [done|]. simpl in *.
    pose proof (IH p b ltac:(lia)) as H'. destruct (scan_from b p). simpl in *. by rewrite H'.
  - case_match; [done|].
    match goal with |- context [scan_from ?b' p] =>
      pose proof (IH p b' ltac:(lia)) as H'; destruct (scan_from b' p) end.
    simpl in *. by rewrite H'.
Qed.

Lemma scan_from_progress c p :
  is_char "*" c = false ->
  (String.length (snd (scan_from false (String c p))) < String.length (String c p))%nat.
Proof.
  intros Hc. pose proof (f_equal String.length (scan_from_app (String c p) false)) as H.
  rewrite str_length_app in H.
  assert (fst (scan_from false (String c p)) <> "") as Hne.
  { simpl. case_match; [by destruct p as [|d p]; [|destruct (scan_from false p)]|].
    rewrite Hc. simpl.
    match goal with |- context [scan_from ?b' p] => by destruct (scan_from b' p) end. }
  destruct (fst (scan_from false (String c p))); [done|]. simpl in *. lia.
Qed.

Lemma skip_stars_spec p :
  (String.length (snd (skip_stars p)) <= String.length p)%nat /\
  (fst (skip_stars p) = true -> (String.length (snd (skip_stars p)) < String.length p)%nat) /\
  eat "*" (snd (skip_stars p)) = None.
Proof.
  induction p as [|a p (IH1 & _ & IH3)]; simpl; [done|].
  destruct (is_char "*" a) eqn:Ha; simpl.
  - split_and!; [lia|lia|done].
  - rewrite Ha. split_and!; [lia|done|done].
Qed.

Lemma scanChunk_shorter p :
  p <> "" -> (String.length (snd (scanChunk p)) < String.length p)%nat.
Proof.
  intros Hp. unfold scanChunk. destruct (skip_stars_spec p) as (H1 & H2 & H3).
  destruct (skip_stars p) as [star q] eqn:Es. simpl in *.
  destruct q as [|c q].
  - simpl. destruct p; [done|simpl; lia].
  - assert (is_char "*" c = false) as Hc by (simpl in H3; by case_match).
    pose proof (scan_from_progress c q Hc) as Hlt.
    destruct (scan_from false (String c q)) as [x y]. simpl in *. lia.
Qed.

Lemma check_rest_total fuel p :
  (String.length p <= fuel)%nat -> check_rest fuel p <> Err OutOfFuel.
Proof.
  revert p. induction fuel as [|fuel IH]; intros p Hf; simpl.
  - destruct p; [done|simpl in Hf; lia].
  - case_match eqn:Hp; [done|]. apply str_is_empty_false in Hp.
    pose proof (scanChunk_shorter p Hp) as Hlt.
    destruct (scanChunk p) as [[star chunk] rest]. simpl in Hlt.
    pose proof (matchChunk_total chunk "").
    case_match; [apply IH; lia | congruence].
Qed.

Lemma Match_fuel_total fuel p name :
  (String.length p <= fuel)%nat -> Match_fuel fuel p name <> Err OutOfFuel.
Proof.
  revert p name. induction fuel as [|fuel IH]; intros p name Hf; simpl.
  - destruct p; [done|simpl in Hf; lia].
  - case_match eqn:Hp; [done|]. apply str_is_empty_false in Hp.
    pose proof (scanChunk_shorter p Hp) as Hlt.
    destruct (scanChunk p) as [[star chunk] rest]. simpl in Hlt.
    case_match; [done|].
    pose proof (matchChunk_total chunk name).
    pose proof (star_search_total chunk (str_is_empty rest) name).
    pose proof (check_rest_total fuel rest ltac:(lia)).
    repeat (case_match; try apply IH; try lia; try done); congruence.
Qed.

(** [path.Match] always answers: a verdict or [ErrBadPattern]. *)
Lemma path_Match_total p name : path_Match p name <> Err OutOfFuel.
Proof. apply Match_fuel_total. done. Qed.

(** ** Patterns without metacharacters, and prefix patterns *)
Definition plain_char (a : ascii) : bool :=
  negb (is_char "*" a || is_char "?" a || is_char "[" a || is_char "]" a || is_char bslash a).
Definition plain (s : string) : bool := str_forallb plain_char s.

Lemma plain_char_spec a :
  plain_char a = true ->
  is_char "*" a = false /\ is_char "?" a = false /\ is_char "[" a = false /\
  is_char "]" a = false /\ is_char bslash a = false.
Proof. unfold plain_char. intros H. go_split. done. Qed.

Lemma plain_cons a s : plain (String a s) = true -> plain_char a = true /\ plain s = true.
Proof. apply andb_true_iff. Qed.

Ltac plain_step H :=
  apply plain_cons in H as [(?Hst & ?Hq & ?Hlb & ?Hrb & ?Hbs)%plain_char_spec ?Hp].

Lemma matchChunk_fuel_plain_failed fuel p s :
  plain p = true -> (String.length p <= fuel)%nat ->
  matchChunk_fuel fuel p s true = Ok None.
Proof.
  revert fuel s. induction p as [|a p IH]; intros [|fuel] s H Hf; simpl in *; try done; try lia.
  plain_step H. rewrite Hlb, Hq, Hbs. apply IH; [done|lia].
Qed.

Lemma matchChunk_fuel_plain fuel p s :
  plain p = true -> (String.length p <= fuel)%nat ->
  matchChunk_fuel fuel p s false =
    Ok (if HasPrefix s p then Some (str_drop (String.length p) s) else None).
Proof.
  revert fuel s. induction p as [|a p IH]; intros [|fuel] s H Hf;
    try (simpl in *; lia); try (rewrite str_drop_0; by destruct s).
  plain_step H. cbn [matchChunk_fuel]. rewrite Hlb, Hq, Hbs. simpl in Hf.
  destruct s as [|b s]; simpl.
  - by rewrite matchChunk_fuel_plain_failed by (try done; lia).
  - unfold HasPrefix. simpl. case_bool_decide as Hab; simpl.
    + subst. destruct (ascii_dec b b); [|done]. rewrite IH by (try done; lia). done.
    + destruct (ascii_dec a b); [done|]. by apply matchChunk_fuel_plain_failed; [|lia].
Qed.

Lemma matchChunk_plain p s :
  plain p = true ->
  matchChunk p s = Ok (if HasPrefix s p then Some (str_drop (String.length p) s) else None).
Proof. intros H. by apply matchChunk_fuel_plain. Qed.

Lemma scan_from_plain p rest b :
  plain p = true -> (rest = "" \/ exists r, rest = String "*" r /\ b = false) ->
  scan_from b (p +:+ rest) = (p, rest).
Proof.
  intros H Hr. induction p as [|a p IH]; simpl.
  - destruct Hr as [->|(r & -> & ->)]; done.
  - plain_step H. rewrite Hbs, Hst, Hlb, Hrb. simpl. by rewrite IH.
Qed.

Lemma skip_stars_plain p rest :
  plain p = true -> p <> "" -> skip_stars (p +:+ rest) = (false, p +:+ rest).
Proof. destruct p as [|a p]; [done|]. intros H _. plain_step H. simpl. by rewrite Hst. Qed.

(** A pattern without metacharacters matches exactly itself. *)
Lemma path_Match_plain p name :
  plain p = true -> path_Match p name = Ok (bool_decide (name = p)).
Proof.
  intros H. destruct p as [|a p]; [by destruct name|].
  unfold path_Match, scanChunk.
  change (String.length (String a p)) with (S (String.length p)).
  cbn [Match_fuel]. rewrite (proj2 (str_is_empty_false (String a p))) by done.
  unfold scanChunk.
  pose proof (skip_stars_plain (String a p) "" H ltac:(done)) as Hs.
  rewrite str_app_nil_r in Hs. rewrite Hs.
  pose proof (scan_from_plain (String a p) "" false H (or_introl eq_refl)) as Hc.
  rewrite str_app_nil_r in Hc. rewrite Hc. cbn [andb].
  rewrite matchChunk_plain by done.
  destruct (HasPrefix name (String a p)) eqn:Hn.
  - apply HasPrefix_spec in Hn as [t ->]. rewrite str_drop_app.
    destruct t as [|b t]; simpl.
    + rewrite str_app_nil_r. rewrite bool_decide_true by done. by destruct p.
    + rewrite bool_decide_false; [by destruct p|].
      intros [= Heq]. apply (f_equal String.length) in Heq.
      rewrite str_length_app in Heq. simpl in Heq. lia.
  - rewrite bool_decide_false; [by destruct p|].
    intros ->. rewrite <- (str_app_nil_r (String a p)) in Hn at 1.
    by rewrite HasPrefix_app in Hn.
Qed.

Lemma Match_fuel_star fuel name :
  Match_fuel (S fuel) "*" name = Ok (no_char "/" name).
Proof. reflexivity. Qed.

(** A prefix pattern [p*] matches the names that extend [p] without a slash
    after it. *)
Lemma path_Match_prefix p name :
  plain p = true ->
  path_Match (p +:+ "*") name =
    Ok (HasPrefix name p && no_char "/" (TrimPrefix name p)).
Proof.
  intros H. destruct p as [|a p].
  { change (path_Match ("" +:+ "*") name) with (Ok (E := path_err) (no_char "/" name)).
    unfold TrimPrefix, HasPrefix. by destruct name. }
  unfold path_Match. rewrite str_length_app.
  change (String.length (String a p) + String.length "*")%nat
    with (S (String.length p + 1)).
  rewrite Nat.add_1_r. cbn [Match_fuel].
  rewrite (proj2 (str_is_empty_false (String a p +:+ "*"))) by done.
  unfold scanChunk. rewrite skip_stars_plain by done.
  rewrite scan_from_plain by (try done; right; by exists "").
  cbn [andb]. rewrite matchChunk_plain by done. unfold TrimPrefix.
  destruct (HasPrefix name (String a p)) eqn:Hn.
  - rewrite (proj2 (str_is_empty_false "*")) by done. rewrite orb_true_r.
    exact (Match_fuel_star (String.length p) _).
  - simpl. by destruct (String.length p).
Qed.

Lemma plain_app p q : plain (p +:+ q) = plain p && plain q.
Proof.
  unfold plain. induction p as [|a p IH]; simpl; [done|]. by rewrite IH, andb_assoc.
Qed.
