(* ===== verification/GoCrypto.v ===== *)
(** * Digests and encodings of the Go standard library

    [crypto/sha256], [encoding/hex] and [encoding/base64] ([RawURLEncoding]),
    on byte strings.  SHA-256 follows FIPS 180-4 on 32-bit words held in [Z]. *)
From S2P Require Import Prelude GoStrings.

Local Open Scope Z_scope.
Local Open Scope list_scope.

(** ** Bytes *)
Definition byte_of (a : ascii) : Z := Z.of_N (N_of_ascii a).
Definition char_of (z : Z) : ascii := ascii_of_N (Z.to_N z).

Fixpoint bytes_of (s : string) : list Z :=
  match s with
  | EmptyString => []
  | String a s' => byte_of a :: bytes_of s'
  end.
Fixpoint string_of (l : list Z) : string :=
  match l with
  | [] => EmptyString
  | b :: l' => String (char_of b) (string_of l')
  end.

Definition is_byte (b : Z) : Prop := 0 <= b < 256.

Lemma byte_of_range a : is_byte (byte_of a).
Proof.
  unfold is_byte, byte_of. pose proof (N_ascii_bounded a). lia.
Qed.

Lemma char_of_byte_of a : char_of (byte_of a) = a.
Proof. unfold char_of, byte_of. rewrite N2Z.id. apply ascii_N_embedding. Qed.

Lemma string_of_bytes_of s : string_of (bytes_of s) = s.
Proof. induction s as [|a s IH]; simpl; [done|]. by rewrite char_of_byte_of, IH. Qed.

Lemma bytes_of_inj s s' : bytes_of s = bytes_of s' -> s = s'.
Proof. intros H. by rewrite <- (string_of_bytes_of s), H, string_of_bytes_of. Qed.

Lemma bytes_of_range s : Forall is_byte (bytes_of s).
Proof. induction s; simpl; constructor; auto using byte_of_range. Qed.

(** ** SHA-256 *)
Module SHA256.

Definition mask32 (z : Z) : Z := Z.land z (Z.ones 32).
Definition add32 (x y : Z) : Z := mask32 (x + y).
Definition rotr (n x : Z) : Z :=
  Z.lor (Z.shiftr x n) (mask32 (Z.shiftl x (32 - n))).
Definition not32 (x : Z) : Z := Z.lxor x (Z.ones 32).

Definition Ch (x y z : Z) : Z := Z.lxor (Z.land x y) (Z.land (not32 x) z).
Definition Maj (x y z : Z) : Z := Z.lxor (Z.lxor (Z.land x y) (Z.land x z)) (Z.land y z).
Definition Sigma0 (x : Z) : Z := Z.lxor (Z.lxor (rotr 2 x) (rotr 13 x)) (rotr 22 x).
Definition Sigma1 (x : Z) : Z := Z.lxor (Z.lxor (rotr 6 x) (rotr 11 x)) (rotr 25 x).
Definition sigma0 (x : Z) : Z := Z.lxor (Z.lxor (rotr 7 x) (rotr 18 x)) (Z.shiftr x 3).
Definition sigma1 (x : Z) : Z := Z.lxor (Z.lxor (rotr 17 x) (rotr 19 x)) (Z.shiftr x 10).

(** The constants: the first 32 bits of the fractional parts of the cube roots
    of the first 64 primes, and of the square roots of the first 8. *)
Definition is_prime (n : nat) : bool :=
  forallb (fun d => negb (n mod d =? 0)%nat) (seq 2 (n - 2)).
Definition first_primes (n : nat) : list Z :=
  map Z.of_nat (firstn n (List.filter is_prime (seq 2 310))).
(** The largest [r] below [2 ^ bits] with [r ^ 3 <= n], bit by bit. *)
Fixpoint cube_root (bits : nat) (n r : Z) : Z :=
  match bits with
  | O => r
  | S b => let r' := r + 2 ^ Z.of_nat b in cube_root b n (if (r' ^ 3 <=? n) then r' else r)
  end.
Definition K : list Z :=
  Eval vm_compute in map (fun p => cube_root 36 (p * 2 ^ 96) 0 mod 2 ^ 32) (first_primes 64).
Definition roots : list Z :=
  Eval vm_compute in map (fun p => Z.sqrt (p * 2 ^ 64) mod 2 ^ 32) (first_primes 8).

Record state : Type := { sa : Z; sb : Z; sc : Z; sd : Z; se : Z; sf : Z; sg : Z; sh : Z }.

Definition H0 : state :=
  let r i := nth i roots 0 in
  {| sa := r 0%nat; sb := r 1%nat; sc := r 2%nat; sd := r 3%nat;
     se := r 4%nat; sf := r 5%nat; sg := r 6%nat; sh := r 7%nat |}.

(** Big-endian words. *)
Definition word_bytes (n : nat) (z : Z) : list Z :=
  map (fun i => Z.land (Z.shiftr z (8 * Z.of_nat i)) 255) (rev (seq 0 n)).
Definition be_word (l : list Z) : Z := fold_left (fun acc b => Z.lor (Z.shiftl acc 8) b) l 0.

Fixpoint words (l : list Z) : list Z :=
  match l with
  | a :: b :: c :: d :: l' => be_word [a; b; c; d] :: words l'
  | _ => []
  end.

Definition pad (msg : list Z) : list Z :=
  let n := length msg in
  let zeros := ((119 - n mod 64) mod 64)%nat in
  msg ++ 0x80 :: repeat 0 zeros ++ word_bytes 8 (8 * Z.of_nat n).

(** The schedule, most recent word first: 16 words extended by [n]. *)
Fixpoint schedule (n : nat) (rw : list Z) : list Z :=
  match n with
  | O => rw
  | S n' =>
      let w i := nth i rw 0 in
      schedule n'
        (add32 (add32 (sigma1 (w 1%nat)) (w 6%nat)) (add32 (sigma0 (w 14%nat)) (w 15%nat)) :: rw)
  end.

Definition round (s : state) (kw : Z * Z) : state :=
  let t1 := add32 (add32 (sh s) (Sigma1 (se s)))
                  (add32 (Ch (se s) (sf s) (sg s)) (add32 (fst kw) (snd kw))) in
  let t2 := add32 (Sigma0 (sa s)) (Maj (sa s) (sb s) (sc s)) in
  {| sa := add32 t1 t2; sb := sa s; sc := sb s; sd := sc s;
     se := add32 (sd s) t1; sf := se s; sg := sf s; sh := sg s |}.

Definition compress (s : state) (block : list Z) : state :=
  let ws := rev (schedule 48 (rev block)) in
  let r := fold_left round (combine K ws) s in
  {| sa := add32 (sa s) (sa r); sb := add32 (sb s) (sb r); sc := add32 (sc s) (sc r);
     sd := add32 (sd s) (sd r); se := add32 (se s) (se r); sf := add32 (sf s) (sf r);
     sg := add32 (sg s) (sg r); sh := add32 (sh s) (sh r) |}.

(** Blocks of 16 words; the number of words bounds the number of blocks. *)
Fixpoint compress_all (fuel : nat) (s : state) (ws : list Z) : state :=
  match fuel, ws with
  | O, _ | _, [] => s
  | S fuel', _ => compress_all fuel' (compress s (firstn 16 ws)) (skipn 16 ws)
  end.

Definition sum (msg : list Z) : list Z :=
  let ws := words (pad msg) in
  let s := compress_all (length ws) H0 ws in
  concat (map (word_bytes 4) [sa s; sb s; sc s; sd s; se s; sf s; sg s; sh s]).

End SHA256.

(** ** Encodings *)
Local Open Scope string_scope.

Definition hex_digit (n : Z) : ascii :=
  char_of (if bool_decide (n < 10) then 48 + n else 87 + n).
Fixpoint hex_EncodeToString (l : list Z) : string :=
  match l with
  | [] => ""
  | b :: l' => String (hex_digit (b / 16)) (String (hex_digit (b mod 16)) (hex_EncodeToString l'))
  end.

Definition b64_char (n : Z) : ascii :=
  char_of (if bool_decide (n < 26) then 65 + n
           else if bool_decide (n < 52) then 71 + n
           else if bool_decide (n < 62) then n - 4
           else if bool_decide (n = 62) then 45 else 95).

(** [base64.RawURLEncoding.EncodeToString]: URL alphabet, no padding. *)
Fixpoint b64_RawURLEncode (l : list Z) : string :=
  match l with
  | [] => ""
  | [a] => String (b64_char (a / 4)) (String (b64_char (a mod 4 * 16)) "")
  | [a; b] => String (b64_char (a / 4)) (String (b64_char (a mod 4 * 16 + b / 16))
                (String (b64_char (b mod 16 * 4)) ""))
  | a :: b :: c :: l' =>
      String (b64_char (a / 4)) (String (b64_char (a mod 4 * 16 + b / 16))
        (String (b64_char (b mod 16 * 4 + c / 64)) (String (b64_char (c mod 64))
          (b64_RawURLEncode l'))))
  end.

Example sha256_abc :
  hex_EncodeToString (SHA256.sum (bytes_of "abc"))
  = "ba7816bf8f01cfea414140de5dae2223b00361a396177a9cb410ff61f20015ad".
Proof. vm_compute. reflexivity. Qed.
Example sha256_empty :
  hex_EncodeToString (SHA256.sum [])
  = "e3b0c44298fc1c149afbf4c8996fb92427ae41e4649b934ca495991b7852b855".
Proof. vm_compute. reflexivity. Qed.
Example sha256_two_blocks :
  hex_EncodeToString (SHA256.sum (bytes_of "abcdbcdecdefdefgefghfghighijhijkijkljklmklmnlmnomnopnopq"))
  = "248d6a61d20638b8e5c026930c3e6039a33ce45964ff2167f6ecedd419db06c1".
Proof. vm_compute. reflexivity. Qed.
(** RFC 7636, appendix B. *)
Example b64_pkce :
  b64_RawURLEncode (SHA256.sum (bytes_of "dBjftJeZ4CVP-mB92K27uhbUJU1p1r_wW1gFWFOEjXk"))
  = "E9Melhoa2OwvFrEMTJguCHaoeK1t8URWbuGJSstw-cM".
Proof. vm_compute. reflexivity. Qed.

(** ** Lemmas *)
Definition Z_range (n : nat) : list Z := map Z.of_nat (seq 0 n).

Lemma Z_range_in n z : 0 <= z < Z.of_nat n -> z ∈ Z_range n.
Proof.
  intros H. apply list_elem_of_In, in_map_iff. exists (Z.to_nat z). split; [lia|].
  apply in_seq. lia.
Qed.

(** A finite check decides injectivity below a bound. *)
Lemma table_inj (f : Z -> ascii) n :
  forallb (fun x => forallb (fun y => bool_decide (f x = f y -> x = y)) (Z_range n)) (Z_range n)
    = true ->
  forall x y, 0 <= x < Z.of_nat n -> 0 <= y < Z.of_nat n -> f x = f y -> x = y.
Proof.
  intros H x y Hx Hy. rewrite forallb_elem_of in H. specialize (H x (Z_range_in _ _ Hx)).
  rewrite forallb_elem_of in H. specialize (H y (Z_range_in _ _ Hy)).
  by apply bool_decide_eq_true in H.
Qed.

Lemma hex_digit_inj x y : 0 <= x < 16 -> 0 <= y < 16 -> hex_digit x = hex_digit y -> x = y.
Proof. apply (table_inj hex_digit 16). vm_compute. reflexivity. Qed.
Lemma b64_char_inj x y : 0 <= x < 64 -> 0 <= y < 64 -> b64_char x = b64_char y -> x = y.
Proof. apply (table_inj b64_char 64). vm_compute. reflexivity. Qed.

Lemma hex_inj l l' :
  Forall is_byte l -> Forall is_byte l' -> hex_EncodeToString l = hex_EncodeToString l' -> l = l'.
Proof.
  unfold is_byte. intros Hl. revert l'. induction Hl as [|b l Hb Hl IH]; intros l' Hl' E.
  - by destruct Hl'.
  - destruct Hl' as [|b' l' Hb' Hl']; [done|]. simpl in E. injection E as E1 E2 E3.
    apply hex_digit_inj in E1, E2; try (apply Z.mod_pos_bound; lia);
      try (split; [apply Z.div_pos|apply Z.div_lt_upper_bound]; lia).
    f_equal; [|by apply IH].
    pose proof (Z.div_mod b 16). pose proof (Z.div_mod b' 16). lia.
Qed.

Lemma hex_length l : String.length (hex_EncodeToString l) = (2 * length l)%nat.
Proof. induction l; simpl; lia. Qed.
