(* ===== verification/GoFloat.v ===== *)
(** * binary64 arithmetic

    Go's [float64] as [SpecFloat] data: conversion from integers, sum, product,
    quotient and truncation to an integer; and that conversion is exact below
    2^53 and that sums and quotients of positive numbers are rounded between
    the representable numbers around them. *)
From Stdlib Require Import SpecFloat.
From S2P Require Import Prelude.

Local Open Scope Z_scope.

(** ** Operations *)
Definition f64 (z : Z) : spec_float := binary_normalize 53 1024 z 0 false.
Definition fadd := SFadd 53 1024.
Definition fdiv := SFdiv 53 1024.
Definition fmul := SFmul 53 1024.

(** The integer part of a finite float. *)
Definition f_trunc (f : spec_float) : Z :=
  match f with
  | S754_finite s m e =>
      let a := if bool_decide (0 <= e) then Zpos m * 2 ^ e else Zpos m / 2 ^ (- e) in
      if s then - a else a
  | _ => 0
  end.

(** [int64(f)]: truncation; out of range, the amd64 conversion. *)
Definition f_int64 (f : spec_float) : Z :=
  match f with
  | S754_infinity _ | S754_nan => min_int64
  | _ => if bool_decide (in_int64 (f_trunc f)) then f_trunc f else min_int64
  end.

(** ** Digits *)
Lemma digits_bounds m : 2 ^ (Zpos (digits2_pos m) - 1) <= Zpos m < 2 ^ Zpos (digits2_pos m).
Proof.
  induction m as [m IH|m IH|]; simpl digits2_pos; [..|done];
    rewrite Pos2Z.inj_succ; replace (Z.succ _ - 1) with (Z.succ (Zpos (digits2_pos m) - 1)) by lia;
    rewrite !Z.pow_succ_r by lia; lia.
Qed.

Lemma digits_unique m d : 0 < d -> 2 ^ (d - 1) <= Zpos m < 2 ^ d -> Zpos (digits2_pos m) = d.
Proof.
  intros Hd H. pose proof (digits_bounds m) as B.
  destruct (Z.lt_trichotomy (Zpos (digits2_pos m)) d) as [L|[E|G]]; [|done|].
  - pose proof (Z.pow_le_mono_r 2 (Zpos (digits2_pos m)) (d - 1)). lia.
  - pose proof (Z.pow_le_mono_r 2 d (Zpos (digits2_pos m) - 1)). lia.
Qed.

(** ** Shifting and rounding

    A record of the shifter reads the quotient [P / Q]: its integer part and
    where the remainder lies with respect to one half. *)
Definition rem_loc (r q : Z) : location := if r =? 0 then loc_Exact else loc_Inexact (2 * r ?= q).
Definition reads (P Q : Z) (mrs : shr_record) : Prop :=
  shr_m mrs = P / Q /\ loc_of_shr_record mrs = rem_loc (P mod Q) Q.

Lemma reads_of_loc P Q : reads P Q (shr_record_of_loc (P / Q) (rem_loc (P mod Q) Q)).
Proof. unfold reads, rem_loc. destruct (_ =? _); [done|]. by destruct (_ ?= _). Qed.

Lemma shr_1_reads P Q mrs : 0 <= P -> 0 < Q -> reads P Q mrs -> reads P (2 * Q) (shr_1 mrs).
Proof.
  intros HP HQ [Hm Hl]. pose proof (Z.div_mod P Q ltac:(lia)) as HD.
  pose proof (Z.mod_pos_bound P Q HQ) as HR. set (q := P / Q) in *. set (r := P mod Q) in *.
  assert (Hq : 0 <= q) by (apply Z.div_pos; lia). clearbody q r.
  assert (H2 : P / (2 * Q) = q / 2 /\ P mod (2 * Q) = (q mod 2) * Q + r).
  { pose proof (Z.div_mod q 2 ltac:(lia)). pose proof (Z.mod_pos_bound q 2 ltac:(lia)).
    assert (P = 2 * Q * (q / 2) + ((q mod 2) * Q + r)) by nia.
    assert (0 <= (q mod 2) * Q + r < 2 * Q) by nia.
    split; symmetry; [eapply Z.div_unique|eapply Z.mod_unique]; eauto. }
  destruct H2 as [Hd Hr]. unfold reads. rewrite Hd, Hr. clear Hd Hr.
  destruct mrs as [m b s]. simpl in Hm. subst m.
  assert (Hs : (b || s = false <-> r = 0)).
  { unfold rem_loc in Hl. destruct (Z.eqb_spec r 0) as [Hz|Hz]; destruct b, s; simpl in *; intuition (done || lia). }
  assert (Hb : forall c : bool, loc_of_shr_record {| shr_m := q / 2; shr_r := c; shr_s := b || s |}
            = rem_loc ((if c then 1 else 0) * Q + r) (2 * Q)).
  { intros c. unfold rem_loc. destruct c, (b || s) eqn:E; simpl.
    - destruct (Z.eqb_spec (1 * Q + r) 0); [lia|]. f_equal. symmetry. apply Z.compare_gt_iff.
      assert (r <> 0) by (intros ->; destruct Hs; intuition congruence). lia.
    - destruct Hs as [Hs _]. rewrite Hs by done. destruct (Z.eqb_spec (1 * Q + 0) 0); [lia|]. f_equal.
      symmetry. apply Z.compare_eq_iff. lia.
    - assert (r <> 0) by (intros ->; destruct Hs; intuition congruence).
      destruct (Z.eqb_spec (0 * Q + r) 0); [lia|]. f_equal. symmetry. apply Z.compare_lt_iff. lia.
    - destruct Hs as [Hs _]. by rewrite Hs. }
  destruct q as [|p|p]; [| |lia].
  - split; [done|]. apply (Hb false).
  - destruct p as [p|p|].
    + assert (Zpos p~1 / 2 = Zpos p) as E by (rewrite <- Z.div2_div; done).
      assert (Zpos p~1 mod 2 = 1) as -> by (rewrite Zmod_odd; done).
      split; [by rewrite E|]. specialize (Hb true). rewrite E in Hb. apply Hb.
    + assert (Zpos p~0 / 2 = Zpos p) as E by (rewrite <- Z.div2_div; done).
      assert (Zpos p~0 mod 2 = 0) as -> by (rewrite Zmod_odd; done).
      split; [by rewrite E|]. specialize (Hb false). rewrite E in Hb. apply Hb.
    + split; [done|]. apply (Hb true).
Qed.

Lemma iter_shr_reads p P Q mrs :
  0 <= P -> 0 < Q -> reads P Q mrs -> reads P (2 ^ Zpos p * Q) (SpecFloat.iter_pos shr_1 p mrs).
Proof.
  intros HP. revert Q mrs. induction p as [p IH|p IH|]; intros Q mrs HQ H; simpl SpecFloat.iter_pos.
  - replace (2 ^ Zpos p~1 * Q) with (2 ^ Zpos p * (2 ^ Zpos p * (2 * Q))).
    + apply IH; [|apply IH; [lia|by apply shr_1_reads]].
      pose proof (Z.pow_pos_nonneg 2 (Zpos p)). lia.
    + rewrite (Pos2Z.inj_xI p). replace (2 * Zpos p + 1) with (Zpos p + Zpos p + 1) by lia.
      rewrite !Z.pow_add_r by lia. ring.
  - replace (2 ^ Zpos p~0 * Q) with (2 ^ Zpos p * (2 ^ Zpos p * Q)).
    + apply IH; [|by apply IH]. pose proof (Z.pow_pos_nonneg 2 (Zpos p)). lia.
    + rewrite (Pos2Z.inj_xO p). replace (2 * Zpos p) with (Zpos p + Zpos p) by lia.
      rewrite Z.pow_add_r by lia. ring.
  - change (2 ^ 1) with 2. by apply shr_1_reads.
Qed.

Lemma shr_reads P Q mrs e n :
  0 <= P -> 0 < Q -> 0 <= n -> reads P Q mrs ->
  exists mrs', shr mrs e n = (mrs', e + n) /\ reads P (2 ^ n * Q) mrs'.
Proof.
  intros HP HQ Hn H. destruct n as [|p|p]; [| |lia].
  - exists mrs. split; [simpl; f_equal; lia|]. by rewrite Z.mul_1_l.
  - exists (SpecFloat.iter_pos shr_1 p mrs). split; [done|]. by apply iter_shr_reads.
Qed.

(** The nearest integer to [P / Q], ties to even. *)
Definition rne (P Q : Z) : Z := round_nearest_even (P / Q) (rem_loc (P mod Q) Q).

Lemma rne_le P Q k : 0 < Q -> P <= k * Q -> rne P Q <= k.
Proof.
  intros HQ H. pose proof (Z.div_mod P Q ltac:(lia)). pose proof (Z.mod_pos_bound P Q HQ).
  unfold rne, rem_loc, round_nearest_even. destruct (Z.eqb_spec (P mod Q) 0); [nia|].
  destruct (_ ?= _); [destruct (Z.even _)|..]; nia.
Qed.

Lemma rne_ge P Q k : 0 < Q -> k * Q <= P -> k <= rne P Q.
Proof.
  intros HQ H. pose proof (Z.div_mod P Q ltac:(lia)). pose proof (Z.mod_pos_bound P Q HQ).
  unfold rne, rem_loc, round_nearest_even. destruct (Z.eqb_spec (P mod Q) 0); [nia|].
  destruct (_ ?= _); [destruct (Z.even _)|..]; nia.
Qed.

(** The format, in the range this development needs: no overflow, no
    subnormal. *)
Definition in_range (e : Z) : Prop := -900 <= e <= 900.

Lemma fexp_53 d e : in_range e -> 1 <= d <= 300 -> fexp 53 1024 (d + e) = d + e - 53.
Proof. unfold in_range, fexp, emin. lia. Qed.

(** Rounding a positive quotient whose integer part has at least 53 digits. *)
Lemma binary_round_aux_spec P Q ex mx d :
  0 < Q -> mx = P / Q -> 0 < mx -> Zpos (digits2_pos (Z.to_pos mx)) = d -> 53 <= d <= 250 ->
  -600 <= ex <= 600 ->
  exists m e, binary_round_aux 53 1024 false mx ex (rem_loc (P mod Q) Q) = S754_finite false m e /\
    2 ^ 52 <= Zpos m < 2 ^ 53 /\ ex + d - 53 <= e <= ex + d - 52 /\
    Zpos m * 2 ^ (e - (ex + d - 53)) = rne P (2 ^ (d - 53) * Q).
Proof.
  intros HQ -> Hm Hd Hr Hx. assert (HP : 0 <= P).
  { destruct (Z.lt_ge_cases P 0); [|lia]. pose proof (Z.div_lt_upper_bound P Q 0). lia. }
  unfold binary_round_aux, shr_fexp.
  assert (Zdigits2 (P / Q) = d) as -> by (destruct (P / Q) eqn:E; simpl in *; lia).
  rewrite fexp_53 by (unfold in_range; lia). replace (d + ex - 53 - ex) with (d - 53) by lia.
  destruct (shr_reads P Q (shr_record_of_loc (P / Q) (rem_loc (P mod Q) Q)) ex (d - 53))
    as (mrs & -> & [Hm1 Hl1]); [done|done|lia|apply reads_of_loc|].
  rewrite Hm1, Hl1. set (Q' := 2 ^ (d - 53) * Q) in *. change (round_nearest_even _ _) with (rne P Q').
  pose proof (Z.pow_pos_nonneg 2 (d - 53)) as Hp. assert (HQ' : 0 < Q') by nia.
  assert (HB : 2 ^ 52 * Q' <= P < 2 ^ 53 * Q').
  { pose proof (digits_bounds (Z.to_pos (P / Q))) as B. rewrite Hd, Z2Pos.id in B by lia.
    assert (E1 : 2 ^ (d - 1) = 2 ^ 52 * 2 ^ (d - 53)) by (rewrite <- Z.pow_add_r by lia; f_equal; lia).
    assert (E2 : 2 ^ d = 2 ^ 53 * 2 ^ (d - 53)) by (rewrite <- Z.pow_add_r by lia; f_equal; lia).
    rewrite E1, E2 in B. pose proof (Z.div_mod P Q ltac:(lia)). pose proof (Z.mod_pos_bound P Q HQ).
    unfold Q'. nia. }
  assert (HR : 2 ^ 52 <= rne P Q' <= 2 ^ 53) by (split; [apply rne_ge|apply rne_le]; lia).
  clearbody Q'. set (R := rne P Q') in *. clearbody R.
  destruct R as [|r|r]; [lia| |lia]. simpl Zdigits2.
  replace (ex + (d - 53)) with (ex + d - 53) by lia.
  assert (Hcase : Zpos r < 2 ^ 53 \/ Zpos r = 2 ^ 53) by lia. destruct Hcase as [Hlt|Heq].
  - assert (Zpos (digits2_pos r) = 53) as -> by (apply digits_unique; [lia|split; [apply HR|done]]).
    rewrite fexp_53 by (unfold in_range in *; lia).
    replace (53 + (ex + d - 53) - 53 - (ex + d - 53)) with 0 by lia. cbn [shr shr_record_of_loc shr_m].
    assert (ex + d - 53 <=? 1024 - 53 = true) as -> by (unfold in_range in *; lia).
    exists r, (ex + d - 53). split_and!; try done; try lia. rewrite Z.sub_diag, Z.pow_0_r. lia.
  - assert (r = Z.to_pos (2 ^ 53)) as -> by lia.
    assert (Zpos (digits2_pos (Z.to_pos (2 ^ 53))) = 54) as -> by done.
    rewrite fexp_53 by (unfold in_range in *; lia).
    replace (54 + (ex + d - 53) - 53 - (ex + d - 53)) with 1 by lia.
    cbn -[Z.add Z.sub Z.leb Z.pow]. change (shr_m _) with (2 ^ 52).
    exists (Z.to_pos (2 ^ 52)), (ex + d - 52).
    assert (ex + d - 53 + 1 = ex + d - 52) as -> by lia.
    assert (ex + d - 52 <=? 1024 - 53 = true) as -> by (unfold in_range in *; lia).
    split_and!; try lia; try done. replace (ex + d - 52 - (ex + d - 53)) with 1 by lia. lia.
Qed.

(** [f] is the rounding of [A / B]: a normal number that lies on the same side
    of every representable number [k / 2^j]. *)
Definition rounded (A B : Z) (f : spec_float) : Prop :=
  exists m i, f = S754_finite false m (- i) /\ 2 ^ 52 <= Zpos m < 2 ^ 53 /\ 0 <= i <= 150 /\
    forall k j, 0 < k < 2 ^ 53 -> 0 <= j ->
      (A * 2 ^ j <= k * B -> Zpos m * 2 ^ j <= k * 2 ^ i) /\
      (k * B <= A * 2 ^ j -> k * 2 ^ i <= Zpos m * 2 ^ j).

Lemma pow_split a b : 0 <= a <= b -> 2 ^ b = 2 ^ (b - a) * 2 ^ a.
Proof. intros. rewrite <- Z.pow_add_r by lia. f_equal. lia. Qed.

(** Comparing [A / B] with [k / 2^j] through [A * Q * 2^x = P * B]. *)
Lemma scale_cmp A B P Q x y k j :
  0 < B -> 0 < Q -> 0 < 2 ^ x -> A * Q * 2 ^ x = P * B -> Q * 2 ^ x = y ->
  (A * 2 ^ j <= k * B <-> P * 2 ^ j <= k * y) /\ (k * B <= A * 2 ^ j <-> k * y <= P * 2 ^ j).
Proof.
  intros HB HQ Hx Heq <-. assert (Hpos : 0 < Q * 2 ^ x) by nia.
  assert (E1 : A * 2 ^ j * (Q * 2 ^ x) = P * 2 ^ j * B).
  { replace (A * 2 ^ j * (Q * 2 ^ x)) with (A * Q * 2 ^ x * 2 ^ j) by ring. rewrite Heq. ring. }
  assert (E2 : k * B * (Q * 2 ^ x) = k * (Q * 2 ^ x) * B) by ring.
  rewrite (Z.mul_le_mono_pos_r (A * 2 ^ j) (k * B) (Q * 2 ^ x) Hpos), E1, E2.
  rewrite (Z.mul_le_mono_pos_r (k * B) (A * 2 ^ j) (Q * 2 ^ x) Hpos), E1, E2.
  by rewrite <- !Z.mul_le_mono_pos_r by done.
Qed.

(** The rounding of [P / D] on a grid of step [2^-i] stays on the side of every
    [k / 2^j] on which [P / (D * 2^i')] is. *)
Lemma rne_side P D m i i' k j :
  0 < D -> 2 ^ 52 * D <= P -> i' - 1 <= i <= i' -> 1 <= i' -> 2 ^ 52 <= m ->
  m * 2 ^ (i' - i) = rne P D -> 0 < k < 2 ^ 53 -> 0 <= j ->
  (P * 2 ^ j <= k * D * 2 ^ i' -> m * 2 ^ j <= k * 2 ^ i) /\
  (k * D * 2 ^ i' <= P * 2 ^ j -> k * 2 ^ i <= m * 2 ^ j).
Proof.
  intros HD HP Hii Hi' Hm HR Hk Hj.
  pose proof (Z.pow_pos_nonneg 2 i ltac:(lia) ltac:(lia)) as Hpi.
  pose proof (Z.pow_pos_nonneg 2 (i' - i) ltac:(lia) ltac:(lia)) as Hpii.
  pose proof (pow_split i i' ltac:(lia)) as Ei.
  pose proof (Z.pow_pos_nonneg 2 j ltac:(lia) ltac:(lia)) as Hpj.
  destruct (Z.le_gt_cases j i') as [Hji|Hji].
  - pose proof (pow_split j i' ltac:(lia)) as Ej. pose proof (Z.pow_pos_nonneg 2 (i' - j) ltac:(lia) ltac:(lia)).
    split; intros Hb; rewrite (Z.mul_le_mono_pos_r _ _ (2 ^ (i' - i))) by lia.
    + assert (P <= k * 2 ^ (i' - j) * D) as Hb' by (rewrite Ej in Hb; nia).
      apply rne_le in Hb'; [|done]. rewrite <- HR in Hb'. nia.
    + assert (k * 2 ^ (i' - j) * D <= P) as Hb' by (rewrite Ej in Hb; nia).
      apply rne_ge in Hb'; [|done]. rewrite <- HR in Hb'. nia.
  - pose proof (pow_split i' j ltac:(lia)) as Ej.
    assert (2 <= 2 ^ (j - i')) by (change 2 with (2 ^ 1) at 1; apply Z.pow_le_mono_r; lia).
    pose proof (Z.pow_pos_nonneg 2 i' ltac:(lia) ltac:(lia)).
    split; intros Hb; [exfalso|].
    + assert (H2 : P * 2 ^ (j - i') <= k * D).
      { apply (Z.mul_le_mono_pos_r _ _ (2 ^ i')); [lia|]. rewrite Ej in Hb. lia. }
      assert (H3 : 2 ^ 53 * D <= P * 2 ^ (j - i')) by nia. nia.
    + assert (H2 : k <= m * 2 ^ (j - i')) by nia. rewrite Ej, Ei.
      assert (H3 : k <= m * 2 ^ (j - i') * 2 ^ (i' - i)) by nia. nia.
Qed.

Lemma rounded_aux A B P Q x d :
  0 < A -> 0 < B -> 0 < Q -> 0 < P / Q -> Zpos (digits2_pos (Z.to_pos (P / Q))) = d ->
  53 <= d <= 250 -> d - 52 <= x <= 150 -> A * Q * 2 ^ x = P * B ->
  rounded A B (binary_round_aux 53 1024 false (P / Q) (- x) (rem_loc (P mod Q) Q)).
Proof.
  intros HA HB HQ Hq Hd Hdr Hx Heq.
  destruct (binary_round_aux_spec P Q (- x) (P / Q) d) as (m & e & -> & Hm & He & HR); try done; [lia|].
  set (n := d - 53) in *. set (i' := x - n). set (i := - e).
  exists m, i. replace (- i) with e by lia. split_and!; try done; [lia..|].
  replace (e - (- x + d - 53)) with (i' - i) in HR by lia.
  pose proof (Z.pow_pos_nonneg 2 n ltac:(lia) ltac:(lia)) as Hn.
  assert (Ex : 2 ^ x = 2 ^ n * 2 ^ i') by (rewrite <- Z.pow_add_r by lia; f_equal; lia).
  assert (HP : 2 ^ 52 * (2 ^ n * Q) <= P).
  { pose proof (digits_bounds (Z.to_pos (P / Q))) as Bd. rewrite Hd, Z2Pos.id in Bd by lia.
    rewrite (pow_split n (d - 1)) in Bd by lia. replace (d - 1 - n) with 52 in Bd by lia.
    pose proof (Z.mul_div_le P Q HQ). nia. }
  intros k j Hk Hj.
  destruct (scale_cmp A B P Q x (2 ^ n * Q * 2 ^ i') k j) as [-> ->]; [done|done| |done|rewrite Ex; ring|].
  { apply Z.pow_pos_nonneg; lia. }
  rewrite (Z.mul_assoc k (2 ^ n * Q) (2 ^ i')). apply (rne_side P (2 ^ n * Q) (Zpos m) i i' k j); try done; try lia; nia.
Qed.

(** ** Conversion, quotient, sum *)
Lemma iter_xO p d : Zpos (Pos.iter xO p d) = Zpos p * 2 ^ Zpos d.
Proof.
  induction d as [|d IH] using Pos.peano_ind; [simpl; lia|].
  rewrite Pos.iter_succ, Pos2Z.inj_succ, Z.pow_succ_r by lia.
  change (Zpos (Pos.iter xO p d)~0) with (2 * Zpos (Pos.iter xO p d)). lia.
Qed.

(** An exact rounding of an integer of at most 53 digits. *)
Lemma binary_round_exact m e d :
  Zpos (digits2_pos m) = d -> d <= 53 -> -600 <= e <= 600 ->
  exists m', binary_round 53 1024 false m e = S754_finite false m' (e + d - 53) /\
    Zpos m' = Zpos m * 2 ^ (53 - d).
Proof.
  intros Hd Hle He. unfold binary_round. rewrite Hd, fexp_53 by (unfold in_range; lia).
  assert (Hal : exists m', shl_align m e (d + e - 53) = (m', e + d - 53) /\ Zpos m' = Zpos m * 2 ^ (53 - d)).
  { unfold shl_align. replace (d + e - 53 - e) with (d - 53) by lia.
    destruct (d - 53) as [|p|p] eqn:E; [|lia|].
    - exists m. replace (53 - d) with 0 by lia. split; [f_equal; lia|lia].
    - exists (Pos.iter xO m p). split; [f_equal; lia|]. rewrite iter_xO. do 2 f_equal. lia. }
  destruct Hal as (m' & -> & Hm'). exists m'. split; [|done].
  pose proof (digits_bounds m) as B. rewrite Hd in B.
  assert (Hd' : Zpos (digits2_pos m') = 53).
  { apply digits_unique; [lia|]. rewrite Hm'.
    rewrite (pow_split (53 - d) (53 - 1)), (pow_split (53 - d) 53) by lia.
    replace (53 - 1 - (53 - d)) with (d - 1) by lia. replace (53 - (53 - d)) with d by lia.
    pose proof (Z.pow_pos_nonneg 2 (53 - d)). nia. }
  assert (E : 53 + (e + d - 53) - 53 - (e + d - 53) = 0) by lia.
  unfold binary_round_aux, shr_fexp. simpl Zdigits2. rewrite Hd', fexp_53, E by (unfold in_range; lia).
  cbn [shr shr_record_of_loc shr_m loc_of_shr_record round_nearest_even Zdigits2].
  rewrite Hd', fexp_53, E by (unfold in_range; lia). cbn [shr shr_record_of_loc shr_m].
  by assert (e + d - 53 <=? 1024 - 53 = true) as -> by lia.
Qed.

Lemma f64_exact z :
  0 < z < 2 ^ 53 -> exists m i, f64 z = S754_finite false m (- i) /\ 0 <= i <= 52 /\
    2 ^ 52 <= Zpos m < 2 ^ 53 /\ Zpos m = z * 2 ^ i.
Proof.
  intros Hz. destruct z as [|p|p]; [lia| |lia]. pose proof (digits_bounds p) as B.
  assert (Zpos (digits2_pos p) <= 53).
  { destruct (Z.le_gt_cases (Zpos (digits2_pos p)) 53); [done|].
    pose proof (Z.pow_le_mono_r 2 53 (Zpos (digits2_pos p) - 1)). lia. }
  destruct (binary_round_exact p 0 _ eq_refl) as (m & E & Em); [lia..|].
  exists m, (53 - Zpos (digits2_pos p)). unfold f64, binary_normalize. rewrite E.
  split_and!; [f_equal; lia|lia|lia| | |done]; rewrite Em.
  - rewrite (pow_split (53 - Zpos (digits2_pos p)) 52) by lia.
    replace (52 - (53 - Zpos (digits2_pos p))) with (Zpos (digits2_pos p) - 1) by lia.
    pose proof (Z.pow_pos_nonneg 2 (53 - Zpos (digits2_pos p))). nia.
  - rewrite (pow_split (53 - Zpos (digits2_pos p)) 53) by lia.
    replace (53 - (53 - Zpos (digits2_pos p))) with (Zpos (digits2_pos p)) by lia.
    pose proof (Z.pow_pos_nonneg 2 (53 - Zpos (digits2_pos p))). nia.
Qed.

Lemma new_location_rem q r : 0 < q -> new_location q r = rem_loc r q.
Proof.
  intros Hq. unfold new_location, new_location_even, new_location_odd, rem_loc.
  destruct (Z.even q) eqn:E; [done|]. destruct (r =? 0); [done|]. f_equal.
  rewrite <- Z.negb_odd in E. apply negb_false_iff, Z.odd_spec in E as [h ->].
  destruct (Z.compare_spec (2 * r + 1) (2 * h + 1)); symmetry;
    [apply Z.compare_lt_iff|apply Z.compare_lt_iff|apply Z.compare_gt_iff]; lia.
Qed.

Lemma fdiv_rounded a b : 0 < a < 2 ^ 52 -> 0 < b < 2 ^ 53 -> rounded a b (fdiv (f64 a) (f64 b)).
Proof.
  intros Ha Hb. destruct (f64_exact a) as (m1 & i1 & -> & Hi1 & Hm1 & E1); [lia|].
  destruct (f64_exact b) as (m2 & i2 & -> & Hi2 & Hm2 & E2); [lia|].
  assert (D1 : Zpos (digits2_pos m1) = 53) by (apply digits_unique; lia).
  assert (D2 : Zpos (digits2_pos m2) = 53) by (apply digits_unique; lia).
  unfold fdiv, SFdiv, SFdiv_core_binary. simpl Zdigits2. rewrite D1, D2.
  replace (53 + - i1 - (53 + - i2)) with (0 + (i2 - i1)) by lia.
  unfold fexp, emin. replace (Z.min _ _) with (- (53 + i1 - i2)) by lia.
  replace (- i1 - - i2 - - (53 + i1 - i2)) with 53 by lia.
  rewrite (surjective_pairing (Z.div_eucl _ _)). change (fst (Z.div_eucl ?x ?y)) with (x / y).
  change (snd (Z.div_eucl ?x ?y)) with (x mod y). rewrite new_location_rem by lia.
  rewrite Z.shiftl_mul_pow2 by lia. cbn [xorb].
  set (P := Zpos m1 * 2 ^ 53). set (Q := Zpos m2).
  assert (HB : 2 ^ 52 <= P / Q < 2 ^ 54).
  { unfold P, Q. split; [apply Z.div_le_lower_bound; lia|apply Z.div_lt_upper_bound; lia]. }
  pose proof (digits_bounds (Z.to_pos (P / Q))) as BD. rewrite Z2Pos.id in BD by lia.
  set (d := Zpos (digits2_pos (Z.to_pos (P / Q)))) in *.
  assert (Hd : 53 <= d <= 54).
  { split.
    - destruct (Z.le_gt_cases 53 d); [done|]. pose proof (Z.pow_le_mono_r 2 d 52). lia.
    - destruct (Z.le_gt_cases d 54); [done|]. pose proof (Z.pow_le_mono_r 2 54 (d - 1)). lia. }
  assert (Heq : a * Q * 2 ^ (53 + i1 - i2) = P * b).
  { unfold P, Q. rewrite E1, E2.
    assert (E : 2 ^ i1 * 2 ^ 53 = 2 ^ i2 * 2 ^ (53 + i1 - i2))
      by (rewrite <- !Z.pow_add_r by lia; f_equal; lia). nia. }
  apply (rounded_aux a b P Q (53 + i1 - i2) d); try done; try lia.
  split; [|lia]. destruct (Z.le_gt_cases (d - 52) (53 + i1 - i2)) as [|Hx]; [done|exfalso].
  assert (HQ : 0 < Q) by (unfold Q; lia). pose proof (Z.mul_div_le P Q HQ).
  assert (2 ^ (53 + i1 - i2) * 2 ^ 52 <= 2 ^ (d - 1))
    by (rewrite <- Z.pow_add_r by lia; apply Z.pow_le_mono_r; lia).
  pose proof (Z.pow_pos_nonneg 2 (53 + i1 - i2) ltac:(lia) ltac:(lia)). clearbody P Q d.
  set (X := 2 ^ (53 + i1 - i2)) in *. clearbody X. assert (H2 : X * 2 ^ 52 * Q <= P) by nia.
  assert (H3 : 2 ^ 52 * b <= a); [|lia]. apply (Z.mul_le_mono_pos_l _ _ (X * Q)); nia.
Qed.

Lemma shl_align_fst m e e' : e' <= e -> Zpos (fst (shl_align m e e')) = Zpos m * 2 ^ (e - e').
Proof.
  intros H. unfold shl_align. destruct (e' - e) as [|p|p] eqn:E; [|lia|]; simpl fst.
  - replace (e - e') with 0 by lia. lia.
  - rewrite iter_xO. do 2 f_equal. lia.
Qed.

(** The sum of an integer and a rounded number. *)
Lemma fadd_rounded h m i :
  0 < h < 2 ^ 50 -> 2 ^ 52 <= Zpos m < 2 ^ 53 -> 2 <= i <= 150 ->
  rounded (h * 2 ^ i + Zpos m) (2 ^ i) (fadd (f64 h) (S754_finite false m (- i))).
Proof.
  intros Hh Hm Hi. destruct (f64_exact h) as (m1 & i1 & -> & Hi1 & Hm1 & E1); [lia|].
  unfold fadd, SFadd. set (I := Z.max i1 i). replace (Z.min (- i1) (- i)) with (- I) by lia.
  assert (HI : i1 <= I /\ i <= I /\ I <= 150) by lia. cbn [cond_Zopp].
  set (S := Zpos (fst (shl_align m1 (- i1) (- I))) + Zpos (fst (shl_align m (- i) (- I)))).
  pose proof (Z.pow_pos_nonneg 2 I ltac:(lia) ltac:(lia)) as HpI.
  pose proof (Z.pow_pos_nonneg 2 i ltac:(lia) ltac:(lia)) as Hpi.
  pose proof (Z.pow_pos_nonneg 2 (I - i) ltac:(lia) ltac:(lia)) as HpIi.
  pose proof (Z.pow_pos_nonneg 2 (I - i1) ltac:(lia) ltac:(lia)) as HpIi1.
  pose proof (pow_split i I ltac:(lia)) as Ei. pose proof (pow_split i1 I ltac:(lia)) as Ei1.
  assert (ES : S = h * 2 ^ I + Zpos m * 2 ^ (I - i)).
  { unfold S. rewrite !shl_align_fst by lia. replace (- i1 - - I) with (I - i1) by lia.
    replace (- i - - I) with (I - i) by lia. rewrite E1, Ei1. ring. }
  assert (HS : 2 ^ 53 <= S < 2 ^ (52 + I)).
  { split.
    - unfold S. rewrite !shl_align_fst by lia. replace (- i1 - - I) with (I - i1) by lia.
      replace (- i - - I) with (I - i) by lia. nia.
    - rewrite ES, Z.pow_add_r by lia. assert (4 <= 2 ^ i) by (apply (Z.pow_le_mono_r 2 2 i); lia). nia. }
  clearbody S I. destruct S as [|s|s]; [lia| |lia]. unfold binary_normalize, binary_round.
  pose proof (digits_bounds s) as BD. set (d := Zpos (digits2_pos s)) in *.
  assert (Hd : 54 <= d <= 52 + I).
  { split.
    - destruct (Z.le_gt_cases 54 d); [done|]. pose proof (Z.pow_le_mono_r 2 d 53). lia.
    - destruct (Z.le_gt_cases d (52 + I)); [done|]. pose proof (Z.pow_le_mono_r 2 (52 + I) (d - 1)). lia. }
  rewrite fexp_53 by (unfold in_range; lia).
  assert (shl_align s (- I) (d + - I - 53) = (s, - I)) as ->.
  { unfold shl_align. replace (d + - I - 53 - - I) with (d - 53) by lia. destruct (d - 53) eqn:E; [done..|lia]. }
  pose proof (rounded_aux (h * 2 ^ i + Zpos m) (2 ^ i) (Zpos s) 1 I d) as HR.
  rewrite Z.div_1_r, Z.mod_1_r in HR. apply HR; try done; try nia.
Qed.

(** ** Truncation and comparison of rounded numbers *)

(** A number rounded from below the last representable point under [h + 1] has
    integer part [h]. *)
Lemma rounded_trunc A B f h j :
  0 < A -> rounded A B f -> 0 <= h -> 0 <= j -> (h + 1) * 2 ^ j <= 2 ^ 53 ->
  h * B <= A -> A * 2 ^ j <= ((h + 1) * 2 ^ j - 1) * B -> f_trunc f = h.
Proof.
  intros HA (m & i & -> & Hm & Hi & HG) Hh Hj Hb Hlo Hhi.
  pose proof (Z.pow_pos_nonneg 2 j ltac:(lia) ltac:(lia)) as Hpj.
  pose proof (Z.pow_pos_nonneg 2 i ltac:(lia) ltac:(lia)) as Hpi.
  assert (H1 : Zpos m * 2 ^ j <= ((h + 1) * 2 ^ j - 1) * 2 ^ i).
  { destruct (Z.eq_dec ((h + 1) * 2 ^ j - 1) 0) as [E|].
    - rewrite E in Hhi. nia.
    - apply HG; [nia|lia|done]. }
  assert (H2 : h * 2 ^ i <= Zpos m).
  { destruct (Z.eq_dec h 0) as [->|]; [lia|]. destruct (HG h 0) as [_ H2]; [nia|lia|].
    rewrite Z.pow_0_r, !Z.mul_1_r in H2. by apply H2. }
  assert (H3 : Zpos m < (h + 1) * 2 ^ i) by nia.
  unfold f_trunc. rewrite Z.opp_involutive. case_bool_decide as E.
  - assert (i = 0) as -> by lia. simpl in *. lia.
  - symmetry. apply (Z.div_unique (Zpos m) (2 ^ i) h (Zpos m - h * 2 ^ i)); lia.
Qed.

(** A comparison with a normal number [k / 2^j]: above its successor, or not
    above it. *)
Lemma rounded_ltb A B f k j :
  0 < B -> rounded A B f -> 2 ^ 52 <= Zpos k < 2 ^ 53 - 1 -> 0 <= j ->
  A * 2 ^ j <= Zpos k * B \/ (Zpos k + 1) * B <= A * 2 ^ j ->
  SFltb (S754_finite false k (- j)) f = bool_decide (Zpos k * B < A * 2 ^ j).
Proof.
  intros HB (m & i & -> & Hm & Hi & HG) Hk Hj Hcase. unfold SFltb, SFcompare.
  pose proof (Z.pow_pos_nonneg 2 j ltac:(lia) ltac:(lia)) as Hpj.
  pose proof (Z.pow_pos_nonneg 2 i ltac:(lia) ltac:(lia)) as Hpi.
  assert (Hpow : forall x y, 0 <= x < y -> 2 * 2 ^ x <= 2 ^ y)
    by (intros x y Hxy; rewrite <- Z.pow_succ_r by lia; apply Z.pow_le_mono_r; lia).
  destruct Hcase as [Hle|Hge].
  - rewrite bool_decide_false by lia. apply HG in Hle; [|lia..].
    destruct (Z.compare_spec (- j) (- i)) as [E|E|E]; [| |done].
    + assert (j = i) as -> by lia. change (Pos.compare_cont Eq k m) with (Zpos k ?= Zpos m).
      destruct (Z.compare_spec (Zpos k) (Zpos m)); [done| |done]. nia.
    + pose proof (Hpow i j ltac:(lia)). nia.
  - rewrite bool_decide_true by nia. apply HG in Hge; [|lia..].
    destruct (Z.compare_spec (- j) (- i)) as [E|E|E]; [|done|].
    + assert (j = i) as -> by lia. change (Pos.compare_cont Eq k m) with (Zpos k ?= Zpos m).
      destruct (Z.compare_spec (Zpos k) (Zpos m)); [nia|done|nia].
    + pose proof (Hpow j i ltac:(lia)). nia.
Qed.

Lemma f64_trunc z : 0 <= z < 2 ^ 53 -> f_trunc (f64 z) = z.
Proof.
  intros Hz. destruct (Z.eq_dec z 0) as [->|]; [done|].
  destruct (f64_exact z) as (m & i & -> & Hi & Hm & E); [lia|]. unfold f_trunc.
  rewrite Z.opp_involutive. pose proof (Z.pow_pos_nonneg 2 i). case_bool_decide.
  - assert (i = 0) as -> by lia. rewrite Z.pow_0_r in E. simpl. lia.
  - rewrite E. apply Z.div_mul. lia.
Qed.

(** Whole units plus the float quotient of the rest, truncated again: exact as
    long as unit and count leave room in 53 bits. *)
Lemma units_trunc d unit j :
  0 <= d -> 0 < unit <= 2 ^ j -> 3 <= j <= 52 -> (d / unit + 1) * 2 ^ j <= 2 ^ 53 ->
  f_trunc (fadd (f64 (d / unit)) (fdiv (f64 (d mod unit)) (f64 unit))) = d / unit.
Proof.
  intros Hd Hu Hj Hb. set (h := d / unit) in *. pose proof (Z.mod_pos_bound d unit ltac:(lia)) as Hr.
  assert (Hh : 0 <= h) by (apply Z.div_pos; lia). set (r := d mod unit) in *.
  pose proof (Z.pow_le_mono_r 2 j 52 ltac:(lia) ltac:(lia)).
  pose proof (Z.pow_pos_nonneg 2 j ltac:(lia) ltac:(lia)).
  assert (Hh1 : h < 2 ^ 53) by nia. clearbody h r. destruct (Z.eq_dec r 0) as [->|Hr0].
  { destruct (f64_exact unit) as (mu & iu & -> & _); [lia|]. change (f64 0) with (S754_zero false). simpl fdiv.
    rewrite <- (f64_trunc h) at 2 by lia. destruct (f64 h); try done. by destruct s. }
  pose proof (fdiv_rounded r unit ltac:(lia) ltac:(lia)) as HR.
  assert (Hgrid : r * 2 ^ j <= (2 ^ j - 1) * unit) by nia.
  destruct (Z.eq_dec h 0) as [->|Hh0].
  { change (fadd (f64 0) ?x) with (SFadd 53 1024 (S754_zero false) x).
    pose proof HR as (m & i & E & _). rewrite E in HR |- *. change (SFadd _ _ _ ?x) with x.
    apply (rounded_trunc r unit _ 0 j); lia || done. }
  pose proof HR as (m & i & E & Hm & Hi & HG). rewrite E.
  assert (1 < 2 ^ j) by lia.
  assert (Hq : Zpos m * 2 ^ j <= (2 ^ j - 1) * 2 ^ i) by (apply HG; lia).
  pose proof (Z.pow_pos_nonneg 2 i ltac:(lia) ltac:(lia)).
  assert (Hi2 : 2 <= i).
  { destruct (Z.le_gt_cases 2 i); [done|]. pose proof (Z.pow_le_mono_r 2 i 1). nia. }
  assert (8 <= 2 ^ j) by (apply (Z.pow_le_mono_r 2 3 j); lia). assert (h < 2 ^ 50) by nia.
  apply (rounded_trunc (h * 2 ^ i + Zpos m) (2 ^ i) _ h j); try lia.
  apply fadd_rounded; [lia|done|lia].
Qed.
