(* ===== verification/Parc.v ===== *)
(** * PARC rules: [authz/parc.go]

    Permission rules over (Principal, Action, Resource, Context) requests, the
    glob matching of their patterns, and the deny-overrides evaluation of a
    principal's bundle. *)
From S2P Require Import Prelude GoStrings GoPath.

Local Open Scope string_scope.

(** ** Data *)
Definition EffectPermit : string := "permit".
Definition EffectDeny : string := "deny".

(** [authz.Principal] (the authn principal is [Principal.Principal]). *)
Record ParcPrincipal : Type := {
  pp_ID : string;
  pp_ClientID : string;
  pp_Roles : list string;
  pp_Scopes : list string;
  pp_AuthMethod : string;
  pp_Attributes : gmap string any
}.

Record Action : Type := { act_Name : string; act_HTTPMethod : string }.

Record Resource : Type := {
  res_Type : string;
  res_ID : string;
  res_TenantID : string;
  res_Attributes : gmap string any
}.

(** [authz.Context]; the timestamp in Unix nanoseconds. *)
Record PContext : Type := {
  ctx_ClientIP : string;
  ctx_Timestamp : Z;
  ctx_Headers : gmap string string;
  ctx_Data : gmap string any
}.

Record Request : Type := {
  req_Principal : ParcPrincipal;
  req_Action : Action;
  req_Resource : Resource;
  req_Context : PContext
}.

Record Decision : Type := { Allowed : bool; Reason : string }.

Record PermissionRule : Type := {
  ActionPattern : string;
  ResourceType : string;
  ResourceIDPattern : string;
  TenantID : string;
  Effect : string
}.

Record PrincipalPermissions : Type := {
  PrincipalID : string;
  Rules : list PermissionRule
}.

#[global] Instance PermissionRule_eq_dec : EqDecision PermissionRule.
Proof. solve_decision. Defined.
#[global] Instance PrincipalPermissions_eq_dec : EqDecision PrincipalPermissions.
Proof. solve_decision. Defined.
#[global] Instance Decision_eq_dec : EqDecision Decision.
Proof. solve_decision. Defined.

(** ** Operations *)

(** [matchGlob] *)
Definition matchGlob (pattern val : string) : bool :=
  if bool_decide (pattern = "*") || bool_decide (pattern = "") then true
  else if bool_decide (pattern = val) then true
  else match path_Match pattern val with
       | Err _ => EqualFold pattern val
       | Ok matched => matched
       end.

(** [PermissionRule.Matches] *)
Definition Matches (r : PermissionRule) (req : Request) : bool :=
  if negb (matchGlob (ActionPattern r) (act_Name (req_Action req)))
     && negb (matchGlob (ActionPattern r) (act_HTTPMethod (req_Action req)))
  then false
  else if negb (matchGlob (ResourceType r) (res_Type (req_Resource req))) then false
  else if negb (matchGlob (ResourceIDPattern r) (res_ID (req_Resource req))) then false
  else if bool_decide (TenantID r <> "") && bool_decide (TenantID r <> "*")
          && bool_decide (res_TenantID (req_Resource req) <> "")
  then bool_decide (TenantID r = res_TenantID (req_Resource req))
  else true.

(** The loop of [Evaluate], with its [matchedPermit] variable. *)
Fixpoint evaluate_rules (rules : list PermissionRule) (req : Request)
  (matchedPermit : bool) : Decision :=
  match rules with
  | [] =>
      if matchedPermit then {| Allowed := true; Reason := "" |}
      else {| Allowed := false;
              Reason := "no matching permit rule found for action on resource" |}
  | rule :: rules' =>
      if Matches rule req then
        if bool_decide (Effect rule = EffectDeny) then
          {| Allowed := false; Reason := "explicitly denied by policy rule" |}
        else evaluate_rules rules' req
               (matchedPermit || bool_decide (Effect rule = EffectPermit))
      else evaluate_rules rules' req matchedPermit
  end.

(** [PrincipalPermissions.Evaluate] on a possibly nil receiver. *)
Definition Evaluate (p : option PrincipalPermissions) (req : Request) : Decision :=
  match p with
  | None | Some {| Rules := [] |} =>
      {| Allowed := false; Reason := "no permissions found for principal" |}
  | Some p => evaluate_rules (Rules p) req false
  end.

(** ** Specification *)

(** A rule of the given effect applies to the request. *)
Definition applies (eff : string) (req : Request) (r : PermissionRule) : Prop :=
  Effect r = eff /\ Matches r req = true.

Definition applies_b (eff : string) (req : Request) (r : PermissionRule) : bool :=
  bool_decide (Effect r = eff) && Matches r req.

Lemma applies_b_spec eff req r : applies_b eff req r = true <-> applies eff req r.
Proof. unfold applies_b, applies. by rewrite andb_true_iff, bool_decide_eq_true. Qed.

(** The declarative decision of a non-empty bundle. *)
Definition decide_rules (rules : list PermissionRule) (req : Request) : Decision :=
  if existsb (applies_b EffectDeny req) rules then
    {| Allowed := false; Reason := "explicitly denied by policy rule" |}
  else if existsb (applies_b EffectPermit req) rules then
    {| Allowed := true; Reason := "" |}
  else {| Allowed := false;
          Reason := "no matching permit rule found for action on resource" |}.

Lemma evaluate_rules_acc rules req acc :
  evaluate_rules rules req acc =
    if existsb (applies_b EffectDeny req) rules then
      {| Allowed := false; Reason := "explicitly denied by policy rule" |}
    else if acc || existsb (applies_b EffectPermit req) rules then
      {| Allowed := true; Reason := "" |}
    else {| Allowed := false;
            Reason := "no matching permit rule found for action on resource" |}.
Proof.
  revert acc. induction rules as [|r rules IH]; intros acc; simpl.
  - by rewrite orb_false_r.
  - unfold applies_b at 1 3. destruct (Matches r req); simpl.
    + case_bool_decide as Hd; simpl; [done|]. rewrite IH, andb_true_r. by rewrite orb_assoc.
    + by rewrite !andb_false_r, IH.
Qed.

Lemma Evaluate_spec p req :
  Evaluate (Some p) req =
    if bool_decide (Rules p = []) then
      {| Allowed := false; Reason := "no permissions found for principal" |}
    else decide_rules (Rules p) req.
Proof.
  destruct p as [id [|r rules]]; simpl; [done|].
  apply (evaluate_rules_acc (r :: rules) req false).
Qed.

(** Bundles that list the same rules in a different order. *)
Definition same_rules (p q : PrincipalPermissions) : Prop := Rules p ≡ₚ Rules q.

#[global] Instance same_rules_equiv : Equivalence same_rules.
Proof.
  split; unfold same_rules; [intros p; done | intros p q; done |].
  intros p q r H1 H2. by rewrite H1.
Qed.

#[global] Instance decide_rules_proper : Proper ((≡ₚ) ==> eq ==> eq) decide_rules.
Proof.
  intros l l' Hp req ? <-. unfold decide_rules.
  by rewrite !(existsb_Permutation _ _ _ Hp).
Qed.

(** *** Glob matching *)
Lemma matchGlob_any val : matchGlob "*" val = true /\ matchGlob "" val = true.
Proof. done. Qed.

Lemma matchGlob_plain p val :
  plain p = true -> p <> "" -> matchGlob p val = bool_decide (val = p).
Proof.
  intros Hp Hne. unfold matchGlob.
  rewrite (bool_decide_false (p = "*")), (bool_decide_false (p = "")) by (done || by intros ->).
  simpl. rewrite path_Match_plain by done.
  case_bool_decide; [by rewrite bool_decide_true|done].
Qed.

Lemma no_char_star p val :
  p +:+ "*" = val -> HasPrefix val p && no_char "/" (TrimPrefix val p) = true.
Proof. intros <-. by rewrite HasPrefix_app, TrimPrefix_app. Qed.

Lemma matchGlob_prefix p val :
  plain p = true ->
  matchGlob (p +:+ "*") val = true <->
  p = "" \/ exists suffix, val = p +:+ suffix /\ no_char "/" suffix = true.
Proof.
  intros Hp. unfold matchGlob. destruct p as [|a p].
  { simpl. split; eauto. }
  rewrite (bool_decide_false (_ = "*")), (bool_decide_false (_ = "")) by (destruct p; done).
  simpl orb. cbv iota. rewrite path_Match_prefix by done.
  assert (HasPrefix val (String a p) && no_char "/" (TrimPrefix val (String a p)) = true <->
          exists suffix, val = String a p +:+ suffix /\ no_char "/" suffix = true) as Hiff.
  { rewrite andb_true_iff. split.
    - intros [[t ->]%HasPrefix_spec H2]. rewrite TrimPrefix_app in H2. eauto.
    - intros (t & -> & H2). by rewrite HasPrefix_app, TrimPrefix_app. }
  case_bool_decide as Heq.
  - apply no_char_star, Hiff in Heq. split; eauto.
  - rewrite Hiff. split; [eauto|]. by intros [?|?].
Qed.

(** *** The four checks of [Matches] as one condition *)
Definition tenant_ok (r : PermissionRule) (req : Request) : Prop :=
  TenantID r = "" \/ TenantID r = "*" \/ res_TenantID (req_Resource req) = "" \/
  TenantID r = res_TenantID (req_Resource req).

Lemma tenant_ok_b r req :
  tenant_ok r req <->
  (if bool_decide (TenantID r <> "") && bool_decide (TenantID r <> "*")
      && bool_decide (res_TenantID (req_Resource req) <> "")
   then bool_decide (TenantID r = res_TenantID (req_Resource req))
   else true) = true.
Proof.
  unfold tenant_ok.
  destruct (decide (TenantID r = "")) as [->|H1]; [by split; [|left]|].
  rewrite (bool_decide_true (TenantID r <> "")) by done.
  destruct (decide (TenantID r = "*")) as [->|H2]; [by split; [|right; left]|].
  rewrite (bool_decide_true (TenantID r <> "*")) by done.
  destruct (decide (res_TenantID (req_Resource req) = "")) as [->|H3];
    [by split; [|right; right; left]|].
  rewrite (bool_decide_true (res_TenantID _ <> "")) by done. simpl.
  rewrite bool_decide_eq_true. tauto.
Qed.

Lemma Matches_spec r req :
  Matches r req = true <->
  (matchGlob (ActionPattern r) (act_Name (req_Action req)) = true \/
   matchGlob (ActionPattern r) (act_HTTPMethod (req_Action req)) = true) /\
  matchGlob (ResourceType r) (res_Type (req_Resource req)) = true /\
  matchGlob (ResourceIDPattern r) (res_ID (req_Resource req)) = true /\
  tenant_ok r req.
Proof.
  rewrite tenant_ok_b. unfold Matches.
  set (t := if _ && bool_decide (res_TenantID _ <> "") then _ else _). clearbody t.
  set (a := matchGlob _ (act_Name _)). set (h := matchGlob _ (act_HTTPMethod _)).
  set (y := matchGlob (ResourceType r) _). set (i := matchGlob (ResourceIDPattern r) _).
  clearbody a h y i. destruct a, h, y, i; simpl; intuition discriminate.
Qed.

(** ** Properties *)

(** C1: deny overrides, default deny.  A bundle allows a request exactly when
    some permit rule of it applies and no deny rule of it applies, wherever
    the rules stand in the list. *)
Theorem evaluate_deny_overrides p req :
  Allowed (Evaluate (Some p) req) = true <->
  (exists r, r ∈ Rules p /\ applies EffectPermit req r) /\
  ~ (exists r, r ∈ Rules p /\ applies EffectDeny req r).
Proof.
  rewrite Evaluate_spec. case_bool_decide as Hnil.
  { rewrite Hnil. simpl. split; [done|]. intros [(r & Hr & _) _]. set_solver. }
  assert (Hb : forall eff, (exists r, r ∈ Rules p /\ applies eff req r) <->
               existsb (applies_b eff req) (Rules p) = true).
  { intros eff. rewrite existsb_Exists. by setoid_rewrite applies_b_spec. }
  rewrite !Hb. unfold decide_rules.
  destruct (existsb (applies_b EffectDeny req) (Rules p)); simpl; [naive_solver|].
  destruct (existsb (applies_b EffectPermit req) (Rules p)); simpl; naive_solver.
Qed.

(** C2: the whole decision, its reason included, does not depend on the order
    of the rules in the bundle. *)
Theorem evaluate_order_independent p q req :
  same_rules p q -> Evaluate (Some p) req = Evaluate (Some q) req.
Proof.
  unfold same_rules. intros Hpq. rewrite !Evaluate_spec.
  assert (Rules p = [] <-> Rules q = []) as Hnil.
  { split; intros H; rewrite H in Hpq.
    - symmetry. by apply Permutation_nil_l.
    - by apply Permutation_nil_r. }
  rewrite (bool_decide_ext _ _ Hnil). by rewrite Hpq.
Qed.

(** a rule with a literal action, a literal resource type and a prefix
    pattern [pre*] on the resource ID applies exactly to the requests with
    that action (by logical name or HTTP method) and type whose ID is [pre]
    followed by text without a slash, subject to the tenant check. *)
Theorem prefix_rule_matches r pre req :
  plain (ActionPattern r) = true -> ActionPattern r <> "" ->
  plain (ResourceType r) = true -> ResourceType r <> "" ->
  ResourceIDPattern r = pre +:+ "*" -> plain pre = true -> pre <> "" ->
  Matches r req = true <->
  (act_Name (req_Action req) = ActionPattern r \/
   act_HTTPMethod (req_Action req) = ActionPattern r) /\
  res_Type (req_Resource req) = ResourceType r /\
  (exists suffix, res_ID (req_Resource req) = pre +:+ suffix /\ no_char "/" suffix = true) /\
  tenant_ok r req.
Proof.
  intros Ha Ha' Ht Ht' Hid Hp Hp'. rewrite Matches_spec, Hid, matchGlob_prefix by done.
  rewrite !matchGlob_plain, !bool_decide_eq_true by done. naive_solver.
Qed.

(** The same request for tenant [t]; the same rule for all tenants. *)
Definition with_tenant (t : string) (req : Request) : Request :=
  {| req_Principal := req_Principal req; req_Action := req_Action req;
     req_Resource := {| res_Type := res_Type (req_Resource req);
                        res_ID := res_ID (req_Resource req);
                        res_TenantID := t;
                        res_Attributes := res_Attributes (req_Resource req) |};
     req_Context := req_Context req |}.
Definition all_tenants (r : PermissionRule) : PermissionRule :=
  {| ActionPattern := ActionPattern r; ResourceType := ResourceType r;
     ResourceIDPattern := ResourceIDPattern r; TenantID := ""; Effect := Effect r |}.

(** tenant scoping.  A rule written for one tenant applies to a request of
    another tenant never, to a request of its tenant as an unscoped rule
    would, and also to a request that carries no tenant at all. *)
Theorem tenant_scoping r req t :
  TenantID r <> "" -> TenantID r <> "*" ->
  Matches r (with_tenant t req) = true <->
  Matches (all_tenants r) req = true /\ (t = TenantID r \/ t = "").
Proof.
  intros H1 H2. rewrite !Matches_spec. unfold tenant_ok. simpl. intuition congruence.
Qed.

(** ** Witnesses *)
Definition sample_rule (eff tenant : string) : PermissionRule :=
  {| ActionPattern := "read"; ResourceType := "report"; ResourceIDPattern := "rep_*";
     TenantID := tenant; Effect := eff |}.
Definition sample_request (id tenant : string) : Request :=
  {| req_Principal := {| pp_ID := "u1"; pp_ClientID := ""; pp_Roles := []; pp_Scopes := [];
                         pp_AuthMethod := "api_key"; pp_Attributes := ∅ |};
     req_Action := {| act_Name := "read"; act_HTTPMethod := "GET" |};
     req_Resource := {| res_Type := "report"; res_ID := id; res_TenantID := tenant;
                        res_Attributes := ∅ |};
     req_Context := {| ctx_ClientIP := "10.0.0.1"; ctx_Timestamp := 0; ctx_Headers := ∅;
                       ctx_Data := ∅ |} |}.

Lemma evaluate_order_independent_witness :
  Evaluate (Some {| PrincipalID := "u1";
                    Rules := [sample_rule "permit" ""; sample_rule "deny" "acme"] |})
           (sample_request "rep_7" "acme") =
  Evaluate (Some {| PrincipalID := "u1";
                    Rules := [sample_rule "deny" "acme"; sample_rule "permit" ""] |})
           (sample_request "rep_7" "acme").
Proof. apply evaluate_order_independent. apply Permutation_swap. Defined.

Lemma prefix_rule_matches_witness :
  Matches (sample_rule "permit" "") (sample_request "rep_7" "acme") = true.
Proof.
  apply (prefix_rule_matches (sample_rule "permit" "") "rep_" (sample_request "rep_7" "acme"));
    try done.
  split_and!; [by left | done | by exists "7" | by left].
Defined.

Lemma tenant_scoping_witness :
  Matches (sample_rule "permit" "acme") (with_tenant "" (sample_request "rep_7" "globex")) = true.
Proof.
  apply (tenant_scoping (sample_rule "permit" "acme") (sample_request "rep_7" "globex") "");
    [done | done |]. split; [by vm_compute | by right].
Defined.
