(* ===== verification/Principal.v ===== *)
(** * The authenticated principal: [authn/principal.go]

    A [*Principal] that may be nil is an [option Principal]; every predicate
    answers false on nil, as the methods do. *)
From S2P Require Import Prelude GoStrings.

Local Open Scope string_scope.

(** ** Data *)
Definition AuthMethodAuthCodePKCE : string := "oauth:auth_code_pkce".
Definition AuthMethodClientCredentials : string := "oauth:client_credentials".
Definition AuthMethodDeviceFlow : string := "oauth:device_flow".
Definition AuthMethodAPIKey : string := "api_key".
Definition AuthMethodUnknown : string := "unknown".

(** [Principal]; times in Unix nanoseconds, [None] for the zero [time.Time]. *)
Record Principal : Type := {
  Subject : string;
  ClientID : string;
  Method : string;
  Scopes : list string;
  Roles : list string;
  Issuer : string;
  Audiences : list string;
  IssuedAt : option Z;
  ExpiresAt : option Z;
  Metadata : gmap string any;
  RawToken : string
}.

(** ** Operations *)
Definition on_principal (f : Principal -> bool) (p : option Principal) : bool :=
  match p with None => false | Some p => f p end.

Definition HasScope (p : option Principal) (scope : string) : bool :=
  on_principal (fun p => existsb (fun s => bool_decide (s = scope)) (Scopes p)) p.

Definition HasAllScopes (p : option Principal) (required : list string) : bool :=
  on_principal (fun _ => forallb (HasScope p) required) p.

Definition HasAnyScope (p : option Principal) (candidates : list string) : bool :=
  on_principal (fun _ =>
    if (length candidates =? 0)%nat then true else existsb (HasScope p) candidates) p.

Definition HasRole (p : option Principal) (role : string) : bool :=
  on_principal (fun p =>
    let target := ToLower role in
    existsb (fun r => bool_decide (ToLower r = target)) (Roles p)) p.

Definition HasAnyRole (p : option Principal) (candidates : list string) : bool :=
  on_principal (fun _ =>
    if (length candidates =? 0)%nat then true else existsb (HasRole p) candidates) p.

Definition IsUserPresent (p : option Principal) : bool :=
  on_principal (fun p =>
    bool_decide (Method p = AuthMethodAuthCodePKCE)
    || bool_decide (Method p = AuthMethodDeviceFlow)) p.

Definition IsInRole (p : option Principal) (role : string) : bool := HasRole p role.

(** [getMissingScopes] of [guards.go]. *)
Fixpoint getMissingScopes (p : option Principal) (required : list string) : list string :=
  match required with
  | [] => []
  | req :: required' =>
      if negb (HasScope p req) then req :: getMissingScopes p required'
      else getMissingScopes p required'
  end.

(** ** Lemmas *)
Lemma HasScope_spec p s : HasScope (Some p) s = true <-> s ∈ Scopes p.
Proof.
  unfold HasScope, on_principal. rewrite existsb_Exists.
  setoid_rewrite bool_decide_eq_true. naive_solver.
Qed.

Lemma HasAllScopes_spec p l : HasAllScopes (Some p) l = true <-> l ⊆ Scopes p.
Proof.
  unfold HasAllScopes. simpl. rewrite forallb_elem_of.
  setoid_rewrite HasScope_spec. done.
Qed.

Lemma HasAnyScope_spec p l :
  HasAnyScope (Some p) l = true <-> l = [] \/ exists s, s ∈ l /\ s ∈ Scopes p.
Proof.
  unfold HasAnyScope, on_principal. destruct l as [|s l].
  - split; auto.
  - cbn [length Nat.eqb]. rewrite existsb_Exists. setoid_rewrite HasScope_spec. naive_solver.
Qed.

Lemma HasRole_spec p r :
  HasRole (Some p) r = true <-> exists r', r' ∈ Roles p /\ ToLower r' = ToLower r.
Proof.
  unfold HasRole, on_principal. rewrite existsb_Exists.
  by setoid_rewrite bool_decide_eq_true.
Qed.

Lemma HasAnyRole_spec p l :
  HasAnyRole (Some p) l = true <-> l = [] \/ exists r, r ∈ l /\ HasRole (Some p) r = true.
Proof.
  unfold HasAnyRole, on_principal. destruct l as [|s l].
  - split; auto.
  - cbn [length Nat.eqb]. rewrite existsb_Exists. naive_solver.
Qed.

Lemma HasRole_fold p r r' :
  ToLower r = ToLower r' -> HasRole p r = HasRole p r'.
Proof. destruct p; [|done]. intros H. unfold HasRole. simpl. by rewrite H. Qed.

Lemma getMissingScopes_spec p l s :
  s ∈ getMissingScopes (Some p) l <-> s ∈ l /\ s ∉ Scopes p.
Proof.
  induction l as [|r l IH]; cbn [getMissingScopes].
  - split; [|intros [? _]]; intros; by exfalso; eapply not_elem_of_nil.
  - pose proof (HasScope_spec p r) as Hr.
    destruct (HasScope (Some p) r); cbn [negb]; rewrite !elem_of_cons, IH;
      naive_solver.
Qed.

Lemma getMissingScopes_nil p l : getMissingScopes (Some p) l = [] <-> HasAllScopes (Some p) l = true.
Proof.
  rewrite HasAllScopes_spec. split.
  - intros H s Hs. destruct (decide (s ∈ Scopes p)) as [|Hn]; [done|].
    assert (s ∈ getMissingScopes (Some p) l) as Hm by (by apply getMissingScopes_spec).
    rewrite H in Hm. set_solver.
  - intros H. destruct (getMissingScopes (Some p) l) as [|s l'] eqn:E; [done|].
    assert (s ∈ getMissingScopes (Some p) l) as Hm by (rewrite E; set_solver).
    apply getMissingScopes_spec in Hm as [? ?]. set_solver.
Qed.
