(* ===== verification/Policy.v ===== *)
(** * Policies and their builder: [authz/policy.go]; the in-memory permission
    repository: [authz/repository.go]

    A [Requirement] is a Go interface; the constructors are the package's
    implementations, and [OtherRequirement] stands for one declared by a
    client, of which the engine sees only the type name.  The builder methods
    mutate the policy they hold and return it, so each is a function on
    [Policy]. *)
From S2P Require Import Prelude GoStrings Parc.

Local Open Scope string_scope.
Local Open Scope list_scope.

(** ** Requirements and policies *)
Inductive Requirement : Type :=
| PARCRequirement (Action_ ResourceType_ : string)
| ScopeRequirement (Scopes_ : list string) (RequireAll : bool)
| RoleRequirement (Roles_ : list string) (RequireAll : bool)
| UserPresentRequirement
| M2MRequirement
| CustomRequirement (Name_ : string) (Func : option (Request -> bool))
| OtherRequirement (typ : string).

Definition RequirementType (r : Requirement) : string :=
  match r with
  | PARCRequirement _ _ => "PARCRequirement"
  | ScopeRequirement _ _ => "ScopeRequirement"
  | RoleRequirement _ _ => "RoleRequirement"
  | UserPresentRequirement => "UserPresentRequirement"
  | M2MRequirement => "M2MRequirement"
  | CustomRequirement name _ =>
      if bool_decide (name <> "") then name else "CustomRequirement"
  | OtherRequirement typ => typ
  end.

Record Policy : Type := {
  pol_Name : string;
  Requirements : list Requirement
}.

Definition NewPolicy (name : string) : Policy :=
  {| pol_Name := name; Requirements := [] |}.

(** The variadic [name ...string]. *)
Definition NewPolicyBuilder (name : list string) : Policy :=
  NewPolicy (match name with n :: _ => n | [] => "" end).

Definition AddRequirement (req : Requirement) (b : Policy) : Policy :=
  {| pol_Name := pol_Name b; Requirements := Requirements b ++ [req] |}.
Definition RequireAuthenticatedUser (b : Policy) : Policy :=
  AddRequirement
    (CustomRequirement "" (Some (fun req => bool_decide (pp_ID (req_Principal req) <> "")))) b.
Definition RequirePARC (action resourceType : string) (b : Policy) : Policy :=
  AddRequirement (PARCRequirement action resourceType) b.
Definition RequireScope (scopes : list string) (b : Policy) : Policy :=
  AddRequirement (ScopeRequirement scopes true) b.
Definition RequireAnyScope (scopes : list string) (b : Policy) : Policy :=
  AddRequirement (ScopeRequirement scopes false) b.
Definition RequireRole (roles : list string) (b : Policy) : Policy :=
  AddRequirement (RoleRequirement roles true) b.
Definition RequireUser (b : Policy) : Policy := AddRequirement UserPresentRequirement b.
Definition RequireM2M (b : Policy) : Policy := AddRequirement M2MRequirement b.
Definition Build (b : Policy) : Policy := b.

(** ** Permission repositories *)
Record PermissionRepository (W : Type) : Type := {
  GetPermissions : string -> W -> res string (option PrincipalPermissions) * W;
  GrantPermission : string -> PermissionRule -> W -> option string * W;
  RevokeAll : string -> W -> option string * W
}.
Arguments GetPermissions {W}. Arguments GrantPermission {W}. Arguments RevokeAll {W}.

(** [MemoryPermissionRepository]: bundles are returned by copy, so a map to
    rule lists is the whole state. *)
Module MemoryPermissionRepository.

Abbreviation t := (gmap string (list PermissionRule)).

Definition New : t := ∅.

Definition GetPermissions (principalID : string) (r : t) : PrincipalPermissions :=
  match r !! principalID with
  | None => {| PrincipalID := principalID; Rules := [] |}
  | Some rules => {| PrincipalID := principalID; Rules := rules |}
  end.

Definition GrantPermission (principalID : string) (rule : PermissionRule) (r : t) : t :=
  let rules := match r !! principalID with None => [] | Some rules => rules end in
  <[principalID := rules ++ [rule]]> r.

Definition RevokeAll (principalID : string) (r : t) : t := delete principalID r.

Lemma Get_Grant r id rule :
  Rules (GetPermissions id (GrantPermission id rule r)) =
  Rules (GetPermissions id r) ++ [rule].
Proof.
  unfold GetPermissions, GrantPermission. rewrite lookup_insert_eq. by destruct (r !! id).
Qed.

Lemma Get_Grant_ne r id id' rule :
  id <> id' -> GetPermissions id' (GrantPermission id rule r) = GetPermissions id' r.
Proof. intros H. unfold GetPermissions, GrantPermission. by rewrite lookup_insert_ne. Qed.

Lemma Get_Revoke r id : Rules (GetPermissions id (RevokeAll id r)) = [].
Proof. unfold GetPermissions, RevokeAll. by rewrite lookup_delete_eq. Qed.

Lemma Get_Revoke_ne r id id' :
  id <> id' -> GetPermissions id' (RevokeAll id r) = GetPermissions id' r.
Proof. intros H. unfold GetPermissions, RevokeAll. by rewrite lookup_delete_ne. Qed.

(** The operations as they are applied over time. *)
Inductive op : Type := Grant (id : string) (rule : PermissionRule) | Revoke (id : string).
Definition step (r : t) (o : op) : t :=
  match o with Grant id rule => GrantPermission id rule r | Revoke id => RevokeAll id r end.

(** The rules an identity holds after a history: those granted to it since
    its last revocation, oldest first. *)
Fixpoint granted (id : string) (h : list op) (acc : list PermissionRule) : list PermissionRule :=
  match h with
  | [] => acc
  | Grant id' rule :: h' =>
      granted id h' (if bool_decide (id' = id) then acc ++ [rule] else acc)
  | Revoke id' :: h' => granted id h' (if bool_decide (id' = id) then [] else acc)
  end.

Lemma granted_foldl id h r :
  Rules (GetPermissions id (foldl step r h)) = granted id h (Rules (GetPermissions id r)).
Proof.
  revert r. induction h as [|[id' rule|id'] h IH]; intros r; simpl; [done| |]; rewrite IH.
  - case_bool_decide; subst; [by rewrite Get_Grant|by rewrite Get_Grant_ne].
  - case_bool_decide; subst; [by rewrite Get_Revoke|by rewrite Get_Revoke_ne].
Qed.

End MemoryPermissionRepository.
