(* ===== verification/CacheIface.v ===== *)
(** * The cache contract of the authorization layer: [authz/cache/cache.go]

    [CacheProvider] and [InvalidationBus] are Go interfaces: records of
    operations over a world [W] that holds every cache, the clock and
    whatever the backends keep.  [CacheSpec] is what the interface comments
    promise, in the form the clients rely on: a provider may forget entries
    (eviction, dropped writes), it never invents one, and [Delete] removes. *)
From S2P Require Import Prelude.

Local Open Scope string_scope.
Local Open Scope Z_scope.

(** [ErrCacheMiss], [ErrInvalidKey], any other error of a backend. *)
Inductive cache_err : Type :=
| ErrCacheMiss
| ErrInvalidKey
| ErrBackend (msg : string).

#[global] Instance cache_err_eq_dec : EqDecision cache_err.
Proof. solve_decision. Defined.

(** [error] results: [None] is nil. *)
Abbreviation cerr := (option cache_err).

(** Byte slices are byte strings; durations and times are nanoseconds. *)
Record CacheProvider (W : Type) : Type := {
  cGet : string -> W -> res cache_err string * W;
  cSet : string -> string -> Z -> W -> cerr * W;
  cDelete : string -> W -> cerr * W;
  cClose : W -> cerr * W
}.
Arguments cGet {W}. Arguments cSet {W}. Arguments cDelete {W}. Arguments cClose {W}.

Record InvalidationBus (W : Type) : Type := {
  bPublishRevocation : string -> W -> cerr * W;
  bSubscribeRevocations : W -> res cache_err nat * W
}.
Arguments bPublishRevocation {W}. Arguments bSubscribeRevocations {W}.

(** When an item set at [now] with [ttl] stops being served: "if ttl <= 0,
    the item does not expire automatically". *)
Definition expiry (now ttl : Z) : option Z :=
  if bool_decide (0 < ttl) then Some (now + ttl) else None.

(** An item may still be served at [now]. *)
Definition live (now : Z) (e : option Z) : Prop :=
  match e with Some t => now <= t | None => True end.

#[global] Instance live_dec now e : Decision (live now e).
Proof. unfold live. destruct e; apply _. Defined.

(** What a provider stores under each key: the bytes and their expiry. *)
Definition entry : Type := string * option Z.
Definition cache_view : Type := string -> option entry.

(** [f] holds nothing that [g] does not hold. *)
Definition vsub (f g : cache_view) : Prop := forall k x, f k = Some x -> g k = Some x.
Definition vset (k : string) (x : entry) (f : cache_view) : cache_view :=
  fun k' => if decide (k' = k) then Some x else f k'.

#[global] Instance vsub_preorder : PreOrder vsub.
Proof. split; [intros f k x|intros f g h Hfg Hgh k x]; unfold vsub in *; eauto. Qed.

Lemma vsub_None f g k : vsub f g -> g k = None -> f k = None.
Proof. intros H Hg. destruct (f k) eqn:E; [|done]. apply H in E. congruence. Qed.

Class CacheSpec {W} (now : W -> Z) (C : CacheProvider W) := {
  view : W -> cache_view;
  get_spec : forall k w r w', cGet C k w = (r, w') ->
    now w' = now w /\ vsub (view w') (view w) /\
    (forall v, r = Ok v -> exists e, view w k = Some (v, e) /\ live (now w) e);
  set_spec : forall k v ttl w r w', cSet C k v ttl w = (r, w') ->
    now w' = now w /\
    exists e, (0 < ttl -> e = Some (now w + ttl)) /\
      (vsub (view w') (vset k (v, e) (view w)) \/
       (r <> None /\ vsub (view w') (view w)));
  delete_spec : forall k w r w', cDelete C k w = (r, w') ->
    now w' = now w /\ vsub (view w') (view w) /\ (r = None -> view w' k = None)
}.

(** ** A reference provider: an exact map with expiry

    The world has one such map per tier; [TTLCache] reads and writes the tier
    selected by a lens. *)
Record Lens (W A : Type) : Type := { lget : W -> A; lset : A -> W -> W }.
Arguments lget {W A}. Arguments lset {W A}.

Definition ttl_Get {W} (now : W -> Z) (L : Lens W (gmap string entry)) (k : string) (w : W)
  : res cache_err string * W :=
  if bool_decide (k = "") then (Err ErrInvalidKey, w) else
  match lget L w !! k with
  | Some (v, e) => if bool_decide (live (now w) e) then (Ok v, w) else (Err ErrCacheMiss, w)
  | None => (Err ErrCacheMiss, w)
  end.
Definition ttl_Set {W} (now : W -> Z) (L : Lens W (gmap string entry)) (k v : string) (ttl : Z)
  (w : W) : cerr * W :=
  if bool_decide (k = "") then (Some ErrInvalidKey, w) else
  (None, lset L (<[k := (v, expiry (now w) ttl)]> (lget L w)) w).
Definition ttl_Delete {W} (L : Lens W (gmap string entry)) (k : string) (w : W) : cerr * W :=
  if bool_decide (k = "") then (Some ErrInvalidKey, w) else
  (None, lset L (delete k (lget L w)) w).
Definition TTLCache {W} (now : W -> Z) (L : Lens W (gmap string entry)) : CacheProvider W :=
  {| cGet := ttl_Get now L; cSet := ttl_Set now L; cDelete := ttl_Delete L;
     cClose := fun w => (None, w) |}.

Class LensLaws {W A} (now : W -> Z) (L : Lens W A) := {
  lget_lset : forall a w, lget L (lset L a w) = a;
  now_lset : forall a w, now (lset L a w) = now w
}.

#[export] Instance TTLCache_spec {W} (now : W -> Z) (L : Lens W (gmap string entry))
  `{!LensLaws now L} : CacheSpec now (TTLCache now L).
Proof.
  refine {| view w k := lget L w !! k |}.
  - intros k w r w'. simpl. unfold ttl_Get. case_bool_decide.
    { intros [= <- <-]. done. }
    destruct (lget L w !! k) as [[v e]|] eqn:E; [|intros [= <- <-]; done].
    case_bool_decide; intros [= <- <-]; [|done].
    split_and!; [done|done|]. intros v' [= <-]. eauto.
  - intros k v ttl w r w'. simpl. unfold ttl_Set. case_bool_decide; intros [= <- <-].
    + split; [done|]. exists (Some (now w + ttl)). split; [done|]. by right.
    + rewrite lget_lset, now_lset. split; [done|]. exists (expiry (now w) ttl). split.
      * unfold expiry. intros. by rewrite bool_decide_true.
      * left. intros k' x. unfold vset. rewrite lookup_insert.
        by repeat case_decide; subst.
  - intros k w r w'. simpl. unfold ttl_Delete. case_bool_decide; intros [= <- <-].
    + done.
    + rewrite lget_lset, now_lset. split_and!; [done| |].
      * intros k' x. by intros [_ ?]%lookup_delete_Some.
      * intros _. apply lookup_delete_eq.
Defined.
