(* ===== verification/RefWorld.v ===== *)
(** * A reference world

    A clock, two exact cache tiers and the in-memory permission repository:
    the concrete state in which the abstract environments of the engine and of
    the tiered cache are instantiated. *)
From S2P Require Import Prelude GoStrings Parc Policy CacheIface.

Record World : Type := {
  clock : Z;
  tier1 : gmap string entry;
  tier2 : gmap string entry;
  perms : MemoryPermissionRepository.t
}.

Definition lens1 : Lens World (gmap string entry) :=
  {| lget := tier1;
     lset a w := {| clock := clock w; tier1 := a; tier2 := tier2 w; perms := perms w |} |}.
Definition lens2 : Lens World (gmap string entry) :=
  {| lget := tier2;
     lset a w := {| clock := clock w; tier1 := tier1 w; tier2 := a; perms := perms w |} |}.

#[export] Instance lens1_laws : LensLaws clock lens1.
Proof. by split. Defined.
#[export] Instance lens2_laws : LensLaws clock lens2.
Proof. by split. Defined.

Definition cache1 : CacheProvider World := TTLCache clock lens1.
Definition cache2 : CacheProvider World := TTLCache clock lens2.

Definition set_perms (r : MemoryPermissionRepository.t) (w : World) : World :=
  {| clock := clock w; tier1 := tier1 w; tier2 := tier2 w; perms := r |}.

(** [MemoryPermissionRepository] as a [PermissionRepository]: no operation
    returns an error. *)
Definition memory_repo : PermissionRepository World :=
  {| GetPermissions s w := (Ok (Some (MemoryPermissionRepository.GetPermissions s (perms w))), w);
     GrantPermission s rule w :=
       (None, set_perms (MemoryPermissionRepository.GrantPermission s rule (perms w)) w);
     RevokeAll s w := (None, set_perms (MemoryPermissionRepository.RevokeAll s (perms w)) w) |}.

Definition empty_world : World :=
  {| clock := 0; tier1 := ∅; tier2 := ∅; perms := ∅ |}.
