(* ===== verification/Engine.v ===== *)
(** * The policy decision point: [authz/engine.go]

    Requirement handlers, the PARC handler with its cache and repository, the
    options, and the engine that evaluates the requirements of a policy in
    order.  The engine is stateful through the PARC handler only: the world
    [W] (caches, repository, clock) is threaded through every handler call. *)
From S2P Require Import Prelude GoStrings Parc Principal Policy CacheIface RefWorld.

Local Open Scope string_scope.
Local Open Scope list_scope.

(** ** Data *)
Record EvaluationContext : Type := {
  ev_Resource : Resource;
  ev_Action : Action;
  ev_Context : PContext
}.

Definition zero_Resource : Resource :=
  {| res_Type := ""; res_ID := ""; res_TenantID := ""; res_Attributes := ∅ |}.
Definition zero_Action : Action := {| act_Name := ""; act_HTTPMethod := "" |}.
(** The zero [time.Time] is the first second of year 1. *)
Definition zero_Time : Z := (-62135596800 * 1000000000)%Z.
Definition zero_Context : PContext :=
  {| ctx_ClientIP := ""; ctx_Timestamp := zero_Time; ctx_Headers := ∅; ctx_Data := ∅ |}.
(** [&EvaluationContext{}] *)
Definition zero_EvaluationContext : EvaluationContext :=
  {| ev_Resource := zero_Resource; ev_Action := zero_Action; ev_Context := zero_Context |}.

(** [ErrPolicyNotFound], [ErrNilPrincipal], a wrapped repository error, the
    error of a client's handler. *)
Inductive authz_err : Type :=
| ErrPolicyNotFound
| ErrNilPrincipal
| ErrFetchingPermissions (cause : string)
| ErrHandler (msg : string).

Definition Error (e : authz_err) : string :=
  match e with
  | ErrPolicyNotFound => "authz: policy not found"
  | ErrNilPrincipal => "authz: principal is nil"
  | ErrFetchingPermissions cause => "authz: failed fetching permissions: " +:+ cause
  | ErrHandler msg => msg
  end.

(** [encoding/json] on permission bundles, as [PARCHandler] uses it: a
    [*PrincipalPermissions] is encoded, and bytes are decoded into a
    [PrincipalPermissions].  [None] is an encoding or decoding error. *)
Class PermCodec := {
  json_Marshal : option PrincipalPermissions -> option string;
  json_Unmarshal : string -> option PrincipalPermissions
}.

(** Round trip of the bundles whose strings the encoding preserves (valid
    UTF-8), as [encoding/json] documents it. *)
Class PermCodecLaws (codec : PermCodec) := {
  encodable : PrincipalPermissions -> Prop;
  json_roundtrip : forall p, encodable p ->
    exists b, json_Marshal (Some p) = Some b /\ json_Unmarshal b = Some p
}.

(** The two interface fields may be nil. *)
Record PARCHandlerConfig (W : Type) : Type := {
  cfg_Repository : option (PermissionRepository W);
  cfg_Cache : option (CacheProvider W);
  cfg_GrantTTL : Z
}.
Arguments cfg_Repository {W}. Arguments cfg_Cache {W}. Arguments cfg_GrantTTL {W}.

Record PARCHandler (W : Type) : Type := {
  repo : PermissionRepository W;
  cache : CacheProvider W;
  grantTTL : Z
}.
Arguments repo {W}. Arguments cache {W}. Arguments grantTTL {W}.

(** The package's handlers; [OtherHandler] is a client's implementation of
    the interface, [PARCHandlerPtr] a [*PARCHandler]. *)
Inductive Handler (W : Type) : Type :=
| ScopeRequirementHandler
| RoleRequirementHandler
| UserPresentHandler
| M2MHandler
| CustomRequirementHandler
| PARCHandlerPtr (h : PARCHandler W)
| OtherHandler (f : Principal -> Requirement -> EvaluationContext -> W -> res string bool * W).
Arguments ScopeRequirementHandler {W}. Arguments RoleRequirementHandler {W}.
Arguments UserPresentHandler {W}. Arguments M2MHandler {W}.
Arguments CustomRequirementHandler {W}. Arguments PARCHandlerPtr {W}.
Arguments OtherHandler {W}.

Record AuthorizationResult : Type := { Succeeded : bool; FailureReason : string }.
Definition SuccessResult : AuthorizationResult := {| Succeeded := true; FailureReason := "" |}.
Definition FailedResult (reason : string) : AuthorizationResult :=
  {| Succeeded := false; FailureReason := reason |}.
Definition ToDecision (r : AuthorizationResult) : Decision :=
  {| Allowed := Succeeded r; Reason := FailureReason r |}.
Definition ToResult (d : Decision) : AuthorizationResult :=
  {| Succeeded := Allowed d; FailureReason := Reason d |}.

Record PolicyEngine (W : Type) : Type := {
  policies : gmap string Policy;
  handlers : gmap string (Handler W);
  defaultPolicy : option Policy;
  fallbackPolicy : option Policy
}.
Arguments policies {W}. Arguments handlers {W}.
Arguments defaultPolicy {W}. Arguments fallbackPolicy {W}.

Record AuthorizationOptions : Type := {
  opt_policies : gmap string Policy;
  DefaultPolicy : option Policy;
  FallbackPolicy : option Policy
}.

(** ** Options *)
Definition NewAuthorizationOptions : AuthorizationOptions :=
  {| opt_policies := ∅; DefaultPolicy := None; FallbackPolicy := None |}.

Definition NewOptions : AuthorizationOptions := NewAuthorizationOptions.

Definition AddPolicy (name : string) (policy : Policy) (o : AuthorizationOptions)
  : AuthorizationOptions :=
  {| opt_policies :=
       <[name := {| pol_Name := name; Requirements := Requirements policy |}]> (opt_policies o);
     DefaultPolicy := DefaultPolicy o; FallbackPolicy := FallbackPolicy o |}.

Definition GetPolicy (name : string) (o : AuthorizationOptions) : option Policy :=
  opt_policies o !! name.

(** ** Handlers *)
Section Engine.
Context {W : Type} {codec : PermCodec}.

(** The [Request] that [PARCHandler] and [CustomRequirementHandler] build. *)
Definition parc_request (p : Principal) (a : Action) (r : Resource) (c : PContext) : Request :=
  {| req_Principal := {| pp_ID := Subject p; pp_ClientID := ClientID p; pp_Roles := Roles p;
                         pp_Scopes := Scopes p; pp_AuthMethod := Method p;
                         pp_Attributes := Metadata p |};
     req_Action := a; req_Resource := r; req_Context := c |}.

Definition Scope_Handle (p : Principal) (req : Requirement) : bool :=
  match req with
  | ScopeRequirement scopes requireAll =>
      if requireAll then HasAllScopes (Some p) scopes else HasAnyScope (Some p) scopes
  | _ => false
  end.

Definition Role_Handle (p : Principal) (req : Requirement) : bool :=
  match req with
  | RoleRequirement roles _ => forallb (HasRole (Some p)) roles
  | _ => false
  end.

Definition UserPresent_Handle (p : Principal) : bool := IsUserPresent (Some p).

Definition M2M_Handle (p : Principal) : bool :=
  bool_decide (Method p = AuthMethodClientCredentials)
  || bool_decide (Method p = AuthMethodAPIKey).

Definition Custom_Handle (p : Principal) (req : Requirement) (ev : EvaluationContext) : bool :=
  match req with
  | CustomRequirement _ (Some f) =>
      f (parc_request p (ev_Action ev) (ev_Resource ev) (ev_Context ev))
  | _ => false
  end.

(** [NewPARCHandler]; [mkMemoryCache] is [cache.NewMemoryCacheProvider()]. *)
Definition NewPARCHandler (mkMemoryCache : res string (CacheProvider W))
  (cfg : PARCHandlerConfig W) : res string (PARCHandler W) :=
  match cfg_Repository cfg with
  | None => Err "authz: repository cannot be nil"
  | Some repository =>
      let? c := match cfg_Cache cfg with
                | Some c => Ok c
                | None =>
                    match mkMemoryCache with
                    | Ok c => Ok c
                    | Err e => Err ("authz: failed to initialize default memory cache: " +:+ e)
                    end
                end in
      Ok {| repo := repository; cache := c;
            grantTTL := if bool_decide (cfg_GrantTTL cfg <= 0)%Z then 60000000000%Z
                        else cfg_GrantTTL cfg |}
  end.

(** The key under which a principal's bundle is cached. *)
Definition cacheKey (subject : string) : string := "perm:" +:+ subject.

(** Steps 1 and 2 of [PARCHandler.Handle]: the bundle from the cache, or from
    the repository, which then fills the cache. *)
Definition fetch_permissions (h : PARCHandler W) (subject : string) (w : W)
  : res authz_err (option PrincipalPermissions) * W :=
  let key := cacheKey subject in
  let '(got, w1) := cGet (cache h) key w in
  let cached := match got with Ok bytes => json_Unmarshal bytes | Err _ => None end in
  match cached with
  | Some pRec => (Ok (Some pRec), w1)
  | None =>
      match GetPermissions (repo h) subject w1 with
      | (Err e, w2) => (Err (ErrFetchingPermissions e), w2)
      | (Ok perms, w2) =>
          match json_Marshal perms with
          | Some bytes => (Ok perms, snd (cSet (cache h) key bytes (grantTTL h) w2))
          | None => (Ok perms, w2)
          end
      end
  end.

(** Step 3: the action and resource the requirement narrows. *)
Definition parc_action (action : string) (ev : EvaluationContext) : Action :=
  {| act_Name := if bool_decide (action <> "") then action else act_Name (ev_Action ev);
     act_HTTPMethod := act_HTTPMethod (ev_Action ev) |}.
Definition parc_resource (resourceType : string) (ev : EvaluationContext) : Resource :=
  {| res_Type := if bool_decide (resourceType <> "") && bool_decide (res_Type (ev_Resource ev) = "")
                 then resourceType else res_Type (ev_Resource ev);
     res_ID := res_ID (ev_Resource ev);
     res_TenantID := res_TenantID (ev_Resource ev);
     res_Attributes := res_Attributes (ev_Resource ev) |}.

(** [PARCHandler.Handle] *)
Definition PARC_Handle (h : PARCHandler W) (p : Principal) (req : Requirement)
  (ev : EvaluationContext) (w : W) : res authz_err bool * W :=
  match req with
  | PARCRequirement action resourceType =>
      match fetch_permissions h (Subject p) w with
      | (Err e, w') => (Err e, w')
      | (Ok perms, w') =>
          let pReq := parc_request p (parc_action action ev) (parc_resource resourceType ev)
                        (ev_Context ev) in
          (Ok (Allowed (Evaluate perms pReq)), w')
      end
  | _ => (Ok false, w)
  end.

(** Dynamic dispatch of [RequirementHandler.Handle]. *)
Definition Handle (h : Handler W) (p : Principal) (req : Requirement)
  (ev : EvaluationContext) (w : W) : res authz_err bool * W :=
  match h with
  | ScopeRequirementHandler => (Ok (Scope_Handle p req), w)
  | RoleRequirementHandler => (Ok (Role_Handle p req), w)
  | UserPresentHandler => (Ok (UserPresent_Handle p), w)
  | M2MHandler => (Ok (M2M_Handle p), w)
  | CustomRequirementHandler => (Ok (Custom_Handle p req ev), w)
  | PARCHandlerPtr h => PARC_Handle h p req ev w
  | OtherHandler f =>
      match f p req ev w with
      | (Ok b, w') => (Ok b, w')
      | (Err e, w') => (Err (ErrHandler e), w')
      end
  end.

(** ** The engine *)

(** The five handlers every constructor registers. *)
Definition standard_handlers : gmap string (Handler W) :=
  <["CustomRequirement" := CustomRequirementHandler]>
  (<["M2MRequirement" := M2MHandler]>
  (<["UserPresentRequirement" := UserPresentHandler]>
  (<["RoleRequirement" := RoleRequirementHandler]>
  (<["ScopeRequirement" := ScopeRequirementHandler]> ∅)))).

Definition RegisterPolicy (policy : Policy) (e : PolicyEngine W) : PolicyEngine W :=
  {| policies := <[pol_Name policy := policy]> (policies e); handlers := handlers e;
     defaultPolicy := defaultPolicy e; fallbackPolicy := fallbackPolicy e |}.

Definition RegisterHandler (typ : string) (h : Handler W) (e : PolicyEngine W) : PolicyEngine W :=
  {| policies := policies e; handlers := <[typ := h]> (handlers e);
     defaultPolicy := defaultPolicy e; fallbackPolicy := fallbackPolicy e |}.

(** The accessors [DefaultPolicy()] and [FallbackPolicy()] of the engine. *)
Definition Engine_DefaultPolicy (e : PolicyEngine W) : option Policy := defaultPolicy e.
Definition Engine_FallbackPolicy (e : PolicyEngine W) : option Policy := fallbackPolicy e.

(** The last loop of [NewAuthorizationService]: only a [*PARCHandler] among
    the handlers is registered. *)
Fixpoint register_parc (hs : list (Handler W)) (m : gmap string (Handler W))
  : gmap string (Handler W) :=
  match hs with
  | [] => m
  | PARCHandlerPtr h :: hs' => register_parc hs' (<["PARCRequirement" := PARCHandlerPtr h]> m)
  | _ :: hs' => register_parc hs' m
  end.

Definition NewAuthorizationService (opts : option AuthorizationOptions) (hs : list (Handler W))
  : PolicyEngine W :=
  {| policies :=
       match opts with
       | None => ∅
       | Some o => map_fold (fun _ p m => <[pol_Name p := p]> m) ∅ (opt_policies o)
       end;
     handlers := register_parc hs standard_handlers;
     defaultPolicy := match opts with None => None | Some o => DefaultPolicy o end;
     fallbackPolicy := match opts with None => None | Some o => FallbackPolicy o end |}.

Definition NewService (opts : option AuthorizationOptions) (hs : list (Handler W)) : PolicyEngine W :=
  NewAuthorizationService opts hs.

(** [NewPolicyEngine(parcHandler ...*PARCHandler)]; a nil pointer is [None]. *)
Definition NewPolicyEngine (parcHandler : list (option (PARCHandler W))) : PolicyEngine W :=
  {| policies := ∅;
     handlers := match parcHandler with
                 | Some h :: _ => <["PARCRequirement" := PARCHandlerPtr h]> standard_handlers
                 | _ => standard_handlers
                 end;
     defaultPolicy := None; fallbackPolicy := None |}.

(** The requirement loop of [Evaluate]: the first missing handler, error or
    refusal decides, and the rest is not evaluated. *)
Fixpoint evaluate_reqs (e : PolicyEngine W) (reqs : list Requirement) (p : Principal)
  (ev : EvaluationContext) (w : W) : Decision * option authz_err * W :=
  match reqs with
  | [] => ({| Allowed := true; Reason := "" |}, None, w)
  | req :: reqs' =>
      let reqType := RequirementType req in
      match handlers e !! reqType with
      | None =>
          ({| Allowed := false;
              Reason := "no handler registered for requirement type '" +:+ reqType +:+ "'" |},
           None, w)
      | Some handler =>
          match Handle handler p req ev w with
          | (Err err, w') => ({| Allowed := false; Reason := Error err |}, Some err, w')
          | (Ok false, w') =>
              ({| Allowed := false; Reason := "requirement '" +:+ reqType +:+ "' failed" |},
               None, w')
          | (Ok true, w') => evaluate_reqs e reqs' p ev w'
          end
      end
  end.

(** [PolicyEngine.Evaluate] *)
Definition Engine_Evaluate (e : PolicyEngine W) (policy : Policy) (principal : option Principal)
  (ev : option EvaluationContext) (w : W) : Decision * option authz_err * W :=
  match principal with
  | None => ({| Allowed := false; Reason := "principal is nil" |}, Some ErrNilPrincipal, w)
  | Some p =>
      let ev := match ev with None => zero_EvaluationContext | Some ev => ev end in
      evaluate_reqs e (Requirements policy) p ev w
  end.

(** [PolicyEngine.EvaluatePolicy] *)
Definition EvaluatePolicy (e : PolicyEngine W) (policyName : string) (principal : option Principal)
  (ev : option EvaluationContext) (w : W) : Decision * option authz_err * W :=
  match policies e !! policyName with
  | None => ({| Allowed := false; Reason := "policy '" +:+ policyName +:+ "' not found" |},
             Some ErrPolicyNotFound, w)
  | Some policy => Engine_Evaluate e policy principal ev w
  end.

(** [PolicyEngine.Authorize] *)
Definition Engine_Authorize (e : PolicyEngine W) (principal : option Principal)
  (policyName : string) (ev : option EvaluationContext) (w : W)
  : AuthorizationResult * option authz_err * W :=
  let '(d, err, w') := EvaluatePolicy e policyName principal ev w in (ToResult d, err, w').

(** ** Lemmas *)

(** One requirement is met: its handler is registered and answers yes. *)
Definition satisfied (e : PolicyEngine W) (p : Principal) (ev : EvaluationContext)
  (req : Requirement) (w w' : W) : Prop :=
  exists h, handlers e !! RequirementType req = Some h /\ Handle h p req ev w = (Ok true, w').

(** All requirements are met, each in the world the previous one left. *)
Inductive all_satisfied (e : PolicyEngine W) (p : Principal) (ev : EvaluationContext)
  : list Requirement -> W -> W -> Prop :=
| as_nil w : all_satisfied e p ev [] w w
| as_cons req reqs w w1 w2 :
    satisfied e p ev req w w1 -> all_satisfied e p ev reqs w1 w2 ->
    all_satisfied e p ev (req :: reqs) w w2.

Lemma evaluate_reqs_allowed e reqs p ev w d err w' :
  evaluate_reqs e reqs p ev w = (d, err, w') ->
  (Allowed d = true <-> all_satisfied e p ev reqs w w').
Proof.
  revert w. induction reqs as [|req reqs IH]; intros w; simpl.
  { intros [= <- <- <-]. split; [constructor|done]. }
  destruct (handlers e !! RequirementType req) as [h|] eqn:Eh.
  2:{ intros [= <- <- <-]. simpl. split; [done|]. inversion 1 as [|????? (h & ? & ?)]. congruence. }
  destruct (Handle h p req ev w) as [[[]|e'] w1] eqn:EH.
  - intros Heq. rewrite (IH _ Heq). split.
    + intros Has. econstructor; [|done]. by exists h.
    + inversion 1 as [|????? (h' & ? & ?) ?]; subst; congruence.
  - intros [= <- <- <-]. simpl. split; [done|].
    inversion 1 as [|????? (h' & ? & ?) ?]; subst; congruence.
  - intros [= <- <- <-]. simpl. split; [done|].
    inversion 1 as [|????? (h' & ? & ?) ?]; subst; congruence.
Qed.

Lemma all_satisfied_evaluates e reqs p ev w w' :
  all_satisfied e p ev reqs w w' -> evaluate_reqs e reqs p ev w = ({| Allowed := true; Reason := "" |}, None, w').
Proof. induction 1 as [|req reqs w w1 w2 (h & Hh & HH) _ IH]; simpl; [done|]. by rewrite Hh, HH. Qed.

(** An error is reported only with a refusal. *)
Lemma evaluate_reqs_err e reqs p ev w d err w' :
  evaluate_reqs e reqs p ev w = (d, err, w') -> Allowed d = true -> err = None.
Proof.
  revert w. induction reqs as [|req reqs IH]; intros w; simpl; [by intros [= <- <- <-]|].
  destruct (handlers e !! RequirementType req) as [h|]; [|by intros [= <- <- <-]].
  destruct (Handle h p req ev w) as [[[]|e'] w1]; [apply IH| |]; by intros [= <- <- <-].
Qed.

(** *** Registered handlers *)
Lemma register_parc_ne hs m typ :
  typ <> "PARCRequirement" -> register_parc hs m !! typ = m !! typ.
Proof.
  intros H. revert m. induction hs as [|h hs IH]; intros m; simpl; [done|].
  destruct h; try apply IH. rewrite IH. by rewrite lookup_insert_ne.
Qed.

Definition is_parc (h : Handler W) : bool :=
  match h with PARCHandlerPtr _ => true | _ => false end.

(** The answer to a requirement that needs no repository, spelled out on the
    principal.  A role requirement asks for all its roles: [RequireAll] is not
    read ([role_any_ignored]). *)
Definition req_holds (p : Principal) (ev : EvaluationContext) (req : Requirement) : bool :=
  match req with
  | PARCRequirement _ _ | OtherRequirement _ => false
  | ScopeRequirement scopes true => HasAllScopes (Some p) scopes
  | ScopeRequirement scopes false => HasAnyScope (Some p) scopes
  | RoleRequirement roles _ => forallb (HasRole (Some p)) roles
  | UserPresentRequirement => IsUserPresent (Some p)
  | M2MRequirement =>
      bool_decide (Method p ∈ [AuthMethodClientCredentials; AuthMethodAPIKey])
  | CustomRequirement _ None => false
  | CustomRequirement _ (Some f) =>
      f (parc_request p (ev_Action ev) (ev_Resource ev) (ev_Context ev))
  end.

(** The requirements whose verdict depends on the request only: everything
    but PARC, named custom requirements and client types. *)
Definition pure_req (req : Requirement) : bool :=
  match req with
  | PARCRequirement _ _ | OtherRequirement _ => false
  | CustomRequirement name _ => bool_decide (name = "")
  | _ => true
  end.

Lemma M2M_Handle_spec p :
  M2M_Handle p = bool_decide (Method p ∈ [AuthMethodClientCredentials; AuthMethodAPIKey]).
Proof.
  unfold M2M_Handle. apply eq_true_iff_eq.
  rewrite orb_true_iff, !bool_decide_eq_true, !elem_of_cons, elem_of_nil. tauto.
Qed.

(** What the comments of [policy.go] promise of a requirement: the scopes or
    roles are all held or, unless [RequireAll], one of them is (an empty list
    asks for nothing); the user is present in the PKCE and the device flow; a
    machine has client credentials or an API key; a custom function answers
    yes. *)
Definition req_means (p : Principal) (ev : EvaluationContext) (req : Requirement) : Prop :=
  let held (all : bool) (wanted : list string) (has : string -> Prop) :=
    if all then forall x, x ∈ wanted -> has x else wanted = [] \/ exists x, x ∈ wanted /\ has x in
  match req with
  | PARCRequirement _ _ | OtherRequirement _ => False
  | ScopeRequirement scopes all => held all scopes (fun s => s ∈ Scopes p)
  | RoleRequirement roles all => held all roles (fun r => exists r', r' ∈ Roles p /\ ToLower r' = ToLower r)
  | UserPresentRequirement => Method p = "oauth:auth_code_pkce" \/ Method p = "oauth:device_flow"
  | M2MRequirement => Method p = "oauth:client_credentials" \/ Method p = "api_key"
  | CustomRequirement _ f => exists f', f = Some f' /\
      f' {| req_Principal := {| pp_ID := Subject p; pp_ClientID := ClientID p; pp_Roles := Roles p;
                                pp_Scopes := Scopes p; pp_AuthMethod := Method p;
                                pp_Attributes := Metadata p |};
            req_Action := ev_Action ev; req_Resource := ev_Resource ev;
            req_Context := ev_Context ev |} = true
  end.

(** The pure requirements whose documented meaning the handlers implement: not
    a choice among several roles. *)
Definition honoured_req (req : Requirement) : bool :=
  pure_req req &&
  match req with RoleRequirement roles all => all || (length roles <=? 1)%nat | _ => true end.

Lemma req_holds_means p ev req :
  honoured_req req = true -> req_holds p ev req = true <-> req_means p ev req.
Proof.
  unfold honoured_req. rewrite andb_true_iff. intros [Hp Hr].
  destruct req as [|scopes []|roles all| | |name f|]; try done; unfold req_holds, req_means.
  - by rewrite HasAllScopes_spec.
  - by rewrite HasAnyScope_spec.
  - rewrite forallb_elem_of. setoid_rewrite HasRole_spec. destruct all; [done|]. simpl in Hr.
    destruct roles as [|r [|]]; [set_solver| |done]. split; [intros H; right; exists r; set_solver|].
    intros [?|(x & Hx & H)] y Hy; [done|]. apply list_elem_of_singleton in Hx, Hy. by subst.
  - unfold IsUserPresent. simpl. by rewrite orb_true_iff, !bool_decide_eq_true.
  - rewrite bool_decide_eq_true. rewrite !elem_of_cons, elem_of_nil.
    unfold AuthMethodClientCredentials, AuthMethodAPIKey. tauto.
  - destruct f as [f|]; [|naive_solver]. split; [by exists f|]. by intros (f' & [= <-] & ?).
Qed.

Lemma standard_satisfied e hs p ev req w w' :
  handlers e = register_parc hs standard_handlers -> pure_req req = true ->
  satisfied e p ev req w w' <-> req_holds p ev req = true /\ w' = w.
Proof.
  intros He Hp. unfold satisfied. rewrite He.
  destruct req as [| |roles ra| | |name f|]; simpl in Hp; try done; simpl RequirementType.
  all: try (apply bool_decide_eq_true in Hp; subst name; rewrite bool_decide_false by (intros H; by apply H)).
  all: rewrite register_parc_ne by done; unfold standard_handlers; simplify_map_eq.
  all: split; [intros (h & [= <-] & [= H <-]) | intros [H ->]; eexists; split; [done|]; simpl].
  all: simpl in *; rewrite ?M2M_Handle_spec in *; try (destruct RequireAll); try (destruct f); try done.
  all: try (by rewrite H). by do 2 f_equal.
Qed.

Lemma standard_all_satisfied e hs p ev reqs w w' :
  handlers e = register_parc hs standard_handlers -> forallb pure_req reqs = true ->
  all_satisfied e p ev reqs w w' <-> forallb (req_holds p ev) reqs = true /\ w' = w.
Proof.
  intros He. revert w. induction reqs as [|req reqs IH]; intros w Hp; simpl in *.
  - split; [by inversion 1 | intros [_ ->]; constructor].
  - apply andb_true_iff in Hp as [Hp1 Hp2]. rewrite andb_true_iff. split.
    + inversion 1 as [|????? Hs Ha]; subst.
      apply (standard_satisfied e hs) in Hs as [Hr ->]; [|done|done].
      apply IH in Ha as [? ->]; done.
    + intros [[H1 H2] ->]. econstructor.
      * by apply (standard_satisfied e hs).
      * by apply IH.
Qed.

(** Evaluating pure requirements reports no error and changes nothing. *)
Lemma standard_pure_world e hs reqs p ev w d err w' :
  handlers e = register_parc hs standard_handlers -> forallb pure_req reqs = true ->
  evaluate_reqs e reqs p ev w = (d, err, w') -> err = None /\ w' = w.
Proof.
  intros He. induction reqs as [|req reqs IH]; simpl; [by intros _ [= <- <- <-]|].
  intros [Hp1 Hp2]%andb_true_iff. rewrite He.
  destruct req as [| |roles ra| | |name f|]; simpl in Hp1; try done; simpl RequirementType.
  all: try (apply bool_decide_eq_true in Hp1; subst name;
            rewrite bool_decide_false by (intros H; by apply H)).
  all: rewrite register_parc_ne by done; unfold standard_handlers; simplify_map_eq; simpl.
  all: match goal with |- (if ?b then _ else _) = _ -> _ => destruct b end.
  all: first [by apply IH | by intros [= <- <- <-]].
Qed.

(** *** Policies of the options reach the engine *)
Definition names_agree (m : gmap string Policy) : Prop :=
  forall n p, m !! n = Some p -> pol_Name p = n.

Lemma AddPolicy_names name p o :
  names_agree (opt_policies o) -> names_agree (opt_policies (AddPolicy name p o)).
Proof.
  intros H n q. simpl. destruct (decide (name = n)) as [->|Hne].
  - rewrite lookup_insert_eq. by intros [= <-].
  - rewrite lookup_insert_ne by done. apply H.
Qed.

Lemma names_agree_fold m :
  names_agree m -> map_fold (fun _ p m => <[pol_Name p := p]> m) ∅ m = m.
Proof.
  apply (map_fold_weak_ind
    (fun r m => names_agree m -> r = m)); [done|].
  intros n p m' r Hn IH Ha.
  rewrite (Ha n p) by apply lookup_insert_eq. f_equal. apply IH.
  intros n' q Hq. apply Ha. rewrite lookup_insert_ne; [done|congruence].
Qed.

(** *** The PARC handler over a cache and a repository *)

(** What the handler needs of its environment: a cache that honours the cache
    contract, and a repository whose bundles the cache operations leave
    alone. *)
Class PARCEnv (now : W -> Z) (h : PARCHandler W) := {
  env_cache :: CacheSpec now (cache h);
  bundle : W -> string -> PrincipalPermissions;
  get_bundle : forall s w, GetPermissions (repo h) s w = (Ok (Some (bundle w s)), w);
  bundle_cget : forall k w, bundle (snd (cGet (cache h) k w)) = bundle w;
  bundle_cset : forall k v ttl w, bundle (snd (cSet (cache h) k v ttl w)) = bundle w
}.

Section parc.
Context {laws : PermCodecLaws codec} {now : W -> Z} {h : PARCHandler W} {env : PARCEnv now h}.

(** Every cached bundle is the one the repository holds now. *)
Definition coherent (w : W) : Prop :=
  forall s v e q, view w (cacheKey s) = Some (v, e) -> json_Unmarshal v = Some q ->
    q = bundle w s.

Lemma cacheKey_inj s s' : cacheKey s = cacheKey s' -> s = s'.
Proof. apply str_app_cancel_l. Qed.

Lemma coherent_subset (w w' : W) :
  coherent w -> vsub (view w') (view w) -> bundle w' = bundle w -> coherent w'.
Proof.
  intros Hc Hs Hb s v e q Hv Hq. rewrite Hb. eapply Hc; [|done].
  by apply Hs.
Qed.

Lemma coherent_set w s ttl b r w' :
  coherent w -> json_Unmarshal b = Some (bundle w s) ->
  cSet (cache h) (cacheKey s) b ttl w = (r, w') -> coherent w'.
Proof.
  intros Hc Hj Hset. pose proof (bundle_cset (cacheKey s) b ttl w) as Hb.
  rewrite Hset in Hb. simpl in Hb.
  apply set_spec in Hset as (_ & e0 & _ & [Hsub|[_ Hsub]]); [|by eapply coherent_subset].
  intros s' v e q Hv Hq. rewrite Hb. apply Hsub in Hv. unfold vset in Hv.
  case_decide as Hk; [apply cacheKey_inj in Hk; subst; congruence|]. by eapply Hc.
Qed.

Lemma fetch_coherent s w r w' :
  coherent w -> encodable (bundle w s) ->
  fetch_permissions h s w = (r, w') ->
  r = Ok (Some (bundle w s)) /\ coherent w' /\ bundle w' = bundle w.
Proof.
  intros Hc Henc. unfold fetch_permissions.
  pose proof (bundle_cget (cacheKey s) w) as Hb1.
  destruct (cGet (cache h) (cacheKey s) w) as [got w1] eqn:Eg. simpl in Hb1.
  apply get_spec in Eg as (_ & Hsub & Hgot).
  assert (Hc1 : coherent w1) by (by eapply coherent_subset).
  destruct (match got with Ok bytes => json_Unmarshal bytes | Err _ => None end)
    as [q|] eqn:Eq.
  - intros [= <- <-]. split_and!; [|done|done]. destruct got as [v|]; [|done].
    destruct (Hgot v eq_refl) as (e & Hv & _). do 2 f_equal. by eapply Hc.
  - rewrite get_bundle, Hb1.
    destruct (json_roundtrip (bundle w s) Henc) as (b & -> & Hb).
    intros [= <- <-]. destruct (cSet (cache h) (cacheKey s) b (grantTTL h) w1) as [r' w2] eqn:Es.
    pose proof (bundle_cset (cacheKey s) b (grantTTL h) w1) as Hb2. rewrite Es in Hb2. simpl in *.
    split_and!; [done| |congruence]. eapply coherent_set; [exact Hc1| |exact Es].
    by rewrite Hb1.
Qed.

End parc.

(** ** Properties *)

(** C3: fail closed and AND logic, for every engine.  Evaluation allows
    exactly when there is a principal, no error is reported and each
    requirement of the policy, taken in order in the world its predecessors
    left, has a registered handler that answers yes.  A missing handler, a
    handler error and a refusal all deny. *)
Theorem evaluate_allows_iff e policy principal ev w d err w' :
  Engine_Evaluate e policy principal ev w = (d, err, w') ->
  Allowed d = true <->
  exists p, principal = Some p /\ err = None /\
    all_satisfied e p (default zero_EvaluationContext ev) (Requirements policy) w w'.
Proof.
  unfold Engine_Evaluate. destruct principal as [p|].
  - intros H. split.
    + intros Hd. exists p. split_and!; [done|by eapply evaluate_reqs_err|].
      by apply (evaluate_reqs_allowed _ _ _ _ _ _ _ _ H).
    + intros (p' & [= <-] & _ & Ha). by apply (evaluate_reqs_allowed _ _ _ _ _ _ _ _ H).
  - intros [= <- <- <-]. split; [done|]. by intros (p & ? & _).
Qed.

(** C4: an engine built by [NewAuthorizationService] decides a policy of
    scope, role, user-present, M2M and unnamed custom requirements from the
    principal and the request alone: it allows exactly when every requirement
    holds as the package documents it, reports no error and touches neither
    cache nor repository.  Excluded is a role requirement that asks for one of
    several roles, which the handler does not honour. *)
Theorem pure_policy_decision opts hs policy p ev w d err w' :
  forallb honoured_req (Requirements policy) = true ->
  Engine_Evaluate (NewAuthorizationService opts hs) policy (Some p) ev w = (d, err, w') ->
  (Allowed d = true <->
   Forall (req_means p (default zero_EvaluationContext ev)) (Requirements policy)) /\
  err = None /\ w' = w.
Proof.
  intros Hh H. unfold Engine_Evaluate in H. rewrite forallb_elem_of in Hh.
  assert (Hp : forallb pure_req (Requirements policy) = true).
  { apply forallb_elem_of. intros x Hx. specialize (Hh x Hx). unfold honoured_req in Hh.
    by apply andb_true_iff in Hh as [? _]. }
  destruct (standard_pure_world (NewAuthorizationService opts hs) hs _ _ _ _ _ _ _ eq_refl Hp H) as [-> ->].
  split; [|done]. rewrite (evaluate_reqs_allowed _ _ _ _ _ _ _ _ H).
  rewrite (standard_all_satisfied _ hs), forallb_elem_of, Forall_forall by done. split.
  - intros [Ha _] x Hx. apply req_holds_means; auto.
  - intros Ha. split; [|done]. intros x Hx. apply req_holds_means; auto.
Qed.

(** [RoleRequirement.RequireAll] is not read: a requirement for any of several
    roles is refused like one for all of them. *)
Theorem role_any_ignored opts hs name roles p ev w :
  (Engine_Evaluate (NewAuthorizationService opts hs)
     {| pol_Name := name; Requirements := [RoleRequirement roles false] |} (Some p) ev w) =
  (Engine_Evaluate (NewAuthorizationService opts hs)
     {| pol_Name := name; Requirements := [RoleRequirement roles true] |} (Some p) ev w).
Proof.
  simpl. rewrite register_parc_ne by done. unfold standard_handlers. by simplify_map_eq.
Qed.

(** As long as the cached bundles agree with the repository, the PARC
    handler answers what evaluating the repository's bundle answers, whether
    the bundle came from the cache or not, and its own cache write keeps the
    agreement. *)
Theorem parc_handle_coherent {laws : PermCodecLaws codec} {now : W -> Z} {h : PARCHandler W}
  {env : PARCEnv now h} p action resourceType ev w r w' :
  coherent w -> encodable (bundle w (Subject p)) ->
  PARC_Handle h p (PARCRequirement action resourceType) ev w = (r, w') ->
  r = Ok (Allowed (Evaluate (Some (bundle w (Subject p)))
        (parc_request p (parc_action action ev) (parc_resource resourceType ev) (ev_Context ev)))) /\
  coherent w' /\ bundle w' = bundle w.
Proof.
  intros Hc He. simpl. destruct (fetch_permissions h (Subject p) w) as [f w1] eqn:Ef.
  apply fetch_coherent in Ef as (-> & Hc' & Hb); [|done|done].
  by intros [= <- <-].
Qed.

(** the policies added to the options are the policies of the engine: a
    service built from options that were filled by [AddPolicy] finds under
    each name exactly what [GetPolicy] finds there. *)
Theorem service_has_option_policies (adds : list (string * Policy)) hs name :
  let o := foldl (fun o np => AddPolicy np.1 np.2 o) NewAuthorizationOptions adds in
  policies (NewAuthorizationService (Some o) hs) !! name = GetPolicy name o.
Proof.
  assert (forall o, names_agree (opt_policies o) ->
    names_agree (opt_policies (foldl (fun o np => AddPolicy np.1 np.2 o) o adds))) as H.
  { induction adds as [|[n q] adds IH]; intros o Ho; simpl; [done|].
    by apply IH, AddPolicy_names. }
  unfold GetPolicy. simpl. rewrite names_agree_fold; [done|]. by apply H.
Qed.

(** of the handlers given to [NewAuthorizationService] only PARC handlers
    count: a handler written by a client is dropped, so a policy that starts
    with a client's requirement is refused for want of a handler, whatever
    handlers were passed. *)
Theorem client_handlers_dropped opts hs typ reqs p ev w :
  typ ∉ ["ScopeRequirement"; "RoleRequirement"; "UserPresentRequirement"; "M2MRequirement";
         "CustomRequirement"; "PARCRequirement"] ->
  Engine_Evaluate (NewAuthorizationService opts hs)
    {| pol_Name := "client"; Requirements := OtherRequirement typ :: reqs |} (Some p) ev w =
  ({| Allowed := false;
      Reason := "no handler registered for requirement type '" +:+ typ +:+ "'" |}, None, w).
Proof.
  intros Hn. simpl. rewrite register_parc_ne by set_solver.
  unfold standard_handlers. rewrite !lookup_insert_ne by set_solver.
  by rewrite lookup_empty.
Qed.

End Engine.

(** ** A concrete codec

    One field per line: an instance of [PermCodecLaws] for the bundles whose
    fields contain no newline. *)
Module LineCodec.

Definition nl : ascii := ascii_of_nat 10.

Definition rule_fields (r : PermissionRule) : list string :=
  [ActionPattern r; ResourceType r; ResourceIDPattern r; TenantID r; Effect r].

Fixpoint read_rules (l : list string) : option (list PermissionRule) :=
  match l with
  | [] => Some []
  | a :: t :: i :: n :: e :: l' =>
      match read_rules l' with
      | Some rs => Some ({| ActionPattern := a; ResourceType := t; ResourceIDPattern := i;
                            TenantID := n; Effect := e |} :: rs)
      | None => None
      end
  | _ => None
  end.

Definition fields (p : PrincipalPermissions) : list string :=
  PrincipalID p :: concat (map rule_fields (Rules p)).

#[export] Instance line_codec : PermCodec := {|
  json_Marshal p := match p with
                    | Some p => Some (Join (fields p) (String nl ""))
                    | None => None
                    end;
  json_Unmarshal b := match Split nl b with
                      | id :: l => match read_rules l with
                                   | Some rs => Some {| PrincipalID := id; Rules := rs |}
                                   | None => None
                                   end
                      | [] => None
                      end
|}.

Lemma read_rules_concat rs : read_rules (concat (map rule_fields rs)) = Some rs.
Proof. induction rs as [|[] rs IH]; simpl; [done|]. by rewrite IH. Qed.

#[export] Instance line_codec_laws : PermCodecLaws line_codec.
Proof.
  refine {| encodable p := Forall (fun f => no_char nl f = true) (fields p) |}.
  intros [id rs] Hp. eexists. split; [done|]. simpl.
  unfold fields in *. simpl in *. rewrite Split_Join by done.
  by rewrite read_rules_concat.
Defined.

End LineCodec.

(** ** Witnesses *)
Module EngineWitness.
Import LineCodec.

Definition alice : Principal :=
  {| Subject := "alice"; ClientID := ""; Method := AuthMethodAuthCodePKCE;
     Scopes := ["read:reports"]; Roles := ["Editor"]; Issuer := ""; Audiences := [];
     IssuedAt := None; ExpiresAt := None; Metadata := ∅; RawToken := "" |}.

Definition handler : PARCHandler World :=
  {| repo := memory_repo; cache := cache1; grantTTL := 60000000000 |}.

#[export] Instance handler_env : PARCEnv clock handler.
Proof.
  refine {| env_cache := TTLCache_spec clock lens1 : CacheSpec clock (cache handler);
            bundle w s := MemoryPermissionRepository.GetPermissions s (perms w) |}.
  - done.
  - intros k w. simpl. unfold ttl_Get. by repeat case_match.
  - intros k v ttl w. simpl. unfold ttl_Set. by case_match.
Defined.

Definition world1 : World :=
  set_perms {["alice" := [sample_rule "permit" ""]]} empty_world.

Definition ev1 : EvaluationContext :=
  {| ev_Resource := {| res_Type := ""; res_ID := "rep_1"; res_TenantID := "";
                       res_Attributes := ∅ |};
     ev_Action := {| act_Name := "GET"; act_HTTPMethod := "GET" |};
     ev_Context := zero_Context |}.

Definition engine1 : PolicyEngine World :=
  NewAuthorizationService (Some NewAuthorizationOptions) [PARCHandlerPtr handler].

Definition policy1 : Policy :=
  RequirePARC "read" "report" (RequireRole ["editor"] (RequireScope ["read:reports"] (NewPolicy "p"))).

Lemma evaluate_allows_iff_witness :
  exists w', all_satisfied engine1 alice ev1 (Requirements policy1) world1 w'.
Proof.
  assert (Ha : Allowed (Engine_Evaluate engine1 policy1 (Some alice) (Some ev1) world1).1.1 = true)
    by (vm_compute; reflexivity).
  destruct (Engine_Evaluate engine1 policy1 (Some alice) (Some ev1) world1) as [[d err] w'] eqn:E.
  apply (evaluate_allows_iff _ _ _ _ _ _ _ _ E) in Ha as (p & Hp & _ & H).
  exists w'. injection Hp as <-. exact H.
Defined.

Lemma pure_policy_decision_witness :
  Allowed (Engine_Evaluate engine1 (RequireUser (RequireRole ["EDITOR"] (NewPolicy "p")))
             (Some alice) None world1).1.1 = true.
Proof.
  destruct (Engine_Evaluate engine1 (RequireUser (RequireRole ["EDITOR"] (NewPolicy "p")))
             (Some alice) None world1) as [[d err] w'] eqn:E.
  destruct (pure_policy_decision (Some NewAuthorizationOptions) [PARCHandlerPtr handler]
              (RequireUser (RequireRole ["EDITOR"] (NewPolicy "p"))) alice None world1 d err w'
              eq_refl E) as [H _].
  simpl. apply H. repeat apply Forall_cons_2; [| |apply Forall_nil_2].
  - intros x Hx. apply list_elem_of_singleton in Hx. subst x. exists "Editor".
    split; [left|vm_compute; reflexivity].
  - left. reflexivity.
Defined.

(** An editor is refused where an editor or an auditor is asked for. *)
Example role_any_refused :
  Allowed (Engine_Evaluate engine1
    {| pol_Name := "p"; Requirements := [RoleRequirement ["editor"; "auditor"] false] |}
    (Some alice) None world1).1.1 = false.
Proof. vm_compute. reflexivity. Qed.

Lemma parc_handle_coherent_witness :
  exists w', PARC_Handle handler alice (PARCRequirement "read" "report") ev1 world1 = (Ok true, w').
Proof.
  destruct (PARC_Handle handler alice (PARCRequirement "read" "report") ev1 world1) as [r w'] eqn:E.
  exists w'.
  destruct (parc_handle_coherent (h := handler) alice "read" "report" ev1 world1 r w') as [-> _].
  - intros s v e q Hv. vm_compute in Hv. discriminate.
  - vm_compute. repeat constructor.
  - exact E.
  - f_equal.
Defined.

Lemma client_handlers_dropped_witness :
  (Engine_Evaluate (NewAuthorizationService None [OtherHandler (fun _ _ _ w => (Ok true, w))])
     {| pol_Name := "client"; Requirements := [OtherRequirement "MinimumAge"] |}
     (Some alice) None empty_world).1.1 =
  {| Allowed := false; Reason := "no handler registered for requirement type 'MinimumAge'" |}.
Proof.
  rewrite (client_handlers_dropped (W := World)); [reflexivity|].
  intros H. repeat (apply elem_of_cons in H as [H|H]; [discriminate|]).
  by apply not_elem_of_nil in H.
Defined.

End EngineWitness.
