(* ===== verification/AuthzCache.v ===== *)
(** * Cache providers of the authorization layer: [authz/cache/redis.go] and
    [authz/cache/tiered.go]

    The Redis provider over a client parameter, and the two-tier provider over
    any two providers.  The tiered provider is then run as a transition system
    in which the parts of its operations interleave: lookups and fills, the two
    writes of a [Set], deletes, revocation messages, other processes and the
    passage of time. *)
From S2P Require Import Prelude GoStrings CacheIface RefWorld.

Local Open Scope string_scope.
Local Open Scope Z_scope.
Local Open Scope list_scope.

(** ** The Redis provider *)
Module Redis.

(** The commands of [redis.UniversalClient] the provider issues.  [RedisNil]
    is [redis.Nil]. *)
Inductive redis_err : Type := RedisNil | RedisError (msg : string).

Record Client (W : Type) : Type := {
  r_Get : string -> W -> res redis_err string * W;
  r_Set : string -> string -> Z -> W -> option string * W;
  r_Del : string -> W -> option string * W;
  r_Publish : string -> string -> W -> option string * W;
  r_Close : W -> option string * W
}.
Arguments r_Get {W}. Arguments r_Set {W}. Arguments r_Del {W}.
Arguments r_Publish {W}. Arguments r_Close {W}.

Definition DefaultRevocationChannel : string := "authz:revocations".

Record RedisCacheConfig (W : Type) : Type := {
  cfg_Client : option (Client W);
  cfg_KeyPrefix : string;
  cfg_RevocationChannel : string
}.
Arguments cfg_Client {W}. Arguments cfg_KeyPrefix {W}. Arguments cfg_RevocationChannel {W}.

Record RedisCacheProvider (W : Type) : Type := {
  client : option (Client W);
  prefix : string;
  channel : string
}.
Arguments client {W}. Arguments prefix {W}. Arguments channel {W}.

Section redis.
Context {W : Type}.

Definition NewRedisCacheProvider (cfg : RedisCacheConfig W) : RedisCacheProvider W :=
  {| client := cfg_Client cfg; prefix := cfg_KeyPrefix cfg;
     channel := if bool_decide (cfg_RevocationChannel cfg = "") then DefaultRevocationChannel
                else cfg_RevocationChannel cfg |}.

Definition formatKey (r : RedisCacheProvider W) (key : string) : string :=
  if bool_decide (prefix r = "") then key else prefix r +:+ ":" +:+ key.

(** [Cmd.Err()] as an [error]. *)
Definition as_err (e : option string) : cerr :=
  match e with None => None | Some m => Some (ErrBackend m) end.

Definition Get (c : Client W) (r : RedisCacheProvider W) (key : string) (w : W)
  : res cache_err string * W :=
  if bool_decide (key = "") then (Err ErrInvalidKey, w) else
  match r_Get c (formatKey r key) w with
  | (Err RedisNil, w') => (Err ErrCacheMiss, w')
  | (Err (RedisError m), w') => (Err (ErrBackend m), w')
  | (Ok val, w') => (Ok val, w')
  end.

Definition Set_ (c : Client W) (r : RedisCacheProvider W) (key value : string) (ttl : Z) (w : W)
  : cerr * W :=
  if bool_decide (key = "") then (Some ErrInvalidKey, w) else
  let '(e, w') := r_Set c (formatKey r key) value ttl w in (as_err e, w').

Definition Delete (c : Client W) (r : RedisCacheProvider W) (key : string) (w : W) : cerr * W :=
  if bool_decide (key = "") then (Some ErrInvalidKey, w) else
  let '(e, w') := r_Del c (formatKey r key) w in (as_err e, w').

Definition Close (r : RedisCacheProvider W) (w : W) : cerr * W :=
  match client r with
  | Some c => let '(e, w') := r_Close c w in (as_err e, w')
  | None => (None, w)
  end.

Definition PublishRevocation (c : Client W) (r : RedisCacheProvider W) (principalID : string)
  (w : W) : cerr * W :=
  if bool_decide (principalID = "")
  then (Some (ErrBackend "cache: principalID cannot be empty"), w)
  else let '(e, w') := r_Publish c (channel r) principalID w in (as_err e, w').

(** The provider as a [CacheProvider], over its non-nil client. *)
Definition provider (c : Client W) (r : RedisCacheProvider W) : CacheProvider W :=
  {| cGet := Get c r; cSet := Set_ c r; cDelete := Delete c r; cClose := Close r |}.

Lemma formatKey_inj r k k' : formatKey r k = formatKey r k' -> k = k'.
Proof.
  unfold formatKey. case_bool_decide; [done|]. intros E.
  apply str_app_cancel_l in E. by injection E.
Qed.

End redis.

(** What the provider relies on of the server: GET serves a live value or
    answers Nil, SET stores under the key, DEL removes it.  A failed command
    may or may not have been executed. *)
Class ClientSpec {W} (now : W -> Z) (c : Client W) := {
  rview : W -> cache_view;
  r_get_spec : forall k w r w', r_Get c k w = (r, w') ->
    now w' = now w /\ vsub (rview w') (rview w) /\
    (forall v, r = Ok v -> exists e, rview w k = Some (v, e) /\ live (now w) e);
  r_set_spec : forall k v ttl w r w', r_Set c k v ttl w = (r, w') ->
    now w' = now w /\
    exists e, (0 < ttl -> e = Some (now w + ttl)) /\
      (vsub (rview w') (vset k (v, e) (rview w)) \/ (r <> None /\ vsub (rview w') (rview w)));
  r_del_spec : forall k w r w', r_Del c k w = (r, w') ->
    now w' = now w /\ vsub (rview w') (rview w) /\ (r = None -> rview w' k = None)
}.

(** The provider meets the cache contract: prefixing is injective, so what it
    stores is the server's content read through [formatKey]. *)
#[export] Instance provider_spec {W} (now : W -> Z) (c : Client W) `{!ClientSpec now c}
  (r : RedisCacheProvider W) : CacheSpec now (provider c r).
Proof.
  refine {| view w k := rview w (formatKey r k) |}.
  - intros k w x w'. simpl. unfold Get. case_bool_decide.
    { intros [= <- <-]. by split_and!. }
    destruct (r_Get c (formatKey r k) w) as [y w1] eqn:E.
    apply r_get_spec in E as (Hn & Hs & Hv).
    assert (Hx : forall v, x = Ok v -> y = Ok v -> exists e,
              rview w (formatKey r k) = Some (v, e) /\ live (now w) e) by naive_solver.
    intros Heq. destruct y as [v|[]]; simplify_eq; split_and!; try done;
      try (intros k' z; apply Hs). intros v' [= <-]. by apply Hv.
  - intros k v ttl w x w'. simpl. unfold Set_. case_bool_decide.
    { intros [= <- <-]. split; [done|]. exists (Some (now w + ttl)). split; [done|]. by right. }
    destruct (r_Set c (formatKey r k) v ttl w) as [y w1] eqn:E.
    apply r_set_spec in E as (Hn & e & He & Hs). intros [= <- <-]. split; [done|].
    exists e. split; [done|]. destruct Hs as [Hs|[Hy Hs]]; [left|right].
    + intros k' z Hz. apply Hs in Hz. unfold vset in *.
      destruct (decide (k' = k)) as [->|Hne]; [by rewrite decide_True in Hz|].
      rewrite decide_False in Hz by (by intros ?%formatKey_inj). done.
    + split; [by destruct y|]. intros k' z. apply Hs.
  - intros k w x w'. simpl. unfold Delete. case_bool_decide.
    { intros [= <- <-]. by split_and!. }
    destruct (r_Del c (formatKey r k) w) as [y w1] eqn:E.
    apply r_del_spec in E as (Hn & Hs & Hd). intros [= <- <-]. split_and!; [done| |].
    + intros k' z. apply Hs.
    + intros Hy. apply Hd. by destruct y.
Defined.

End Redis.

(** ** The tiered provider *)
Module Tiered.

Record TieredCacheProvider (W : Type) : Type := {
  l1 : CacheProvider W;
  l2 : CacheProvider W;
  bus : option (InvalidationBus W);
  l1TTL : Z;
  keyFormatter : string -> string
}.
Arguments l1 {W}. Arguments l2 {W}. Arguments bus {W}.
Arguments l1TTL {W}. Arguments keyFormatter {W}.

(** [cfg_L2_bus] is [cfg.L2.(InvalidationBus)]. *)
Record TieredCacheConfig (W : Type) : Type := {
  cfg_L1 : option (CacheProvider W);
  cfg_L2 : option (CacheProvider W);
  cfg_L2_bus : option (InvalidationBus W);
  cfg_InvalidationBus : option (InvalidationBus W);
  cfg_L1TTL : Z;
  cfg_KeyFormatter : option (string -> string)
}.
Arguments cfg_L1 {W}. Arguments cfg_L2 {W}. Arguments cfg_L2_bus {W}.
Arguments cfg_InvalidationBus {W}. Arguments cfg_L1TTL {W}. Arguments cfg_KeyFormatter {W}.

Section ops.
Context {W : Type}.

(** [NewTieredCacheProvider]: defaults, and the listener's subscription when
    there is a bus. *)
Definition NewTieredCacheProvider (cfg : TieredCacheConfig W) (w : W)
  : res cache_err (TieredCacheProvider W) * W :=
  match cfg_L1 cfg, cfg_L2 cfg with
  | None, _ => (Err (ErrBackend "cache: L1 cache provider cannot be nil"), w)
  | _, None => (Err (ErrBackend "cache: L2 cache provider cannot be nil"), w)
  | Some c1, Some c2 =>
      let b := match cfg_InvalidationBus cfg with
               | Some b => Some b
               | None => cfg_L2_bus cfg
               end in
      let t := {| l1 := c1; l2 := c2; bus := b;
                  l1TTL := if bool_decide (cfg_L1TTL cfg <= 0) then 60000000000
                           else cfg_L1TTL cfg;
                  keyFormatter := match cfg_KeyFormatter cfg with
                                  | Some f => f
                                  | None => fun principalID => "perm:" +:+ principalID
                                  end |} in
      match b with
      | None => (Ok t, w)
      | Some b =>
          match bSubscribeRevocations b w with
          | (Ok _, w') => (Ok t, w')
          | (Err err, w') => (Err err, w')
          end
      end
  end.

(** One message of the revocation listener. *)
Definition listener_recv (t : TieredCacheProvider W) (principalID : string) (w : W) : W :=
  snd (cDelete (l1 t) (keyFormatter t principalID) w).

(** The two halves of [Get]: the lookup in L1 then L2, which says whether the
    value came from L2, and the L1 fill after an L2 hit. *)
Definition get_read (t : TieredCacheProvider W) (key : string) (w : W)
  : res cache_err string * bool * W :=
  match cGet (l1 t) key w with
  | (Ok val, w1) => (Ok val, false, w1)
  | (Err _, w1) =>
      match cGet (l2 t) key w1 with
      | (Err err, w2) => (Err err, false, w2)
      | (Ok val, w2) => (Ok val, true, w2)
      end
  end.
Definition get_fill (t : TieredCacheProvider W) (key val : string) (w : W) : W :=
  snd (cSet (l1 t) key val (l1TTL t) w).

Definition Get (t : TieredCacheProvider W) (key : string) (w : W) : res cache_err string * W :=
  match get_read t key w with
  | (Ok val, true, w') => (Ok val, get_fill t key val w')
  | (r, _, w') => (r, w')
  end.

Definition set_l1TTL (t : TieredCacheProvider W) (ttl : Z) : Z :=
  if bool_decide (0 < ttl) && bool_decide (ttl < l1TTL t) then ttl else l1TTL t.

(** The two halves of [Set]: the write of L1, whose error is dropped, and the
    write of L2. *)
Definition set_first (t : TieredCacheProvider W) (key value : string) (ttl : Z) (w : W) : W :=
  snd (cSet (l1 t) key value (set_l1TTL t ttl) w).
Definition set_rest (t : TieredCacheProvider W) (key value : string) (ttl : Z) (w : W) : cerr * W :=
  cSet (l2 t) key value ttl w.

Definition Set_ (t : TieredCacheProvider W) (key value : string) (ttl : Z) (w : W) : cerr * W :=
  set_rest t key value ttl (set_first t key value ttl w).

Definition Delete (t : TieredCacheProvider W) (key : string) (w : W) : cerr * W :=
  let '(_, w1) := cDelete (l1 t) key w in cDelete (l2 t) key w1.

Definition PublishRevocation (t : TieredCacheProvider W) (principalID : string) (w : W)
  : cerr * W :=
  let targetKey := keyFormatter t principalID in
  let '(_, w1) := cDelete (l1 t) targetKey w in
  let '(_, w2) := cDelete (l2 t) targetKey w1 in
  match bus t with
  | Some b => bPublishRevocation b principalID w2
  | None => (None, w2)
  end.

(** The run-time state of a provider: whether its listener goroutine runs, and
    whether the [sync.Once] of [Close] fired. *)
Record lifecycle : Type := { listening : bool; closed : bool }.

(** [Close]: cancel and wait for the listener, then close both tiers; the
    second and later calls do nothing. *)
Definition Close (t : TieredCacheProvider W) (lc : lifecycle) (w : W) : cerr * lifecycle * W :=
  if closed lc then (None, lc, w) else
  let '(err1, w1) := cClose (l1 t) w in
  let '(err2, w2) := cClose (l2 t) w1 in
  (match err1 with Some e => Some e | None => err2 end,
   {| listening := false; closed := true |}, w2).

End ops.

(** *** The environment: two tiers that do not share entries *)
Class TieredEnv {W} (now : W -> Z) (t : TieredCacheProvider W) := {
  spec1 :: CacheSpec now (l1 t) | 0;
  spec2 :: CacheSpec now (l2 t) | 0;
  frame_get1 : forall k w, view (C := l2 t) (snd (cGet (l1 t) k w)) = view (C := l2 t) w;
  frame_set1 : forall k v ttl w,
    view (C := l2 t) (snd (cSet (l1 t) k v ttl w)) = view (C := l2 t) w;
  frame_del1 : forall k w, view (C := l2 t) (snd (cDelete (l1 t) k w)) = view (C := l2 t) w;
  frame_get2 : forall k w, view (C := l1 t) (snd (cGet (l2 t) k w)) = view (C := l1 t) w;
  frame_set2 : forall k v ttl w,
    view (C := l1 t) (snd (cSet (l2 t) k v ttl w)) = view (C := l1 t) w;
  frame_del2 : forall k w, view (C := l1 t) (snd (cDelete (l2 t) k w)) = view (C := l1 t) w;
  frame_bus : forall b p w, bus t = Some b ->
    let w' := snd (bPublishRevocation b p w) in
    now w' = now w /\ view (C := l1 t) w' = view (C := l1 t) w /\
    view (C := l2 t) w' = view (C := l2 t) w
}.

Section spec.
Context {W : Type} {now : W -> Z} {t : TieredCacheProvider W} {env : TieredEnv now t}.

Abbreviation view1 := (view (C := l1 t)).
Abbreviation view2 := (view (C := l2 t)).

(** What each operation does to the two views. *)
Lemma get_read_spec k w r hit w' :
  get_read t k w = (r, hit, w') ->
  now w' = now w /\ vsub (view1 w') (view1 w) /\ vsub (view2 w') (view2 w) /\
  (forall v, r = Ok v -> exists e,
     (if hit then view2 w k else view1 w k) = Some (v, e) /\ live (now w) e).
Proof.
  unfold get_read. pose proof (frame_get1 k w) as F1.
  destruct (cGet (l1 t) k w) as [r1 w1] eqn:E1. simpl in F1.
  apply get_spec in E1 as (N1 & S1 & V1). destruct r1 as [v1|e1].
  { intros [= <- <- <-]. rewrite F1. split_and!; try done. }
  pose proof (frame_get2 k w1) as F2.
  destruct (cGet (l2 t) k w1) as [r2 w2] eqn:E2. simpl in F2.
  apply get_spec in E2 as (N2 & S2 & V2). rewrite F1, N1 in *.
  destruct r2 as [v2|e2]; intros [= <- <- <-]; rewrite F2; split_and!; try done; congruence.
Qed.

Lemma fill_spec k v w :
  let w' := get_fill t k v w in
  now w' = now w /\ view2 w' = view2 w /\
  exists e, (0 < l1TTL t -> e = Some (now w + l1TTL t)) /\
    (vsub (view1 w') (vset k (v, e) (view1 w)) \/ vsub (view1 w') (view1 w)).
Proof.
  simpl. unfold get_fill. pose proof (frame_set1 k v (l1TTL t) w) as F.
  destruct (cSet (l1 t) k v (l1TTL t) w) as [r w'] eqn:E. simpl in *.
  apply set_spec in E as (N & e & He & [S|[_ S]]); split_and!; try done; exists e; eauto.
Qed.

Lemma set_first_spec k v ttl w :
  let w' := set_first t k v ttl w in
  now w' = now w /\ view2 w' = view2 w /\
  exists e, (0 < set_l1TTL t ttl -> e = Some (now w + set_l1TTL t ttl)) /\
    (vsub (view1 w') (vset k (v, e) (view1 w)) \/ vsub (view1 w') (view1 w)).
Proof.
  simpl. unfold set_first. pose proof (frame_set1 k v (set_l1TTL t ttl) w) as F.
  destruct (cSet (l1 t) k v (set_l1TTL t ttl) w) as [r w'] eqn:E. simpl in *.
  apply set_spec in E as (N & e & He & [S|[_ S]]); split_and!; try done; exists e; eauto.
Qed.

Lemma set_rest_spec k v ttl w :
  let w' := snd (set_rest t k v ttl w) in
  now w' = now w /\ view1 w' = view1 w /\
  exists e, (0 < ttl -> e = Some (now w + ttl)) /\
    (vsub (view2 w') (vset k (v, e) (view2 w)) \/ vsub (view2 w') (view2 w)).
Proof.
  simpl. unfold set_rest. pose proof (frame_set2 k v ttl w) as F.
  destruct (cSet (l2 t) k v ttl w) as [r w'] eqn:E. simpl in *.
  apply set_spec in E as (N & e & He & [S|[_ S]]); split_and!; try done; exists e; eauto.
Qed.

Lemma delete1_spec k w :
  let w' := snd (cDelete (l1 t) k w) in
  now w' = now w /\ vsub (view1 w') (view1 w) /\ view2 w' = view2 w /\
  (fst (cDelete (l1 t) k w) = None -> view1 w' k = None).
Proof.
  simpl. pose proof (frame_del1 k w) as F.
  destruct (cDelete (l1 t) k w) as [r w'] eqn:E. simpl in *.
  by apply delete_spec in E as (? & ? & ?).
Qed.
Lemma delete2_spec k w :
  let w' := snd (cDelete (l2 t) k w) in
  now w' = now w /\ vsub (view2 w') (view2 w) /\ view1 w' = view1 w /\
  (fst (cDelete (l2 t) k w) = None -> view2 w' k = None).
Proof.
  simpl. pose proof (frame_del2 k w) as F.
  destruct (cDelete (l2 t) k w) as [r w'] eqn:E. simpl in *.
  by apply delete_spec in E as (? & ? & ?).
Qed.

(** *** Runs

    No lock spans the calls to the two tiers, so a run interleaves the parts of
    the operations: the lookups of a [Get] and, after a hit in L2, its fill of
    L1; the two writes of a [Set]; the two deletes of a [Delete] or of a
    [PublishRevocation] and its message; the deletes of the listener; the writes
    and deletes of other processes in L2; the passage of time and evictions.  A
    [Set] is an event: key, value, time and ttl. *)
Record event : Type := { ev_key : string; ev_val : string; ev_time : Z; ev_ttl : Z }.

(** The world, the fills under way (key, value, time of the L2 lookup) and the
    [Set]s whose write of L2 is under way. *)
Record tstate : Type := {
  tw : W;
  tfills : list (string * string * Z);
  tsets : list event
}.
Definition with_tw (w : W) (s : tstate) : tstate :=
  {| tw := w; tfills := tfills s; tsets := tsets s |}.

Inductive label : Type :=
| LRead (k : string) | LRead2 (k : string) | LFill (k v : string)
| LSet (ev : event) | LSetRest (ev : event) | LDelete1 (k : string) | LDelete2 (k : string)
| LPublish (p : string) | LListen (p : string) | LRemoteSet (ev : event) | LEnv.

(** After the lookups of a [Get]: a value of L2 is to be filled into L1. *)
Definition looked_up (k : string) (answer : res cache_err string * bool * W) (s : tstate) : tstate :=
  match answer with
  | (Ok v, true, w') => {| tw := w'; tfills := (k, v, now w') :: tfills s; tsets := tsets s |}
  | (_, _, w') => with_tw w' s
  end.

(** A part of an operation waits at most [D] for the next. *)
Context (D : Z).

Inductive step : tstate -> label -> tstate -> Prop :=
| step_read k s : step s (LRead k) (looked_up k (get_read t k (tw s)) s)
| step_read2 k s : (* L1 missed earlier *)
    step s (LRead2 k) (let '(r, w') := cGet (l2 t) k (tw s) in looked_up k (r, true, w') s)
| step_fill k v T before after s :
    tfills s = before ++ (k, v, T) :: after -> now (tw s) <= T + D ->
    step s (LFill k v) {| tw := get_fill t k v (tw s); tfills := before ++ after; tsets := tsets s |}
| step_set k v ttl s :
    let ev := {| ev_key := k; ev_val := v; ev_time := now (tw s); ev_ttl := ttl |} in
    step s (LSet ev)
      {| tw := set_first t k v ttl (tw s); tfills := tfills s; tsets := ev :: tsets s |}
| step_set_rest ev before after s :
    tsets s = before ++ ev :: after -> now (tw s) <= ev_time ev + D ->
    step s (LSetRest ev)
      {| tw := snd (set_rest t (ev_key ev) (ev_val ev) (ev_ttl ev) (tw s)); tfills := tfills s;
         tsets := before ++ after |}
| step_delete1 k s : step s (LDelete1 k) (with_tw (snd (cDelete (l1 t) k (tw s))) s)
| step_delete2 k s : step s (LDelete2 k) (with_tw (snd (cDelete (l2 t) k (tw s))) s)
| step_publish b p s : bus t = Some b ->
    step s (LPublish p) (with_tw (snd (bPublishRevocation b p (tw s))) s)
| step_listen p s : step s (LListen p) (with_tw (listener_recv t p (tw s)) s)
| step_remote_set k v ttl s :
    let ev := {| ev_key := k; ev_val := v; ev_time := now (tw s); ev_ttl := ttl |} in
    step s (LRemoteSet ev) (with_tw (snd (cSet (l2 t) k v ttl (tw s))) s)
| step_env s w' :
    now (tw s) <= now w' -> vsub (view1 w') (view1 (tw s)) -> vsub (view2 w') (view2 (tw s)) ->
    step s LEnv (with_tw w' s).

(** A run from [s], with its labels, latest first. *)
Inductive steps (s : tstate) : list label -> tstate -> Prop :=
| steps_nil : steps s [] s
| steps_snoc ls s' l s'' : steps s ls s' -> step s' l s'' -> steps s (l :: ls) s''.

(** The [Set]s of a run. *)
Definition stored (ls : list label) (ev : event) : Prop := LSet ev ∈ ls \/ LRemoteSet ev ∈ ls.

(** [v] under [k] goes back to a [Set] of the run, at most its ttl and [B]
    before [e]. *)
Definition vouched (ls : list label) (n B : Z) (k v : string) (e : option Z) : Prop :=
  exists ev, stored ls ev /\ ev_key ev = k /\ ev_val ev = v /\ ev_time ev <= n /\
    (0 < ev_ttl ev -> exists x, e = Some x /\ x <= ev_time ev + ev_ttl ev + B).

(** The invariant: L2 serves a value until its ttl, counted from the moment the
    [Set] began or at most [D] later; a fill read that and waits; L1 serves it
    one [l1TTL] more. *)
Definition tinv (ls : list label) (s : tstate) : Prop :=
  let n := now (tw s) in
  (forall k v e, view1 (tw s) k = Some (v, e) -> vouched ls n (l1TTL t + 2 * D) k v e) /\
  (forall k v e, view2 (tw s) k = Some (v, e) -> vouched ls n D k v e) /\
  (forall k v T, (k, v, T) ∈ tfills s -> T <= n /\ vouched ls n D k v (Some T)) /\
  (forall ev, ev ∈ tsets s -> stored ls ev /\ ev_time ev <= n).

Lemma written_weaken ls ls' n n' B B' k v e :
  vouched ls n B k v e -> ls ⊆ ls' -> n <= n' -> B <= B' -> vouched ls' n' B' k v e.
Proof.
  intros (ev & Hs & Hk & Hv & Ht & Hx) Hls Hn HB. exists ev. split_and!; try done; [|lia|].
  - destruct Hs as [?|?]; [left|right]; by apply Hls.
  - intros Hp. destruct (Hx Hp) as (x & -> & ?). exists x. split; [done|lia].
Qed.

(** The value an expiry is read with is served not later than that. *)
Lemma vouched_live ls n B k v e : vouched ls n B k v e -> live n e -> vouched ls n B k v (Some n).
Proof.
  intros (ev & ? & ? & ? & ? & Hx) Hl. exists ev. split_and!; try done.
  intros Hp. destruct (Hx Hp) as (x & -> & ?). exists n. split; [done|]. simpl in Hl. lia.
Qed.

(** Steps that store nothing. *)
Lemma tinv_shrink ls l s w' :
  now (tw s) <= now w' -> vsub (view1 w') (view1 (tw s)) -> vsub (view2 w') (view2 (tw s)) ->
  tinv ls s -> tinv (l :: ls) (with_tw w' s).
Proof.
  intros Hn S1 S2 (I1 & I2 & IF & IS). split_and!; simpl.
  - intros k v e E%S1. eapply written_weaken; [by apply I1|set_solver|done|done].
  - intros k v e E%S2. eapply written_weaken; [by apply I2|set_solver|done|done].
  - intros k v T [??]%IF. split; [lia|]. eapply written_weaken; [done|set_solver|done|done].
  - intros ev [[?|?] ?]%IS; (split; [|lia]); [left|right]; set_solver.
Qed.

(** A new entry of a tier, beside those it held. *)
Lemma vset_vouched ls n B k v e (f f' : cache_view) q u d :
  (forall q u d, f q = Some (u, d) -> vouched ls n B q u d) ->
  vsub f' (vset k (v, e) f) \/ vsub f' f -> vouched ls n B k v e ->
  f' q = Some (u, d) -> vouched ls n B q u d.
Proof.
  intros If [S|S] Hv E%S; [|eauto]. unfold vset in E. case_decide; [|eauto]. by simplify_eq.
Qed.

Hypothesis l1TTL_pos : 0 < l1TTL t.
Hypothesis delay_nonneg : 0 <= D.

Lemma tinv_looked_up ls l k s r hit w' :
  now w' = now (tw s) -> vsub (view1 w') (view1 (tw s)) -> vsub (view2 w') (view2 (tw s)) ->
  (forall v, r = Ok v -> hit = true -> exists e, view2 (tw s) k = Some (v, e) /\ live (now (tw s)) e) ->
  tinv ls s -> tinv (l :: ls) (looked_up k (r, hit, w') s).
Proof.
  intros N S1 S2 V I. pose proof (tinv_shrink ls l s w' ltac:(lia) S1 S2 I) as (J1 & J2 & JF & JS).
  destruct r as [v|e]; [|done]. destruct hit; [|done]. split_and!; simpl in *; try done.
  intros q u T [[= -> -> ->]|Hin]%elem_of_cons; [|by apply JF]. split; [done|].
  destruct (V v eq_refl eq_refl) as (e & Ek & Hl). rewrite N. destruct I as (_ & I2 & _).
  eapply written_weaken; [eapply vouched_live; [by apply I2|done]|set_solver|lia|lia].
Qed.

Lemma tinv_fill ls l k v T before after s :
  tfills s = before ++ (k, v, T) :: after -> now (tw s) <= T + D -> tinv ls s ->
  tinv (l :: ls) {| tw := get_fill t k v (tw s); tfills := before ++ after; tsets := tsets s |}.
Proof.
  intros Hf HD I. destruct (tinv_shrink ls l s (tw s) ltac:(lia) ltac:(done) ltac:(done) I) as (J1 & J2 & JF & JS).
  destruct (fill_spec k v (tw s)) as (N & V2 & e & He & S1). simpl in *.
  split_and!; simpl; rewrite ?N, ?V2; [|done| |done].
  - intros q u d. eapply vset_vouched; [exact J1|exact S1|].
    destruct (JF k v T) as [HT (ev & ? & ? & ? & ? & Hx)]; [rewrite Hf; set_solver|].
    exists ev. split_and!; try done. intros Hp. rewrite He by done. destruct (Hx Hp) as (x & [= <-] & ?).
    eexists. split; [done|]. lia.
  - intros q u T' Hin. apply JF. rewrite Hf. set_solver.
Qed.

Lemma tinv_set_first ls k v ttl s :
  let ev := {| ev_key := k; ev_val := v; ev_time := now (tw s); ev_ttl := ttl |} in
  tinv ls s ->
  tinv (LSet ev :: ls) {| tw := set_first t k v ttl (tw s); tfills := tfills s; tsets := ev :: tsets s |}.
Proof.
  intros ev I. assert (Hev : stored (LSet ev :: ls) ev) by (left; left).
  destruct (tinv_shrink ls (LSet ev) s (tw s) ltac:(lia) ltac:(done) ltac:(done) I) as (J1 & J2 & JF & JS).
  destruct (set_first_spec k v ttl (tw s)) as (N & V2 & e & He & S1). simpl in *.
  split_and!; simpl; rewrite ?N, ?V2; [|done|done|].
  - intros q u d. eapply vset_vouched; [exact J1|exact S1|]. exists ev. split_and!; try done.
    simpl. intros Hp. assert (0 < set_l1TTL t ttl <= ttl + l1TTL t) as Hb
      by (unfold set_l1TTL; repeat case_bool_decide; simpl; lia).
    eexists. split; [apply He; lia|lia].
  - intros ev' [->|?]%elem_of_cons; [by split|by apply JS].
Qed.

Lemma tinv_set_rest ls l ev rest s :
  stored (l :: ls) ev -> ev_time ev <= now (tw s) <= ev_time ev + D -> rest ⊆ tsets s -> tinv ls s ->
  tinv (l :: ls) {| tw := snd (set_rest t (ev_key ev) (ev_val ev) (ev_ttl ev) (tw s));
                    tfills := tfills s; tsets := rest |}.
Proof.
  intros Hev HD Hrest I.
  destruct (tinv_shrink ls l s (tw s) ltac:(lia) ltac:(done) ltac:(done) I) as (J1 & J2 & JF & JS).
  destruct (set_rest_spec (ev_key ev) (ev_val ev) (ev_ttl ev) (tw s)) as (N & V1 & e & He & S2). simpl in *.
  split_and!; simpl; rewrite ?N, ?V1; [done| |done|auto].
  intros q u d. eapply vset_vouched; [exact J2|exact S2|]. exists ev. split_and!; try done; [lia|].
  intros Hp. eexists. split; [by apply He|lia].
Qed.

Lemma tinv_step ls s l s' : step s l s' -> tinv ls s -> tinv (l :: ls) s'.
Proof.
  destruct 1; intros I.
  - destruct (get_read t k (tw s)) as [[r hit] w'] eqn:E. apply get_read_spec in E as (N & S1 & S2 & V).
    apply tinv_looked_up; try done. by intros v -> ->; apply V.
  - pose proof (frame_get2 k (tw s)) as F. destruct (cGet (l2 t) k (tw s)) as [r w'] eqn:E.
    apply get_spec in E as (N & S2 & V). simpl in F.
    apply tinv_looked_up; try done; [by rewrite F|]. intros v -> _. by apply V.
  - by eapply tinv_fill.
  - by apply tinv_set_first.
  - pose proof I as (_ & _ & _ & IS). destruct (IS ev) as [Hst Ht]; [rewrite H; set_solver|].
    apply tinv_set_rest; [|done|rewrite H; set_solver|done].
    destruct Hst as [?|?]; [left|right]; set_solver.
  - destruct (delete1_spec k (tw s)) as (N & S1 & V2 & _). apply tinv_shrink; [lia|done|by rewrite V2|done].
  - destruct (delete2_spec k (tw s)) as (N & S2 & V1 & _). apply tinv_shrink; [lia|by rewrite V1|done|done].
  - destruct (frame_bus b p (tw s) H) as (N & V1 & V2). apply tinv_shrink; [lia|by rewrite V1|by rewrite V2|done].
  - destruct (delete1_spec (keyFormatter t p) (tw s)) as (N & S1 & V2 & _).
    apply tinv_shrink; [unfold listener_recv; lia|done|by unfold listener_recv; rewrite V2|done].
  - eapply (tinv_set_rest ls (LRemoteSet ev) ev (tsets s)); [right; left|simpl; lia|done|done].
  - by apply tinv_shrink.
Qed.

(** Empty tiers, nothing under way. *)
Definition initial (s : tstate) : Prop :=
  tfills s = [] /\ tsets s = [] /\ (forall k, view1 (tw s) k = None) /\ (forall k, view2 (tw s) k = None).

Lemma tinv_steps s ls s' : initial s -> steps s ls s' -> tinv ls s'.
Proof.
  intros (HF & HS & V1 & V2). induction 1; [|by eapply tinv_step].
  split_and!; intros *; rewrite ?HF, ?HS, ?V1, ?V2; try done; by intros ?%not_elem_of_nil.
Qed.

(** What a [Get] in state [s] answers under [k], whether both lookups happen
    now or L1 missed earlier. *)
Definition serves (s : tstate) (k v : string) : Prop :=
  fst (Get t k (tw s)) = Ok v \/ fst (cGet (l2 t) k (tw s)) = Ok v.

(** C8: In every run of the two-tier cache from empty tiers, in which the parts
    of [Get], [Set], [Delete] and [PublishRevocation], the revocation messages,
    the writes and deletes of other processes and the passage of time interleave
    in any order, a value that is served was stored under that very key by a
    [Set] of the run, of this or another process; and when that [Set] had a
    positive ttl, the value is served at most ttl + l1TTL after it, plus twice
    the longest time a part of an operation waited for the next. *)
Theorem served_value_bounded s0 ls s k v :
  initial s0 -> steps s0 ls s -> serves s k v ->
  exists ev, stored ls ev /\ ev_key ev = k /\ ev_val ev = v /\ ev_time ev <= now (tw s) /\
    (0 < ev_ttl ev -> now (tw s) <= ev_time ev + ev_ttl ev + l1TTL t + 2 * D).
Proof.
  intros H0 Hr Hs. destruct (tinv_steps _ _ _ H0 Hr) as (I1 & I2 & _).
  assert (exists e, vouched ls (now (tw s)) (l1TTL t + 2 * D) k v e /\ live (now (tw s)) e) as (e & Hv & Hl).
  { destruct Hs as [Hs|Hs].
    - unfold Get in Hs. destruct (get_read t k (tw s)) as [[r hit] w1] eqn:E.
      apply get_read_spec in E as (_ & _ & _ & V).
      assert (r = Ok v) as -> by (destruct r, hit; simpl in Hs; congruence).
      destruct (V v eq_refl) as (e & Ek & Hl). exists e. split; [|done].
      destruct hit; [|by apply I1]. eapply written_weaken; [by apply I2|done|lia|lia].
    - destruct (cGet (l2 t) k (tw s)) as [r w1] eqn:E. simpl in Hs. subst.
      apply get_spec in E as (_ & _ & V). destruct (V v eq_refl) as (e & Ek & Hl). exists e.
      split; [|done]. eapply written_weaken; [by apply I2|done|lia|lia]. }
  destruct (vouched_live _ _ _ _ _ _ Hv Hl) as (ev & ? & ? & ? & ? & Hx). exists ev. split_and!; try done.
  intros Hp. destruct (Hx Hp) as (x & [= <-] & ?). lia.
Qed.

(** *** The operations are runs

    An operation that nothing interrupts is the run of its parts. *)
Lemma set_is_run k v ttl s : exists ls, steps s ls (with_tw (snd (Set_ t k v ttl (tw s))) s).
Proof.
  destruct (set_first_spec k v ttl (tw s)) as (N & _).
  pose proof (step_set k v ttl s) as H1. simpl in H1.
  eexists. eapply steps_snoc; [eapply steps_snoc; [apply steps_nil|exact H1]|].
  eapply (step_set_rest {| ev_key := k; ev_val := v; ev_time := now (tw s); ev_ttl := ttl |} [] (tsets s)
            {| tw := set_first t k v ttl (tw s); tfills := tfills s; tsets := _ |}); simpl in *; [done|lia].
Qed.

Lemma get_is_run k s : exists ls, steps s ls (with_tw (snd (Get t k (tw s))) s).
Proof.
  pose proof (step_read k s) as H1. unfold Get.
  destruct (get_read t k (tw s)) as [[r hit] w1] eqn:E. cbn [looked_up] in H1.
  pose proof (steps_snoc s _ _ _ _ (steps_nil s) H1) as H.
  destruct r as [v|e], hit; eauto. eexists. eapply steps_snoc; [exact H|].
  eapply (step_fill k v (now w1) [] (tfills s) {| tw := w1; tfills := _; tsets := tsets s |}); simpl; [done|lia].
Qed.

Lemma delete_is_run k s : exists ls, steps s ls (with_tw (snd (Delete t k (tw s))) s).
Proof.
  eexists. eapply steps_snoc; [eapply steps_snoc; [apply steps_nil|apply (step_delete1 k)]|].
  unfold Delete. pose proof (step_delete2 k (with_tw (snd (cDelete (l1 t) k (tw s))) s)) as H.
  by destruct (cDelete (l1 t) k (tw s)).
Qed.

Lemma revoke_is_run p s : exists ls, steps s ls (with_tw (snd (PublishRevocation t p (tw s))) s).
Proof.
  destruct (delete_is_run (keyFormatter t p) s) as (ls & H). revert H. unfold PublishRevocation, Delete.
  destruct (cDelete (l1 t) (keyFormatter t p) (tw s)) as [r1 w1].
  destruct (cDelete (l2 t) (keyFormatter t p) w1) as [r2 w2]. simpl. intros H.
  destruct (bus t) as [b|] eqn:Eb; [|by exists ls].
  eexists. eapply steps_snoc; [exact H|]. by apply (step_publish b p (with_tw w2 s)).
Qed.

End spec.
End Tiered.

(** ** The tiered cache in the reference world *)
Module TieredWitness.
Import Tiered.

Definition tiered0 : TieredCacheProvider World :=
  {| l1 := cache1; l2 := cache2; bus := None; l1TTL := 60000000000;
     keyFormatter := fun principalID => "perm:" +:+ principalID |}.

#[local] Instance cache1_spec : CacheSpec clock cache1 := TTLCache_spec clock lens1.
#[local] Instance cache2_spec : CacheSpec clock cache2 := TTLCache_spec clock lens2.

#[export] Instance tiered0_env : TieredEnv clock tiered0.
Proof.
  refine (@Build_TieredEnv _ clock tiered0 cache1_spec cache2_spec _ _ _ _ _ _ _);
    simpl; try done.
  all: intros; unfold ttl_Get, ttl_Set, ttl_Delete; repeat case_match; try done.
Defined.

(** Parts of operations may wait 20 s.  A [Set] with a ttl of 30 s writes L1 at
    once and L2 at 20 s; a [Get] looks the value up in L2 at 50 s and fills L1
    at 70 s; L1 serves the value until 130 s, which is ttl + l1TTL and twice the
    wait after the [Set]: the bound is attained. *)
Definition sec (n : Z) : Z := n * 1000000000.
Definition at_time (n : Z) (w : World) : World :=
  {| clock := sec n; tier1 := tier1 w; tier2 := tier2 w; perms := perms w |}.
Definition ev0 : event :=
  {| ev_key := "perm:u1"; ev_val := "bundle"; ev_time := 0; ev_ttl := sec 30 |}.
Definition s0 : tstate (W := World) := {| tw := empty_world; tfills := []; tsets := [] |}.
Definition s1 : tstate :=
  {| tw := set_first tiered0 "perm:u1" "bundle" (sec 30) empty_world; tfills := []; tsets := [ev0] |}.
Definition s2 : tstate :=
  {| tw := snd (set_rest tiered0 "perm:u1" "bundle" (sec 30) (at_time 20 (tw s1)));
     tfills := []; tsets := [] |}.
Definition s3 : tstate :=
  {| tw := at_time 50 (tw s2); tfills := [("perm:u1", "bundle", sec 50)]; tsets := [] |}.
Definition s4 : tstate :=
  {| tw := get_fill tiered0 "perm:u1" "bundle" (at_time 70 (tw s3)); tfills := []; tsets := [] |}.
Definition s5 : tstate := with_tw (at_time 130 (tw s4)) s4.

Abbreviation run0 := (steps (t := tiered0) (env := tiered0_env) (sec 20)).

Lemma time_passes n s :
  clock (tw s) <= sec n ->
  step (t := tiered0) (env := tiered0_env) (sec 20) s LEnv (with_tw (at_time n (tw s)) s).
Proof. intros H. by apply step_env. Qed.

Definition ls5 : list label :=
  [LEnv; LFill "perm:u1" "bundle"; LEnv; LRead "perm:u1"; LEnv; LSetRest ev0; LEnv; LSet ev0].

Lemma s5_run : run0 s0 ls5 s5.
Proof.
  eapply steps_snoc; [|by apply (time_passes 130 s4)].
  eapply steps_snoc;
    [|by apply (step_fill (sec 20) "perm:u1" "bundle" (sec 50) [] [] (with_tw (at_time 70 (tw s3)) s3))].
  eapply steps_snoc; [|by apply (time_passes 70 s3)].
  eapply steps_snoc; [|exact (step_read (t := tiered0) (env := tiered0_env) (sec 20) "perm:u1" (with_tw (at_time 50 (tw s2)) s2))].
  eapply steps_snoc; [|by apply (time_passes 50 s2)].
  eapply steps_snoc; [|by apply (step_set_rest (sec 20) ev0 [] [] (with_tw (at_time 20 (tw s1)) s1))].
  eapply steps_snoc; [|by apply (time_passes 20 s1)].
  eapply steps_snoc; [apply steps_nil|].
  exact (step_set (t := tiered0) (env := tiered0_env) (sec 20) "perm:u1" "bundle" (sec 30) s0).
Qed.

Lemma served_value_bounded_witness :
  exists ev, ev_key ev = "perm:u1" /\ ev_val ev = "bundle" /\
    (0 < ev_ttl ev -> sec 130 <= ev_time ev + ev_ttl ev + sec 60 + 2 * sec 20).
Proof.
  destruct (served_value_bounded (t := tiered0) (env := tiered0_env) (sec 20) ltac:(done) ltac:(done)
              s0 ls5 s5 "perm:u1" "bundle") as (ev & _ & Hk & Hv & _ & Hb).
  - done.
  - exact s5_run.
  - left. vm_compute. reflexivity.
  - by exists ev.
Defined.

(** The bundle of principal [u1] in both tiers. *)
Definition w_set : World := snd (Set_ tiered0 "perm:u1" "bundle" (sec 300) empty_world).

(** The two halves of a [Get] are not atomic: when a revocation runs
    between the L2 read of a concurrent [Get] and its fill of L1, the next
    [Get] serves the revoked value although both tiers were purged. *)
Theorem stale_fill_race :
  let '(r, hit, w1) := get_read tiered0 "perm:u1" (snd (cDelete cache1 "perm:u1" w_set)) in
  let '(e, w2) := PublishRevocation tiered0 "u1" w1 in
  r = Ok "bundle" /\ hit = true /\ e = None /\
  fst (Get tiered0 "perm:u1" w2) = Err ErrCacheMiss /\
  fst (Get tiered0 "perm:u1" (get_fill tiered0 "perm:u1" "bundle" w2)) = Ok "bundle".
Proof. vm_compute. done. Qed.

(** L2 whose server refuses deletes. *)
Definition cache2_readonly : CacheProvider World :=
  {| cGet := cGet cache2; cSet := cSet cache2; cClose := cClose cache2;
     cDelete := fun _ w => (Some (ErrBackend "READONLY"), w) |}.
Definition tiered_ro : TieredCacheProvider World :=
  {| l1 := cache1; l2 := cache2_readonly; bus := None; l1TTL := 60000000000;
     keyFormatter := keyFormatter tiered0 |}.

(** [PublishRevocation] swallows the error of the L2 delete: it reports
    success and the value is still served. *)
Example revocation_lost_on_l2_error :
  let '(e, w) := PublishRevocation tiered_ro "u1" w_set in
  e = None /\ fst (Get tiered_ro "perm:u1" w) = Ok "bundle".
Proof. vm_compute. done. Qed.

End TieredWitness.
