(* ===== verification/AuthzMemory.v ===== *)
(** * The in-memory provider of the authorization layer: [authz/cache/memory.go]

    The cache operations over a ristretto parameter, and the revocation bus:
    Go channels with a buffer of 100, the subscriber set, and the goroutines
    that unsubscribe when their context ends.  Sending on a closed channel and
    closing a channel twice panic; a panic is [None]. *)
From S2P Require Import Prelude CacheIface.

Local Open Scope string_scope.
Local Open Scope Z_scope.
Local Open Scope list_scope.

(** ** Cache operations *)
Module Memory.

Record MemoryCacheConfig : Type := { NumCounters : Z; MaxCost : Z; BufferItems : Z }.

Definition DefaultMemoryCacheConfig : MemoryCacheConfig :=
  {| NumCounters := 1000000; MaxCost := Z.shiftl 128 20; BufferItems := 64 |}.

(** The configuration handed to [ristretto.NewCache]. *)
Definition resolve_config (cfg : list MemoryCacheConfig) : MemoryCacheConfig :=
  let c := DefaultMemoryCacheConfig in
  match cfg with
  | [] => c
  | c0 :: _ =>
      {| NumCounters := if bool_decide (0 < NumCounters c0) then NumCounters c0 else NumCounters c;
         MaxCost := if bool_decide (0 < MaxCost c0) then MaxCost c0 else MaxCost c;
         BufferItems := if bool_decide (0 < BufferItems c0) then BufferItems c0
                        else BufferItems c |}
  end.

(** The calls of [*ristretto.Cache] the provider makes.  The provider is the
    only writer of its cache, so the stored [interface{}] are byte slices. *)
Record Ristretto (W : Type) : Type := {
  rGet : string -> W -> option string * W;
  rSet : string -> string -> Z -> W -> W;
  rSetWithTTL : string -> string -> Z -> Z -> W -> W;
  rDel : string -> W -> W;
  rClose : W -> W
}.
Arguments rGet {W}. Arguments rSet {W}. Arguments rSetWithTTL {W}.
Arguments rDel {W}. Arguments rClose {W}.

Section ops.
Context {W : Type} (c : Ristretto W).

Definition Get (key : string) (w : W) : res cache_err string * W :=
  if bool_decide (key = "") then (Err ErrInvalidKey, w) else
  match rGet c key w with
  | (None, w') => (Err ErrCacheMiss, w')
  | (Some bytes, w') => (Ok bytes, w')
  end.

Definition cost (value : string) : Z :=
  let n := Z.of_nat (String.length value) in if bool_decide (n = 0) then 1 else n.

Definition Set_ (key value : string) (ttl : Z) (w : W) : cerr * W :=
  if bool_decide (key = "") then (Some ErrInvalidKey, w) else
  if bool_decide (0 < ttl) then (None, rSetWithTTL c key value (cost value) ttl w)
  else (None, rSet c key value (cost value) w).

Definition Delete (key : string) (w : W) : cerr * W :=
  if bool_decide (key = "") then (Some ErrInvalidKey, w) else (None, rDel c key w).

End ops.

(** What the provider relies on: the cache serves what was stored under the
    key and has not expired, and may drop or evict anything. *)
Class RistrettoSpec {W} (now : W -> Z) (c : Ristretto W) := {
  mview : W -> cache_view;
  m_get_spec : forall k w, let '(r, w') := rGet c k w in
    now w' = now w /\ vsub (mview w') (mview w) /\
    (forall v, r = Some v -> exists e, mview w k = Some (v, e) /\ live (now w) e);
  m_set_spec : forall k v co w, let w' := rSet c k v co w in
    now w' = now w /\ vsub (mview w') (vset k (v, None) (mview w));
  m_set_ttl_spec : forall k v co ttl w, 0 < ttl -> let w' := rSetWithTTL c k v co ttl w in
    now w' = now w /\ vsub (mview w') (vset k (v, Some (now w + ttl)) (mview w));
  m_del_spec : forall k w, let w' := rDel c k w in
    now w' = now w /\ vsub (mview w') (mview w) /\ mview w' k = None
}.

(** The closing half of [Close] is in [Bus]; here the provider as the cache
    the tiered provider calls. *)
Definition provider {W} (c : Ristretto W) (close : W -> cerr * W) : CacheProvider W :=
  {| cGet := Get c; cSet := Set_ c; cDelete := Delete c; cClose := close |}.

#[export] Instance memory_provider_spec {W} (now : W -> Z) (c : Ristretto W)
  `{!RistrettoSpec now c} close : CacheSpec now (provider c close).
Proof.
  refine {| view := mview |}.
  - intros k w r w'. simpl. unfold Get. case_bool_decide; [by intros [= <- <-]|].
    pose proof (m_get_spec k w) as M. destruct (rGet c k w) as [o w1].
    destruct M as (N & S & V). destruct o as [v|]; intros [= <- <-]; split_and!; try done.
    intros v' [= <-]. by apply V.
  - intros k v ttl w r w'. simpl. unfold Set_. case_bool_decide.
    { intros [= <- <-]. split; [done|]. exists (Some (now w + ttl)). split; [done|]. by right. }
    case_bool_decide; intros [= <- <-].
    + destruct (m_set_ttl_spec k v (cost v) ttl w) as [N S]; [done|]. split; [done|].
      exists (Some (now w + ttl)). split; [done|]. by left.
    + destruct (m_set_spec k v (cost v) w) as [N S]. split; [done|].
      exists None. split; [lia|]. by left.
  - intros k w r w'. simpl. unfold Delete. case_bool_decide; intros [= <- <-]; [done|].
    destruct (m_del_spec k w) as (N & S & D). split_and!; done.
Defined.

End Memory.

(** ** The revocation bus *)
Module Bus.

(** A [chan string] with its buffer. *)
Record chan : Type := { buf : list string; is_closed : bool }.

Definition capacity : nat := 100.

(** [subscribers], the [sync.Once] of [Close], the channels of the heap and,
    for every running goroutine of [SubscribeRevocations], the channel it
    waits to unsubscribe. *)
Record bus : Type := {
  chans : gmap nat chan;
  subscribers : gset nat;
  close_done : bool;
  waiting : gset nat
}.

Definition NewBus : bus :=
  {| chans := ∅; subscribers := ∅; close_done := false; waiting := ∅ |}.

Definition with_chans (m : gmap nat chan) (b : bus) : bus :=
  {| chans := m; subscribers := subscribers b; close_done := close_done b; waiting := waiting b |}.

(** [select { case ch <- p: default: }]. *)
Definition try_send (ch : nat) (p : string) (m : gmap nat chan) : option (gmap nat chan) :=
  match m !! ch with
  | None => None
  | Some c =>
      if is_closed c then None
      else if bool_decide (length (buf c) < capacity)%nat
      then Some (<[ch := {| buf := buf c ++ [p]; is_closed := false |}]> m)
      else Some m
  end.

(** [close(ch)]. *)
Definition close_chan (ch : nat) (m : gmap nat chan) : option (gmap nat chan) :=
  match m !! ch with
  | None => None
  | Some c =>
      if is_closed c then None else Some (<[ch := {| buf := buf c; is_closed := true |}]> m)
  end.

(** A loop over the subscriber set in the order the runtime picks. *)
Fixpoint for_each (f : nat -> gmap nat chan -> option (gmap nat chan)) (order : list nat)
  (m : gmap nat chan) : option (gmap nat chan) :=
  match order with
  | [] => Some m
  | ch :: order' => match f ch m with Some m' => for_each f order' m' | None => None end
  end.

Definition PublishRevocation (order : list nat) (principalID : string) (b : bus) : option bus :=
  match for_each (fun ch => try_send ch principalID) order (chans b) with
  | Some m => Some (with_chans m b)
  | None => None
  end.

(** Every subscriber is closed and removed, once. *)
Definition Close (order : list nat) (b : bus) : option bus :=
  if close_done b then Some b else
  match for_each close_chan order (chans b) with
  | Some m => Some {| chans := m; subscribers := subscribers b ∖ list_to_set order;
                      close_done := true; waiting := waiting b |}
  | None => None
  end.

(** Registers a fresh channel; its goroutine starts waiting. *)
Definition SubscribeRevocations (ch : nat) (b : bus) : bus :=
  {| chans := <[ch := {| buf := []; is_closed := false |}]> (chans b);
     subscribers := {[ch]} ∪ subscribers b; close_done := close_done b;
     waiting := {[ch]} ∪ waiting b |}.

(** The goroutine of [ch] after [<-ctx.Done()]. *)
Definition unsubscribe (ch : nat) (b : bus) : option bus :=
  let done_ m subs := {| chans := m; subscribers := subs; close_done := close_done b;
                         waiting := waiting b ∖ {[ch]} |} in
  if decide (ch ∈ subscribers b) then
    match close_chan ch (chans b) with
    | Some m => Some (done_ m (subscribers b ∖ {[ch]}))
    | None => None
    end
  else Some (done_ (chans b) (subscribers b)).

(** A receive by the subscriber: the value and whether the channel is open. *)
Definition recv (ch : nat) (b : bus) : option (option string * bus) :=
  match chans b !! ch with
  | Some {| buf := x :: r; is_closed := cl |} =>
      Some (Some x, with_chans (<[ch := {| buf := r; is_closed := cl |}]> (chans b)) b)
  | Some {| buf := []; is_closed := true |} => Some (None, b)
  | _ => None
  end.

(** Actions and runs; [None] as the result is a panic. *)
Inductive action : Type :=
| APublish (p : string) (order : list nat) | AClose (order : list nat)
| ASubscribe (ch : nat) | ACancel (ch : nat) | ARecv (ch : nat).

Definition range_of (order : list nat) (b : bus) : Prop :=
  NoDup order /\ list_to_set order = subscribers b.

(** When an action may happen: loops range over the subscriber set, [make]
    returns a fresh channel, a goroutine wakes once, a receive that would
    block does not happen. *)
Definition enabled (a : action) (b : bus) : Prop :=
  match a with
  | APublish _ order | AClose order => range_of order b
  | ASubscribe ch => chans b !! ch = None
  | ACancel ch => ch ∈ waiting b
  | ARecv ch => recv ch b <> None
  end.

Definition act (a : action) (b : bus) : option bus :=
  match a with
  | APublish p order => PublishRevocation order p b
  | AClose order => Close order b
  | ASubscribe ch => Some (SubscribeRevocations ch b)
  | ACancel ch => unsubscribe ch b
  | ARecv ch => match recv ch b with Some (_, b') => Some b' | None => None end
  end.

Inductive reachable : bus -> Prop :=
| reach_new : reachable NewBus
| reach_step a b b' : reachable b -> enabled a b -> act a b = Some b' -> reachable b'.

(** Subscribed channels are open and no buffer exceeds its capacity. *)
Definition binv (b : bus) : Prop :=
  (forall ch, ch ∈ subscribers b -> exists c, chans b !! ch = Some c /\ is_closed c = false) /\
  (forall ch c, chans b !! ch = Some c -> (length (buf c) <= capacity)%nat).

(** The buffer of a subscriber after a message was offered to it. *)
Definition offered (p : string) (c : chan) : chan :=
  if bool_decide (length (buf c) < capacity)%nat
  then {| buf := buf c ++ [p]; is_closed := is_closed c |} else c.

(** A loop that updates every channel of the order by [g], when [f] does so on
    a channel that is still open. *)
Lemma for_each_spec f g order m :
  (forall ch c m, m !! ch = Some c -> is_closed c = false -> f ch m = Some (<[ch := g c]> m)) ->
  NoDup order ->
  (forall ch, ch ∈ order -> exists c, m !! ch = Some c /\ is_closed c = false) ->
  exists m', for_each f order m = Some m' /\
    forall ch, m' !! ch = if decide (ch ∈ order) then g <$> m !! ch else m !! ch.
Proof.
  intros Hf. revert m. induction order as [|ch order IH]; intros m ND Ho; simpl.
  { exists m. split; [done|]. done. }
  apply NoDup_cons in ND as [Hnin ND]. destruct (Ho ch) as (c & E & Ec); [left|].
  rewrite (Hf _ _ _ E Ec). destruct (IH (<[ch := g c]> m)) as (m' & Em & Hm); [done| |].
  - intros ch' Hin. rewrite lookup_insert_ne by (by intros ->). apply Ho. by right.
  - exists m'. split; [done|]. intros ch'. rewrite Hm.
    destruct (decide (ch' = ch)) as [->|Hne].
    + assert (ch ∈ ch :: order) by left. rewrite E, lookup_insert_eq. by repeat case_decide.
    + rewrite lookup_insert_ne by done. repeat case_decide; set_solver.
Qed.

Lemma try_send_open p ch c m :
  m !! ch = Some c -> is_closed c = false -> try_send ch p m = Some (<[ch := offered p c]> m).
Proof.
  intros E Ec. unfold try_send, offered. rewrite E, Ec. case_bool_decide; [done|].
  by rewrite insert_id.
Qed.
Lemma close_chan_open ch c m :
  m !! ch = Some c -> is_closed c = false ->
  close_chan ch m = Some (<[ch := {| buf := buf c; is_closed := true |}]> m).
Proof. intros E Ec. unfold close_chan. by rewrite E, Ec. Qed.

Lemma offered_length p c : (length (buf c) <= capacity)%nat -> (length (buf (offered p c)) <= capacity)%nat.
Proof. unfold offered. case_bool_decide; [|done]. simpl. rewrite length_app. simpl. lia. Qed.

Lemma range_of_elem order b ch : range_of order b -> ch ∈ order <-> ch ∈ subscribers b.
Proof. intros [_ <-]. by rewrite elem_of_list_to_set. Qed.

Lemma publish_spec p order b :
  binv b -> range_of order b ->
  exists m, PublishRevocation order p b = Some (with_chans m b) /\
    forall ch, m !! ch = if decide (ch ∈ subscribers b) then offered p <$> chans b !! ch
                         else chans b !! ch.
Proof.
  intros [I _] R. destruct (for_each_spec (fun ch => try_send ch p) (offered p) order (chans b))
    as (m & Em & Hm).
  - intros. by apply try_send_open.
  - apply R.
  - intros ch Hin. apply I. by apply (range_of_elem order b).
  - exists m. unfold PublishRevocation. rewrite Em. split; [done|]. intros ch. rewrite Hm.
    pose proof (range_of_elem order b ch R). repeat case_decide; tauto.
Qed.

Lemma act_ok a b : binv b -> enabled a b -> exists b', act a b = Some b' /\ binv b'.
Proof.
  intros I En. destruct a as [p order|order|ch|ch|ch]; simpl in *.
  - destruct (publish_spec p order b I En) as (m & E & Hm). eexists. split; [exact E|].
    destruct I as [I1 I2]. split; simpl; intros ch.
    + intros Hin. rewrite Hm, decide_True by done. destruct (I1 ch Hin) as (c & -> & Ec).
      exists (offered p c). split; [done|]. unfold offered. by case_bool_decide.
    + intros c. rewrite Hm. case_decide; [|apply I2].
      destruct (chans b !! ch) as [c0|] eqn:E0; [|done]. intros [= <-].
      apply offered_length. by eapply I2.
  - unfold Close. destruct (close_done b); [by eexists|]. destruct I as [I1 I2].
    destruct (for_each_spec close_chan (fun c => {| buf := buf c; is_closed := true |})
                order (chans b)) as (m & Em & Hm).
    + intros. by apply close_chan_open.
    + apply En.
    + intros ch Hin. apply I1. by apply (range_of_elem order b).
    + rewrite Em. eexists. split; [done|]. split; simpl; intros ch.
      * destruct En as [_ ->]. set_solver.
      * intros c. rewrite Hm. case_decide; [|apply I2].
        destruct (chans b !! ch) as [c0|] eqn:E0; [|done]. intros [= <-]. simpl. by eapply I2.
  - eexists. split; [done|]. destruct I as [I1 I2]. split; simpl; intros ch'.
    + destruct (decide (ch' = ch)) as [->|Hne].
      * intros _. rewrite lookup_insert_eq. by eexists.
      * rewrite lookup_insert_ne by done. intros Hin. apply I1. set_solver.
    + intros c. rewrite lookup_insert. case_decide; [intros [= <-]; simpl; lia|apply I2].
  - unfold unsubscribe. destruct I as [I1 I2]. case_decide as Hin; [|by eexists].
    destruct (I1 ch Hin) as (c & E & Ec). rewrite (close_chan_open _ _ _ E Ec).
    eexists. split; [done|]. split; simpl; intros ch'.
    + intros Hin'. rewrite lookup_insert_ne by set_solver. apply I1. set_solver.
    + intros c'. rewrite lookup_insert. case_decide; [intros [= <-]; simpl; by eapply I2|apply I2].
  - unfold recv in *. destruct I as [I1 I2].
    destruct (chans b !! ch) as [[[|x r] cl]|] eqn:E; [destruct cl| |]; try done; [by eexists|].
    eexists. split; [done|]. split; simpl; intros ch'.
    + intros Hin. destruct (decide (ch' = ch)) as [->|Hne].
      * rewrite lookup_insert_eq. destruct (I1 ch Hin) as (c & E' & Ec).
        rewrite E in E'. injection E' as <-. eexists. split; [done|]. done.
      * rewrite lookup_insert_ne by done. by apply I1.
    + intros c. rewrite lookup_insert. case_decide as Hd; [|apply I2].
      intros [= <-]. simpl. apply I2 in E. simpl in E. lia.
Qed.

Lemma reachable_binv b : reachable b -> binv b.
Proof.
  induction 1 as [|a b b' _ IH En E].
  - split; intros ch; [set_solver|]. intros c E. exfalso. exact (lookup_empty_Some ch c E).
  - destruct (act_ok a b IH En) as (b'' & E' & I). congruence.
Qed.

(** C9: The in-memory bus never panics: from every reachable state, publishing
    or closing in any iteration order of the subscriber map, subscribing,
    cancelling and receiving all complete, so no value is sent on a closed
    channel and no channel is closed twice, even when [Close] and the
    cancellation goroutines race for the same channel. *)
Theorem bus_never_panics a b : reachable b -> enabled a b -> exists b', act a b = Some b'.
Proof.
  intros R En. destruct (act_ok a b (reachable_binv b R) En) as (b' & E & _). by exists b'.
Qed.

(** [PublishRevocation] appends the principal to the buffer of every
    subscriber that has room, leaves full buffers and other channels as they
    are, and its result does not depend on the iteration order: a subscriber
    with 100 unread messages loses the revocation silently. *)
Theorem publish_delivers p order order' b :
  reachable b -> range_of order b -> range_of order' b ->
  exists b', PublishRevocation order p b = Some b' /\ PublishRevocation order' p b = Some b' /\
    subscribers b' = subscribers b /\
    forall ch, chans b' !! ch =
      if decide (ch ∈ subscribers b) then offered p <$> chans b !! ch else chans b !! ch.
Proof.
  intros I%reachable_binv R R'. destruct (publish_spec p order b I R) as (m & E & Hm).
  destruct (publish_spec p order' b I R') as (m' & E' & Hm').
  assert (m' = m) as -> by (apply map_eq; intros ch; by rewrite Hm, Hm').
  exists (with_chans m b). done.
Qed.

(** *** Concrete runs *)
Definition bus1 : bus := SubscribeRevocations 0 NewBus.
Lemma bus1_reachable : reachable bus1.
Proof. eapply (reach_step (ASubscribe 0)); [apply reach_new|done|done]. Qed.
Lemma bus1_range : range_of [0%nat] bus1.
Proof. split; [apply NoDup_singleton|]. vm_compute. reflexivity. Qed.

Lemma bus_never_panics_witness : exists b', act (AClose [0%nat]) bus1 = Some b'.
Proof. apply (bus_never_panics (AClose [0%nat])); [apply bus1_reachable|apply bus1_range]. Defined.

Lemma publish_delivers_witness :
  exists b', PublishRevocation [0%nat] "u1" bus1 = Some b' /\
             PublishRevocation [0%nat] "u1" bus1 = Some b' /\
    subscribers b' = subscribers bus1 /\
    forall ch, chans b' !! ch =
      if decide (ch ∈ subscribers bus1) then offered "u1" <$> chans bus1 !! ch else chans bus1 !! ch.
Proof.
  apply publish_delivers; [apply bus1_reachable|apply bus1_range|apply bus1_range].
Defined.

(** The goroutine of a channel that [Close] already closed finds it gone. *)
Example close_then_cancel :
  match Close [0%nat] bus1 with
  | Some b => unsubscribe 0 b <> None
  | None => False
  end.
Proof. vm_compute. done. Qed.

End Bus.

(** ** The provider as constructed and closed *)
Module Provider.
Import Memory Bus.

(** [MemoryCacheProvider]: the cache handle, and the mutable rest. *)
Record MemoryCacheProvider (W : Type) : Type := { m_cache : Ristretto W; m_bus : bus }.
Arguments m_cache {W}. Arguments m_bus {W}.

(** [ristretto_NewCache] is [ristretto.NewCache] on the resolved
    configuration. *)
Definition NewMemoryCacheProvider {W}
  (ristretto_NewCache : MemoryCacheConfig -> W -> res string (Ristretto W) * W)
  (cfg : list MemoryCacheConfig) (w : W) : res string (MemoryCacheProvider W) * W :=
  match ristretto_NewCache (resolve_config cfg) w with
  | (Err err, w') => (Err ("cache: failed initializing memory cache: " +:+ err), w')
  | (Ok rCache, w') => (Ok {| m_cache := rCache; m_bus := NewBus |}, w')
  end.

(** [Close]: under the [sync.Once], the cache first, then every subscriber. *)
Definition Close {W} (order : list nat) (m : MemoryCacheProvider W) (w : W)
  : option (MemoryCacheProvider W * W) :=
  if close_done (m_bus m) then Some (m, w) else
  match Bus.Close order (m_bus m) with
  | Some b => Some ({| m_cache := m_cache m; m_bus := b |}, rClose (m_cache m) w)
  | None => None
  end.

(** The configuration ristretto receives is positive in every field. *)
Lemma resolve_config_pos cfg :
  0 < NumCounters (resolve_config cfg) /\ 0 < MaxCost (resolve_config cfg) /\
  0 < BufferItems (resolve_config cfg).
Proof. destruct cfg as [|c cfg]; simpl; [done|]. split_and!; by case_bool_decide. Qed.

(** Closing succeeds once for all: the cache is closed by the first call only,
    no subscriber is left, and any later call changes nothing. *)
Lemma close_once {W} (m : MemoryCacheProvider W) order order' w :
  reachable (m_bus m) -> range_of order (m_bus m) -> close_done (m_bus m) = false ->
  exists m', Close order m w = Some (m', rClose (m_cache m) w) /\
    subscribers (m_bus m') = ∅ /\ forall w', Close order' m' w' = Some (m', w').
Proof.
  intros R Ro Hc. unfold Close at 1. rewrite Hc.
  destruct (act_ok (AClose order) (m_bus m) (reachable_binv _ R) Ro) as (b & E & _). simpl in E.
  rewrite E. eexists. split; [done|]. unfold Bus.Close in E. rewrite Hc in E.
  destruct (for_each _ _ _); [|done]. injection E as <-. simpl. split; [|done].
  destruct Ro as [_ ->]. set_solver.
Qed.

End Provider.
