(* ===== verification/RedisBus.v ===== *)
(** * Revocations over Redis: [authz/cache/redis.go], [SubscribeRevocations]

    The goroutine that forwards the messages of a Redis subscription to the
    channel the caller ranges over, as a step relation: a published message
    reaches the channel of the client library or is lost, the library may close
    its channel, the caller receives and may cancel the context, and the
    goroutine's selects choose among what is ready.  Redis Pub/Sub delivers at
    most once, and go-redis drops messages for a full channel: whether a message
    is lost is not for this code to decide, and any may be. *)
From S2P Require Import Prelude.

Local Open Scope string_scope.
Local Open Scope list_scope.

(** Where the goroutine is: in the outer select, sending a payload in the inner
    one, or returned (with both deferred closes run). *)
Inductive phase : Type := Waiting | Sending (payload : string) | Returned.

Record forwarder : Type := {
  msgChan : list string;      (* put into the client's channel, not yet taken *)
  msgOpen : bool;
  at_ : phase;
  out : list string;          (* the buffered channel returned to the caller *)
  outClosed : bool;
  pubsubClosed : bool;
  cancelled : bool;           (* ctx.Done() *)
  published : list string;    (* all messages published so far *)
  delivered : list string;    (* those that reached the client's channel *)
  received : list string      (* all messages the caller took so far *)
}.

Definition out_capacity : nat := 100.

(** The subscription is confirmed, or closed again and the error returned. *)
Definition SubscribeRevocations (receive_err : option string) : res string forwarder :=
  match receive_err with
  | Some e => Err e
  | None => Ok {| msgChan := []; msgOpen := true; at_ := Waiting; out := []; outClosed := false;
                  pubsubClosed := false; cancelled := false; published := []; delivered := []; received := [] |}
  end.

Definition with_chan m p (s : forwarder) : forwarder :=
  {| msgChan := m; msgOpen := msgOpen s; at_ := p; out := out s; outClosed := outClosed s;
     pubsubClosed := pubsubClosed s; cancelled := cancelled s; published := published s;
     delivered := delivered s; received := received s |}.
Definition with_out o p r (s : forwarder) : forwarder :=
  {| msgChan := msgChan s; msgOpen := msgOpen s; at_ := p; out := o; outClosed := outClosed s;
     pubsubClosed := pubsubClosed s; cancelled := cancelled s; published := published s;
     delivered := delivered s; received := r |}.
(** The deferred calls: [close(out)], then [pubsub.Close()]. *)
Definition return_ (s : forwarder) : forwarder :=
  {| msgChan := msgChan s; msgOpen := msgOpen s; at_ := Returned; out := out s; outClosed := true;
     pubsubClosed := true; cancelled := cancelled s; published := published s;
     delivered := delivered s; received := received s |}.

Section run.
(** The capacity of the client library's channel. *)
Variable chan_size : nat.

Inductive step : forwarder -> forwarder -> Prop :=
(* the goroutine *)
| step_take s m ms : at_ s = Waiting -> msgChan s = m :: ms -> step s (with_chan ms (Sending m) s)
| step_chan_closed s : at_ s = Waiting -> msgChan s = [] -> msgOpen s = false -> step s (return_ s)
| step_done s : at_ s = Waiting -> cancelled s = true -> step s (return_ s)
| step_send s m : at_ s = Sending m -> (length (out s) < out_capacity)%nat ->
    step s (with_out (out s ++ [m]) Waiting (received s) s)
| step_send_done s m : at_ s = Sending m -> cancelled s = true -> step s (return_ s)
(* the client library and the caller *)
| step_deliver s m : msgOpen s = true -> (length (msgChan s) < chan_size)%nat ->
    step s {| msgChan := msgChan s ++ [m]; msgOpen := true; at_ := at_ s; out := out s;
              outClosed := outClosed s; pubsubClosed := pubsubClosed s; cancelled := cancelled s;
              published := published s ++ [m]; delivered := delivered s ++ [m];
              received := received s |}
| step_lose s m :
    step s {| msgChan := msgChan s; msgOpen := msgOpen s; at_ := at_ s; out := out s;
              outClosed := outClosed s; pubsubClosed := pubsubClosed s; cancelled := cancelled s;
              published := published s ++ [m]; delivered := delivered s; received := received s |}
| step_close_chan s :
    step s {| msgChan := msgChan s; msgOpen := false; at_ := at_ s; out := out s;
              outClosed := outClosed s; pubsubClosed := pubsubClosed s; cancelled := cancelled s;
              published := published s; delivered := delivered s; received := received s |}
| step_receive s m o : out s = m :: o -> step s (with_out o (at_ s) (received s ++ [m]) s)
| step_cancel s :
    step s {| msgChan := msgChan s; msgOpen := msgOpen s; at_ := at_ s; out := out s;
              outClosed := outClosed s; pubsubClosed := pubsubClosed s; cancelled := true;
              published := published s; delivered := delivered s; received := received s |}.

Definition held (s : forwarder) : list string := match at_ s with Sending m => [m] | _ => [] end.

(** What the caller has or will get, then what is on its way, is what was
    delivered; until the goroutine returns nothing is lost. *)
Definition finv (s : forwarder) : Prop :=
  (length (out s) <= out_capacity)%nat /\
  (at_ s = Returned <-> outClosed s = true) /\
  (outClosed s = true <-> pubsubClosed s = true) /\
  (at_ s <> Returned -> received s ++ out s ++ held s ++ msgChan s = delivered s) /\
  received s ++ out s `prefix_of` delivered s /\
  (at_ s = Returned -> cancelled s = false ->
     received s ++ out s ++ msgChan s = delivered s /\ msgChan s = [] /\ msgOpen s = false).

Lemma finv_return s :
  finv s -> at_ s <> Returned ->
  (cancelled s = true \/ (at_ s = Waiting /\ msgChan s = [] /\ msgOpen s = false)) -> finv (return_ s).
Proof.
  intros (Hl & _ & _ & He & Hp & _) Hr Hwhy. split_and!; simpl; try done.
  intros _ Hc. destruct Hwhy as [|(Hw & Hm & Ho)]; [congruence|]. split_and!; try done.
  rewrite <- (He Hr). unfold held. by rewrite Hw.
Qed.

Lemma finv_step s s' : finv s -> step s s' -> finv s'.
Proof.
  intros I Hs. pose proof I as (Hl & Hr & Hc & He & Hp & Hx). destruct Hs as
    [s m ms Ha Hm|s Ha Hm Ho|s Ha Hd|s m Ha Hlt|s m Ha Hd|s m Ho Hcap|s m|s|s m o Ho|s].
  - assert (E : received s ++ out s ++ [m] ++ ms = delivered s)
      by (rewrite <- He by congruence; unfold held; by rewrite Ha, Hm).
    split_and!; simpl; try done. split; [done|]. rewrite <- Hr, Ha. done.
  - apply finv_return; [done|congruence|eauto].
  - apply finv_return; [done|congruence|eauto].
  - assert (E : received s ++ (out s ++ [m]) ++ msgChan s = delivered s)
      by (rewrite <- He by congruence; unfold held; rewrite Ha; by rewrite <- app_assoc).
    split_and!; simpl; try done.
    + rewrite length_app. simpl. lia.
    + split; [done|]. rewrite <- Hr, Ha. done.
    + exists (msgChan s). by rewrite <- E, !app_assoc.
  - apply finv_return; [done|congruence|eauto].
  - split_and!; simpl; try done.
    + intros Hn. change (held _) with (held s). rewrite <- (He Hn). by rewrite <- !app_assoc.
    + destruct Hp as [k ->]. exists (k ++ [m]). by rewrite <- app_assoc.
    + intros H1 H2. destruct (Hx H1 H2) as (_ & _ & ?). congruence.
  - done.
  - split_and!; simpl; try done. intros H1 H2. by destruct (Hx H1 H2) as (? & ? & _).
  - assert (Ha : forall l, (received s ++ [m]) ++ o ++ l = received s ++ out s ++ l)
      by (intros l; rewrite Ho, <- app_assoc; done).
    split_and!; simpl; try done.
    + rewrite Ho in Hl. simpl in Hl. lia.
    + intros Hn. change (held _) with (held s). rewrite Ha. by apply He.
    + rewrite <- app_assoc. simpl. by rewrite <- Ho.
    + intros H1 H2. rewrite Ha. by apply Hx.
  - by split_and!; simpl.
Qed.

(** What reached the client's channel is what was published, less what was
    lost, and the channel holds no more than its capacity. *)
Definition dinv (s : forwarder) : Prop :=
  delivered s `sublist_of` published s /\ (length (msgChan s) <= chan_size)%nat.

Lemma dinv_step s s' : dinv s -> step s s' -> dinv s'.
Proof.
  intros [Hd Hl] Hs. destruct Hs as
    [s m ms Ha Hm|s Ha Hm Ho|s Ha Hx|s m Ha Hlt|s m Ha Hx|s m Ho Hcap|s m|s|s m o Ho|s];
    split; simpl; try done.
  - rewrite Hm in Hl. simpl in Hl. lia.
  - by apply sublist_app.
  - rewrite length_app. simpl. lia.
  - by apply sublist_inserts_r.
Qed.

(** ** Progress

    The steps of the goroutine and the caller that move messages on. *)
Inductive pump : forwarder -> forwarder -> Prop :=
| pump_take s m ms : at_ s = Waiting -> msgChan s = m :: ms -> pump s (with_chan ms (Sending m) s)
| pump_send s m : at_ s = Sending m -> (length (out s) < out_capacity)%nat ->
    pump s (with_out (out s ++ [m]) Waiting (received s) s)
| pump_receive s m o : out s = m :: o -> pump s (with_out o (at_ s) (received s ++ [m]) s).

Lemma pump_step s s' : pump s s' -> step s s' /\ cancelled s' = cancelled s /\ delivered s' = delivered s.
Proof.
  intros H. split.
  - destruct H; [by apply step_take|by apply step_send|by apply step_receive].
  - by destruct H.
Qed.

(** A message moves at most three times. *)
Definition way (s : forwarder) : nat := 3 * length (msgChan s) + 2 * length (held s) + length (out s).

Lemma pump_way s s' : pump s s' -> (way s' < way s)%nat.
Proof.
  unfold way, held. intros [x m ms Ha Hm|x m Ha _|x m o Ho]; simpl.
  - rewrite Ha, Hm. simpl. lia.
  - rewrite Ha, length_app. simpl. lia.
  - rewrite Ho. simpl. lia.
Qed.

Lemma pump_sn s : sn pump s.
Proof.
  remember (way s) as n eqn:E. revert s E. induction n as [n IH] using lt_wf_ind. intros s ->.
  constructor. intros s' H. by eapply IH; [apply pump_way, H|].
Qed.

(** When nothing moves any more, nothing is under way. *)
Lemma pump_nf s : finv s -> cancelled s = false -> nf pump s -> received s = delivered s.
Proof.
  intros (_ & _ & _ & He & _ & Hx) Hc Hn.
  assert (Ho : out s = []).
  { destruct (out s) as [|m o] eqn:E; [done|]. destruct Hn. eexists. by eapply pump_receive. }
  destruct (at_ s) as [|m|] eqn:Ea.
  - destruct (msgChan s) as [|m ms] eqn:Em; [|destruct Hn; eexists; by eapply pump_take].
    rewrite <- (He ltac:(done)). unfold held. by rewrite Ea, Ho, !app_nil_r.
  - destruct Hn. eexists. eapply pump_send; [done|]. rewrite Ho. unfold out_capacity. simpl. lia.
  - destruct (Hx eq_refl Hc) as (<- & -> & _). by rewrite Ho, !app_nil_r.
Qed.

Lemma pumps_keep s s' :
  rtc pump s s' -> finv s -> finv s' /\ cancelled s' = cancelled s /\ delivered s' = delivered s.
Proof.
  induction 1 as [|x y z Hxy _ IH]; intros I; [done|].
  destruct (pump_step _ _ Hxy) as (Hs & Hc & Hp). rewrite <- Hc, <- Hp. apply IH. by eapply finv_step.
Qed.

(** C10: Messages of a Redis subscription may be lost before they reach this
    code, never inside it.  In every run the caller receives a subsequence of
    the published revocations, in publication order and none twice: exactly
    those that reached the client library's channel, in order and without gaps.
    Unless the caller cancels, none of these is lost, even when the goroutine
    returns, and taking, sending and receiving cannot go on for ever without new
    messages and end with all of them received.  No buffer exceeds its
    capacity, the caller's channel is closed exactly when the goroutine has
    returned, and once the context is cancelled the goroutine can return at
    once, however full the channel is. *)
Theorem redis_forwards_in_order s0 s :
  SubscribeRevocations None = Ok s0 -> rtc step s0 s ->
  received s `sublist_of` published s /\ received s `prefix_of` delivered s /\
  delivered s `sublist_of` published s /\
  (length (out s) <= out_capacity)%nat /\ (length (msgChan s) <= chan_size)%nat /\
  (cancelled s = false -> received s ++ out s ++ held s ++ msgChan s = delivered s /\
     sn pump s /\ forall s', rtc pump s s' -> nf pump s' -> received s' = delivered s) /\
  (outClosed s = true <-> at_ s = Returned) /\ (pubsubClosed s = true <-> at_ s = Returned) /\
  (cancelled s = true -> at_ s <> Returned -> step s (return_ s)).
Proof.
  intros [= <-] Hrun. assert (I : finv s /\ dinv s).
  { eapply rtc_ind_l with (P := fun a => finv a /\ dinv a -> finv s /\ dinv s) in Hrun; [apply Hrun|done|].
    - split; [split_and!|split]; simpl; try done; unfold out_capacity; lia.
    - intros x y Hxy _ IH [Hx Hy]. apply IH. split; [by eapply finv_step|by eapply dinv_step]. }
  destruct I as [I [Hd Hm]]. pose proof I as (Hl & Hr & Hc & He & Hp & Hx).
  assert (Hpre : received s `prefix_of` delivered s) by (etrans; [|apply Hp]; by exists (out s)).
  split_and!; try tauto.
  - destruct Hpre as [k Hk]. etrans; [|exact Hd]. rewrite Hk. by apply sublist_inserts_r.
  - intros Hn. split_and!; [|apply pump_sn|].
    + destruct (at_ s) eqn:Ea; [by apply He| by apply He|].
      destruct (Hx eq_refl Hn) as (E & _ & _). unfold held. by rewrite Ea.
    + intros s' Hs' Hnf. destruct (pumps_keep s s' Hs' I) as (I' & Hc' & <-). apply pump_nf; congruence.
  - intros Hcc Hn. destruct (at_ s) eqn:Ea; [by apply step_done|by eapply step_send_done|done].
Qed.

End run.

(** ** A concrete run: three messages, one lost, one received *)
Module RedisBusWitness.

Definition start : forwarder :=
  {| msgChan := []; msgOpen := true; at_ := Waiting; out := []; outClosed := false;
     pubsubClosed := false; cancelled := false; published := []; delivered := []; received := [] |}.
Definition state2 : forwarder :=
  {| msgChan := ["b"]; msgOpen := true; at_ := Waiting; out := []; outClosed := false;
     pubsubClosed := false; cancelled := false; published := ["a"; "x"; "b"];
     delivered := ["a"; "b"]; received := ["a"] |}.

Lemma run2 : rtc (step 100) start state2.
Proof.
  eapply rtc_l; [apply (step_deliver _ _ "a"); simpl; [done|lia]|]. eapply rtc_l; [by eapply step_take|].
  eapply rtc_l; [eapply step_send; [done|unfold out_capacity; simpl; lia]|].
  eapply rtc_l; [apply (step_lose _ _ "x")|].
  eapply rtc_l; [apply (step_deliver _ _ "b"); simpl; [done|lia]|]. eapply rtc_l; [by eapply step_receive|].
  apply rtc_refl.
Qed.

Lemma redis_forwards_in_order_witness :
  SubscribeRevocations None = Ok start /\ received state2 `sublist_of` published state2.
Proof.
  split; [reflexivity|].
  destruct (redis_forwards_in_order 100 start state2) as [H _]; [reflexivity|exact run2|exact H].
Defined.

End RedisBusWitness.
