(* ===== verification/Cluster.v ===== *)
(** * Revocation across processes: several [authz/cache/tiered.go] providers

    Every process has its own first tier; all share the second tier and the
    invalidation bus.  A revocation purges the tiers of the process that
    publishes it and reaches the others through their listeners.  The two
    halves of a [Get] (the reads, the fill of the first tier) are separate
    steps, so fills may be in flight when a revocation runs.  The bus delivers at
    most once: a publication that reports success may reach a subscription at
    once, later or never, as both buses of the package do (the in-memory one
    drops messages for a full buffer, Redis Pub/Sub and its client may lose
    them).  The theorems speak of the processes that heard a message. *)
From S2P Require Import Prelude GoStrings CacheIface AuthzCache.
Import Tiered.

Local Open Scope string_scope.
Local Open Scope Z_scope.
Local Open Scope list_scope.

Section cluster.
Context {W : Type} (now : W -> Z) (n : nat) (node : nat -> TieredCacheProvider W)
  (L2 : CacheProvider W) (key : string -> string).

(** The processes [0 .. n-1]: separate first tiers that never refuse to delete
    a non-empty key, one second tier, one key format, and subscriptions. *)
Class ClusterEnv := {
  cl_l2 : forall j, l2 (node j) = L2;
  cl_key : forall j p, keyFormatter (node j) p = key p;
  cl_spec1 :: forall j, CacheSpec now (l1 (node j));
  cl_spec2 :: CacheSpec now L2;
  inbox : W -> nat -> list string;
  recv : nat -> W -> W;
  cl_del1_ok : forall j k w, k <> "" -> fst (cDelete (l1 (node j)) k w) = None;
  (* first-tier operations touch their own tier only *)
  cl_frame1 : forall i k v ttl w w',
    w' = snd (cGet (l1 (node i)) k w) \/ w' = snd (cSet (l1 (node i)) k v ttl w) \/
    w' = snd (cDelete (l1 (node i)) k w) ->
    view (C := L2) w' = view (C := L2) w /\ inbox w' = inbox w /\
    forall j, j <> i -> view (C := l1 (node j)) w' = view (C := l1 (node j)) w;
  (* second-tier operations touch no first tier *)
  cl_frame2 : forall k v ttl w w',
    w' = snd (cGet L2 k w) \/ w' = snd (cSet L2 k v ttl w) \/ w' = snd (cDelete L2 k w) ->
    inbox w' = inbox w /\ forall j, view (C := l1 (node j)) w' = view (C := l1 (node j)) w;
  (* publishing reaches a subscription at most once; receiving takes the oldest *)
  cl_publish : forall j b p w r w', bus (node j) = Some b -> bPublishRevocation b p w = (r, w') ->
    view (C := L2) w' = view (C := L2) w /\
    (forall i, view (C := l1 (node i)) w' = view (C := l1 (node i)) w) /\
    (forall i, inbox w' i = inbox w i \/ inbox w' i = inbox w i ++ [p]);
  cl_recv : forall j w,
    view (C := L2) (recv j w) = view (C := L2) w /\
    (forall i, view (C := l1 (node i)) (recv j w) = view (C := l1 (node i)) w) /\
    (forall i, inbox (recv j w) i = if decide (i = j) then tail (inbox w j) else inbox w i)
}.

Context {env : ClusterEnv}.

Abbreviation v1 j w := (view (C := l1 (node j)) w).
Abbreviation v2 w := (view (C := L2) w).

(** ** Runs *)

(** The shared world and the fills in flight: process, key and value. *)
Record cstate : Type := { cw : W; inflight : list (nat * string * string) }.

Inductive clabel : Type :=
| CRead (j : nat) (k : string) | CFill (j : nat) (k v : string)
| CSet (j : nat) (k v : string) (ttl : Z) | CDelete (j : nat) (k : string)
| CRevoke (j : nat) (p : string) | CListen (j : nat) (p : string) | CEnv.

(** The reads of a [Get]: a value from the second tier leaves a fill to do. *)
Definition read_state (j : nat) (k : string) (s : cstate) : cstate :=
  match get_read (node j) k (cw s) with
  | (Ok v, true, w') => {| cw := w'; inflight := (j, k, v) :: inflight s |}
  | (_, _, w') => {| cw := w'; inflight := inflight s |}
  end.

Inductive cstep : cstate -> clabel -> cstate -> Prop :=
| cs_read j k s : (j < n)%nat -> cstep s (CRead j k) (read_state j k s)
| cs_fill j k v before after s :
    inflight s = before ++ (j, k, v) :: after ->
    cstep s (CFill j k v) {| cw := get_fill (node j) k v (cw s); inflight := before ++ after |}
| cs_set j k v ttl s : (j < n)%nat ->
    cstep s (CSet j k v ttl) {| cw := snd (Set_ (node j) k v ttl (cw s)); inflight := inflight s |}
| cs_delete j k s : (j < n)%nat ->
    cstep s (CDelete j k) {| cw := snd (Delete (node j) k (cw s)); inflight := inflight s |}
| cs_revoke j p s : (j < n)%nat ->
    cstep s (CRevoke j p)
      {| cw := snd (PublishRevocation (node j) p (cw s)); inflight := inflight s |}
| cs_listen j p rest s : (j < n)%nat -> inbox (cw s) j = p :: rest ->
    cstep s (CListen j p)
      {| cw := listener_recv (node j) p (recv j (cw s)); inflight := inflight s |}
| cs_env s w' :
    vsub (v2 w') (v2 (cw s)) -> (forall j, vsub (v1 j w') (v1 j (cw s))) ->
    (forall j, exists extra, inbox w' j = inbox (cw s) j ++ extra) ->
    cstep s CEnv {| cw := w'; inflight := inflight s |}.

Inductive csteps : cstate -> list clabel -> cstate -> Prop :=
| csteps_nil s : csteps s [] s
| csteps_cons s l s' ls s'' : cstep s l s' -> csteps s' ls s'' -> csteps s (l :: ls) s''.

(** ** Views after the operations *)

(** [w'] holds no more than [w] under [k] in any tier. *)
Definition shrinks (k : string) (w w' : W) : Prop :=
  (v2 w k = None -> v2 w' k = None) /\ (forall j, v1 j w k = None -> v1 j w' k = None).

#[local] Instance shrinks_preorder k : PreOrder (shrinks k).
Proof. split; [done|]. intros w w1 w2 (A2 & A1) (B2 & B1). split; auto. Qed.

Lemma vsub_none f g k : vsub f g -> g k = None -> f k = None.
Proof. apply vsub_None. Qed.

(** A first-tier operation that only shrinks its own view. *)
Lemma shrinks_l1 i k w w' :
  v2 w' = v2 w -> (forall j, j <> i -> v1 j w' = v1 j w) ->
  (v1 i w k = None -> v1 i w' k = None) -> shrinks k w w'.
Proof.
  intros H2 Hj Hi. split; [by rewrite H2|].
  intros j. destruct (decide (j = i)) as [->|]; [done|]. by rewrite Hj.
Qed.

Lemma get1_shrinks i q k w : shrinks k w (snd (cGet (l1 (node i)) q w)).
Proof.
  destruct (cl_frame1 i q "" 0 w _ (or_introl eq_refl)) as (H2 & _ & Hj).
  apply (shrinks_l1 i); try done. destruct (cGet (l1 (node i)) q w) as [r w'] eqn:E. simpl in *.
  apply get_spec in E as (_ & S & _). by apply vsub_none.
Qed.

Lemma del1_shrinks i q k w : shrinks k w (snd (cDelete (l1 (node i)) q w)).
Proof.
  destruct (cl_frame1 i q "" 0 w _ (or_intror (or_intror eq_refl))) as (H2 & _ & Hj).
  apply (shrinks_l1 i); try done. destruct (cDelete (l1 (node i)) q w) as [r w'] eqn:E. simpl in *.
  apply delete_spec in E as (_ & S & _). by apply vsub_none.
Qed.

Lemma set1_shrinks i q v ttl k w : q <> k -> shrinks k w (snd (cSet (l1 (node i)) q v ttl w)).
Proof.
  intros Hq. destruct (cl_frame1 i q v ttl w _ (or_intror (or_introl eq_refl))) as (H2 & _ & Hj).
  apply (shrinks_l1 i); try done. destruct (cSet (l1 (node i)) q v ttl w) as [r w'] eqn:E. simpl in *.
  apply set_spec in E as (_ & e & _ & [S|[_ S]]); [|by apply vsub_none].
  intros Hk. eapply vsub_none; [exact S|]. unfold vset. by rewrite decide_False.
Qed.

(** Likewise for the second tier. *)
Lemma shrinks_l2 k w w' :
  (forall j, v1 j w' = v1 j w) -> (v2 w k = None -> v2 w' k = None) -> shrinks k w w'.
Proof. intros Hj H2. split; [done|]. intros j. by rewrite Hj. Qed.

Lemma get2_shrinks q k w : shrinks k w (snd (cGet L2 q w)).
Proof.
  destruct (cl_frame2 q "" 0 w _ (or_introl eq_refl)) as (HI & Hj). apply shrinks_l2; try done.
  destruct (cGet L2 q w) as [r w'] eqn:E. simpl in *. apply get_spec in E as (_ & S & _).
  by apply vsub_none.
Qed.

Lemma del2_shrinks q k w : shrinks k w (snd (cDelete L2 q w)).
Proof.
  destruct (cl_frame2 q "" 0 w _ (or_intror (or_intror eq_refl))) as (HI & Hj).
  apply shrinks_l2; try done. destruct (cDelete L2 q w) as [r w'] eqn:E. simpl in *.
  apply delete_spec in E as (_ & S & _). by apply vsub_none.
Qed.

Lemma set2_shrinks q v ttl k w : q <> k -> shrinks k w (snd (cSet L2 q v ttl w)).
Proof.
  intros Hq. destruct (cl_frame2 q v ttl w _ (or_intror (or_introl eq_refl))) as (HI & Hj).
  apply shrinks_l2; try done. destruct (cSet L2 q v ttl w) as [r w'] eqn:E. simpl in *.
  apply set_spec in E as (_ & e & _ & [S|[_ S]]); [|by apply vsub_none].
  intros Hk. eapply vsub_none; [exact S|]. unfold vset. by rewrite decide_False.
Qed.

(** ** The operations of a provider *)
Lemma get_read_shrinks i q k w :
  shrinks k w (snd (get_read (node i) q w)) /\
  (v1 i w q = None -> v2 w q = None -> exists e hit, fst (get_read (node i) q w) = (Err e, hit)) /\
  (forall v w', get_read (node i) q w = (Ok v, true, w') -> v2 w q <> None).
Proof.
  unfold get_read. rewrite cl_l2. pose proof (get1_shrinks i q k w) as S1.
  destruct (cl_frame1 i q "" 0 w _ (or_introl eq_refl)) as (F2 & _ & _).
  destruct (cGet (l1 (node i)) q w) as [[v|e] w1] eqn:E1; simpl in *.
  { apply get_spec in E1 as (_ & _ & V). destruct (V v eq_refl) as (e & Hv & _).
    split_and!; [done|congruence|congruence]. }
  pose proof (get2_shrinks q k w1) as S2.
  destruct (cGet L2 q w1) as [[v|e2] w2] eqn:E2; simpl in *.
  - apply get_spec in E2 as (_ & _ & V). destruct (V v eq_refl) as (e' & Hv & _). rewrite F2 in Hv.
    split_and!; [by etrans|congruence|]. intros ? ? [= <- <-]. congruence.
  - split_and!; [by etrans|eauto|congruence].
Qed.

Lemma delete_shrinks i q k w : shrinks k w (snd (Delete (node i) q w)).
Proof.
  unfold Delete. rewrite cl_l2. pose proof (del1_shrinks i q k w) as S1.
  destruct (cDelete (l1 (node i)) q w) as [r1 w1]. simpl in S1. etrans; [exact S1|apply del2_shrinks].
Qed.

Lemma set_shrinks i q v ttl k w : q <> k -> shrinks k w (snd (Set_ (node i) q v ttl w)).
Proof.
  intros Hq. unfold Set_, set_rest, set_first. rewrite cl_l2. pose proof (set1_shrinks i q v (set_l1TTL (node i) ttl) k w Hq) as S1.
  destruct (cSet (l1 (node i)) q v _ w) as [r1 w1]. simpl in S1. etrans; [exact S1|by apply set2_shrinks].
Qed.

Lemma publish_shrinks i b p k w : bus (node i) = Some b -> shrinks k w (snd (bPublishRevocation b p w)).
Proof.
  intros Hb. destruct (bPublishRevocation b p w) as [r w'] eqn:E.
  destruct (cl_publish _ _ _ _ _ _ Hb E) as (H2 & H1 & _). simpl.
  split; [by rewrite H2|]. intros j. by rewrite H1.
Qed.

Lemma revoke_shrinks i p k w : shrinks k w (snd (PublishRevocation (node i) p w)).
Proof.
  unfold PublishRevocation. rewrite cl_l2. set (q := keyFormatter (node i) p).
  pose proof (del1_shrinks i q k w) as S1. destruct (cDelete (l1 (node i)) q w) as [r1 w1]. simpl in S1.
  pose proof (del2_shrinks q k w1) as S2. destruct (cDelete L2 q w1) as [r2 w2]. simpl in S2.
  assert (S12 : shrinks k w w2) by (by etrans). destruct (bus (node i)) as [b|] eqn:Eb; [|done].
  etrans; [exact S12|by eapply publish_shrinks].
Qed.

Lemma listener_clears j p w : key p <> "" -> v1 j (listener_recv (node j) p w) (key p) = None.
Proof.
  intros Hk. unfold listener_recv. rewrite cl_key. pose proof (cl_del1_ok j (key p) w Hk) as Hok.
  destruct (cDelete (l1 (node j)) (key p) w) as [r w'] eqn:E. simpl in *.
  apply delete_spec in E as (_ & _ & H). by apply H.
Qed.

(** ** The invariant after a revocation of [p]

    Nothing of [p] is in flight, in the second tier, or in the first tier of a
    process that heard of it. *)
Definition quiet (heard : nat -> Prop) (p : string) (s : cstate) : Prop :=
  (forall j v, (j, key p, v) ∉ inflight s) /\ v2 (cw s) (key p) = None /\
  forall j, heard j -> v1 j (cw s) (key p) = None.

Lemma quiet_shrinks heard p w w' fl fl' :
  shrinks (key p) w w' -> (forall j v, (j, key p, v) ∉ fl') ->
  quiet heard p {| cw := w; inflight := fl |} -> quiet heard p {| cw := w'; inflight := fl' |}.
Proof. intros (S2 & S1) Hf (_ & H2 & H1). simpl in *. split_and!; simpl; auto. Qed.

(** The listener consumes its message and forgets the principal. *)
Lemma listen_shrinks j q k w : shrinks k w (listener_recv (node j) q (recv j w)).
Proof.
  destruct (cl_recv j w) as (R2 & R1 & _). unfold listener_recv.
  pose proof (del1_shrinks j (keyFormatter (node j) q) k (recv j w)) as (S2 & S1).
  split; [rewrite <- R2; auto|]. intros i. rewrite <- R1. auto.
Qed.

Definition csets (k : string) (l : clabel) : Prop := match l with CSet _ k' _ _ => k' = k | _ => False end.

Lemma quiet_step heard p s l s' :
  key p <> "" -> cstep s l s' -> ~ csets (key p) l -> quiet heard p s ->
  quiet (fun i => heard i \/ l = CListen i p) p s'.
Proof.
  intros Hk Hs Hl Q. assert (Q' : quiet heard p s').
  { destruct s as [w fl]. inversion Hs; subst; simpl in *.
    - destruct (get_read_shrinks j k (key p) w) as (S & _ & Hh). unfold read_state. simpl.
      destruct (get_read (node j) k w) as [[r hit] w'] eqn:E. simpl in S.
      assert (Q' : quiet heard p {| cw := w'; inflight := fl |}) by (eapply quiet_shrinks; [done|apply Q|done]).
      destruct r as [v|e]; [|done]. destruct hit; [|done]. eapply quiet_shrinks; [reflexivity| |exact Q'].
      intros i v'. rewrite elem_of_cons. intros [[= -> <- ->]|Hin]; [|by apply Q in Hin].
      destruct Q as (_ & H2 & _). by apply (Hh v w' eq_refl).
    - assert (Hin : (j, k, v) ∈ fl) by set_solver.
      assert (Hkk : k <> key p) by (intros ->; by apply Q in Hin).
      eapply quiet_shrinks; [by apply set1_shrinks| |exact Q]. intros i v' Hx. apply (proj1 Q i v'). simpl. set_solver.
    - eapply quiet_shrinks; [by apply set_shrinks|apply Q|exact Q].
    - eapply quiet_shrinks; [by apply delete_shrinks|apply Q|exact Q].
    - eapply quiet_shrinks; [by apply revoke_shrinks|apply Q|exact Q].
    - eapply quiet_shrinks; [by apply listen_shrinks|apply Q|exact Q].
    - eapply (quiet_shrinks heard p w); [|apply Q|exact Q]. split; [by apply vsub_none|].
      intros j. by apply vsub_none. }
  destruct Q' as (Hf & H2 & H1). split_and!; [done|done|]. intros i [Hi| ->]; [by apply H1|].
  inversion Hs; subst. simpl. by apply listener_clears.
Qed.

Lemma quiet_ext (H H' : nat -> Prop) p s : (forall i, H' i -> H i) -> quiet H p s -> quiet H' p s.
Proof. intros Hi (Hf & H2 & H1). split_and!; auto. Qed.

Lemma quiet_steps heard p s ls s' :
  key p <> "" -> csteps s ls s' -> Forall (fun l => ~ csets (key p) l) ls -> quiet heard p s ->
  quiet (fun i => heard i \/ CListen i p ∈ ls) p s'.
Proof.
  intros Hk Hs. revert heard. induction Hs as [s|s l s1 ls s2 Hl _ IH]; intros heard HF Q.
  - eapply quiet_ext; [|exact Q]. intros i [?|H]; [done|]. by apply not_elem_of_nil in H.
  - apply Forall_cons in HF as [Hc HF].
    eapply quiet_ext; [|apply IH; [done|by apply (quiet_step heard p s l s1)]].
    intros i [?|[->|?]%elem_of_cons]; auto.
Qed.

(** [PublishRevocation] at process [j] in which the second tier confirmed its
    delete and the bus took the message. *)
Definition revoked (j : nat) (p : string) (w w' : W) : Prop :=
  fst (cDelete L2 (key p) (snd (cDelete (l1 (node j)) (key p) w))) = None /\
  is_Some (bus (node j)) /\ PublishRevocation (node j) p w = (None, w').

(** The publisher itself needs no message. *)
Lemma quiet_revoke j p s w' :
  key p <> "" -> (forall i v, (i, key p, v) ∉ inflight s) -> revoked j p (cw s) w' ->
  quiet (fun i => i = j) p {| cw := w'; inflight := inflight s |}.
Proof.
  intros Hk Hf (Hd & [b Hb] & HP). unfold PublishRevocation in HP. rewrite cl_l2, cl_key, Hb in HP.
  pose proof (cl_del1_ok j (key p) (cw s) Hk) as Hok.
  destruct (cDelete (l1 (node j)) (key p) (cw s)) as [r1 w1] eqn:E1. simpl in Hd, Hok. subst r1.
  apply delete_spec in E1 as (_ & _ & H1). specialize (H1 eq_refl).
  destruct (cl_frame2 (key p) "" 0 w1 _ (or_intror (or_intror eq_refl))) as (_ & F1).
  destruct (cDelete L2 (key p) w1) as [r2 w2] eqn:E2. simpl in Hd, F1. subst r2.
  apply delete_spec in E2 as (_ & _ & H2). destruct (cl_publish _ _ _ _ _ _ Hb HP) as (P2 & P1 & _).
  split_and!; simpl; [done|rewrite P2; by apply H2|]. intros i ->. by rewrite P1, F1.
Qed.

Lemma quiet_refuses heard p s j :
  quiet heard p s -> heard j -> exists e, fst (Get (node j) (key p) (cw s)) = Err e.
Proof.
  intros (_ & H2 & H1) Hj.
  destruct (get_read_shrinks j (key p) (key p) (cw s)) as (_ & Hr & _).
  destruct (Hr (H1 j Hj) H2) as (e & hit & E). exists e. unfold Get.
  destruct (get_read (node j) (key p) (cw s)) as [[r h] w']. simpl in E. by injection E as -> ->.
Qed.

(** A confirmed revocation binds every process that hears of it: when no fill of
    the principal's key was in flight, then whatever all processes do
    afterwards, as long as none stores the key again, the publisher and every
    process whose listener has consumed a message for the principal since serve
    no value under the key. *)
Theorem cluster_revocation s j p w' ls s2 i :
  key p <> "" -> (forall i v, (i, key p, v) ∉ inflight s) ->
  revoked j p (cw s) w' -> csteps {| cw := w'; inflight := inflight s |} ls s2 ->
  Forall (fun l => ~ csets (key p) l) ls ->
  i = j \/ CListen i p ∈ ls -> exists e, fst (Get (node i) (key p) (cw s2)) = Err e.
Proof.
  intros Hk Hf Hr Hs HF Hi.
  exact (quiet_refuses _ p s2 i (quiet_steps _ p _ ls s2 Hk Hs HF (quiet_revoke j p s w' Hk Hf Hr)) Hi).
Qed.

(** ** Progress of the listeners *)
Definition lstep (s s' : cstate) : Prop := exists j p, cstep s (CListen j p) s'.

Definition backlog (w : W) : nat := sum_list (map (fun j => length (inbox w j)) (seq 0 n)).

Lemma sum_decrease (f g : nat -> nat) l j :
  j ∈ l -> NoDup l -> (g j < f j)%nat -> (forall i, i <> j -> g i = f i) ->
  (sum_list (map g l) < sum_list (map f l))%nat.
Proof.
  intros Hin Hn Hj Hi. induction l as [|x l IH]; [set_solver|]. inversion Hn; subst. simpl.
  apply elem_of_cons in Hin as [<-|Hin].
  - assert (map g l = map f l) as -> by (apply map_ext_in; intros a Ha%list_elem_of_In; apply Hi; set_solver).
    lia.
  - specialize (IH Hin ltac:(done)). rewrite (Hi x) by set_solver. lia.
Qed.

Lemma lstep_backlog s s' : lstep s s' -> (backlog (cw s') < backlog (cw s))%nat.
Proof.
  intros (j & p & H). inversion H; subst. simpl. destruct (cl_recv j (cw s)) as (_ & _ & RI).
  destruct (cl_frame1 j (keyFormatter (node j) p) "" 0 (recv j (cw s)) _ (or_intror (or_intror eq_refl)))
    as (_ & FI & _). unfold backlog, listener_recv. rewrite FI. apply (sum_decrease _ _ _ j).
  - apply elem_of_seq. lia.
  - apply NoDup_seq.
  - rewrite RI, decide_True by done.
    match goal with Hb : inbox _ _ = _ |- _ => rewrite Hb end. simpl. lia.
  - intros i Hi. by rewrite RI, decide_False.
Qed.

(** A message that arrived is consumed or still there. *)
Lemma lsteps_hear s s' :
  rtc lstep s s' -> exists ls, csteps s ls s' /\ (forall k, Forall (fun l => ~ csets k l) ls) /\
    forall i p, p ∈ inbox (cw s) i -> CListen i p ∈ ls \/ p ∈ inbox (cw s') i.
Proof.
  induction 1 as [s|s s1 s2 (j & q & Hs) _ (ls & Hls & HF & HI)].
  { exists []. split_and!; [constructor|constructor|by right]. }
  exists (CListen j q :: ls). split_and!; [by econstructor|intros k; constructor; [by intros []|done]|].
  intros i p Hp. assert (p ∈ inbox (cw s1) i \/ (i = j /\ p = q)) as [H|[-> ->]]; [| |left; left].
  - inversion Hs; subst. simpl. destruct (cl_recv j (cw s)) as (_ & _ & RI).
    destruct (cl_frame1 j (keyFormatter (node j) q) "" 0 (recv j (cw s)) _ (or_intror (or_intror eq_refl)))
      as (_ & FI & _). unfold listener_recv. rewrite FI, RI. case_decide as E; [subst i|by left].
    match goal with Hb : inbox _ _ = _ |- _ => rewrite Hb in Hp |- * end. simpl.
    apply elem_of_cons in Hp as [->|?]; auto.
  - destruct (HI i p H) as [?|?]; [left; by right|by right].
Qed.

Lemma nf_inbox s i : nf lstep s -> (i < n)%nat -> inbox (cw s) i = [].
Proof.
  intros Hnf Hi. destruct (inbox (cw s) i) as [|q rest] eqn:E; [done|].
  destruct Hnf. eexists. exists i, q. by eapply cs_listen.
Qed.

(** The listeners make the revocation effective where the message arrived: after
    a confirmed revocation (and any further operations that do not store the
    key), the listeners cannot run for ever, and whenever they have no message
    left to consume, the publisher and every process that got the message refuse
    the key. *)
Theorem cluster_eventually_revoked s j p w' ls s2 :
  key p <> "" -> (forall i v, (i, key p, v) ∉ inflight s) ->
  revoked j p (cw s) w' -> csteps {| cw := w'; inflight := inflight s |} ls s2 ->
  Forall (fun l => ~ csets (key p) l) ls ->
  sn lstep s2 /\
  forall s3, rtc lstep s2 s3 -> nf lstep s3 ->
    forall i, (i < n)%nat -> i = j \/ CListen i p ∈ ls \/ p ∈ inbox (cw s2) i ->
      exists e, fst (Get (node i) (key p) (cw s3)) = Err e.
Proof.
  intros Hk Hf Hr Hs HF.
  pose proof (quiet_steps _ p _ ls s2 Hk Hs HF (quiet_revoke j p s w' Hk Hf Hr)) as Q.
  split.
  - clear -env. remember (backlog (cw s2)) as m eqn:E. revert s2 E.
    induction m as [m IH] using lt_wf_ind. intros s2 ->. constructor. intros s3 H.
    by eapply IH; [apply lstep_backlog, H|].
  - intros s3 Hrun Hnf i Hi Hheard. destruct (lsteps_hear _ _ Hrun) as (ls' & Hs' & HF' & HI).
    eapply quiet_refuses; [exact (quiet_steps _ p _ ls' s3 Hk Hs' (HF' _) Q)|]. simpl.
    destruct Hheard as [?|[?|Hp]]; [auto|auto|]. destruct (HI i p Hp) as [?|H]; [auto|].
    rewrite (nf_inbox s3 i Hnf Hi) in H. by apply not_elem_of_nil in H.
Qed.

End cluster.

(** ** Two processes over exact maps *)
Module ClusterWitness.

Record World2 : Type := {
  cclock : Z;
  firsts : gmap nat (gmap string entry);
  shared : gmap string entry;
  boxes : gmap nat (list string)
}.

Definition lens_first (j : nat) : Lens World2 (gmap string entry) :=
  {| lget w := default ∅ (firsts w !! j);
     lset a w := {| cclock := cclock w; firsts := <[j := a]> (firsts w); shared := shared w;
                    boxes := boxes w |} |}.
Definition lens_shared : Lens World2 (gmap string entry) :=
  {| lget := shared;
     lset a w := {| cclock := cclock w; firsts := firsts w; shared := a; boxes := boxes w |} |}.

#[local] Instance lens_first_laws j : LensLaws cclock (lens_first j).
Proof. split; [|done]. intros a w. simpl. by rewrite lookup_insert_eq. Defined.
#[local] Instance lens_shared_laws : LensLaws cclock lens_shared.
Proof. by split. Defined.

Definition box (w : World2) (j : nat) : list string := default [] (boxes w !! j).
Definition set_box (j : nat) (l : list string) (w : World2) : World2 :=
  {| cclock := cclock w; firsts := firsts w; shared := shared w; boxes := <[j := l]> (boxes w) |}.

(** A bus of bounded buffers: a message for a full one is dropped, silently. *)
Definition offer (l : list string) (p : string) : list string :=
  if (length l <? 2)%nat then l ++ [p] else l.
Definition bus2 : InvalidationBus World2 :=
  {| bPublishRevocation p w :=
       (None, set_box 1 (offer (box w 1) p) (set_box 0 (offer (box w 0) p) w));
     bSubscribeRevocations w := (Ok 0%nat, w) |}.
Lemma offer_once l p : offer l p = l \/ offer l p = l ++ [p].
Proof. unfold offer. destruct (_ <? _)%nat; auto. Qed.
Definition perm_key (p : string) : string := "perm:" +:+ p.
Definition second_tier : CacheProvider World2 := TTLCache cclock lens_shared.
Definition node2 (j : nat) : TieredCacheProvider World2 :=
  {| l1 := TTLCache cclock (lens_first j); l2 := second_tier; bus := Some bus2;
     l1TTL := 60; keyFormatter := perm_key |}.

Lemma box_set i j l w : box (set_box j l w) i = if decide (i = j) then l else box w i.
Proof.
  unfold box, set_box. simpl. case_decide as E; [subst; by rewrite lookup_insert_eq|].
  by rewrite lookup_insert_ne.
Qed.

#[local] Instance cluster2 : ClusterEnv cclock node2 second_tier perm_key.
Proof.
  refine (@Build_ClusterEnv _ cclock node2 second_tier perm_key _ _
            (fun j => TTLCache_spec cclock (lens_first j)) (TTLCache_spec cclock lens_shared) box
            (fun j w => set_box j (tail (box w j)) w) _ _ _ _ _); simpl.
  - done.
  - done.
  - intros j k w Hk. unfold ttl_Delete. by rewrite bool_decide_false.
  - intros i k v ttl w w' [-> | [-> | ->]]; unfold ttl_Get, ttl_Set, ttl_Delete;
      repeat case_match; (split_and!; [done|done|]); intros j Hj; try done; simpl;
      by rewrite lookup_insert_ne.
  - intros k v ttl w w' [-> | [-> | ->]]; unfold ttl_Get, ttl_Set, ttl_Delete; repeat case_match; done.
  - intros j b p w r w' [= <-] [= <- <-]. split_and!; [done|done|].
    intros i. rewrite !box_set. repeat case_decide; subst; [apply offer_once|apply offer_once|by left].
  - intros j w. split_and!; [done|done|]. intros i. apply box_set.
Defined.

Definition world0 : World2 := {| cclock := 0; firsts := ∅; shared := ∅; boxes := ∅ |}.
(** Process 0 stores a bundle, process 1 reads it (and fills its first tier). *)
Definition world1 : World2 :=
  snd (Get (node2 1) "perm:u1" (snd (Set_ (node2 0) "perm:u1" "bundle" 300 world0))).
Definition start1 : cstate (W := World2) := {| cw := world1; inflight := [] |}.
(** Process 0 revokes; process 1 serves the stale bundle until it listens. *)
Definition world2 : World2 := snd (PublishRevocation (node2 0) "u1" world1).
Definition start2 : cstate (W := World2) := {| cw := world2; inflight := [] |}.
Definition world3 : World2 :=
  listener_recv (node2 1) "u1" (recv cclock node2 second_tier perm_key 1 world2).

Example stale_until_heard : fst (Get (node2 1) "perm:u1" world2) = Ok "bundle".
Proof. vm_compute. reflexivity. Qed.

Lemma revoked1 : revoked node2 second_tier perm_key 0 "u1" world1 world2.
Proof. split_and!; [vm_compute; reflexivity|by eexists|vm_compute; reflexivity]. Qed.

Lemma heard3 : csteps cclock 2%nat node2 second_tier perm_key start2 [CListen 1 "u1"] {| cw := world3; inflight := [] |}.
Proof.
  econstructor; [|constructor]. apply (cs_listen _ _ _ _ _ 1 "u1" []); [lia|]. vm_compute. reflexivity.
Qed.

Lemma cluster_revocation_witness :
  exists e, fst (Get (node2 1) (perm_key "u1") world3) = Err e.
Proof.
  apply (cluster_revocation cclock 2 node2 second_tier perm_key start1 0 "u1" world2
           [CListen 1 "u1"] {| cw := world3; inflight := [] |} 1).
  - discriminate.
  - intros i v. apply not_elem_of_nil.
  - exact revoked1.
  - exact heard3.
  - repeat constructor. intros [].
  - right. left.
Defined.

Lemma cluster_eventually_revoked_witness :
  sn (lstep cclock 2 node2 second_tier perm_key) start2.
Proof.
  apply (cluster_eventually_revoked cclock 2 node2 second_tier perm_key start1 0 "u1" world2 [] start2).
  - discriminate.
  - intros i v. apply not_elem_of_nil.
  - exact revoked1.
  - constructor.
  - constructor.
Defined.

End ClusterWitness.
