(* ===== verification/Revocation.v ===== *)
(** * Authorization over the caches: [authz/engine.go], [authz/cache/tiered.go] and
    [authz/repository.go] together

    Several processes decide PARC requirements.  Each has a [PARCHandler] whose
    cache is the process's two-tier provider; the second tier, the invalidation
    bus and the permission repository are shared.  A decision goes through up to
    five operations that other processes may interleave with: the reads of a
    cache [Get], the fill of the first tier after a hit in the second, the read
    of the repository after a miss, and the [Set] of the encoded bundle.  A run
    is a sequence of these operations, of repository changes, revocations and
    their messages, other uses of the cache, and the passage of time.

    The theorems: every decision is the one of a bundle the repository held a
    bounded time ago; after a confirmed revocation no decision of a process that
    heard of it uses the revoked bundle, provided no read of it was under way,
    and no decision of any process does when the lifetimes of the caches are
    over; and a read that was under way does bring the revoked bundle back. *)
From S2P Require Import Prelude GoStrings Parc Principal Policy CacheIface Engine AuthzCache Cluster.
Import Tiered.

Local Open Scope string_scope.
Local Open Scope Z_scope.
Local Open Scope list_scope.

(** ** The provider a handler is given *)

(** [*TieredCacheProvider] as a [CacheProvider]. *)
Definition tiered_cache {W} (t : TieredCacheProvider W) : CacheProvider W :=
  {| cGet := Get t; cSet := Set_ t; cDelete := Delete t;
     cClose w := let '(e, _, w') := Close t {| listening := true; closed := false |} w in (e, w') |}.

(** ** The phases of a fetch *)
Section phases.
Context {W : Type} {codec : PermCodec}.

(** What the bytes of a cache answer are worth to the handler. *)
Definition decoded (got : res cache_err string) : option PrincipalPermissions :=
  match got with Ok bytes => json_Unmarshal bytes | Err _ => None end.

(** The [Set] that follows a repository read. *)
Definition fetch_store (h : PARCHandler W) (subject : string)
  (perms : option PrincipalPermissions) (w : W) : W :=
  match json_Marshal perms with
  | Some bytes => snd (cSet (cache h) (cacheKey subject) bytes (grantTTL h) w)
  | None => w
  end.

(** [Handle] runs the phases one after the other. *)
Lemma fetch_permissions_phases (h : PARCHandler W) subject w :
  fetch_permissions h subject w =
  let '(got, w1) := cGet (cache h) (cacheKey subject) w in
  match decoded got with
  | Some perms => (Ok (Some perms), w1)
  | None =>
      match GetPermissions (repo h) subject w1 with
      | (Err e, w2) => (Err (ErrFetchingPermissions e), w2)
      | (Ok perms, w2) => (Ok perms, fetch_store h subject perms w2)
      end
  end.
Proof.
  unfold fetch_permissions, fetch_store. destruct (cGet (cache h) (cacheKey subject) w) as [got w1].
  fold (decoded got). destruct (decoded got); [done|].
  destruct (GetPermissions (repo h) subject w1) as [[perms|e] w2]; [|done].
  by destruct (json_Marshal perms).
Qed.

End phases.

(** ** The system *)
Section system.
Context {W : Type} (now : W -> Z) (n : nat) (node : nat -> TieredCacheProvider W)
  (L2 : CacheProvider W) {cluster : ClusterEnv now node L2 cacheKey}
  {codec : PermCodec} {laws : PermCodecLaws codec} (R : PermissionRepository W)
  (grant : nat -> Z).

Abbreviation v1 j w := (view (C := l1 (node j)) w).
Abbreviation v2 w := (view (C := L2) w).
Abbreviation pending w j := (inbox now node L2 cacheKey w j).
Abbreviation receive j w := (recv now node L2 cacheKey j w).

(** The handler of process [j]. *)
Definition handler (j : nat) : PARCHandler W :=
  {| repo := R; cache := tiered_cache (node j); grantTTL := grant j |}.

(** What the processes rely on: the repository answers with the bundle it
    holds or with an error, the caches and the bus leave the bundles alone, the repository
    leaves the caches alone, and its operations change one principal's bundle,
    which [RevokeAll] empties. *)
Class SystemEnv := {
  held : W -> string -> PrincipalPermissions;
  sys_get : forall s w, snd (GetPermissions R s w) = w /\
    (fst (GetPermissions R s w) = Ok (Some (held w s)) \/ exists e, fst (GetPermissions R s w) = Err e);
  sys_tier1 : forall i k v ttl w w',
    w' = snd (cGet (l1 (node i)) k w) \/ w' = snd (cSet (l1 (node i)) k v ttl w) \/
    w' = snd (cDelete (l1 (node i)) k w) -> held w' = held w;
  sys_tier2 : forall k v ttl w w',
    w' = snd (cGet L2 k w) \/ w' = snd (cSet L2 k v ttl w) \/ w' = snd (cDelete L2 k w) ->
    held w' = held w;
  sys_publish : forall j b p w, bus (node j) = Some b ->
    let w' := snd (bPublishRevocation b p w) in now w' = now w /\ held w' = held w;
  sys_recv : forall j w, now (receive j w) = now w /\ held (receive j w) = held w;
  sys_repo : forall s rule w w',
    w' = snd (GrantPermission R s rule w) \/ w' = snd (RevokeAll R s w) ->
    now w' = now w /\ v2 w' = v2 w /\ (forall j, v1 j w' = v1 j w) /\
    (forall j, pending w' j = pending w j) /\ (forall s', s' <> s -> held w' s' = held w s');
  sys_revoke : forall s w w', RevokeAll R s w = (None, w') -> Rules (held w' s) = []
}.

Context {env : SystemEnv}.

(** [G] and [L] bound the lifetimes the handlers and the providers are
    configured with, [D] the time an operation of a decision waits for the next. *)
Context (G L D : Z).
Hypothesis grant_bound : forall j, 0 < grant j <= G.
Hypothesis l1TTL_bound : forall j, 0 < l1TTL (node j) <= L.

(** *** Runs *)

(** The shared world; the first-tier fills under way (process, key, bytes, time
    of the read); the bundles read from the repository and not yet stored
    (process, principal, bundle, time of the read). *)
Record gstate : Type := {
  gw : W;
  fills : list (nat * string * string * Z);
  asides : list (nat * string * PrincipalPermissions * Z)
}.

Definition with_world (w : W) (s : gstate) : gstate :=
  {| gw := w; fills := fills s; asides := asides s |}.

Inductive glabel : Type :=
| GRead (j : nat) (k : string) | GFill (j : nat) (k v : string)
| GFetch (j : nat) (p : string) | GStore (j : nat) (p : string)
| GGrant (p : string) (rule : PermissionRule) | GRevokeAll (p : string)
| GPublish (j : nat) (p : string) | GListen (j : nat) (p : string)
| GOther (j : nat) (k v : string) (ttl : Z) | GDelete (j : nat) (k : string) | GEnv.

(** The reads of a [Get]: a value from the second tier leaves a fill to do. *)
Definition get_state (j : nat) (k : string) (s : gstate) : gstate :=
  match get_read (node j) k (gw s) with
  | (Ok v, true, w') =>
      {| gw := w'; fills := (j, k, v, now w') :: fills s; asides := asides s |}
  | (_, _, w') => with_world w' s
  end.

Inductive gstep : gstate -> glabel -> gstate -> Prop :=
| g_read j k s : (j < n)%nat -> gstep s (GRead j k) (get_state j k s)
| g_fill j k v T before after s :
    fills s = before ++ (j, k, v, T) :: after -> now (gw s) <= T + D ->
    gstep s (GFill j k v)
      {| gw := get_fill (node j) k v (gw s); fills := before ++ after; asides := asides s |}
| g_fetch j p s : (j < n)%nat -> encodable (held (gw s) p) ->
    gstep s (GFetch j p)
      {| gw := gw s; fills := fills s; asides := (j, p, held (gw s) p, now (gw s)) :: asides s |}
| g_store j p q T before after s :
    asides s = before ++ (j, p, q, T) :: after -> now (gw s) <= T + D ->
    gstep s (GStore j p)
      {| gw := fetch_store (handler j) p (Some q) (gw s); fills := fills s;
         asides := before ++ after |}
| g_grant p rule s :
    gstep s (GGrant p rule) (with_world (snd (GrantPermission R p rule (gw s))) s)
| g_revokeall p s :
    gstep s (GRevokeAll p) (with_world (snd (RevokeAll R p (gw s))) s)
| g_publish j p s : (j < n)%nat ->
    gstep s (GPublish j p) (with_world (snd (PublishRevocation (node j) p (gw s))) s)
| g_listen j p rest s : (j < n)%nat -> pending (gw s) j = p :: rest ->
    gstep s (GListen j p) (with_world (listener_recv (node j) p (receive j (gw s))) s)
| g_other j k v ttl s : (j < n)%nat -> (forall p, k <> cacheKey p) ->
    gstep s (GOther j k v ttl) (with_world (snd (Set_ (node j) k v ttl (gw s))) s)
| g_delete j k s : (j < n)%nat ->
    gstep s (GDelete j k) (with_world (snd (Delete (node j) k (gw s))) s)
| g_env w' s :
    now (gw s) <= now w' -> held w' = held (gw s) -> vsub (v2 w') (v2 (gw s)) ->
    (forall j, vsub (v1 j w') (v1 j (gw s))) ->
    (forall j, exists extra, pending w' j = pending (gw s) j ++ extra) ->
    gstep s GEnv (with_world w' s).

(** A run from [s], with the labels and the states it visited, latest first. *)
Inductive grun (s : gstate) : list glabel -> list gstate -> gstate -> Prop :=
| grun_nil : grun s [] [s] s
| grun_snoc ls tr s' l s'' :
    grun s ls tr s' -> gstep s' l s'' -> grun s (l :: ls) (s'' :: tr) s''.

(** *** Views after the operations *)

(** From [w] to [w'] the second tier gains at most entries of [A2], the first
    tier of process [j] at most entries of [A1 j]; time stands still and the
    bundles stay. *)
Definition grown (A2 : string -> entry -> Prop) (A1 : nat -> string -> entry -> Prop)
  (w w' : W) : Prop :=
  now w' = now w /\ held w' = held w /\
  (forall k x, v2 w' k = Some x -> v2 w k = Some x \/ A2 k x) /\
  (forall j k x, v1 j w' k = Some x -> v1 j w k = Some x \/ A1 j k x).

Abbreviation none2 := (fun (_ : string) (_ : entry) => False).
Abbreviation none1 := (fun (_ : nat) (_ : string) (_ : entry) => False).

Lemma grown_refl A2 A1 w : grown A2 A1 w w.
Proof. split_and!; try done; by left. Qed.

Lemma grown_trans A2 A1 w w1 w2 : grown A2 A1 w w1 -> grown A2 A1 w1 w2 -> grown A2 A1 w w2.
Proof.
  intros (N1 & H1 & B1 & C1) (N2 & H2 & B2 & C2). split_and!; [congruence|congruence|..].
  - intros k x [E|?]%B2; [by apply B1|by right].
  - intros j k x [E|?]%C2; [by apply C1|by right].
Qed.

Lemma grown_mono (A2 B2 : string -> entry -> Prop) (A1 B1 : nat -> string -> entry -> Prop) w w' :
  (forall k x, A2 k x -> B2 k x) -> (forall j k x, A1 j k x -> B1 j k x) ->
  grown A2 A1 w w' -> grown B2 B1 w w'.
Proof. intros H2 H1 (N & H & B & C). split_and!; naive_solver. Qed.

(** An operation on the first tier of process [i]. *)
Lemma grown_tier1 (A : string -> entry -> Prop) i k v ttl w w' :
  w' = snd (cGet (l1 (node i)) k w) \/ w' = snd (cSet (l1 (node i)) k v ttl w) \/
  w' = snd (cDelete (l1 (node i)) k w) ->
  now w' = now w -> (forall q x, v1 i w' q = Some x -> v1 i w q = Some x \/ A q x) ->
  grown none2 (fun j q x => j = i /\ A q x) w w'.
Proof.
  intros Hop N HA. destruct (cl_frame1 _ _ _ _ _ _ _ _ _ _ Hop) as (F2 & _ & F1).
  split_and!; [done|by eapply sys_tier1|rewrite F2; by left|].
  intros j q x. destruct (decide (j = i)) as [->|Hj]; [|rewrite F1 by done; by left].
  intros [?|?]%HA; [by left|by right].
Qed.

(** An operation on the second tier. *)
Lemma grown_tier2 (A : string -> entry -> Prop) k v ttl w w' :
  w' = snd (cGet L2 k w) \/ w' = snd (cSet L2 k v ttl w) \/ w' = snd (cDelete L2 k w) ->
  now w' = now w -> (forall q x, v2 w' q = Some x -> v2 w q = Some x \/ A q x) ->
  grown A none1 w w'.
Proof.
  intros Hop N HA. destruct (cl_frame2 _ _ _ _ _ _ _ _ _ Hop) as (_ & F1).
  split_and!; [done|by eapply sys_tier2|done|intros j q x; rewrite F1; by left].
Qed.

(** The entry [v] under [k] that expires [ttl] from now. *)
Definition fresh_entry (k v : string) (ttl : Z) (w : W) (q : string) (x : entry) : Prop :=
  q = k /\ x = (v, Some (now w + ttl)).

Lemma vset_entry f g k v ttl e w q x :
  vsub g (vset k (v, e) f) -> e = Some (now w + ttl) ->
  g q = Some x -> f q = Some x \/ fresh_entry k v ttl w q x.
Proof.
  intros S -> E%S. unfold vset in E. case_decide; [right|by left]. by injection E as <-.
Qed.

Lemma get1_grown i k w : grown none2 none1 w (snd (cGet (l1 (node i)) k w)).
Proof.
  destruct (cGet (l1 (node i)) k w) as [r w'] eqn:E. pose proof E as E'.
  apply get_spec in E' as (N & S & _). simpl.
  eapply grown_mono; [..|apply (grown_tier1 (fun _ _ => False) i k "" 0)];
    [done|by intros j q x []| |done|by left; apply S].
  by rewrite E; left.
Qed.

Lemma del1_grown i k w : grown none2 none1 w (snd (cDelete (l1 (node i)) k w)).
Proof.
  destruct (cDelete (l1 (node i)) k w) as [r w'] eqn:E. pose proof E as E'.
  apply delete_spec in E' as (N & S & _). simpl.
  eapply grown_mono; [..|apply (grown_tier1 (fun _ _ => False) i k "" 0)];
    [done|by intros j q x []| |done|by left; apply S].
  by rewrite E; right; right.
Qed.

Lemma set1_grown i k v ttl w : 0 < ttl ->
  grown none2 (fun j q x => j = i /\ fresh_entry k v ttl w q x) w (snd (cSet (l1 (node i)) k v ttl w)).
Proof.
  intros Hp. destruct (cSet (l1 (node i)) k v ttl w) as [r w'] eqn:E. pose proof E as E'.
  apply set_spec in E' as (N & e & He & S). simpl. apply (grown_tier1 _ i k v ttl); [|done|].
  - by rewrite E; right; left.
  - intros q x Hx. destruct S as [S|[_ S]]; [|by left; apply S]. by eapply vset_entry; eauto.
Qed.

Lemma get2_grown k w : grown none2 none1 w (snd (cGet L2 k w)).
Proof.
  destruct (cGet L2 k w) as [r w'] eqn:E. pose proof E as E'.
  apply get_spec in E' as (N & S & _). simpl.
  apply (grown_tier2 (fun _ _ => False) k "" 0); [|done|naive_solver]. by rewrite E; left.
Qed.

Lemma del2_grown k w : grown none2 none1 w (snd (cDelete L2 k w)).
Proof.
  destruct (cDelete L2 k w) as [r w'] eqn:E. pose proof E as E'.
  apply delete_spec in E' as (N & S & _). simpl.
  apply (grown_tier2 (fun _ _ => False) k "" 0); [|done|naive_solver]. by rewrite E; right; right.
Qed.

(** A write with [ttl <= 0] may stay for ever: what it adds is under its key. *)
Lemma set2_grown k v ttl w :
  grown (fun q x => q = k /\ exists e, x = (v, e) /\ (0 < ttl -> e = Some (now w + ttl))) none1 w
    (snd (cSet L2 k v ttl w)).
Proof.
  destruct (cSet L2 k v ttl w) as [r w'] eqn:E. pose proof E as E'.
  apply set_spec in E' as (N & e & He & S). simpl. apply (grown_tier2 _ k v ttl); [|done|].
  - by rewrite E; right; left.
  - intros q x Hx. destruct S as [S|[_ S]]; [|by left; apply S]. apply S in Hx. unfold vset in Hx.
    case_decide; [right|by left]. injection Hx as <-. eauto.
Qed.

(** *** The operations of the providers *)
Lemma get_read_grown i k w r hit w' :
  get_read (node i) k w = (r, hit, w') ->
  grown none2 none1 w w' /\
  (forall v, r = Ok v -> exists e,
     (if hit then v2 w k else v1 i w k) = Some (v, e) /\ live (now w) e).
Proof.
  unfold get_read. rewrite (cl_l2 now node L2 cacheKey). pose proof (get1_grown i k w) as G1.
  destruct (cGet (l1 (node i)) k w) as [r1 w1] eqn:E1. simpl in G1.
  destruct (cl_frame1 _ _ _ _ i k "" 0 w w1) as (F2 & _ & _); [by rewrite E1; left|].
  apply get_spec in E1 as (N1 & _ & V1). destruct r1 as [v|e]; [by intros [= <- <- <-]|].
  pose proof (get2_grown k w1) as G2. destruct (cGet L2 k w1) as [r2 w2] eqn:E2. simpl in G2.
  apply get_spec in E2 as (_ & _ & V2). rewrite F2, N1 in V2.
  assert (G12 : grown none2 none1 w w2) by (by eapply grown_trans).
  destruct r2 as [v|e2]; intros [= <- <- <-]; done.
Qed.

Lemma delete_grown i k w : grown none2 none1 w (snd (Delete (node i) k w)).
Proof.
  unfold Delete. rewrite (cl_l2 now node L2 cacheKey). pose proof (del1_grown i k w) as G1.
  destruct (cDelete (l1 (node i)) k w) as [r w1]. eapply grown_trans; [exact G1|apply del2_grown].
Qed.

Lemma publish_grown i p w : grown none2 none1 w (snd (PublishRevocation (node i) p w)).
Proof.
  pose proof (delete_grown i (keyFormatter (node i) p) w) as Gd. unfold Delete in Gd.
  unfold PublishRevocation. destruct (cDelete (l1 (node i)) _ w) as [r1 w1].
  destruct (cDelete (l2 (node i)) _ w1) as [r2 w2]. simpl in Gd.
  destruct (bus (node i)) as [b|] eqn:Eb; [|done]. eapply grown_trans; [exact Gd|].
  destruct (sys_publish i b p w2 Eb) as (N & H).
  destruct (bPublishRevocation b p w2) as [r3 w3] eqn:E3. simpl in *.
  destruct (cl_publish _ _ _ _ _ _ _ _ _ _ Eb E3) as (P2 & P1 & _).
  split_and!; [done|done|rewrite P2; by left|intros j q x; rewrite P1; by left].
Qed.

Lemma set_grown i k v ttl w :
  grown (fun q x => q = k /\ exists e, x = (v, e) /\ (0 < ttl -> e = Some (now w + ttl)))
    (fun j q x => j = i /\ fresh_entry k v (set_l1TTL (node i) ttl) w q x) w
    (snd (Set_ (node i) k v ttl w)).
Proof.
  unfold Set_, set_rest, set_first. rewrite (cl_l2 now node L2 cacheKey). assert (0 < set_l1TTL (node i) ttl) as Hp.
  { pose proof (l1TTL_bound i). unfold set_l1TTL. repeat case_bool_decide; simpl; lia. }
  pose proof (set1_grown i k v _ w Hp) as G1.
  destruct (cSet (l1 (node i)) k v (set_l1TTL (node i) ttl) w) as [r w1]. simpl in G1.
  pose proof (proj1 G1) as N1. pose proof (set2_grown k v ttl w1) as G2. rewrite N1 in G2.
  eapply grown_trans; eapply grown_mono; [..|exact G1| | |exact G2]; naive_solver.
Qed.

Lemma fill_grown i k v w :
  grown none2 (fun j q x => j = i /\ fresh_entry k v (l1TTL (node i)) w q x) w (get_fill (node i) k v w).
Proof. apply set1_grown. by apply l1TTL_bound. Qed.

(** The listener consumes a message and forgets its principal. *)
Lemma listen_views j p w :
  let w' := listener_recv (node j) p (receive j w) in
  now w' = now w /\ held w' = held w /\ vsub (v2 w') (v2 w) /\ (forall i, vsub (v1 i w') (v1 i w)) /\
  v1 j w' (cacheKey p) = None /\
  (forall i, pending w' i = if decide (i = j) then tail (pending w j) else pending w i).
Proof.
  simpl. destruct (cl_recv now node L2 cacheKey j w) as (R2 & R1 & RI).
  destruct (sys_recv j w) as (RN & RH).
  destruct (del1_grown j (keyFormatter (node j) p) (receive j w)) as (N & H & B & C).
  destruct (cl_frame1 _ _ _ _ j (keyFormatter (node j) p) "" 0 (receive j w) _
              (or_intror (or_intror eq_refl))) as (_ & FI & _).
  fold (listener_recv (node j) p (receive j w)) in N, H, B, C, FI.
  split_and!; [congruence|congruence| | | |].
  - intros k x [E|[]]%B. by rewrite <- R2.
  - intros i k x [E|[]]%C. by rewrite <- R1.
  - by apply (listener_clears now node L2 cacheKey).
  - intros i. by rewrite FI, RI.
Qed.

(** *** Invariants of runs

    What is asserted of the bytes cached for a principal in the second and the
    first tiers (with their expiry), of the fills under way and of the bundles
    under way (with the time they were read).  The first tiers of the processes in
    [excused] are exempt. *)
Record assertion : Type := {
  in_l2 : string -> string -> option Z -> Prop;
  in_l1 : string -> string -> option Z -> Prop;
  in_fill : string -> string -> Z -> Prop;
  in_aside : string -> PrincipalPermissions -> Z -> Prop;
  excused : nat -> Prop
}.

Definition ginv (Q : assertion) (s : gstate) : Prop :=
  (forall p v e, v2 (gw s) (cacheKey p) = Some (v, e) -> in_l2 Q p v e) /\
  (forall j p v e, (j < n)%nat -> v1 j (gw s) (cacheKey p) = Some (v, e) ->
     in_l1 Q p v e \/ excused Q j) /\
  (forall j p v T, (j, cacheKey p, v, T) ∈ fills s -> in_fill Q p v T) /\
  (forall j p q T, (j, p, q, T) ∈ asides s -> in_aside Q p q T).

(** [Q] accounts for what the operations add in world [w]. *)
Record closed_at (Q : assertion) (w : W) : Prop := {
  on_read : forall p v e, in_l2 Q p v e -> live (now w) e -> in_fill Q p v (now w);
  on_fill : forall j p v T, in_fill Q p v T -> now w <= T + D ->
    in_l1 Q p v (Some (now w + l1TTL (node j)));
  on_fetch : forall p, encodable (held w p) -> in_aside Q p (held w p) (now w);
  on_store : forall j p q T b, in_aside Q p q T -> now w <= T + D ->
    json_Marshal (Some q) = Some b ->
    in_l2 Q p b (Some (now w + grant j)) /\
    in_l1 Q p b (Some (now w + set_l1TTL (node j) (grant j)))
}.

Lemma ginv_grown Q A2 A1 s w' fl asd :
  grown A2 A1 (gw s) w' ->
  (forall p v e, A2 (cacheKey p) (v, e) -> in_l2 Q p v e) ->
  (forall j p v e, A1 j (cacheKey p) (v, e) -> in_l1 Q p v e) ->
  (forall j p v T, (j, cacheKey p, v, T) ∈ fl -> in_fill Q p v T) ->
  (forall j p q T, (j, p, q, T) ∈ asd -> in_aside Q p q T) ->
  ginv Q s -> ginv Q {| gw := w'; fills := fl; asides := asd |}.
Proof.
  intros (_ & _ & B & C) H2 H1 HF HA (V2 & V1 & _ & _). split_and!; simpl; [|..|done|done].
  - intros p v e [E|E]%B; eauto.
  - intros j p v e Hj [E|E]%C; [by eapply V1|by left; eapply H1].
Qed.

(** The operations that store nothing under a permission key. *)
Lemma ginv_shrink Q s w' :
  grown none2 none1 (gw s) w' -> ginv Q s -> ginv Q (with_world w' s).
Proof. intros Hg Hi. eapply ginv_grown; [exact Hg|done|done|apply Hi|apply Hi|done]. Qed.

Lemma ginv_same Q s w' :
  vsub (v2 w') (v2 (gw s)) -> (forall j, vsub (v1 j w') (v1 j (gw s))) ->
  ginv Q s -> ginv Q (with_world w' s).
Proof. intros S2 S1 (V2 & V1 & VF & VA). split_and!; simpl; unfold vsub in *; eauto. Qed.

(** Any rule, where [sys_repo] asks for one. *)
Definition no_rule : PermissionRule := Build_PermissionRule "" "" "" "" "".

Lemma ginv_repo Q p rule s w' :
  w' = snd (GrantPermission R p rule (gw s)) \/ w' = snd (RevokeAll R p (gw s)) ->
  ginv Q s -> ginv Q (with_world w' s).
Proof.
  intros Hop. destruct (sys_repo _ _ _ _ Hop) as (_ & E2 & E1 & _).
  apply ginv_same; [by rewrite E2|intros j; by rewrite E1].
Qed.

Lemma ginv_listen Q j p s :
  ginv Q s -> ginv Q (with_world (listener_recv (node j) p (receive j (gw s))) s).
Proof. destruct (listen_views j p (gw s)) as (_ & _ & S2 & S1 & _). by apply ginv_same. Qed.

Lemma ginv_get Q j k s : closed_at Q (gw s) -> ginv Q s -> ginv Q (get_state j k s).
Proof.
  intros HQ Hi. unfold get_state. destruct (get_read (node j) k (gw s)) as [[r hit] w'] eqn:E.
  apply get_read_grown in E as (Hg & Hr).
  destruct r as [v|err]; [|by apply ginv_shrink]. destruct hit; [|by apply ginv_shrink].
  eapply ginv_grown; [exact Hg|done|done| |apply Hi|done].
  intros j' p v' T. rewrite elem_of_cons. intros [[= -> <- -> ->]|?]; [|by eapply Hi].
  destruct (Hr v eq_refl) as (e & Hv & Hl). rewrite (proj1 Hg). eapply on_read; [done| |exact Hl].
  by eapply Hi.
Qed.

Lemma ginv_store Q j p q T s fl asd :
  closed_at Q (gw s) -> in_aside Q p q T -> now (gw s) <= T + D ->
  (forall j p v T, (j, cacheKey p, v, T) ∈ fl -> in_fill Q p v T) ->
  (forall j p q T, (j, p, q, T) ∈ asd -> in_aside Q p q T) ->
  ginv Q s ->
  ginv Q {| gw := fetch_store (handler j) p (Some q) (gw s); fills := fl; asides := asd |}.
Proof.
  intros HQ Ha HT HF HA Hi. unfold fetch_store. simpl.
  destruct (json_Marshal (Some q)) as [b|] eqn:Eb.
  - destruct (on_store _ _ HQ j p q T b Ha HT Eb) as [H2 H1].
    eapply ginv_grown; [apply set_grown|..|exact HF|exact HA|exact Hi].
    + intros p' v e (Hk%cacheKey_inj & e' & [= -> ->] & He). subst p'.
      rewrite He; [done|apply grant_bound].
    + intros j' p' v e (-> & Hk%cacheKey_inj & [= -> ->]). by subst p'.
  - eapply ginv_grown; [apply (grown_refl none2 none1)|done|done|done|done|done].
Qed.

Lemma ginv_step Q s l s' : closed_at Q (gw s) -> gstep s l s' -> ginv Q s -> ginv Q s'.
Proof.
  intros HQ Hs Hi. destruct Hs as
    [j k s Hj|j k v T before after s Hf HT|j p s Hj He|j p q T before after s Ha HT|p rule s|p s
    |j p s Hj|j p rest s Hj Hp|j k v ttl s Hj Hk|j k s Hj|w' s HT HH S2 S1 SI].
  - by apply ginv_get.
  - pose proof Hi as (_ & _ & VF & VA).
    eapply ginv_grown; [apply fill_grown|done| | |done|done].
    + intros j' p v' e (-> & Hk & [= -> ->]). subst k. eapply on_fill; [done| |exact HT].
      apply (VF j). rewrite Hf. set_solver.
    + intros j' p v' T' Hin. apply (VF j'). rewrite Hf. set_solver.
  - eapply ginv_grown; [apply (grown_refl none2 none1)|done|done|apply Hi| |exact Hi].
    intros j' p' q T. rewrite elem_of_cons. intros [[= -> -> -> ->]|?]; [by apply on_fetch|by eapply Hi].
  - pose proof Hi as (_ & _ & VF & VA).
    apply (ginv_store Q j p q T); [done| |done|exact VF| |done].
    + apply (VA j). rewrite Ha. set_solver.
    + intros j' p' q' T' Hin. apply (VA j'). rewrite Ha. set_solver.
  - apply (ginv_repo Q p rule); [by left|done].
  - apply (ginv_repo Q p no_rule); [by right|done].
  - by apply ginv_shrink; [apply publish_grown|].
  - by apply ginv_listen.
  - eapply ginv_grown; [apply set_grown|..|apply Hi|apply Hi|exact Hi].
    + intros p v' e (Hkk & _). by destruct (Hk p).
    + intros j' p v' e (_ & Hkk & _). by destruct (Hk p).
  - by apply ginv_shrink; [apply delete_grown|].
  - by apply ginv_same.
Qed.

(** *** What a decision is based on *)

(** What follows a miss: the repository's answer. *)
Lemma repo_answer (h : PARCHandler W) p w r w' :
  repo h = R ->
  match GetPermissions (repo h) p w with
  | (Err e, w2) => (Err (ErrFetchingPermissions e), w2)
  | (Ok perms, w2) => (Ok perms, fetch_store h p perms w2)
  end = (r, w') ->
  (exists e, r = Err e /\ w' = w) \/ (r = Ok (Some (held w p)) /\ w' = fetch_store h p (Some (held w p)) w).
Proof.
  intros ->. destruct (sys_get p w) as (Hw & Hr). destruct (GetPermissions R p w) as [f w2]. simpl in *.
  subst w2. destruct Hr as [-> | [e ->]]; intros [= <- <-]; eauto.
Qed.

(** A fetch answers with the repository's bundle, or with the bundle of bytes
    that are live in one of the process's tiers, or fails with the repository. *)
Lemma fetch_answer j p w r w' :
  fetch_permissions (handler j) p w = (r, w') ->
  (exists e, r = Err e) \/
  exists q, r = Ok (Some q) /\
    (q = held w p \/
     exists v e, json_Unmarshal v = Some q /\ live (now w) e /\
       (v2 w (cacheKey p) = Some (v, e) \/ v1 j w (cacheKey p) = Some (v, e))).
Proof.
  rewrite fetch_permissions_phases. cbn [cache handler tiered_cache cGet]. unfold Get.
  destruct (get_read (node j) (cacheKey p) w) as [[got hit] w1] eqn:E.
  apply get_read_grown in E as ((N & H & _) & Hr).
  assert (Hmiss : forall w2, held w2 = held w ->
    match GetPermissions (repo (handler j)) p w2 with
    | (Err e, w3) => (Err (ErrFetchingPermissions e), w3)
    | (Ok perms, w3) => (Ok perms, fetch_store (handler j) p perms w3)
    end = (r, w') -> (exists e, r = Err e) \/ r = Ok (Some (held w p))).
  { intros w2 Hw2 Heq. apply repo_answer in Heq as [(e & -> & _) | [-> _]]; [by left; eauto|by right; rewrite Hw2|done]. }
  destruct got as [v|err].
  2:{ intros Heq. destruct (Hmiss w1 H Heq) as [? | ->]; [by left|right]. exists (held w p). eauto. }
  destruct (Hr v eq_refl) as (e & Hv & Hl).
  set (w2 := if hit then get_fill (node j) (cacheKey p) v w1 else w1).
  assert (H2 : held w2 = held w).
  { unfold w2. destruct hit; [|done]. by destruct (fill_grown j (cacheKey p) v w1) as (_ & -> & _). }
  replace (if hit then (Ok v, get_fill (node j) (cacheKey p) v w1) else (Ok v, w1))
    with (Ok (E := cache_err) v, w2) by (unfold w2; by destruct hit).
  cbn [decoded]. destruct (json_Unmarshal v) as [q|] eqn:Eq.
  - intros [= <- _]. right. exists q. split; [done|right]. exists v, e. split_and!; [done|done|].
    destruct hit; eauto.
  - intros Heq. destruct (Hmiss w2 H2 Heq) as [? | ->]; [by left|right]. exists (held w p). eauto.
Qed.

(** The verdict of the handler on a bundle. *)
Definition verdict (q : PrincipalPermissions) (pr : Principal) (action resourceType : string)
  (ev : EvaluationContext) : bool :=
  Allowed (Evaluate (Some q)
    (parc_request pr (parc_action action ev) (parc_resource resourceType ev) (ev_Context ev))).

Lemma handle_answer j pr action resourceType ev w r w' :
  PARC_Handle (handler j) pr (PARCRequirement action resourceType) ev w = (r, w') ->
  (exists e, fetch_permissions (handler j) (Subject pr) w = (Err e, w') /\ r = Err e) \/
  exists q, fetch_permissions (handler j) (Subject pr) w = (Ok (Some q), w') /\
    r = Ok (verdict q pr action resourceType ev).
Proof.
  simpl. destruct (fetch_permissions (handler j) (Subject pr) w) as [f w1] eqn:E.
  destruct (fetch_answer _ _ _ _ _ E) as [(e & ->)|(q & -> & _)]; intros [= <- <-]; [left|right]; eauto.
Qed.

(** *** Bounded staleness *)
Hypothesis delay_nonneg : 0 <= D.

(** The bundle in [v] was held for [p] at a visited moment not more than [C]
    before [x]. *)
Definition vouched (tr : list gstate) (C : Z) (p v : string) (x : Z) : Prop :=
  forall q, json_Unmarshal v = Some q ->
    exists s', s' ∈ tr /\ held (gw s') p = q /\ x <= now (gw s') + C.

Definition stale_bound (tr : list gstate) : assertion :=
  {| in_l2 p v e := exists x, e = Some x /\ vouched tr (G + D) p v x;
     in_l1 p v e := exists x, e = Some x /\ vouched tr (G + L + 2 * D) p v x;
     in_fill p v T := vouched tr (G + D) p v T;
     in_aside p q T := encodable q /\ exists s', s' ∈ tr /\ held (gw s') p = q /\ now (gw s') = T;
     excused _ := False |}.

Lemma vouched_weaken tr tr' C C' p v x x' :
  vouched tr C p v x -> tr ⊆ tr' -> x' - C' <= x - C -> vouched tr' C' p v x'.
Proof.
  intros H Ht Hx q Hq. destruct (H q Hq) as (s' & Hin & Hh & Hn). exists s'. split_and!; [by apply Ht|done|lia].
Qed.

Lemma ginv_weaken Q Q' s :
  (forall p v e, in_l2 Q p v e -> in_l2 Q' p v e) -> (forall p v e, in_l1 Q p v e -> in_l1 Q' p v e) ->
  (forall p v T, in_fill Q p v T -> in_fill Q' p v T) ->
  (forall p q T, in_aside Q p q T -> in_aside Q' p q T) -> (forall j, excused Q j -> excused Q' j) ->
  ginv Q s -> ginv Q' s.
Proof.
  intros H2 H1 HF HA HX (V2 & V1 & VF & VA). split_and!; [eauto| |eauto|eauto].
  intros j p v e Hj E. destruct (V1 _ _ _ _ Hj E) as [?|?]; [left|right]; auto.
Qed.

Lemma stale_bound_mono tr tr' s : tr ⊆ tr' -> ginv (stale_bound tr) s -> ginv (stale_bound tr') s.
Proof.
  intros Ht. apply ginv_weaken; simpl; [| | | |done].
  - intros p v e (x & -> & H). exists x. split; [done|]. eapply vouched_weaken; [done|done|lia].
  - intros p v e (x & -> & H). exists x. split; [done|]. eapply vouched_weaken; [done|done|lia].
  - intros p v T H. eapply vouched_weaken; [done|done|lia].
  - intros p q T (He & s' & Hin & ?). split; [done|]. exists s'. split; [by apply Ht|done].
Qed.

Lemma marshal_decodes q b q' :
  encodable q -> json_Marshal (Some q) = Some b -> json_Unmarshal b = Some q' -> q' = q.
Proof. intros He Hb Hq. destruct (json_roundtrip q He) as (b' & Hb' & Hq'). congruence. Qed.

Lemma stale_bound_closed tr s : s ∈ tr -> closed_at (stale_bound tr) (gw s).
Proof.
  intros Hin. split; simpl.
  - intros p v e (x & -> & H) Hl. simpl in Hl. eapply vouched_weaken; [exact H|done|lia].
  - intros j p v T H HT. eexists. split; [done|]. pose proof (l1TTL_bound j).
    eapply vouched_weaken; [exact H|done|lia].
  - intros p He. split; [done|]. by exists s.
  - intros j p q T b (He & s' & Hs' & Hh & HT) HD Hb.
    assert (forall q', json_Unmarshal b = Some q' -> q' = q) as Hd by (intros q'; by apply marshal_decodes).
    pose proof (grant_bound j). pose proof (l1TTL_bound j).
    assert (set_l1TTL (node j) (grant j) <= grant j)
      by (unfold set_l1TTL; repeat case_bool_decide; simpl; lia).
    split; (eexists; split; [done|]); intros q' ->%Hd; exists s'; split_and!; try done; lia.
Qed.

(** Nothing cached, nothing under way. *)
Definition ginitial (s : gstate) : Prop :=
  fills s = [] /\ asides s = [] /\ (forall k, v2 (gw s) k = None) /\
  (forall j k, v1 j (gw s) k = None).

Lemma ginv_initial Q s : ginitial s -> ginv Q s.
Proof.
  intros (HF & HA & V2 & V1). split_and!.
  - intros p v e. by rewrite V2.
  - intros j p v e _. by rewrite V1.
  - rewrite HF. intros j p v T. set_solver.
  - rewrite HA. intros j p q T. set_solver.
Qed.

Lemma grun_last s ls tr s' : grun s ls tr s' -> s' ∈ tr.
Proof. destruct 1; set_solver. Qed.

Lemma grun_stale_bound s0 ls tr s :
  ginitial s0 -> grun s0 ls tr s -> ginv (stale_bound tr) s.
Proof.
  intros H0. induction 1 as [|ls tr s' l s'' Hr IH Hs]; [by apply ginv_initial|].
  apply (stale_bound_mono tr); [set_solver|]. eapply ginv_step; [|exact Hs|exact IH].
  apply stale_bound_closed. by eapply grun_last.
Qed.

(** Every decision is that of a bundle held not too long ago. *)
Lemma stale_decision s0 ls tr s j pr action resourceType ev b w' :
  ginitial s0 -> grun s0 ls tr s -> (j < n)%nat ->
  PARC_Handle (handler j) pr (PARCRequirement action resourceType) ev (gw s) = (Ok b, w') ->
  exists s', s' ∈ tr /\ now (gw s) <= now (gw s') + G + L + 2 * D /\
    b = verdict (held (gw s') (Subject pr)) pr action resourceType ev.
Proof.
  intros H0 Hr Hj H. destruct (grun_stale_bound _ _ _ _ H0 Hr) as (V2 & V1 & _).
  apply handle_answer in H as [(e & _ & [=])|(q & Hf & [= ->])].
  destruct (fetch_answer _ _ _ _ _ Hf) as [(? & [=])|(q' & [= <-] & [->|(v & e & Hq & Hl & Hv)])].
  - exists s. pose proof (l1TTL_bound j). pose proof (grant_bound j).
    split_and!; [by eapply grun_last|lia|done].
  - assert (exists x, e = Some x /\ vouched tr (G + L + 2 * D) (Subject pr) v x) as (x & -> & Hx).
    { destruct Hv as [Hv|Hv]; [|by destruct (V1 _ _ _ _ Hj Hv) as [?|[]]].
      destruct (V2 _ _ _ Hv) as (x & -> & Hx). exists x. split; [done|].
      pose proof (l1TTL_bound j). eapply vouched_weaken; [exact Hx|done|lia]. }
    destruct (Hx q Hq) as (s' & Hin & <- & Hn). exists s'. simpl in Hl. split_and!; [done|lia|done].
Qed.

(** C5: Decisions are boundedly stale.  In every run of the processes from empty
    caches, a decision of any process is the one that the permission bundle of
    the principal dictates which the repository held at a moment of the run at
    most grantTTL + l1TTL ago, plus twice the longest time an operation under
    way waited to be completed. *)
Theorem parc_bounded_staleness s0 ls tr s j pr action resourceType ev b w' :
  ginitial s0 -> grun s0 ls tr s -> (j < n)%nat ->
  PARC_Handle (handler j) pr (PARCRequirement action resourceType) ev (gw s) = (Ok b, w') ->
  exists s', s' ∈ tr /\ now (gw s) <= now (gw s') + G + L + 2 * D /\
    b = verdict (held (gw s') (Subject pr)) pr action resourceType ev.
Proof. apply stale_decision. Qed.

(** *** After a revocation *)

(** Only [q0] is cached or under way for [p], except in the first tiers of the
    processes that have yet to hear of the revocation. *)
Definition only (p : string) (q0 : PrincipalPermissions) (unaware : nat -> Prop) : assertion :=
  {| in_l2 p' v _ := p' = p -> forall q, json_Unmarshal v = Some q -> q = q0;
     in_l1 p' v _ := p' = p -> forall q, json_Unmarshal v = Some q -> q = q0;
     in_fill p' v _ := p' = p -> forall q, json_Unmarshal v = Some q -> q = q0;
     in_aside p' q _ := p' = p -> encodable q /\ q = q0;
     excused := unaware |}.

Lemma only_closed p w unaware : closed_at (only p (held w p) unaware) w.
Proof.
  split; simpl; [eauto|eauto|by intros p' He ->|].
  intros j p' q T b Ha _ Hb. split; intros Hp q' Hq; destruct (Ha Hp) as [He <-];
    by eapply marshal_decodes.
Qed.

(** A change of the bundle of [p] in the repository. *)
Definition changes (p : string) (l : glabel) : Prop :=
  match l with GGrant p' _ | GRevokeAll p' => p' = p | _ => False end.

Lemma get_state_held j k s : held (gw (get_state j k s)) = held (gw s).
Proof.
  unfold get_state. destruct (get_read (node j) k (gw s)) as [[r hit] w'] eqn:E.
  apply get_read_grown in E as ((_ & H & _) & _). by destruct r, hit.
Qed.

Lemma store_held j p q w : held (fetch_store (handler j) p q w) = held w.
Proof.
  unfold fetch_store. destruct (json_Marshal q) as [b|]; [|done].
  by destruct (set_grown j (cacheKey p) b (grant j) w) as (_ & H & _).
Qed.

Lemma gstep_held p s l s' : gstep s l s' -> ~ changes p l -> held (gw s') p = held (gw s) p.
Proof.
  destruct 1; simpl; intros Hc.
  - by rewrite get_state_held.
  - by destruct (fill_grown j k v (gw s)) as (_ & -> & _).
  - done.
  - by rewrite store_held.
  - by apply (sys_repo p0 rule (gw s) _ (or_introl eq_refl)).
  - by apply (sys_repo p0 no_rule (gw s) _ (or_intror eq_refl)).
  - by destruct (publish_grown j p0 (gw s)) as (_ & -> & _).
  - by destruct (listen_views j p0 (gw s)) as (_ & -> & _).
  - by destruct (set_grown j k v ttl (gw s)) as (_ & -> & _).
  - by destruct (delete_grown j k (gw s)) as (_ & -> & _).
  - congruence.
Qed.

Lemma grun_held p s ls tr s' :
  grun s ls tr s' -> Forall (fun l => ~ changes p l) ls -> held (gw s') p = held (gw s) p.
Proof.
  induction 1 as [|ls tr s' l s'' Hr IH Hs]; [done|]. intros [Hl Hls]%Forall_cons.
  rewrite (gstep_held p _ _ _ Hs Hl). auto.
Qed.

(** A process that listens to a message for [p] is aware of it. *)
Lemma only_step p q0 unaware s l s' :
  closed_at (only p q0 unaware) (gw s) -> gstep s l s' -> ginv (only p q0 unaware) s ->
  ginv (only p q0 (fun i => unaware i /\ l <> GListen i p)) s'.
Proof.
  intros Hcl Hs Hi. destruct (ginv_step _ _ _ _ Hcl Hs Hi) as (V2 & V1 & VF & VA).
  split_and!; [done| |done|done]. intros i p' v e Hn E.
  destruct (V1 _ _ _ _ Hn E) as [?|Hu]; [by left|]. simpl in *.
  destruct (decide (p' = p)) as [->|Hne]; [|by left]. right. split; [done|]. intros ->.
  inversion Hs; subst. simpl in E. destruct (listen_views i p (gw s)) as (_ & _ & _ & _ & Hc & _). congruence.
Qed.

Lemma grun_only p unaware s ls tr s' :
  grun s ls tr s' -> Forall (fun l => ~ changes p l) ls ->
  ginv (only p (held (gw s) p) unaware) s ->
  ginv (only p (held (gw s) p) (fun i => unaware i /\ GListen i p ∉ ls)) s'.
Proof.
  induction 1 as [|ls tr s' l s'' Hr IH Hs]; intros HF H0.
  - apply (ginv_weaken (only p (held (gw s) p) unaware)); [done..| |done].
    intros j Hu. split; [done|]. apply not_elem_of_nil.
  - apply Forall_cons in HF as [Hl Hls].
    eapply ginv_weaken; [..|eapply only_step; [|exact Hs|by apply IH]]; [done..| |].
    + intros i [[Hu Hn] Hne]. split; [done|]. rewrite elem_of_cons. intros [?|?]; [by destruct Hne|done].
    + rewrite <- (grun_held p _ _ _ _ Hr Hls). apply only_closed.
Qed.

(** No fill and no bundle of [p] is under way. *)
Definition idle (p : string) (s : gstate) : Prop :=
  (forall j v T, (j, cacheKey p, v, T) ∉ fills s) /\ (forall j q T, (j, p, q, T) ∉ asides s).

(** A confirmed revocation leaves nothing of [p] but in the first tiers of the
    other processes. *)
Lemma only_revoked j p q0 s w' :
  idle p s -> revoked node L2 cacheKey j p (gw s) w' ->
  ginv (only p q0 (fun i => i <> j)) (with_world w' s).
Proof.
  intros (HF & HA) Hrev.
  destruct (quiet_revoke now node L2 cacheKey j p {| cw := gw s; inflight := [] |} w') as (_ & H2 & H1);
    [done|intros i v; apply not_elem_of_nil|done|].
  simpl in *. split_and!; simpl.
  - intros p' v e E -> q. congruence.
  - intros i p' v e Hi E. destruct (decide (p' = p)) as [->|]; [|by left].
    destruct (decide (i = j)) as [->|]; [|by right]. rewrite H1 in E; done.
  - intros i p' v T Hin ->. by destruct (HF i v T).
  - intros i p' q T Hin ->. by destruct (HA i q T).
Qed.

(** A process that is aware of the revocation decides by the current bundle. *)
Lemma only_decides p unaware s j pr action resourceType ev r w' :
  ginv (only p (held (gw s) p) unaware) s -> (j < n)%nat -> Subject pr = p -> ~ unaware j ->
  PARC_Handle (handler j) pr (PARCRequirement action resourceType) ev (gw s) = (r, w') ->
  (exists e, r = Err e) \/ r = Ok (verdict (held (gw s) p) pr action resourceType ev).
Proof.
  intros (V2 & V1 & _) Hj Hp Hheard H. apply handle_answer in H as [(e & _ & ->)|(q & Hf & ->)]; [by left; eauto|].
  right. rewrite Hp in Hf.
  destruct (fetch_answer _ _ _ _ _ Hf) as [(? & [=])|(q' & [= <-] & [->|(v & e & Hq & _ & Hv)])]; [done|].
  destruct Hv as [Hv|Hv].
  - by rewrite (V2 _ _ _ Hv eq_refl q Hq).
  - destruct (V1 _ _ _ _ Hj Hv) as [H|H]; [|done]. by rewrite (H eq_refl q Hq).
Qed.

Lemma verdict_empty q pr action resourceType ev :
  Rules q = [] -> verdict q pr action resourceType ev = false.
Proof. destruct q as [id rules]. simpl. by intros ->. Qed.

(** The service of process [i]: its only PARC handler is the one over the
    process's cache. *)
Definition service (i : nat) (opts : option AuthorizationOptions) : PolicyEngine W :=
  NewAuthorizationService opts [PARCHandlerPtr (handler i)].

(** A requirement the PARC handler does not own leaves the caches alone. *)
Lemma service_other i opts h pr req ev w :
  handlers (service i opts) !! RequirementType req = Some h ->
  (forall a t, req <> PARCRequirement a t) -> snd (Handle h pr req ev w) = w.
Proof.
  unfold service, NewAuthorizationService, standard_handlers. simpl. intros Hh Hreq.
  repeat (rewrite lookup_insert_Some in Hh; destruct Hh as [[_ <-]|[_ Hh]]); try done.
  simpl. destruct req as [a t| | | | | |]; try done. by destruct (Hreq a t).
Qed.

(** A policy that asks for a permission the PARC handler refuses is refused,
    whatever else it asks. *)
Lemma service_refuses i opts reqs pr ev w :
  (exists a t, PARCRequirement a t ∈ reqs) ->
  (forall a t, fst (PARC_Handle (handler i) pr (PARCRequirement a t) ev w) <> Ok true) ->
  Allowed (evaluate_reqs (service i opts) reqs pr ev w).1.1 = false.
Proof using Type.
  clear -codec. intros (a & t & Hin) Hno. induction reqs as [|req reqs IH]; [set_solver|]. cbn [evaluate_reqs].
  assert ((exists a t, req = PARCRequirement a t) \/ ~ exists a t, req = PARCRequirement a t)
    as [(a' & t' & ->)|Hne] by (destruct req; naive_solver).
  - cbn [RequirementType]. unfold service, NewAuthorizationService. cbn [handlers register_parc].
    rewrite lookup_insert_eq. cbn [Handle]. specialize (Hno a' t').
    by destruct (PARC_Handle (handler i) pr (PARCRequirement a' t') ev w) as [[[]|] w'].
  - destruct (handlers (service i opts) !! RequirementType req) as [h|] eqn:Eh; [|done].
    pose proof (service_other i opts h pr req ev w Eh ltac:(naive_solver)) as Hw.
    destruct (Handle h pr req ev w) as [[[]|e] w']; simpl in Hw; subst; try done.
    apply IH. apply elem_of_cons in Hin as [<-|?]; [|done]. by destruct Hne; eauto.
Qed.

(** In [s0] the rules of [p] are removed from the repository, and then process
    [j] publishes a revocation that the second tier and the bus confirm while
    nothing of [p] is under way; [ls] is what happens from there to [s].  No rule
    is granted to [p] in between.  Other operations may lie in between. *)
Definition revocation (p : string) (s0 : gstate) (j : nat) (ls : list glabel) (s : gstate) : Prop :=
  exists w1 ls1 tr1 s2 w2 tr2,
    RevokeAll R p (gw s0) = (None, w1) /\
    grun (with_world w1 s0) ls1 tr1 s2 /\ Forall (fun l => ~ changes p l) ls1 /\
    (j < n)%nat /\ idle p s2 /\ revoked node L2 cacheKey j p (gw s2) w2 /\
    grun (with_world w2 s2) ls tr2 s /\ Forall (fun l => ~ changes p l) ls.

(** Process [i] has heard of such a revocation: it published it, or its listener
    has consumed a message for [p] since. *)
Definition revoked_at (i : nat) (p : string) (s : gstate) : Prop :=
  exists s0 j ls, revocation p s0 j ls s /\ (i = j \/ GListen i p ∈ ls).

Lemma revoked_only p s0 j ls s :
  revocation p s0 j ls s ->
  ginv (only p (held (gw s) p) (fun i => i <> j /\ GListen i p ∉ ls)) s /\ Rules (held (gw s) p) = [].
Proof.
  intros (w1 & ls1 & tr1 & s2 & w2 & tr2 & HR & Hr1 & Hc1 & Hj & Hidle & Hrev & Hr2 & Hc2).
  assert (Hheld : held w2 = held (gw s2)).
  { destruct Hrev as (_ & _ & HP). pose proof (publish_grown j p (gw s2)) as (_ & H & _).
    by rewrite HP in H. }
  pose proof (only_revoked j p (held w2 p) s2 w2 Hidle Hrev) as H0.
  pose proof (grun_only p _ _ _ _ _ Hr2 Hc2 H0) as H3. pose proof (grun_held p _ _ _ _ Hr2 Hc2) as E3.
  simpl in H3, E3. rewrite <- E3 in H3. split; [done|].
  rewrite E3, Hheld, (grun_held p _ _ _ _ Hr1 Hc1). by apply sys_revoke in HR.
Qed.

Lemma revoked_handle p s i pr ev action resourceType :
  revoked_at i p s -> (i < n)%nat -> Subject pr = p ->
  fst (PARC_Handle (handler i) pr (PARCRequirement action resourceType) ev (gw s)) <> Ok true.
Proof.
  intros (s0 & j & ls & Hrev & Hheard) Hi Hp. destruct (revoked_only p s0 j ls s Hrev) as [Ho He].
  destruct (PARC_Handle (handler i) pr (PARCRequirement action resourceType) ev (gw s)) as [r w'] eqn:E.
  destruct (only_decides p _ s i pr action resourceType ev r w' Ho Hi Hp ltac:(tauto) E) as [[e ->] | ->]; [done|].
  simpl. by rewrite verdict_empty.
Qed.

(** C6: Revocation takes effect.  All rules of a principal are removed from the
    repository; later, when no fill and no fetched bundle of that principal is
    under way, some process publishes a revocation that the second tier and the
    bus confirm.  From then on, whatever the processes do, short of granting the
    principal new rules, the service of the publisher and of every process whose
    listener has consumed a message for the principal since refuses the
    principal every policy with a PARC requirement, also on the bundles that
    were cached since.  The bus may lose messages. *)
Theorem revoked_principal_refused p s i pr opts policy ev :
  revoked_at i p s -> (i < n)%nat -> Subject pr = p ->
  (exists a t, PARCRequirement a t ∈ Requirements policy) ->
  Allowed (Engine_Evaluate (service i opts) policy (Some pr) ev (gw s)).1.1 = false.
Proof.
  intros Hrev Hi Hp Hpol. apply service_refuses; [done|]. intros a t. by eapply revoked_handle.
Qed.

(** *** Without a message

    Time does not run backwards, and the bundle is empty from the removal on. *)
Lemma gstep_now s l s' : gstep s l s' -> now (gw s) <= now (gw s').
Proof.
  destruct 1; simpl.
  - unfold get_state. destruct (get_read (node j) k (gw s)) as [[r hit] w'] eqn:E.
    apply get_read_grown in E as ((N & _) & _). destruct r, hit; simpl; lia.
  - destruct (fill_grown j k v (gw s)) as (N & _). lia.
  - lia.
  - unfold fetch_store. destruct (json_Marshal (Some q)) as [b|]; [|lia].
    destruct (set_grown j (cacheKey p) b (grant j) (gw s)) as (N & _). simpl. lia.
  - destruct (sys_repo p rule (gw s) _ (or_introl eq_refl)) as (N & _). lia.
  - destruct (sys_repo p no_rule (gw s) _ (or_intror eq_refl)) as (N & _). lia.
  - destruct (publish_grown j p (gw s)) as (N & _). lia.
  - destruct (listen_views j p (gw s)) as (N & _). lia.
  - destruct (set_grown j k v ttl (gw s)) as (N & _). lia.
  - destruct (delete_grown j k (gw s)) as (N & _). lia.
  - done.
Qed.

Lemma grun_now s ls tr s' x : grun s ls tr s' -> x ∈ tr -> now (gw x) <= now (gw s').
Proof.
  induction 1 as [|ls tr s' l s'' Hr IH Hs].
  - intros ->%list_elem_of_singleton. lia.
  - intros [->|Hx]%elem_of_cons; [lia|]. pose proof (gstep_now _ _ _ Hs). specialize (IH Hx). lia.
Qed.

Lemma grun_trace_held p s ls tr s' x :
  grun s ls tr s' -> Forall (fun l => ~ changes p l) ls -> x ∈ tr -> held (gw x) p = held (gw s) p.
Proof.
  induction 1 as [|ls tr s' l s'' Hr IH Hs]; intros HF Hx.
  - by apply list_elem_of_singleton in Hx as ->.
  - apply elem_of_cons in Hx as [->|Hx].
    + apply (grun_held p s (l :: ls) (s'' :: tr)); [by eapply grun_snoc|done].
    + apply Forall_cons in HF as [_ HF]. by apply IH.
Qed.

Lemma grun_app s ls tr s' ls' tr' s'' :
  grun s ls tr s' -> grun s' ls' tr' s'' ->
  exists tr'', grun s (ls' ++ ls) tr'' s'' /\ forall x, x ∈ tr'' -> x ∈ tr \/ x ∈ tr'.
Proof.
  intros Hr. induction 1 as [|ls' tr' s1 l s2 H1 (tr'' & IH & Hin) Hs]; [exists tr; auto|].
  exists (s2 :: tr''). split; [by eapply grun_snoc|]. intros x [->|Hx]%elem_of_cons; [right; left|].
  destruct (Hin x Hx); [by left|right; by right].
Qed.

(** The whole run, from empty caches to after the revocation. *)
Lemma revocation_run s00 ls00 tr00 s0 p j ls s :
  grun s00 ls00 tr00 s0 -> revocation p s0 j ls s ->
  exists ls' tr, grun s00 ls' tr s /\ forall x, x ∈ tr -> now (gw x) <= now (gw s0) \/ Rules (held (gw x) p) = [].
Proof.
  intros H0 (w1 & ls1 & tr1 & s2 & w2 & tr2 & HR & Hr1 & Hc1 & Hj & _ & (_ & _ & HP) & Hr2 & Hc2).
  pose proof (g_revokeall p s0) as St1. rewrite HR in St1. cbn [snd] in St1.
  destruct (grun_app _ _ _ _ _ _ _ (grun_snoc _ _ _ _ _ _ H0 St1) Hr1) as (trA & HA & HinA).
  pose proof (g_publish j p s2 Hj) as St2. rewrite HP in St2. cbn [snd] in St2.
  destruct (grun_app _ _ _ _ _ _ _ (grun_snoc _ _ _ _ _ _ HA St2) Hr2) as (trB & HB & HinB).
  do 2 eexists. split; [exact HB|].
  assert (He1 : Rules (held w1 p) = []) by (by eapply sys_revoke).
  assert (Hx1 : forall x, x ∈ tr1 -> Rules (held (gw x) p) = [])
    by (intros x Hx; by rewrite (grun_trace_held p _ _ _ _ x Hr1 Hc1 Hx)).
  assert (He2 : Rules (held w2 p) = []).
  { pose proof (publish_grown j p (gw s2)) as (_ & H & _). rewrite HP in H. simpl in H. rewrite H.
    apply Hx1. by eapply grun_last. }
  intros x [[->|[[->|Hx]%elem_of_cons|Hx]%HinA]%elem_of_cons|Hx]%HinB.
  - by right.
  - by right.
  - left. by eapply grun_now.
  - right. by apply Hx1.
  - right. by rewrite (grun_trace_held p _ _ _ _ x Hr2 Hc2 Hx).
Qed.

(** After the lifetimes the bundle is forgotten everywhere, message or not. *)
Lemma expired_handle s00 ls00 tr00 s0 p j ls s i pr ev action resourceType :
  ginitial s00 -> grun s00 ls00 tr00 s0 -> revocation p s0 j ls s ->
  now (gw s0) + G + L + 2 * D < now (gw s) -> (i < n)%nat -> Subject pr = p ->
  fst (PARC_Handle (handler i) pr (PARCRequirement action resourceType) ev (gw s)) <> Ok true.
Proof.
  intros Hi0 H0 Hrev Ht Hi Hp HA.
  destruct (revocation_run _ _ _ _ _ _ _ _ H0 Hrev) as (ls' & tr & Hrun & Hx).
  destruct (PARC_Handle (handler i) pr (PARCRequirement action resourceType) ev (gw s)) as [r w'] eqn:E.
  simpl in HA. subst r. destruct (stale_decision _ _ _ _ _ _ _ _ _ _ _ Hi0 Hrun Hi E) as (x & Hin & Hn & Hv).
  destruct (Hx x Hin) as [?|He]; [lia|]. rewrite Hp in Hv. by rewrite verdict_empty in Hv.
Qed.

(** *** Progress of the listeners *)
Definition glisten (s s' : gstate) : Prop := exists j p, gstep s (GListen j p) s'.

Definition as_cluster (s : gstate) : cstate := {| cw := gw s; inflight := [] |}.

Lemma glisten_lstep s s' :
  glisten s s' -> lstep now n node L2 cacheKey (as_cluster s) (as_cluster s').
Proof.
  intros (j & p & H). inversion H; subst. exists j, p. unfold as_cluster. simpl.
  by eapply (cs_listen now n node L2 cacheKey j p rest (as_cluster s)).
Qed.

(** Listening prolongs the run; a message that arrived is consumed or still there. *)
Lemma revoked_listen p s0 j ls s s' :
  rtc glisten s s' -> revocation p s0 j ls s ->
  exists ls', revocation p s0 j (ls' ++ ls) s' /\
    forall i, p ∈ pending (gw s) i -> GListen i p ∈ ls' \/ p ∈ pending (gw s') i.
Proof.
  intros Hl. revert ls. induction Hl as [s|s s1 s2 (k & q & Hs) _ IH]; intros ls Hrev.
  { exists []. split; [done|by right]. }
  destruct (IH (GListen k q :: ls)) as (ls' & Hrev' & HI).
  { destruct Hrev as (w1 & ls1 & tr1 & s2' & w2 & tr2 & HR & Hr1 & Hc1 & Hj & Hidle & Hrev & Hr2 & Hc2).
    exists w1, ls1, tr1, s2', w2, (s1 :: tr2). split_and!; try done; [by eapply grun_snoc|].
    apply Forall_cons. split; [by intros []|done]. }
  exists (ls' ++ [GListen k q]). rewrite <- app_assoc. split; [done|]. intros i Hp.
  assert (p ∈ pending (gw s1) i \/ (i = k /\ p = q)) as [H|[-> ->]]; [| |left; set_solver].
  - inversion Hs; subst. simpl. destruct (listen_views k q (gw s)) as (_ & _ & _ & _ & _ & RI).
    rewrite RI. case_decide as E; [subst i|by left].
    match goal with Hb : pending _ _ = _ |- _ => rewrite Hb in Hp |- * end. simpl.
    apply elem_of_cons in Hp as [->|?]; auto.
  - destruct (HI i H) as [?|?]; [left; set_solver|by right].
Qed.

(** C7: Where the revocation arrives, and when.  After a confirmed revocation the
    listeners cannot run for ever, and whenever they have no message left to
    consume, the publisher and every process the message reached refuse the
    principal every policy with a PARC requirement.  A process whose message
    was lost (the bus delivers at most once) does so at the latest when
    grantTTL + l1TTL, plus twice the longest wait of an operation under way,
    have passed since the rules were removed. *)
Theorem revocation_reaches_all s00 ls00 tr00 s0 p j ls s :
  ginitial s00 -> grun s00 ls00 tr00 s0 -> revocation p s0 j ls s ->
  sn glisten s /\
  forall s', rtc glisten s s' -> nf glisten s' ->
    forall i pr opts policy ev, (i < n)%nat -> Subject pr = p ->
      (exists a t, PARCRequirement a t ∈ Requirements policy) ->
      i = j \/ GListen i p ∈ ls \/ p ∈ pending (gw s) i \/
        now (gw s0) + G + L + 2 * D < now (gw s') ->
      Allowed (Engine_Evaluate (service i opts) policy (Some pr) ev (gw s')).1.1 = false.
Proof.
  intros Hi0 H0 Hrev. split.
  - clear Hrev. remember (backlog now n node L2 cacheKey (gw s)) as m eqn:E. revert s E.
    induction m as [m IH] using lt_wf_ind. intros s ->. constructor. intros s' H.
    by eapply IH; [apply (lstep_backlog _ _ _ _ _ _ _ (glisten_lstep _ _ H))|].
  - intros s' Hrun Hnf i pr opts policy ev Hi Hp Hpol Hwhy.
    destruct (revoked_listen _ _ _ _ _ _ Hrun Hrev) as (ls' & Hrev' & HI).
    apply service_refuses; [done|]. intros a t.
    assert (Hr : i = j \/ GListen i p ∈ ls' ++ ls ->
      fst (PARC_Handle (handler i) pr (PARCRequirement a t) (default zero_EvaluationContext ev) (gw s')) <> Ok true)
      by (intros Hh; eapply revoked_handle; [by exists s0, j, (ls' ++ ls)|done|done]).
    destruct Hwhy as [?|[?|[Hpend|Ht]]]; [apply Hr; by left|apply Hr; right; set_solver| |].
    + destruct (HI i Hpend) as [?|Hin]; [apply Hr; right; set_solver|].
      destruct (pending (gw s') i) as [|q rest] eqn:E; [by apply not_elem_of_nil in Hin|].
      exfalso. apply Hnf. eexists. exists i, q. by eapply g_listen.
    + eapply expired_handle; eauto.
Qed.

(** *** Decisions are runs *)

(** [PARCHandler.Handle] is nothing but the steps of the run model executed
    without interruption: the reads of the cache, the fill of the first tier
    after a hit in the second, and after a miss the repository read and the
    write of the bundle. *)
Theorem parc_handle_is_run s j pr action resourceType ev r w' :
  (j < n)%nat -> encodable (held (gw s) (Subject pr)) ->
  PARC_Handle (handler j) pr (PARCRequirement action resourceType) ev (gw s) = (r, w') ->
  exists ls tr, grun s ls tr (with_world w' s) /\ Forall (fun l => ~ changes (Subject pr) l) ls.
Proof.
  intros Hj He H. assert (exists f, fetch_permissions (handler j) (Subject pr) (gw s) = (f, w')) as [f Hf]
    by (apply handle_answer in H as [(e & ? & _)|(q & ? & _)]; eauto).
  revert Hf. rewrite fetch_permissions_phases. cbn [cache handler tiered_cache cGet]. set (k := cacheKey (Subject pr)).
  assert (Hget : exists ls tr got w1, Get (node j) k (gw s) = (got, w1) /\ held w1 = held (gw s) /\
    grun s ls tr (with_world w1 s) /\ Forall (fun l => ~ changes (Subject pr) l) ls).
  { pose proof (g_read j k s Hj) as Hs. unfold get_state, Get in *.
    destruct (get_read (node j) k (gw s)) as [[got hit] w1] eqn:E.
    apply get_read_grown in E as ((N & Hh & _) & _).
    pose proof (grun_snoc s _ _ _ _ _ (grun_nil s) Hs) as Hr.
    destruct got as [v|err], hit;
      try (by do 4 eexists; split_and!; [done|done|exact Hr|repeat constructor; intros []]).
    destruct (fill_grown j k v w1) as (_ & Hh' & _).
    do 4 eexists. split_and!; [done|by rewrite Hh'| |].
    - eapply grun_snoc; [exact Hr|].
      eapply (g_fill j k v (now w1) [] (fills s) {| gw := w1; fills := _; asides := asides s |});
        simpl; [done|lia].
    - repeat constructor; intros []. }
  destruct Hget as (ls & tr & got & w1 & -> & Hh & Hr & Hc).
  destruct (decoded got) as [q'|]; [intros [= _ <-]; eauto|].
  intros Hmiss. apply repo_answer in Hmiss as [(e & _ & ->) | [_ ->]]; [eauto| |done].
  pose proof (g_fetch j (Subject pr) (with_world w1 s) Hj) as Hs1. simpl in Hs1. rewrite Hh in Hs1.
  pose proof (grun_snoc s _ _ _ _ _ Hr (Hs1 He)) as Hr1.
  do 2 eexists. split.
  - rewrite Hh. eapply grun_snoc; [exact Hr1|].
    eapply (g_store j (Subject pr) (held (gw s) (Subject pr)) (now w1) [] (asides s)
              {| gw := w1; fills := fills s; asides := _ |}); simpl; [done|lia].
  - by repeat (apply Forall_cons; split; [by intros []|]).
Qed.

End system.

(** ** Two processes, an in-memory repository *)
Module RevocationWitness.
Import ClusterWitness LineCodec EngineWitness.

(** The two processes of [ClusterWitness] and the repository. *)
Definition World3 : Type := World2 * MemoryPermissionRepository.t.

Definition time3 (w : World3) : Z := cclock w.1.
Definition lift {A} (l : Lens World2 A) : Lens World3 A :=
  {| lget w := lget l w.1; lset a w := (lset l a w.1, w.2) |}.

#[local] Instance lift_first_laws j : LensLaws time3 (lift (lens_first j)).
Proof. split; [|done]. intros a w. simpl. by rewrite lookup_insert_eq. Defined.
#[local] Instance lift_shared_laws : LensLaws time3 (lift lens_shared).
Proof. by split. Defined.

Definition bus3 : InvalidationBus World3 :=
  {| bPublishRevocation p w := let '(r, w1) := bPublishRevocation bus2 p w.1 in (r, (w1, w.2));
     bSubscribeRevocations w := (Ok 0%nat, w) |}.
Definition shared_tier : CacheProvider World3 := TTLCache time3 (lift lens_shared).
Definition node3 (j : nat) : TieredCacheProvider World3 :=
  {| l1 := TTLCache time3 (lift (lens_first j)); l2 := shared_tier; bus := Some bus3;
     l1TTL := 60; keyFormatter := cacheKey |}.
Definition repo3 : PermissionRepository World3 :=
  {| GetPermissions s w := (Ok (Some (MemoryPermissionRepository.GetPermissions s w.2)), w);
     GrantPermission s rule w := (None, (w.1, MemoryPermissionRepository.GrantPermission s rule w.2));
     RevokeAll s w := (None, (w.1, MemoryPermissionRepository.RevokeAll s w.2)) |}.

#[export] Instance cluster3 : ClusterEnv time3 node3 shared_tier cacheKey.
Proof.
  refine (@Build_ClusterEnv _ time3 node3 shared_tier cacheKey _ _
            (fun j => TTLCache_spec time3 (lift (lens_first j)))
            (TTLCache_spec time3 (lift lens_shared)) (fun w => box w.1)
            (fun j w => (set_box j (tail (box w.1 j)) w.1, w.2)) _ _ _ _ _); simpl.
  - done.
  - done.
  - intros j k w Hk. unfold ttl_Delete. by rewrite bool_decide_false.
  - intros i k v ttl w w' [-> | [-> | ->]]; unfold ttl_Get, ttl_Set, ttl_Delete;
      repeat case_match; (split_and!; [done|done|]); intros j Hj; try done; simpl;
      by rewrite lookup_insert_ne.
  - intros k v ttl w w' [-> | [-> | ->]]; unfold ttl_Get, ttl_Set, ttl_Delete; repeat case_match; done.
  - intros j b p w r w' [= <-] [= <- <-]. split_and!; [done|done|].
    intros i. simpl. rewrite !box_set. repeat case_decide; subst; [apply offer_once|apply offer_once|by left].
  - intros j w. split_and!; [done|done|]. intros i. apply box_set.
Defined.

#[export] Instance system3 : SystemEnv time3 node3 shared_tier repo3.
Proof.
  refine (@Build_SystemEnv _ time3 node3 shared_tier cluster3 repo3
            (fun w s => MemoryPermissionRepository.GetPermissions s w.2) _ _ _ _ _ _ _); simpl.
  - intros s w. split; [done|by left].
  - intros i k v ttl w w' [-> | [-> | ->]]; unfold ttl_Get, ttl_Set, ttl_Delete; by repeat case_match.
  - intros k v ttl w w' [-> | [-> | ->]]; unfold ttl_Get, ttl_Set, ttl_Delete; by repeat case_match.
  - by intros j b p w [= <-].
  - done.
  - intros s rule w w' [-> | ->]; (split_and!; [done..|]); intros s' Hs; simpl.
    + by apply MemoryPermissionRepository.Get_Grant_ne.
    + by apply MemoryPermissionRepository.Get_Revoke_ne.
  - intros s w w' [= <-]. simpl. apply MemoryPermissionRepository.Get_Revoke.
Defined.

(** Both handlers keep bundles for 60, operations wait at most 5. *)
Definition grant3 (j : nat) : Z := 60.
Definition handler3 : nat -> PARCHandler World3 := Revocation.handler node3 repo3 grant3.
Abbreviation step3 := (gstep time3 2 node3 shared_tier repo3 grant3 5).
Abbreviation run3 := (grun time3 2 node3 shared_tier repo3 grant3 5).

Lemma grant3_bound j : 0 < grant3 j <= 60.
Proof. done. Qed.
Lemma node3_bound j : 0 < l1TTL (node3 j) <= 60.
Proof. done. Qed.

(** Alice may read reports; process 0 fetches and stores her bundle; the
    repository then drops her rules. *)
Definition a0 : World3 := (world0, {["alice" := [sample_rule "permit" ""]]}).
Definition alice_bundle : PrincipalPermissions :=
  MemoryPermissionRepository.GetPermissions "alice" a0.2.
Definition read_reports : Requirement := PARCRequirement "read" "report".
Definition st0 : gstate (W := World3) := {| gw := a0; fills := []; asides := [] |}.
Definition st1 : gstate := {| gw := a0; fills := []; asides := [(0%nat, "alice", alice_bundle, 0)] |}.
Definition st2 : gstate :=
  {| gw := fetch_store (handler3 0) "alice" (Some alice_bundle) a0; fills := []; asides := [] |}.
Definition st3 : gstate := with_world (snd (RevokeAll repo3 "alice" (gw st2))) st2.

Lemma st0_initial : ginitial time3 node3 shared_tier st0.
Proof. split_and!; try done. Qed.

Lemma run_st2 : run3 st0 [GStore 0 "alice"; GFetch 0 "alice"] [st2; st1; st0] st2.
Proof.
  repeat eapply grun_snoc; [apply grun_nil|..].
  - pose proof (g_fetch time3 2 node3 shared_tier repo3 grant3 5 0 "alice" st0) as H.
    apply H; [lia|]. vm_compute. repeat constructor.
  - by apply (g_store time3 2 node3 shared_tier repo3 grant3 5 0 "alice" alice_bundle 0 [] [] st1).
Qed.

Lemma run_st3 : run3 st0 [GRevokeAll "alice"; GStore 0 "alice"; GFetch 0 "alice"] [st3; st2; st1; st0] st3.
Proof. eapply grun_snoc; [exact run_st2|apply g_revokeall]. Qed.

(** Process 1 still allows her: the decision of an earlier state of the run. *)
Lemma parc_bounded_staleness_witness :
  exists s', s' ∈ [st3; st2; st1; st0] /\ 0 <= time3 (gw s') + 60 + 60 + 2 * 5 /\
    true = verdict (held time3 node3 shared_tier repo3 (gw s') "alice") alice "read" "report" ev1.
Proof.
  destruct (parc_bounded_staleness time3 2 node3 shared_tier repo3 grant3 60 60 5
              grant3_bound node3_bound ltac:(lia) st0
              [GRevokeAll "alice"; GStore 0 "alice"; GFetch 0 "alice"] [st3; st2; st1; st0] st3 1 alice "read" "report" ev1
              true (snd (PARC_Handle (handler3 1) alice read_reports ev1 (gw st3)))) as (s' & Hin & Ht & Hr).
  - exact st0_initial.
  - exact run_st3.
  - lia.
  - vm_compute. reflexivity.
  - exists s'. split_and!; [exact Hin|exact Ht|exact Hr].
Defined.

(** Process 0 publishes the revocation; process 1 refuses once it listened. *)
Definition b2 : World3 := snd (PublishRevocation (node3 0) "alice" (gw st3)).
Definition st5 : gstate :=
  with_world (listener_recv (node3 1) "alice" (recv time3 node3 shared_tier cacheKey 1 b2)) st3.

Definition reports_policy : Policy := RequirePARC "read" "report" (NewPolicy "reports").
Abbreviation service3 := (service node3 repo3 grant3).

Lemma st5_revocation :
  revocation time3 2 node3 shared_tier repo3 grant3 5 "alice" st2 0 [GListen 1 "alice"] st5.
Proof.
  exists (gw st3), [], [st3], st3, b2, [st5; with_world b2 st3]. split_and!.
  - reflexivity.
  - apply grun_nil.
  - constructor.
  - lia.
  - split; intros; apply not_elem_of_nil.
  - split_and!; [vm_compute; reflexivity|by eexists|vm_compute; reflexivity].
  - eapply grun_snoc; [apply grun_nil|].
    pose proof (g_listen time3 2 node3 shared_tier repo3 grant3 5 1 "alice" [] (with_world b2 st3)) as H.
    apply H; [lia|]. vm_compute. reflexivity.
  - repeat constructor. intros [].
Qed.

Lemma revoked_principal_refused_witness :
  Allowed (Engine_Evaluate (service3 1 None) reports_policy (Some alice) (Some ev1) (gw st2)).1.1 = true /\
  Allowed (Engine_Evaluate (service3 1 None) reports_policy (Some alice) (Some ev1) (gw st5)).1.1 = false.
Proof.
  split; [vm_compute; reflexivity|].
  apply (revoked_principal_refused time3 2 node3 shared_tier repo3 grant3 60 60 5
           grant3_bound node3_bound "alice" st5 1 alice None reports_policy (Some ev1)).
  - exists st2, 0%nat, [GListen 1 "alice"]. split; [exact st5_revocation|right; left].
  - lia.
  - reflexivity.
  - exists "read", "report". vm_compute. left.
Defined.

Lemma revocation_reaches_all_witness :
  sn (glisten time3 2 node3 shared_tier repo3 grant3 5) st5.
Proof.
  apply (revocation_reaches_all time3 2 node3 shared_tier repo3 grant3 60 60 5
           grant3_bound node3_bound ltac:(lia) st0 [GStore 0 "alice"; GFetch 0 "alice"] [st2; st1; st0] st2
           "alice" 0 [GListen 1 "alice"] st5).
  - exact st0_initial.
  - exact run_st2.
  - exact st5_revocation.
Defined.

Lemma parc_handle_is_run_witness :
  exists ls tr, run3 st0 ls tr
    (with_world (snd (PARC_Handle (handler3 0) alice read_reports ev1 a0)) st0).
Proof.
  destruct (parc_handle_is_run time3 2 node3 shared_tier repo3 grant3 60 60 5
              grant3_bound node3_bound ltac:(lia) st0 0 alice "read" "report" ev1
              (fst (PARC_Handle (handler3 0) alice read_reports ev1 a0))
              (snd (PARC_Handle (handler3 0) alice read_reports ev1 a0))) as (ls & tr & H & _).
  - lia.
  - vm_compute. repeat constructor.
  - apply surjective_pairing.
  - by exists ls, tr.
Defined.

(** The cache-aside race: process 0 has read the bundle when the rules are
    dropped and the revocation is published and confirmed; its [Set] then
    brings the revoked bundle back to both tiers, and process 1, whose listener
    has consumed the message, allows what the repository forbids. *)
Example aside_race :
  let '(r0, w0) := GetPermissions repo3 "alice" a0 in
  let '(e1, w1) := RevokeAll repo3 "alice" w0 in
  let '(e2, w2) := PublishRevocation (node3 0) "alice" w1 in
  let w3 := listener_recv (node3 1) "alice" (recv time3 node3 shared_tier cacheKey 1 w2) in
  let w4 := fetch_store (handler3 0) "alice" (Some alice_bundle) w3 in
  r0 = Ok (Some alice_bundle) /\ e1 = None /\ e2 = None /\
  fst (PARC_Handle (handler3 1) alice read_reports ev1 w3) = Ok false /\
  fst (PARC_Handle (handler3 1) alice read_reports ev1 w4) = Ok true.
Proof. vm_compute. done. Qed.

End RevocationWitness.
