(* ===== verification/Gin.v ===== *)
(** * The HTTP boundary of the handlers

    gin is not part of the repository.  A handler is modelled by what it does
    at that boundary: it reads the request and the context keys, and issues
    calls of [*gin.Context] in an order.  [request] holds the results of the
    reads, [call] the calls with an effect, so a handler is a function from a
    request to the list of its calls.  Nothing is assumed about how gin
    executes a call; the theorems speak of which calls a handler issues. *)
From S2P Require Import Prelude GoStrings Principal.

Local Open Scope string_scope.
Local Open Scope Z_scope.
Local Open Scope list_scope.

(** Values stored in the context ([c.Set]); [X] are the values of other
    packages. *)
Inductive ctxval (X : Type) : Type :=
| VPrincipal (p : option Principal)
| VBool (b : bool)
| VString (s : string)
| VExt (x : X)
| VOther (typ : string).
Arguments VPrincipal {X}. Arguments VBool {X}. Arguments VString {X}.
Arguments VExt {X}. Arguments VOther {X}.

(** What a handler can read: [c.Request.Method], [c.Request.URL.Path],
    [c.GetHeader], presence in [c.Request.Header], [c.Query], [c.Param], [c.ClientIP], [c.HandlerNames],
    [c.Get], and [time.Now]. *)
Record request (X : Type) : Type := {
  rq_Method : string;
  rq_Path : string;
  rq_GetHeader : string -> string;
  rq_HasHeader : string -> bool;
  rq_Query : string -> string;
  rq_Param : string -> string;
  rq_ClientIP : string;
  rq_HandlerNames : list string;
  rq_keys : gmap string (ctxval X);
  rq_now : Z
}.
Arguments rq_Method {X}. Arguments rq_Path {X}. Arguments rq_GetHeader {X}. Arguments rq_HasHeader {X}.
Arguments rq_Query {X}. Arguments rq_Param {X}. Arguments rq_ClientIP {X}.
Arguments rq_HandlerNames {X}. Arguments rq_keys {X}. Arguments rq_now {X}.

(** [gin.H] literals, in the order they are written. *)
Abbreviation gin_H := (list (string * any)).

Inductive call (X : Type) : Type :=
| Set_ (key : string) (v : ctxval X)
| Header (key value : string)
| JSON (status : Z) (body : gin_H)
| AbortWithStatusJSON (status : Z) (body : gin_H)
| Abort
| Next
| Custom (what : string).
Arguments Set_ {X}. Arguments Header {X}. Arguments JSON {X}.
Arguments AbortWithStatusJSON {X}. Arguments Abort {X}. Arguments Next {X}.
Arguments Custom {X}.

Definition StatusUnauthorized : Z := 401.
Definition StatusForbidden : Z := 403.

Section shape.
Context {X : Type}.
Implicit Type tr : list (call X).

Definition is_next (c : call X) : bool := match c with Next => true | _ => false end.
Definition is_abort (c : call X) : bool :=
  match c with Abort | AbortWithStatusJSON _ _ => true | _ => false end.
Definition response_status (c : call X) : option Z :=
  match c with JSON s _ | AbortWithStatusJSON s _ => Some s | _ => None end.

(** The handler lets the chain go on: it calls [Next], aborts nothing and
    writes no response. *)
Definition passes tr : Prop :=
  existsb is_next tr = true /\ existsb is_abort tr = false /\ omap response_status tr = [].

(** The handler stops the chain with one response of this status. *)
Definition rejects (status : Z) tr : Prop :=
  existsb is_next tr = false /\ existsb is_abort tr = true /\
  omap response_status tr = [status].

Lemma passes_not_rejects tr s : passes tr -> ~ rejects s tr.
Proof. intros (H & _) (H' & _). congruence. Qed.

Lemma rejects_inj tr s s' : rejects s tr -> rejects s' tr -> s = s'.
Proof. intros (_ & _ & H) (_ & _ & H'). congruence. Qed.

(** Context writes a handler issues, as the next handler finds them. *)
Fixpoint apply_sets (tr : list (call X)) (m : gmap string (ctxval X)) : gmap string (ctxval X) :=
  match tr with
  | [] => m
  | Set_ k v :: tr' => apply_sets tr' (<[k := v]> m)
  | _ :: tr' => apply_sets tr' m
  end.

Definition with_keys (m : gmap string (ctxval X)) (rq : request X) : request X :=
  {| rq_Method := rq_Method rq; rq_Path := rq_Path rq; rq_GetHeader := rq_GetHeader rq;
     rq_HasHeader := rq_HasHeader rq;
     rq_Query := rq_Query rq; rq_Param := rq_Param rq; rq_ClientIP := rq_ClientIP rq;
     rq_HandlerNames := rq_HandlerNames rq; rq_keys := m; rq_now := rq_now rq |}.

End shape.

(** A bare request, for examples. *)
Definition empty_request {X} : request X :=
  {| rq_Method := "GET"; rq_Path := "/"; rq_GetHeader := fun _ => "";
     rq_HasHeader := fun _ => false; rq_Query := fun _ => "";
     rq_Param := fun _ => ""; rq_ClientIP := "10.0.0.1"; rq_HandlerNames := []; rq_keys := ∅;
     rq_now := 0 |}.
