(* ===== verification/Extractor.v ===== *)
(** * Errors of the authentication layer and credential extraction:
    [authn/extractor.go] *)
From S2P Require Import Prelude GoStrings Principal Gin.

Local Open Scope string_scope.
Local Open Scope list_scope.

(** ** Errors

    The sentinel errors of the package.  An [error] is the list of sentinels
    [errors.Is] finds in its chain, and its text. *)
Inductive sentinel : Type :=
| ErrNoCredentialsFound | ErrMultipleCredTypes | ErrInvalidHeader
| ErrAuthenticatorNotConfigured
| ErrInvalidToken | ErrTokenExpired | ErrTokenNotYetValid | ErrInvalidIssuer
| ErrInvalidAudience | ErrMissingSubject | ErrUnsupportedKeyFunc
| ErrOIDCProviderInit
| ErrAPIKeyNotFound | ErrAPIKeyRevoked | ErrAPIKeyExpired | ErrNilKeyStore.

#[global] Instance sentinel_eq_dec : EqDecision sentinel.
Proof. solve_decision. Defined.

Definition sentinel_text (s : sentinel) : string :=
  match s with
  | ErrNoCredentialsFound => "authn: no credentials found in request"
  | ErrMultipleCredTypes => "authn: multiple conflicting credential types provided"
  | ErrInvalidHeader => "authn: malformed authorization header"
  | ErrAuthenticatorNotConfigured => "authn: no validator configured for credential type"
  | ErrInvalidToken => "authn: invalid or malformed token"
  | ErrTokenExpired => "authn: token has expired"
  | ErrTokenNotYetValid => "authn: token is not valid yet (nbf)"
  | ErrInvalidIssuer => "authn: token issuer does not match expected issuer"
  | ErrInvalidAudience => "authn: token audience does not match expected audience"
  | ErrMissingSubject => "authn: token missing subject claim"
  | ErrUnsupportedKeyFunc =>
      "authn: no key function or public key configured for token verification"
  | ErrOIDCProviderInit => "authn: failed to initialize OIDC provider"
  | ErrAPIKeyNotFound => "authn: api key not found or invalid"
  | ErrAPIKeyRevoked => "authn: api key has been revoked"
  | ErrAPIKeyExpired => "authn: api key has expired"
  | ErrNilKeyStore => "authn: api key store is nil"
  end.

Record authn_err : Type := { err_chain : list sentinel; err_text : string }.

(** The sentinel itself, and [fmt.Errorf("%w: ...", s, ...)]. *)
Definition plain_err (s : sentinel) : authn_err :=
  {| err_chain := [s]; err_text := sentinel_text s |}.
Definition wrap_err (s : sentinel) (detail : string) : authn_err :=
  {| err_chain := [s]; err_text := sentinel_text s +:+ ": " +:+ detail |}.
Definition opaque_err (msg : string) : authn_err := {| err_chain := []; err_text := msg |}.

(** [errors.Is] *)
Definition errors_Is (e : authn_err) (s : sentinel) : bool := bool_decide (s ∈ err_chain e).

(** ** Data *)
Inductive CredentialType : Type := CredentialTypeBearer | CredentialTypeAPIKey.

Record ExtractedCredential : Type := { cred_Type : CredentialType; cred_Token : string }.

Record ExtractorConfig : Type := {
  APIKeyHeader : string;
  AllowQueryAPIKey : bool;
  APIKeyQueryParam : string
}.

Definition DefaultExtractorConfig : ExtractorConfig :=
  {| APIKeyHeader := "X-API-Key"; AllowQueryAPIKey := false; APIKeyQueryParam := "api_key" |}.

(** ** Operations *)
Definition NewCredentialExtractor (cfg : ExtractorConfig) : ExtractorConfig :=
  {| APIKeyHeader := if bool_decide (APIKeyHeader cfg = "") then "X-API-Key" else APIKeyHeader cfg;
     AllowQueryAPIKey := AllowQueryAPIKey cfg;
     APIKeyQueryParam := if bool_decide (APIKeyQueryParam cfg = "") then "api_key"
                         else APIKeyQueryParam cfg |}.

(** Step 1 of [Extract]: the bearer token and API key of the [Authorization]
    header, given trimmed. *)
Definition parse_authorization (authHeader : string) : res sentinel (string * string) :=
  if bool_decide (authHeader = "") then Ok ("", "") else
  match SplitN2 authHeader " " with
  | [p0; p1] =>
      let scheme := ToLower p0 in
      let token := TrimSpace p1 in
      if bool_decide (scheme = "bearer") then Ok (token, "")
      else if bool_decide (scheme = "apikey") || bool_decide (scheme = "key") then Ok ("", token)
      else Err ErrInvalidHeader
  | _ => Err ErrInvalidHeader
  end.

Definition Extract {X} (cfg : ExtractorConfig) (c : request X)
  : res sentinel ExtractedCredential :=
  let authHeader := TrimSpace (rq_GetHeader c "Authorization") in
  let apiKeyHeader := TrimSpace (rq_GetHeader c (APIKeyHeader cfg)) in
  let? (bearerToken, apiKey) := parse_authorization authHeader in
  let? apiKey :=
    if bool_decide (apiKeyHeader <> "") then
      if bool_decide (apiKey <> "") && bool_decide (apiKey <> apiKeyHeader)
      then Err ErrMultipleCredTypes
      else Ok apiKeyHeader
    else Ok apiKey in
  let apiKey :=
    if bool_decide (apiKey = "") && AllowQueryAPIKey cfg then
      let qKey := TrimSpace (rq_Query c (APIKeyQueryParam cfg)) in
      if bool_decide (qKey <> "") then qKey else apiKey
    else apiKey in
  if bool_decide (bearerToken <> "") && bool_decide (apiKey <> "") then Err ErrMultipleCredTypes
  else if bool_decide (bearerToken <> "")
  then Ok {| cred_Type := CredentialTypeBearer; cred_Token := bearerToken |}
  else if bool_decide (apiKey <> "")
  then Ok {| cred_Type := CredentialTypeAPIKey; cred_Token := apiKey |}
  else Err ErrNoCredentialsFound.

(** ** Lemmas *)
Lemma parse_authorization_one h b k :
  parse_authorization h = Ok (b, k) -> b = "" \/ k = "".
Proof.
  unfold parse_authorization. intros H. repeat case_match; simplify_eq; auto.
Qed.

(** A header [<scheme> <token>] with a scheme free of spaces. *)
Lemma parse_authorization_scheme sch tok :
  no_char " " sch = true ->
  parse_authorization (sch +:+ " " +:+ tok) =
    if bool_decide (ToLower sch = "bearer") then Ok (TrimSpace tok, "")
    else if bool_decide (ToLower sch = "apikey") || bool_decide (ToLower sch = "key")
    then Ok ("", TrimSpace tok) else Err ErrInvalidHeader.
Proof.
  intros Hs. unfold parse_authorization. rewrite bool_decide_false; [|by destruct sch].
  unfold SplitN2.
  change (sch +:+ " " +:+ tok) with (sch +:+ String " " tok). by rewrite str_cut_char.
Qed.

Lemma SplitN2_space h p0 p1 :
  SplitN2 h " " = [p0; p1] -> h = p0 +:+ " " +:+ p1 /\ no_char " " p0 = true.
Proof.
  unfold SplitN2. destruct (str_cut " " h) as [[a b]|] eqn:E; [|done]. intros [= <- <-].
  by apply str_cut_char_inv in E.
Qed.

(** The trimmed values [Extract] looks at. *)
Definition hdr {X} (name : string) (c : request X) : string := TrimSpace (rq_GetHeader c name).
Definition query_key {X} (cfg : ExtractorConfig) (c : request X) : string :=
  if AllowQueryAPIKey cfg then TrimSpace (rq_Query c (APIKeyQueryParam cfg)) else "".

(** What an [Authorization] header supplies, a bearer token and an API key:
    nothing when it is blank, else the token behind a scheme (in any case) and
    the first space.  Other headers are malformed. *)
Inductive authorization : string -> string -> string -> Prop :=
| auth_none : authorization "" "" ""
| auth_bearer sch tok :
    no_char " " sch = true -> ToLower sch = "bearer" ->
    authorization (sch +:+ " " +:+ tok) (TrimSpace tok) ""
| auth_apikey sch tok :
    no_char " " sch = true -> ToLower sch = "apikey" \/ ToLower sch = "key" ->
    authorization (sch +:+ " " +:+ tok) "" (TrimSpace tok).

Lemma parse_authorization_Ok h b k : parse_authorization h = Ok (b, k) <-> authorization h b k.
Proof.
  split.
  - unfold parse_authorization. case_bool_decide; [intros [= <- <-]; subst; constructor|].
    destruct (SplitN2 h " ") as [|p0 [|p1 [|]]] eqn:Es; try done.
    apply SplitN2_space in Es as [-> Hs].
    destruct (decide (ToLower p0 = "bearer")) as [E|E].
    { rewrite bool_decide_true by done. intros [= <- <-]. by constructor. }
    rewrite bool_decide_false by done.
    destruct (_ || _) eqn:Eo; [|done]. intros [= <- <-].
    apply orb_true_iff in Eo as [Eo%bool_decide_eq_true|Eo%bool_decide_eq_true]; constructor; auto.
  - intros [|sch tok Hs E|sch tok Hs E]; [done| |]; rewrite parse_authorization_scheme by done.
    + by rewrite bool_decide_true.
    + rewrite bool_decide_false by (destruct E as [E|E]; by rewrite E).
      by rewrite (proj2 (orb_true_iff _ _)) by (rewrite !bool_decide_eq_true; done).
Qed.

Lemma parse_authorization_Err h e :
  parse_authorization h = Err e <-> e = ErrInvalidHeader /\ forall b k, ~ authorization h b k.
Proof.
  setoid_rewrite <- parse_authorization_Ok. split.
  - intros H. split; [|congruence]. revert H. unfold parse_authorization.
    repeat case_match; by intros [= <-].
  - intros [-> H]. destruct (parse_authorization h) as [[b k]|e] eqn:E; [by destruct (H b k)|].
    revert E. unfold parse_authorization. repeat case_match; by intros [= <-].
Qed.

(** C11: Extraction accepts exactly one kind of credential.  A bearer token is
    returned iff it stands behind the scheme Bearer in the [Authorization]
    header and no API key is supplied by the key header or the query; an API key
    iff there is no bearer token and it comes from the [Authorization] header
    (scheme ApiKey or Key) and the key header, which must agree when both carry
    one, or, when neither does, from the query parameter if that is allowed; a
    query key beside a header key is ignored.  A header of another form is
    malformed, a bearer token beside a key and two different header keys are
    conflicts, and otherwise no credentials were found. *)
Theorem extract_exclusive {X} (cfg : ExtractorConfig) (c : request X) t :
  let header := hdr "Authorization" c in
  let key := hdr (APIKeyHeader cfg) c in
  let query := query_key cfg c in
  (Extract cfg c = Ok {| cred_Type := CredentialTypeBearer; cred_Token := t |} <->
     t <> "" /\ authorization header t "" /\ key = "" /\ query = "") /\
  (Extract cfg c = Ok {| cred_Type := CredentialTypeAPIKey; cred_Token := t |} <->
     t <> "" /\ exists k, authorization header "" k /\
     ((key = t /\ (k = "" \/ k = t)) \/ (key = "" /\ (k = t \/ (k = "" /\ query = t))))) /\
  (Extract cfg c = Err ErrInvalidHeader <-> forall b k, ~ authorization header b k) /\
  (Extract cfg c = Err ErrMultipleCredTypes <->
     exists b k, authorization header b k /\
       ((k <> "" /\ key <> "" /\ key <> k) \/ (b <> "" /\ (key <> "" \/ query <> "")))) /\
  (Extract cfg c = Err ErrNoCredentialsFound <-> authorization header "" "" /\ key = "" /\ query = "").
Proof.
  intros header key query. unfold Extract. fold (hdr "Authorization" c) (hdr (APIKeyHeader cfg) c).
  subst header key query. unfold query_key. setoid_rewrite <- parse_authorization_Ok.
  generalize (hdr "Authorization" c) (hdr (APIKeyHeader cfg) c). intros h1 h2.
  destruct (parse_authorization h1) as [[b k]|e] eqn:E.
  2:{ apply parse_authorization_Err in E as [-> _]. split_and!; split; intros H;
      repeat match goal with H : _ /\ _ |- _ => destruct H | H : exists _, _ |- _ => destruct H end;
      discriminate || done. }
  apply parse_authorization_one in E.
  generalize (TrimSpace (rq_Query c (APIKeyQueryParam cfg))). intros q.
  assert (HB : forall b' k', @Ok sentinel _ (b, k) = Ok (b', k') <-> b = b' /\ k = k') by naive_solver.
  assert (HK : forall P : string -> Prop,
             (exists k', @Ok sentinel _ (b, k) = Ok ("", k') /\ P k') <-> b = "" /\ P k)
    by naive_solver.
  assert (HE : forall P : string -> string -> Prop,
             (exists b' k', @Ok sentinel _ (b, k) = Ok (b', k') /\ P b' k') <-> P b k) by naive_solver.
  assert (HN : (forall b' k', @Ok sentinel _ (b, k) <> Ok (b', k')) <-> False) by naive_solver.
  rewrite !HB, HK, HE, HN. clear HB HK HE HN.
  destruct (AllowQueryAPIKey cfg); rewrite ?andb_true_r, ?andb_false_r;
    repeat (case_bool_decide; simpl); repeat apply conj; intuition congruence.
Qed.
