(* ===== verification/ApiKey.v ===== *)
(** * API keys: [authn/apikey_validator.go]

    The in-memory store keeps two maps of pointers to shared records, so the
    state is a heap and two indexes; revoking through one index is visible
    through the other.  Times are Unix nanoseconds. *)
From S2P Require Import Prelude GoStrings GoCrypto Principal Extractor.

Local Open Scope string_scope.
Local Open Scope Z_scope.
Local Open Scope list_scope.

(** ** Data *)
Record APIKeyRecord : Type := {
  rec_ID : string;
  rec_KeyHash : string;
  rec_Name : string;
  rec_OwnerID : string;
  rec_ClientID : string;
  rec_Scopes : list string;
  rec_Roles : list string;
  rec_Revoked : bool;
  rec_CreatedAt : Z;
  rec_ExpiresAt : option Z;
  rec_Metadata : gmap string any
}.

Definition HashAPIKey (rawKey : string) : string :=
  hex_EncodeToString (SHA256.sum (bytes_of rawKey)).

#[global] Arguments HashAPIKey : simpl never.

(** [records] and [byID] hold pointers into [heap]. *)
Record store : Type := {
  heap : gmap nat APIKeyRecord;
  records : gmap string nat;
  byID : gmap string nat
}.

Definition NewMemoryAPIKeyStore : store := {| heap := ∅; records := ∅; byID := ∅ |}.

(** The arguments of [CreateKey]. *)
Record key_args : Type := {
  ka_ownerID : string; ka_clientID : string; ka_name : string;
  ka_scopes : list string; ka_roles : list string; ka_ttl : Z
}.

(** ** Operations *)
Definition raw_key (randomBytes : list Z) : string :=
  "ak_live_" +:+ hex_EncodeToString randomBytes.
Definition key_id (idBytes : list Z) : string := "key_" +:+ hex_EncodeToString idBytes.

#[global] Arguments raw_key : simpl never.
#[global] Arguments key_id : simpl never.

Definition new_record (rawKey id : string) (a : key_args) (now : Z) : APIKeyRecord :=
  {| rec_ID := id; rec_KeyHash := HashAPIKey rawKey; rec_Name := ka_name a;
     rec_OwnerID := ka_ownerID a; rec_ClientID := ka_clientID a;
     rec_Scopes := ka_scopes a; rec_Roles := ka_roles a; rec_Revoked := false;
     rec_CreatedAt := now;
     rec_ExpiresAt := if bool_decide (ka_ttl a <> 0) then Some (now + ka_ttl a) else None;
     rec_Metadata := ∅ |}.

(** [random] is what the first [rand.Read] filled or its error, [idBytes] the
    eight bytes after the second, whose error is ignored; the record is
    allocated at a fresh address. *)
Definition CreateKey (random : res string (list Z)) (idBytes : list Z) (a : key_args) (now : Z)
  (s : store) : res string (string * nat) * store :=
  match random with
  | Err e => (Err ("authn: failed generating random api key: " +:+ e), s)
  | Ok randomBytes =>
      let rawKey := raw_key randomBytes in
      let keyHash := HashAPIKey rawKey in
      let id := key_id idBytes in
      let ptr := fresh (dom (heap s)) in
      (Ok (rawKey, ptr),
       {| heap := <[ptr := new_record rawKey id a now]> (heap s);
          records := <[keyHash := ptr]> (records s);
          byID := <[id := ptr]> (byID s) |})
  end.

Definition set_revoked (r : APIKeyRecord) : APIKeyRecord :=
  {| rec_ID := rec_ID r; rec_KeyHash := rec_KeyHash r; rec_Name := rec_Name r;
     rec_OwnerID := rec_OwnerID r; rec_ClientID := rec_ClientID r; rec_Scopes := rec_Scopes r;
     rec_Roles := rec_Roles r; rec_Revoked := true; rec_CreatedAt := rec_CreatedAt r;
     rec_ExpiresAt := rec_ExpiresAt r; rec_Metadata := rec_Metadata r |}.

Definition RevokeKey (id : string) (s : store) : option sentinel * store :=
  match byID s !! id with
  | None => (Some ErrAPIKeyNotFound, s)
  | Some ptr =>
      (None, {| heap := alter set_revoked ptr (heap s); records := records s; byID := byID s |})
  end.

(** [Lookup] returns the shared pointer; here the record it points to.  A
    dangling pointer does not occur ([store_ok]). *)
Definition Lookup (now : Z) (keyHash : string) (s : store) : res sentinel APIKeyRecord :=
  match records s !! keyHash ≫= fun ptr => heap s !! ptr with
  | None => Err ErrAPIKeyNotFound
  | Some rec =>
      if negb (bool_decide (rec_KeyHash rec = keyHash)) then Err ErrAPIKeyNotFound
      else if rec_Revoked rec then Err ErrAPIKeyRevoked
      else match rec_ExpiresAt rec with
           | Some e => if bool_decide (e < now) then Err ErrAPIKeyExpired else Ok rec
           | None => Ok rec
           end
  end.

(** The principal a record stands for. *)
Definition record_principal (record : APIKeyRecord) (rawKey : string) : Principal :=
  {| Subject := rec_OwnerID record; ClientID := rec_ClientID record; Method := AuthMethodAPIKey;
     Scopes := rec_Scopes record; Roles := rec_Roles record; Issuer := ""; Audiences := [];
     IssuedAt := Some (rec_CreatedAt record); ExpiresAt := rec_ExpiresAt record;
     Metadata := <["api_key_name" := AString (rec_Name record)]>
                 (<["api_key_id" := AString (rec_ID record)]> (rec_Metadata record));
     RawToken := rawKey |}.

(** [ValidateKey] over an [APIKeyStore] that answers with a record or one of
    the package's errors. *)
Definition ValidateKey (lookup : string -> res sentinel APIKeyRecord) (rawKey : string)
  : res sentinel Principal :=
  if bool_decide (rawKey = "") then Err ErrAPIKeyNotFound else
  let? record := lookup (HashAPIKey rawKey) in Ok (record_principal record rawKey).

(** [NewAPIKeyValidator]; a nil store is refused. *)
Definition NewAPIKeyValidator (store : option (string -> res sentinel APIKeyRecord))
  : res sentinel (string -> res sentinel Principal) :=
  match store with None => Err ErrNilKeyStore | Some lookup => Ok (ValidateKey lookup) end.

(** A validator over the memory store at a time. *)
Definition validate_at (now : Z) (s : store) (rawKey : string) : res sentinel Principal :=
  ValidateKey (fun h => Lookup now h s) rawKey.

(** ** Invariant

    Every index entry points to a record of that hash or ID. *)
Definition store_ok (s : store) : Prop :=
  map_Forall (fun h p => exists r, heap s !! p = Some r /\ rec_KeyHash r = h) (records s) /\
  map_Forall (fun id p => exists r, heap s !! p = Some r /\ rec_ID r = id) (byID s).

Inductive op : Type :=
| OCreate (random : res string (list Z)) (idBytes : list Z) (a : key_args) (now : Z)
| ORevoke (id : string).

Definition run_op (o : op) (s : store) : store :=
  match o with
  | OCreate random idBytes a now => snd (CreateKey random idBytes a now s)
  | ORevoke id => snd (RevokeKey id s)
  end.
Definition run (ops : list op) (s : store) : store := fold_left (fun s o => run_op o s) ops s.

Lemma run_app ops ops' s : run (ops ++ ops') s = run ops' (run ops s).
Proof. apply fold_left_app. Qed.

(** The hash and ID a [CreateKey] writes. *)
Definition creates_hash (h : string) (o : op) : Prop :=
  match o with OCreate (Ok rb) _ _ _ => HashAPIKey (raw_key rb) = h | _ => False end.
Definition creates_id (id : string) (o : op) : Prop :=
  match o with OCreate (Ok _) ib _ _ => key_id ib = id | _ => False end.

Lemma fresh_lookup (m : gmap nat APIKeyRecord) : m !! fresh (dom m) = None.
Proof. apply not_elem_of_dom. apply is_fresh. Qed.

Lemma heap_create s r p r' :
  heap s !! p = Some r -> <[fresh (dom (heap s)) := r']> (heap s) !! p = Some r.
Proof.
  intros E. rewrite lookup_insert_ne; [done|]. intros <-. by rewrite fresh_lookup in E.
Qed.

Lemma store_ok_create random ib a now s :
  store_ok s -> store_ok (snd (CreateKey random ib a now s)).
Proof.
  intros [I1 I2]. destruct random as [rb|e]; simpl; [|done]. split; simpl; apply map_Forall_insert_2.
  - eexists. by rewrite lookup_insert_eq.
  - intros h p E. destruct (I1 h p E) as (r & Er & Eh). exists r. eauto using heap_create.
  - eexists. by rewrite lookup_insert_eq.
  - intros h p E. destruct (I2 h p E) as (r & Er & Eh). exists r. eauto using heap_create.
Qed.

(** Records keep their identity; revocation only raises the flag. *)
Lemma heap_revoke ptr p r (m : gmap nat APIKeyRecord) :
  m !! p = Some r -> exists r', alter set_revoked ptr m !! p = Some r' /\
    rec_KeyHash r' = rec_KeyHash r /\ rec_ID r' = rec_ID r /\
    (rec_Revoked r = true -> rec_Revoked r' = true).
Proof.
  intros E. destruct (decide (ptr = p)) as [->|Hne].
  - exists (set_revoked r). by rewrite lookup_alter_eq, E.
  - exists r. by rewrite lookup_alter_ne.
Qed.

Lemma store_ok_revoke id s : store_ok s -> store_ok (snd (RevokeKey id s)).
Proof.
  intros [I1 I2]. unfold RevokeKey. destruct (byID s !! id) as [ptr|]; [|done].
  split; simpl; intros h p E;
    [destruct (I1 h p E) as (r & Er & Eh)|destruct (I2 h p E) as (r & Er & Eh)];
    destruct (heap_revoke ptr p r (heap s) Er) as (r' & ? & ? & ? & _);
    exists r'; split; congruence.
Qed.

Lemma store_ok_run ops s : store_ok s -> store_ok (run ops s).
Proof.
  revert s. induction ops as [|o ops IH]; intros s I; [done|]. apply IH.
  destruct o; simpl; auto using store_ok_create, store_ok_revoke.
Qed.

Lemma store_ok_new : store_ok NewMemoryAPIKeyStore.
Proof. split; apply map_Forall_empty. Qed.

(** The key under [h] is present and revoked. *)
Definition revoked_hash (h : string) (s : store) : Prop :=
  exists p r, records s !! h = Some p /\ heap s !! p = Some r /\ rec_KeyHash r = h /\
              rec_Revoked r = true.

Lemma revoked_hash_op h o s : ~ creates_hash h o -> revoked_hash h s -> revoked_hash h (run_op o s).
Proof.
  intros Hc (p & r & E1 & E2 & E3 & E4). destruct o as [random ib a now|id]; simpl.
  - destruct random as [rb|e]; simpl in *; [|by exists p, r]. exists p, r. simpl.
    rewrite lookup_insert_ne by done. split_and!; auto using heap_create.
  - unfold RevokeKey. destruct (byID s !! id) as [ptr|]; simpl; [|by exists p, r].
    destruct (heap_revoke ptr p r (heap s) E2) as (r' & ? & ? & _ & ?).
    exists p, r'. simpl. split_and!; auto; congruence.
Qed.

Lemma revoked_hash_run h ops s :
  Forall (fun o => ~ creates_hash h o) ops -> revoked_hash h s -> revoked_hash h (run ops s).
Proof.
  intros F. revert s. induction F as [|o ops Ho F IH]; intros s R; [done|].
  apply IH. by apply revoked_hash_op.
Qed.

Lemma validate_revoked k s now :
  k <> "" -> revoked_hash (HashAPIKey k) s -> validate_at now s k = Err ErrAPIKeyRevoked.
Proof.
  intros Hk (p & r & E1 & E2 & E3 & E4). unfold validate_at, ValidateKey, Lookup.
  rewrite bool_decide_false by done. rewrite E1. simpl. rewrite E2, E3, E4.
  by rewrite bool_decide_true.
Qed.

Lemma raw_key_nonempty rb : raw_key rb <> "".
Proof. done. Qed.

(** A created key stays reachable under its hash and its ID until a later
    [CreateKey] writes the same hash or ID. *)
Definition issued (k id : string) (s : store) : Prop :=
  exists p r, records s !! HashAPIKey k = Some p /\ byID s !! id = Some p /\
    heap s !! p = Some r /\ rec_KeyHash r = HashAPIKey k.

Lemma issued_op k id o s :
  ~ creates_hash (HashAPIKey k) o -> ~ creates_id id o -> issued k id s -> issued k id (run_op o s).
Proof.
  intros Hh Hi (p & r & E1 & E2 & E3 & E4). destruct o as [random ib a now|id']; simpl.
  - destruct random as [rb|e]; simpl in *; [|by exists p, r]. exists p, r. simpl.
    rewrite !lookup_insert_ne by done. split_and!; auto using heap_create.
  - unfold RevokeKey. destruct (byID s !! id') as [ptr|]; simpl; [|by exists p, r].
    destruct (heap_revoke ptr p r (heap s) E3) as (r' & ? & ? & _ & ?).
    exists p, r'. simpl. split_and!; auto; congruence.
Qed.

Lemma issued_run k id ops s :
  Forall (fun o => ~ creates_hash (HashAPIKey k) o /\ ~ creates_id id o) ops ->
  issued k id s -> issued k id (run ops s).
Proof.
  intros F. revert s. induction F as [|o ops [Ho Hi] F IH]; intros s R; [done|].
  apply IH. by apply issued_op.
Qed.

Lemma issued_create rb ib a now s :
  issued (raw_key rb) (key_id ib) (snd (CreateKey (Ok rb) ib a now s)).
Proof.
  eexists _, _. simpl. rewrite !lookup_insert_eq. split_and!; done.
Qed.

Lemma issued_revoke k id s :
  issued k id s -> revoked_hash (HashAPIKey k) (snd (RevokeKey id s)).
Proof.
  intros (p & r & E1 & E2 & E3 & E4). unfold RevokeKey. rewrite E2. simpl.
  exists p, (set_revoked r). simpl. split_and!; auto. by rewrite lookup_alter_eq, E3.
Qed.

(** ** Theorems *)

(** A key just created authenticates as its owner with its scopes and
    roles, at any time up to its expiry included, and is refused as expired
    after it; a zero ttl never expires and a negative ttl is already expired. *)
Theorem create_then_validate rb ib a now now' s :
  let '(r, s') := CreateKey (Ok rb) ib a now s in
  exists ptr, r = Ok (raw_key rb, ptr) /\
  validate_at now' s' (raw_key rb) =
    if bool_decide (ka_ttl a <> 0) && bool_decide (now + ka_ttl a < now')
    then Err ErrAPIKeyExpired
    else Ok (record_principal (new_record (raw_key rb) (key_id ib) a now) (raw_key rb)).
Proof.
  unfold CreateKey, validate_at, ValidateKey. eexists. split; [done|].
  rewrite bool_decide_false by apply raw_key_nonempty. unfold Lookup, new_record.
  generalize (HashAPIKey (raw_key rb)). intros h. cbn [records heap].
  rewrite lookup_insert_eq. cbn [mbind option_bind]. rewrite lookup_insert_eq.
  cbn [rec_KeyHash rec_Revoked rec_ExpiresAt]. rewrite bool_decide_true by done. simpl.
  by repeat case_bool_decide.
Qed.

(** C12: Revocation is permanent: after any history, a key issued and then
    revoked by its ID is refused as revoked for ever, whatever keys are
    created or revoked before, in between and afterwards, provided no later
    key has the same digest or, before the revocation, the same ID. *)
Theorem revoke_permanent ops0 rb ib a now ops1 ops2 now' :
  Forall (fun o => ~ creates_hash (HashAPIKey (raw_key rb)) o /\ ~ creates_id (key_id ib) o) ops1 ->
  Forall (fun o => ~ creates_hash (HashAPIKey (raw_key rb)) o) ops2 ->
  let ops := ops0 ++ [OCreate (Ok rb) ib a now] ++ ops1 ++ [ORevoke (key_id ib)] ++ ops2 in
  validate_at now' (run ops NewMemoryAPIKeyStore) (raw_key rb) = Err ErrAPIKeyRevoked.
Proof.
  intros F1 F2 ops. apply validate_revoked; [apply raw_key_nonempty|]. subst ops.
  rewrite !run_app. apply revoked_hash_run; [done|]. apply issued_revoke.
  apply issued_run; [done|]. apply issued_create.
Qed.

(** C13: In every reachable store, a key validates only if a record with its
    own digest is stored, not revoked and not past its expiry, and the
    principal carries exactly that record's data. *)
Theorem validate_sound ops now k p :
  validate_at now (run ops NewMemoryAPIKeyStore) k = Ok p ->
  exists ptr r, records (run ops NewMemoryAPIKeyStore) !! HashAPIKey k = Some ptr /\
    heap (run ops NewMemoryAPIKeyStore) !! ptr = Some r /\
    rec_KeyHash r = HashAPIKey k /\ rec_Revoked r = false /\
    (forall e, rec_ExpiresAt r = Some e -> now <= e) /\ p = record_principal r k.
Proof.
  set (s := run ops NewMemoryAPIKeyStore). unfold validate_at, ValidateKey.
  case_bool_decide; [done|]. unfold Lookup.
  destruct (records s !! HashAPIKey k) as [ptr|] eqn:E1; simpl; [|done].
  destruct (heap s !! ptr) as [r|] eqn:E2; [|done].
  case_bool_decide; simpl; [|done]. destruct (rec_Revoked r) eqn:E3; [done|].
  intros Hp. exists ptr, r. split_and!; try done.
  - intros e Ee. rewrite Ee in Hp. case_bool_decide; [done|lia].
  - by repeat case_match; simplify_eq.
Qed.

(** ** Concrete keys *)
Definition args0 : key_args :=
  {| ka_ownerID := "u1"; ka_clientID := "c1"; ka_name := "ci"; ka_scopes := ["read"];
     ka_roles := []; ka_ttl := 3600 |}.
Definition rb0 : list Z := repeat 7 32.
Definition ib0 : list Z := repeat 1 8.

Lemma revoke_permanent_witness :
  validate_at 100 (run ([] ++ [OCreate (Ok rb0) ib0 args0 0] ++ [OCreate (Ok (repeat 8 32)) (repeat 2 8) args0 1]
                        ++ [ORevoke (key_id ib0)] ++ [ORevoke (key_id (repeat 2 8))])
                   NewMemoryAPIKeyStore) (raw_key rb0) = Err ErrAPIKeyRevoked.
Proof.
  apply revoke_permanent.
  - constructor; [|constructor]. split; simpl.
    + vm_compute. discriminate.
    + vm_compute. discriminate.
  - constructor; [|constructor]. simpl. tauto.
Defined.

Lemma validate_sound_witness :
  exists ptr r, records (run [OCreate (Ok rb0) ib0 args0 0] NewMemoryAPIKeyStore)
                  !! HashAPIKey (raw_key rb0) = Some ptr /\
    heap (run [OCreate (Ok rb0) ib0 args0 0] NewMemoryAPIKeyStore) !! ptr = Some r /\
    rec_KeyHash r = HashAPIKey (raw_key rb0) /\ rec_Revoked r = false /\
    (forall e, rec_ExpiresAt r = Some e -> 100 <= e) /\
    record_principal (new_record (raw_key rb0) (key_id ib0) args0 0) (raw_key rb0)
      = record_principal r (raw_key rb0).
Proof.
  apply (validate_sound [OCreate (Ok rb0) ib0 args0 0] 100 (raw_key rb0)).
  vm_compute. reflexivity.
Defined.
