(* ===== verification/Claims.v ===== *)
(** * Claims normalisation and token validation: [authn/normalizer.go],
    [authn/jwt_validator.go], [authn/oidc_validator.go]

    Parsing and signature checking are done by golang-jwt and go-oidc, which
    are parameters: [JwtLib] for the accessors of [jwt.MapClaims] and
    [jwt.ParseWithClaims], [OidcLib] for the verifier.  Everything the package
    does with the resulting claims is modelled. *)
From S2P Require Import Prelude GoStrings Principal Extractor.

Local Open Scope string_scope.
Local Open Scope list_scope.

(** ** Data *)
Abbreviation MapClaims := (gmap string any).

(** The sentinel errors of golang-jwt the validator distinguishes. *)
Inductive jwt_sentinel : Type :=
| JErrTokenExpired | JErrTokenNotValidYet | JErrTokenInvalidIssuer | JErrTokenInvalidAudience.

#[global] Instance jwt_sentinel_eq_dec : EqDecision jwt_sentinel.
Proof. solve_decision. Defined.

Record jwt_err : Type := { jwt_chain : list jwt_sentinel; jwt_text : string }.

(** [[]jwt.ParserOption] *)
Inductive ParserOption : Type :=
| WithLeeway (d : Z)
| WithValidMethods (algs : list string)
| WithIssuer (iss : string)
| WithAudience (aud : string).

(** golang-jwt: accessors of [MapClaims] ([None] for nil or an error) and the
    parser, given the key function [K]: claims and [Token.Valid]. *)
Class JwtLib (K : Type) := {
  GetIssuedAt : MapClaims -> option Z;
  GetExpirationTime : MapClaims -> option Z;
  GetIssuer : MapClaims -> string;
  GetAudience : MapClaims -> list string;
  ParseWithClaims : string -> K -> list ParserOption -> res jwt_err (MapClaims * bool)
}.

(** ** Extraction from claims *)

(** [claims[k].(string)], empty when absent or of another type. *)
Definition claim_str (claims : MapClaims) (k : string) : string :=
  default "" (claims !! k ≫= as_string).

Definition extractClientID (claims : MapClaims) : string :=
  if bool_decide (claim_str claims "client_id" <> "") then claim_str claims "client_id"
  else if bool_decide (claim_str claims "azp" <> "") then claim_str claims "azp"
  else if bool_decide (claim_str claims "cid" <> "") then claim_str claims "cid"
  else "".

(** The strings of a slice that are not blank, trimmed. *)
Definition trimmed_items (l : list any) : list string :=
  omap (fun item =>
    match item with
    | AString s => if bool_decide (TrimSpace s <> "") then Some (TrimSpace s) else None
    | _ => None
    end) l.

Definition scope_words (val : string) : list string :=
  omap (fun s => let s := TrimSpace s in if bool_decide (s <> "") then Some s else None)
       (Split " " val).

Definition extractScopes (claims : MapClaims) : list string :=
  let scopes :=
    match claims !! "scope" with
    | Some (AString val) => scope_words val
    | Some (ASlice val) => trimmed_items val
    | _ => []
    end in
  if (length scopes =? 0)%nat then
    match claims !! "scp" with
    | Some (ASlice scpSlice) => trimmed_items scpSlice
    | _ => []
    end
  else scopes.

Definition extractFromSlice (val : any) : list string :=
  match val with
  | ASlice slice => trimmed_items slice
  | AStrings slice => slice
  | _ => []
  end.

Definition extractRoles (claims : MapClaims) : list string :=
  let from k m := match m !! k with Some v => extractFromSlice v | None => [] end in
  let roles := from "roles" claims in
  let roles := if (length roles =? 0)%nat then from "permissions" claims else roles in
  if (length roles =? 0)%nat then
    match claims !! "realm_access" with
    | Some (AMap ra) => from "roles" ra
    | _ => []
    end
  else roles.

(** The first [amr] entry that decides the flow. *)
Fixpoint amr_flow (l : list any) : option string :=
  match l with
  | [] => None
  | AString s :: l' =>
      let sLower := ToLower s in
      if bool_decide (sLower = "pkce") then Some AuthMethodAuthCodePKCE
      else if Contains sLower "device" then Some AuthMethodDeviceFlow
      else amr_flow l'
  | _ :: l' => amr_flow l'
  end.

Definition grant_flow (grantType : string) : option string :=
  let g := ToLower grantType in
  if bool_decide (g ∈ ["client_credentials"; "client-credentials"])
  then Some AuthMethodClientCredentials
  else if bool_decide (g ∈ ["urn:ietf:params:oauth:grant-type:device_code"; "device_code"; "device"])
  then Some AuthMethodDeviceFlow
  else if bool_decide (g ∈ ["authorization_code"; "auth_code"; "pkce"])
  then Some AuthMethodAuthCodePKCE
  else None.

Definition grant_type (claims : MapClaims) : string :=
  if bool_decide (claim_str claims "gty" <> "") then claim_str claims "gty"
  else if bool_decide (claim_str claims "grant_type" <> "") then claim_str claims "grant_type"
  else "".

Definition determineOAuthFlow (claims : MapClaims) (clientID sub : string) : string :=
  match grant_flow (grant_type claims) with
  | Some m => m
  | None =>
      match match claims !! "amr" with Some (ASlice l) => amr_flow l | _ => None end with
      | Some m => m
      | None =>
          if bool_decide (clientID <> "") &&
             (bool_decide (sub = clientID) || HasPrefix sub "service-account-"
              || HasPrefix sub "client-")
          then AuthMethodClientCredentials
          else if bool_decide (is_Some (claims !! "device_code")) then AuthMethodDeviceFlow
          else if bool_decide (sub <> "") then AuthMethodAuthCodePKCE
          else AuthMethodUnknown
      end
  end.

Definition standardClaims : list string :=
  ["iss"; "sub"; "aud"; "exp"; "nbf"; "iat"; "jti"; "scope"; "scp"; "roles"; "permissions"].

Definition filterStandardClaims (claims : MapClaims) : gmap string any :=
  filter (fun kv => kv.1 ∉ standardClaims) claims.

(** ** Normalizers *)
Section normalizers.
Context {K : Type} {jwt : JwtLib K}.

(** [StandardOIDCNormalizer.Normalize] *)
Definition Standard_Normalize (claims : MapClaims) (rawToken : string) : res sentinel Principal :=
  let sub := claim_str claims "sub" in
  if bool_decide (sub = "") then Err ErrMissingSubject else
  let clientID := extractClientID claims in
  Ok {| Subject := sub; ClientID := clientID; Method := determineOAuthFlow claims clientID sub;
        Scopes := extractScopes claims; Roles := extractRoles claims;
        Issuer := GetIssuer claims; Audiences := GetAudience claims;
        IssuedAt := GetIssuedAt claims; ExpiresAt := GetExpirationTime claims;
        Metadata := filterStandardClaims claims; RawToken := rawToken |}.

(** The loop over [cognito:groups]; [seen] is [existingRoles]. *)
Fixpoint add_groups (groups : list any) (seen : gset string) (roles : list string) : list string :=
  match groups with
  | [] => roles
  | AString g :: groups' =>
      if bool_decide (g <> "") && negb (bool_decide (ToLower g ∈ seen))
      then add_groups groups' ({[ToLower g]} ∪ seen) (roles ++ [g])
      else add_groups groups' seen roles
  | _ :: groups' => add_groups groups' seen roles
  end.

Definition cognito_roles (claims : MapClaims) (roles : list string) : list string :=
  match claims !! "cognito:groups" with
  | Some (ASlice groups) => add_groups groups (list_to_set (map ToLower roles)) roles
  | _ => roles
  end.

Definition cognito_client (claims : MapClaims) (clientID : string) (auds : list string) : string :=
  if bool_decide (clientID = "") then
    if bool_decide (claim_str claims "client_id" <> "") then claim_str claims "client_id"
    else if bool_decide (claim_str claims "token_use" = "id")
    then match auds with a :: _ => a | [] => clientID end
    else clientID
  else clientID.

Definition cognito_metadata (claims : MapClaims) (m : gmap string any) : gmap string any :=
  let m :=
    match claims !! "identities" with
    | Some (ASlice (AMap firstId :: _)) =>
        match firstId !! "providerName" with
        | Some (AString providerName) =>
            let m := <["federated_provider" := AString providerName]> m in
            if EqualFold providerName "Google" || Contains (ToLower providerName) "saml"
            then <["auth_origin" := AString "google_saml"]> m else m
        | _ => m
        end
    | _ => m
    end in
  if bool_decide (claim_str claims "cognito:username" <> "")
  then <["cognito_username" := AString (claim_str claims "cognito:username")]> m else m.

(** [CognitoClaimsNormalizer.Normalize] *)
Definition Cognito_Normalize (claims : MapClaims) (rawToken : string) : res sentinel Principal :=
  let? p := Standard_Normalize claims rawToken in
  Ok {| Subject := Subject p; ClientID := cognito_client claims (ClientID p) (Audiences p);
        Method := Method p; Scopes := Scopes p; Roles := cognito_roles claims (Roles p);
        Issuer := Issuer p; Audiences := Audiences p; IssuedAt := IssuedAt p;
        ExpiresAt := ExpiresAt p; Metadata := cognito_metadata claims (Metadata p);
        RawToken := RawToken p |}.

(** ** Validators *)
Definition Normalizer : Type := MapClaims -> string -> res authn_err Principal.

Definition lift_sentinel (n : MapClaims -> string -> res sentinel Principal) : Normalizer :=
  fun c t => match n c t with Ok p => Ok p | Err s => Err (plain_err s) end.

(** The normalizers the packages construct. *)
Definition NewStandardOIDCNormalizer : Normalizer := lift_sentinel Standard_Normalize.
Definition NewCognitoClaimsNormalizer : Normalizer := lift_sentinel Cognito_Normalize.

Record JWTValidatorConfig : Type := {
  KeyFunc : option K;
  ExpectedIssuer : string;
  ExpectedAudience : string;
  AllowedSigningAlgs : list string;
  ClockSkewTolerance : Z;
  cfg_Normalizer : option Normalizer
}.

Record JWTValidator : Type := {
  jv_key : K;
  jv_issuer : string;
  jv_audience : string;
  jv_algs : list string;
  jv_skew : Z;
  jv_normalizer : Normalizer
}.

Definition NewJWTValidator (cfg : JWTValidatorConfig) : res sentinel JWTValidator :=
  match KeyFunc cfg with
  | None => Err ErrUnsupportedKeyFunc
  | Some k =>
      Ok {| jv_key := k; jv_issuer := ExpectedIssuer cfg; jv_audience := ExpectedAudience cfg;
            jv_algs := AllowedSigningAlgs cfg;
            jv_skew := if bool_decide (ClockSkewTolerance cfg = 0)%Z then 60000000000%Z
                       else ClockSkewTolerance cfg;
            jv_normalizer := default NewStandardOIDCNormalizer (cfg_Normalizer cfg) |}
  end.

Definition parserOpts (v : JWTValidator) : list ParserOption :=
  [WithLeeway (jv_skew v)]
  ++ (if (0 <? length (jv_algs v))%nat then [WithValidMethods (jv_algs v)] else [])
  ++ (if bool_decide (jv_issuer v <> "") then [WithIssuer (jv_issuer v)] else [])
  ++ (if bool_decide (jv_audience v <> "") then [WithAudience (jv_audience v)] else []).

Definition jwt_Is (e : jwt_err) (s : jwt_sentinel) : bool := bool_decide (s ∈ jwt_chain e).

(** The translation of a parser error, most specific first. *)
Definition map_jwt_err (e : jwt_err) : authn_err :=
  if jwt_Is e JErrTokenExpired then plain_err ErrTokenExpired
  else if jwt_Is e JErrTokenNotValidYet then plain_err ErrTokenNotYetValid
  else if jwt_Is e JErrTokenInvalidIssuer then plain_err ErrInvalidIssuer
  else if jwt_Is e JErrTokenInvalidAudience then plain_err ErrInvalidAudience
  else wrap_err ErrInvalidToken (jwt_text e).

Definition mapClaimsToPrincipal (v : JWTValidator) (claims : MapClaims) (rawToken : string)
  : res authn_err Principal := jv_normalizer v claims rawToken.

(** [JWTValidator.ValidateToken] *)
Definition JWT_ValidateToken (v : JWTValidator) (tokenStr : string) : res authn_err Principal :=
  match ParseWithClaims tokenStr (jv_key v) (parserOpts v) with
  | Err e => Err (map_jwt_err e)
  | Ok (claims, valid) =>
      if negb valid then Err (plain_err ErrInvalidToken) else jv_normalizer v claims tokenStr
  end.

(** [*oidc.IDTokenVerifier] as its [Verify] followed by [IDToken.Claims],
    [oidc.Config], and [*oidc.Provider] as its [Verifier] method. *)
Definition Verifier : Type := string -> res string (res string MapClaims).

Record oidc_Config : Type := {
  oc_ClientID : string;
  oc_SupportedSigningAlgs : list string;
  oc_SkipClientIDCheck : bool
}.

Definition oidc_Provider : Type := oidc_Config -> Verifier.

(** The provider is nil without discovery. *)
Record OIDCValidator : Type := {
  ov_provider : option oidc_Provider;
  verify : Verifier;
  ov_normalizer : Normalizer
}.

Record OIDCValidatorConfig : Type := {
  IssuerURL : string;
  ExpectedClientID : string;
  SkipClientIDCheck : bool;
  SupportedSigningAlgs : list string;
  ocfg_Normalizer : option Normalizer;
  CustomKeySetURL : string
}.

(** go-oidc: [NewVerifier] of an issuer on the remote key set of a URL, and
    discovery. *)
Record OidcLib : Type := {
  oidc_NewVerifier : string -> string -> oidc_Config -> Verifier;
  oidc_NewProvider : string -> res string oidc_Provider
}.

Definition oidcConfig (cfg : OIDCValidatorConfig) : oidc_Config :=
  {| oc_ClientID := ExpectedClientID cfg;
     oc_SupportedSigningAlgs := if (length (SupportedSigningAlgs cfg) =? 0)%nat then ["RS256"]
                                else SupportedSigningAlgs cfg;
     oc_SkipClientIDCheck := SkipClientIDCheck cfg || bool_decide (ExpectedClientID cfg = "") |}.

Definition NewOIDCValidator (lib : OidcLib) (cfg : OIDCValidatorConfig)
  : res authn_err OIDCValidator :=
  if bool_decide (IssuerURL cfg = "") && bool_decide (CustomKeySetURL cfg = "")
  then Err (opaque_err "authn: either IssuerURL or CustomKeySetURL must be specified") else
  let norm := default NewCognitoClaimsNormalizer (ocfg_Normalizer cfg) in
  if bool_decide (CustomKeySetURL cfg <> "") then
    Ok {| ov_provider := None;
          verify := oidc_NewVerifier lib (IssuerURL cfg) (CustomKeySetURL cfg) (oidcConfig cfg);
          ov_normalizer := norm |}
  else
    match oidc_NewProvider lib (IssuerURL cfg) with
    | Err e => Err (wrap_err ErrOIDCProviderInit e)
    | Ok p => Ok {| ov_provider := Some p; verify := p (oidcConfig cfg); ov_normalizer := norm |}
    end.

(** [OIDCValidator.ValidateToken] *)
Definition OIDC_ValidateToken (v : OIDCValidator) (tokenStr : string) : res authn_err Principal :=
  match verify v tokenStr with
  | Err e => Err (wrap_err ErrInvalidToken e)
  | Ok (Err e) => Err (wrap_err ErrInvalidToken ("failed unmarshaling claims: " +:+ e))
  | Ok (Ok claims) => ov_normalizer v claims tokenStr
  end.

(** [OIDCValidator.Provider] *)
Definition OIDC_Provider (v : OIDCValidator) : option oidc_Provider := ov_provider v.

End normalizers.
Arguments JWTValidator : clear implicits.
Arguments JWTValidatorConfig : clear implicits.

(** ** Lemmas *)
(** The words of a joined scope string. *)
Lemma scope_words_Join l :
  Forall (fun w => no_char " " w = true /\ trimmed w /\ w <> "") l -> l <> [] ->
  scope_words (Join l " ") = l.
Proof.
  intros H Hne. unfold scope_words. rewrite Split_Join; [|done|].
  - clear Hne. induction H as [|w l (_ & Ht & Hw) H IH]; simpl; [done|].
    rewrite TrimSpace_id by done. rewrite bool_decide_true by done. simpl. f_equal. exact IH.
  - eapply Forall_impl; [exact H|]. naive_solver.
Qed.

(** ** What normalisation promises

    The rules below are read off the comments of the two normalizers and of
    [determineOAuthFlow]. *)

(** The first of the claims [ks] that is a non-empty string. *)
Definition first_claim (claims : MapClaims) (ks : list string) : string :=
  default "" (head (filter (fun s => s <> "") (map (claim_str claims) ks))).

(** [s] is a non-blank string of a slice, or a non-blank word of a text, trimmed. *)
Definition slice_item (v : any) (s : string) : Prop :=
  exists l x, v = ASlice l /\ AString x ∈ l /\ s = TrimSpace x /\ s <> "".
Definition word_item (v : any) (s : string) : Prop :=
  exists text x, v = AString text /\ x ∈ Split " " text /\ s = TrimSpace x /\ s <> "".

(** Scopes: those of [scope], and of [scp] if [scope] has none. *)
Definition scope_claim (claims : MapClaims) (s : string) : Prop :=
  exists v, claims !! "scope" = Some v /\ (word_item v s \/ slice_item v s).
Definition scope_granted (claims : MapClaims) (s : string) : Prop :=
  scope_claim claims s \/
  (forall s', ~ scope_claim claims s') /\ exists v, claims !! "scp" = Some v /\ slice_item v s.

(** Roles: those of [roles], else of [permissions], else of Keycloak's
    [realm_access.roles]. *)
Definition role_claim (m : MapClaims) (k s : string) : Prop :=
  exists v, m !! k = Some v /\ (slice_item v s \/ exists l, v = AStrings l /\ s ∈ l).
Definition no_role (m : MapClaims) (k : string) : Prop := forall s, ~ role_claim m k s.
Definition role_granted (claims : MapClaims) (s : string) : Prop :=
  role_claim claims "roles" s \/
  no_role claims "roles" /\ role_claim claims "permissions" s \/
  no_role claims "roles" /\ no_role claims "permissions" /\
    exists ra, claims !! "realm_access" = Some (AMap ra) /\ role_claim ra "roles" s.

(** The flow a grant type names, and the one an [amr] entry names. *)
Definition grant_names : list (string * string) :=
  [("client_credentials", AuthMethodClientCredentials);
   ("client-credentials", AuthMethodClientCredentials);
   ("urn:ietf:params:oauth:grant-type:device_code", AuthMethodDeviceFlow);
   ("device_code", AuthMethodDeviceFlow); ("device", AuthMethodDeviceFlow);
   ("authorization_code", AuthMethodAuthCodePKCE); ("auth_code", AuthMethodAuthCodePKCE);
   ("pkce", AuthMethodAuthCodePKCE)].
Definition grant_named (claims : MapClaims) (m : string) : Prop :=
  (ToLower (first_claim claims ["gty"; "grant_type"]), m) ∈ grant_names.
Definition amr_mark (v : any) (m : string) : Prop :=
  exists s, v = AString s /\
    (ToLower s = "pkce" /\ m = AuthMethodAuthCodePKCE \/
     ToLower s <> "pkce" /\ Contains (ToLower s) "device" = true /\ m = AuthMethodDeviceFlow).
Definition amr_named (claims : MapClaims) (m : string) : Prop :=
  exists before v after, claims !! "amr" = Some (ASlice (before ++ v :: after)) /\
    (forall x m', x ∈ before -> ~ amr_mark x m') /\ amr_mark v m.

(** A subject that is the client itself or a service account. *)
Definition machine_subject (cid sub : string) : Prop :=
  cid <> "" /\ (sub = cid \/ HasPrefix sub "service-account-" = true \/ HasPrefix sub "client-" = true).

(** The grant type decides, then [amr], then the subject, then [device_code];
    what is left is a user's authorization code. *)
Inductive oauth_flow (claims : MapClaims) (cid sub : string) : string -> Prop :=
| flow_grant m : grant_named claims m -> oauth_flow claims cid sub m
| flow_amr m :
    (forall m', ~ grant_named claims m') -> amr_named claims m -> oauth_flow claims cid sub m
| flow_machine :
    (forall m, ~ grant_named claims m) -> (forall m, ~ amr_named claims m) ->
    machine_subject cid sub -> oauth_flow claims cid sub AuthMethodClientCredentials
| flow_device :
    (forall m, ~ grant_named claims m) -> (forall m, ~ amr_named claims m) ->
    ~ machine_subject cid sub -> is_Some (claims !! "device_code") ->
    oauth_flow claims cid sub AuthMethodDeviceFlow
| flow_user :
    (forall m, ~ grant_named claims m) -> (forall m, ~ amr_named claims m) ->
    ~ machine_subject cid sub -> claims !! "device_code" = None ->
    oauth_flow claims cid sub AuthMethodAuthCodePKCE.

(** The claims that are not metadata. *)
Definition registered : list string :=
  ["iss"; "sub"; "aud"; "exp"; "nbf"; "iat"; "jti"; "scope"; "scp"; "roles"; "permissions"].

Lemma trimmed_items_spec l s : s ∈ trimmed_items l <-> slice_item (ASlice l) s.
Proof.
  unfold trimmed_items, slice_item. rewrite list_elem_of_omap. split.
  - intros (x & Hin & Hx). destruct x; try done. case_bool_decide; [|done]. injection Hx as <-. eauto 10.
  - intros (l' & x & [= <-] & Hin & -> & Hne). exists (AString x). by rewrite bool_decide_true.
Qed.

Lemma scope_words_spec text s : s ∈ scope_words text <-> word_item (AString text) s.
Proof.
  unfold scope_words, word_item. rewrite list_elem_of_omap. split.
  - intros (x & Hin & Hx). simpl in Hx. case_bool_decide; [|done]. injection Hx as <-. eauto 10.
  - intros (text' & x & [= <-] & Hin & -> & Hne). exists x. simpl. by rewrite bool_decide_true.
Qed.

(** A list is empty, or its elements are those of [P]. *)
Lemma first_source (l l' : list string) (P : string -> Prop) (Q : string -> Prop) :
  (forall s, s ∈ l <-> P s) -> (forall s, s ∈ l' <-> Q s) ->
  forall s, s ∈ (if (length l =? 0)%nat then l' else l) <-> P s \/ (forall s', ~ P s') /\ Q s.
Proof.
  intros HP HQ s. destruct l as [|x l]; simpl.
  - assert (Hn : forall s', ~ P s') by (intros s' Hs%HP; by apply not_elem_of_nil in Hs).
    rewrite HQ. naive_solver.
  - assert (P x) by (apply HP; left). rewrite HP. naive_solver.
Qed.

(** A claim of another form contributes nothing. *)
Ltac other_claim :=
  split; [intros Hnil; by apply not_elem_of_nil in Hnil|unfold word_item, slice_item; naive_solver].

Lemma extractScopes_spec claims s : s ∈ extractScopes claims <-> scope_granted claims s.
Proof.
  unfold extractScopes, scope_granted.
  apply (first_source _ _ (scope_claim claims) (fun s => exists v, claims !! "scp" = Some v /\ slice_item v s));
    intros s'.
  - unfold scope_claim. destruct (claims !! "scope") as [[]|]; try other_claim.
    + rewrite scope_words_spec. unfold slice_item. naive_solver.
    + rewrite trimmed_items_spec. unfold word_item. naive_solver.
  - destruct (claims !! "scp") as [[]|]; try other_claim. rewrite trimmed_items_spec. naive_solver.
Qed.

Lemma extractFromSlice_spec (m : MapClaims) k s :
  s ∈ (match m !! k with Some v => extractFromSlice v | None => [] end) <-> role_claim m k s.
Proof.
  unfold role_claim, extractFromSlice. destruct (m !! k) as [[]|]; try other_claim.
  - rewrite trimmed_items_spec. naive_solver.
  - unfold slice_item. naive_solver.
Qed.

Lemma extractRoles_spec claims s : s ∈ extractRoles claims <-> role_granted claims s.
Proof.
  unfold extractRoles. cbn zeta.
  rewrite (first_source _ _ (fun s => role_claim claims "roles" s \/ no_role claims "roles" /\ role_claim claims "permissions" s)
    (fun s => exists ra, claims !! "realm_access" = Some (AMap ra) /\ role_claim ra "roles" s)).
  - unfold role_granted, no_role. split; [|naive_solver]. intros [?|[Hn ?]]; [tauto|].
    right. right. split_and!; [naive_solver| |done]. intros s' Hs. apply (Hn s'). right. naive_solver.
  - intros s'. apply (first_source _ _ (role_claim claims "roles") (role_claim claims "permissions"));
      intros s''; apply extractFromSlice_spec.
  - intros s'. destruct (claims !! "realm_access") as [[]|]; try other_claim.
    rewrite extractFromSlice_spec. naive_solver.
Qed.

Lemma first_claim_cons claims k ks :
  first_claim claims (k :: ks) =
  if bool_decide (claim_str claims k <> "") then claim_str claims k else first_claim claims ks.
Proof. unfold first_claim. cbn [map]. rewrite filter_cons. by case_decide; case_bool_decide. Qed.

Lemma extractClientID_spec claims : extractClientID claims = first_claim claims ["client_id"; "azp"; "cid"].
Proof. unfold extractClientID. by rewrite !first_claim_cons. Qed.

Lemma grant_flow_spec claims m :
  grant_flow (grant_type claims) = Some m <-> grant_named claims m.
Proof.
  unfold grant_named. replace (first_claim claims ["gty"; "grant_type"]) with (grant_type claims)
    by (unfold grant_type; by rewrite !first_claim_cons).
  unfold grant_flow. generalize (ToLower (grant_type claims)). intros g. split.
  - intros H. repeat (case_bool_decide as Hg;
      [injection H as <-; repeat (apply elem_of_cons in Hg as [->|Hg];
         [apply (bool_decide_unpack _); vm_compute; exact I|]); by apply not_elem_of_nil in Hg|clear Hg]).
    done.
  - intros Hin. repeat (apply elem_of_cons in Hin as [[= -> ->]|Hin]; [vm_compute; reflexivity|]).
    by apply not_elem_of_nil in Hin.
Qed.

Lemma amr_flow_spec l m :
  amr_flow l = Some m <->
  exists before v after, l = before ++ v :: after /\
    (forall x m', x ∈ before -> ~ amr_mark x m') /\ amr_mark v m.
Proof.
  induction l as [|x l IH]; simpl.
  { split; [done|]. by intros ([|] & v & after & E & _). }
  assert (Hmark : forall m', (exists m'', amr_mark x m'') ->
    (exists before v after, x :: l = before ++ v :: after /\
      (forall y m'', y ∈ before -> ~ amr_mark y m'') /\ amr_mark v m') <-> amr_mark x m').
  { intros m' [m'' Hm]. split.
    - intros ([|y before] & v & after & [= <- E] & Hb & Hv); [done|]. destruct (Hb x m''); [left|done].
    - intros Hx. exists [], x, l. split_and!; [done| |done]. intros y m3 Hy. by apply not_elem_of_nil in Hy. }
  assert (Hskip : (forall m', ~ amr_mark x m') ->
    (exists before v after, x :: l = before ++ v :: after /\
      (forall y m', y ∈ before -> ~ amr_mark y m') /\ amr_mark v m) <-> amr_flow l = Some m).
  { intros Hx. rewrite IH. split.
    - intros ([|y before] & v & after & [= <- E] & Hb & Hv); [by destruct (Hx m)|].
      exists before, v, after. split_and!; [done| |done]. intros z m' Hz. apply Hb. by right.
    - intros (before & v & after & -> & Hb & Hv). exists (x :: before), v, after. split_and!; [done| |done].
      intros z m' [->|Hz]%elem_of_cons; [done|by apply Hb]. }
  destruct x; try (by rewrite Hskip by (intros m' (s & [=] & _))).
  case_bool_decide as Ep; 
    [rewrite Hmark by (unfold amr_mark; eauto 10); unfold amr_mark; split;
     [intros [= <-]; eauto 10|intros (s' & [= <-] & [[_ ->]|[? _]]); done]|].
  destruct (Contains (ToLower s) "device") eqn:Ed.
  - rewrite Hmark by (unfold amr_mark; eauto 10). unfold amr_mark. split.
    + intros [= <-]. eauto 10.
    + intros (s' & [= <-] & [[? _]|(_ & _ & ->)]); done.
  - rewrite Hskip; [done|]. intros m' (s' & [= <-] & [[? _]|(_ & ? & _)]); congruence.
Qed.

Lemma amr_named_spec claims m :
  match claims !! "amr" with Some (ASlice l) => amr_flow l | _ => None end = Some m <-> amr_named claims m.
Proof.
  unfold amr_named. destruct (claims !! "amr") as [[]|]; try (split; [done|]; by intros (? & ? & ? & [=] & _)).
  rewrite amr_flow_spec. split.
  - intros (b & v & a & -> & H). by exists b, v, a.
  - intros (b & v & a & [= ->] & H). by exists b, v, a.
Qed.

Lemma flow_spec claims cid sub : sub <> "" -> oauth_flow claims cid sub (determineOAuthFlow claims cid sub).
Proof.
  intros Hs. unfold determineOAuthFlow.
  destruct (grant_flow (grant_type claims)) as [m|] eqn:Eg; [by apply flow_grant, grant_flow_spec|].
  assert (Hg : forall m, ~ grant_named claims m) by (intros m Hm%grant_flow_spec; congruence).
  destruct (match claims !! "amr" with Some (ASlice l) => amr_flow l | _ => None end) as [m|] eqn:Ea;
    [by apply flow_amr, amr_named_spec|].
  assert (Ha : forall m, ~ amr_named claims m) by (intros m Hm%amr_named_spec; congruence).
  assert (Hm : (bool_decide (cid <> "") && (bool_decide (sub = cid) || HasPrefix sub "service-account-"
              || HasPrefix sub "client-")) = true <-> machine_subject cid sub).
  { unfold machine_subject. rewrite andb_true_iff, !orb_true_iff, !bool_decide_eq_true. tauto. }
  destruct (_ && _); [by apply flow_machine, Hm|].
  assert (Hn : ~ machine_subject cid sub) by (intros H%Hm; done).
  case_bool_decide as Ed; [by apply flow_device|].
  rewrite bool_decide_true by done. apply flow_user; [done..|]. by apply eq_None_not_Some.
Qed.

Lemma add_groups_spec groups seen roles :
  exists added, add_groups groups seen roles = roles ++ added /\ NoDup (map ToLower added) /\
    (forall g, g ∈ added -> ToLower g ∉ seen /\ AString g ∈ groups /\ g <> "") /\
    (forall g, AString g ∈ groups -> g <> "" -> ToLower g ∈ seen \/ ToLower g ∈ map ToLower added).
Proof.
  revert seen roles. induction groups as [|x groups IH]; intros seen roles.
  { exists []. rewrite app_nil_r. split_and!; [done|constructor|set_solver|set_solver]. }
  assert (Hskip : (forall g, x = AString g -> g <> "" -> ToLower g ∈ seen) ->
    add_groups (x :: groups) seen roles = add_groups groups seen roles ->
    exists added, add_groups (x :: groups) seen roles = roles ++ added /\ NoDup (map ToLower added) /\
    (forall g, g ∈ added -> ToLower g ∉ seen /\ AString g ∈ x :: groups /\ g <> "") /\
    (forall g, AString g ∈ x :: groups -> g <> "" -> ToLower g ∈ seen \/ ToLower g ∈ map ToLower added)).
  { intros Hx ->. destruct (IH seen roles) as (added & E & ND & H1 & H2). exists added.
    split_and!; [done|done| |].
    - intros g Hg. destruct (H1 g Hg) as (? & ? & ?). split_and!; [done|by right|done].
    - intros g [<-|Hin]%elem_of_cons Hne; [left; by apply Hx|by apply H2]. }
  destruct x; try (apply Hskip; [done|done]). simpl.
  destruct (decide (s = "")) as [->|Hs].
  { apply Hskip; [naive_solver|done]. }
  destruct (decide (ToLower s ∈ seen)) as [Hin|Hnin].
  { apply Hskip; [naive_solver|]. simpl. by rewrite (bool_decide_true (_ ∈ _)), andb_false_r. }
  rewrite bool_decide_true, bool_decide_false by done. simpl.
  destruct (IH ({[ToLower s]} ∪ seen) (roles ++ [s])) as (added & E & ND & H1 & H2).
  exists (s :: added). split_and!.
  - rewrite E. by rewrite <- app_assoc.
  - simpl. constructor; [|done]. intros (g & Eg & Hg)%list_elem_of_fmap.
    destruct (H1 g Hg) as [Hn _]. rewrite <- Eg in Hn. set_solver.
  - intros g [->|Hg]%elem_of_cons; [split_and!; [done|left|done]|].
    destruct (H1 g Hg) as (? & ? & ?). split_and!; [set_solver|by right|done].
  - intros g [[= ->]|Hin]%elem_of_cons Hne; [right; left|].
    destruct (H2 g Hin Hne); [|right; by right]. set_solver.
Qed.

Lemma HasRole_app p roles added r :
  Roles p = roles ++ added ->
  HasRole (Some p) r = true <->
    ToLower r ∈ map ToLower roles \/ ToLower r ∈ map ToLower added.
Proof.
  intros E. rewrite HasRole_spec. rewrite E. setoid_rewrite elem_of_app.
  rewrite !list_elem_of_fmap. naive_solver.
Qed.

Section theorems.
Context {K : Type} {jwt : JwtLib K}.

(** What both normalizers make of the claims. *)
Record normalized (claims : MapClaims) (raw : string) (p : Principal) : Prop := {
  n_subject : claims !! "sub" = Some (AString (Subject p)) /\ Subject p <> "";
  n_client : ClientID p = first_claim claims ["client_id"; "azp"; "cid"];
  n_method : oauth_flow claims (ClientID p) (Subject p) (Method p);
  n_scopes : forall s, s ∈ Scopes p <-> scope_granted claims s;
  n_roles : forall r, r ∈ Roles p <-> role_granted claims r;
  n_metadata : forall k, Metadata p !! k = if decide (k ∈ registered) then None else claims !! k;
  n_library : Issuer p = GetIssuer claims /\ Audiences p = GetAudience claims /\
              IssuedAt p = GetIssuedAt claims /\ ExpiresAt p = GetExpirationTime claims;
  n_raw : RawToken p = raw
}.

(** The provider that federated a Cognito user: that of the first identity. *)
Definition federated (claims : MapClaims) : option string :=
  match claims !! "identities" with
  | Some (ASlice (AMap first :: _)) => first !! "providerName" ≫= as_string
  | _ => None
  end.

(** What Cognito's groups, client, identities and user name add to [p]. *)
Record cognito_adds (claims : MapClaims) (p q : Principal) : Prop := {
  ca_same : Subject q = Subject p /\ Method q = Method p /\ Scopes q = Scopes p /\
            Issuer q = Issuer p /\ Audiences q = Audiences p /\ IssuedAt q = IssuedAt p /\
            ExpiresAt q = ExpiresAt p /\ RawToken q = RawToken p;
  ca_client : ClientID q =
    if decide (ClientID p = "" /\ claim_str claims "token_use" = "id")
    then default "" (head (Audiences p)) else ClientID p;
  ca_roles : Roles p `prefix_of` Roles q /\ forall r, HasRole (Some q) r = true <->
    HasRole (Some p) r = true \/
    exists groups g, claims !! "cognito:groups" = Some (ASlice groups) /\ AString g ∈ groups /\
      g <> "" /\ ToLower g = ToLower r;
  ca_provider : Metadata q !! "federated_provider" =
    match federated claims with Some name => Some (AString name) | None => Metadata p !! "federated_provider" end;
  ca_origin : Metadata q !! "auth_origin" =
    match federated claims with
    | Some name => if EqualFold name "Google" || Contains (ToLower name) "saml"
                   then Some (AString "google_saml") else Metadata p !! "auth_origin"
    | None => Metadata p !! "auth_origin"
    end;
  ca_username : Metadata q !! "cognito_username" =
    if decide (claim_str claims "cognito:username" = "") then Metadata p !! "cognito_username"
    else Some (AString (claim_str claims "cognito:username"));
  ca_metadata : forall k, k ∉ ["federated_provider"; "auth_origin"; "cognito_username"] ->
    Metadata q !! k = Metadata p !! k
}.

Lemma claim_str_Some claims k : claim_str claims k <> "" -> claims !! k = Some (AString (claim_str claims k)).
Proof. unfold claim_str. destruct (claims !! k) as [[]|]; simpl; done. Qed.

Lemma standard_normalized claims raw p : Standard_Normalize claims raw = Ok p -> normalized claims raw p.
Proof.
  unfold Standard_Normalize. case_bool_decide as Hs; [done|]. intros [= <-]. split; simpl.
  - by split; [apply claim_str_Some|].
  - apply extractClientID_spec.
  - by apply flow_spec.
  - apply extractScopes_spec.
  - apply extractRoles_spec.
  - intros k. unfold filterStandardClaims. rewrite map_lookup_filter. change standardClaims with registered.
    destruct (claims !! k) as [v|]; simpl; [|by case_decide]. by case_guard; case_decide.
  - done.
  - done.
Qed.

(** Cognito groups become roles: the principal has a role exactly when the
    token's own roles or its non-empty groups contain it up to case; the
    standard roles come first and unchanged, and no group is added twice up to
    case. *)
Theorem cognito_groups_are_roles claims raw p q groups :
  Standard_Normalize claims raw = Ok p -> Cognito_Normalize claims raw = Ok q ->
  claims !! "cognito:groups" = Some (ASlice groups) ->
  (forall r, HasRole (Some q) r = true <->
     HasRole (Some p) r = true \/ exists g, AString g ∈ groups /\ g <> "" /\ ToLower g = ToLower r) /\
  exists added, Roles q = Roles p ++ added /\ NoDup (map ToLower added) /\
    (forall g, g ∈ added -> HasRole (Some p) g = false).
Proof.
  intros Hp Hq Hg. unfold Cognito_Normalize in Hq. rewrite Hp in Hq. injection Hq as <-.
  unfold cognito_roles. rewrite Hg.
  destruct (add_groups_spec groups (list_to_set (map ToLower (Roles p))) (Roles p))
    as (added & E & ND & H1 & H2). split.
  - intros r. rewrite (HasRole_app _ (Roles p) added) by (simpl; done).
    rewrite (HasRole_app p (Roles p) []) by (by rewrite app_nil_r). split.
    + intros [?|(g & Eg & Hin)%list_elem_of_fmap]; [auto|].
      destruct (H1 g Hin) as (_ & ? & ?). eauto.
    + intros [[?|?]|(g & Hin & Hne & <-)]; [auto|set_solver|].
      destruct (H2 g Hin Hne) as [?|?]; [|auto]. left. by apply elem_of_list_to_set in H.
  - exists added. split_and!; [done|done|]. intros g Hin. apply not_true_is_false. intros Hr.
    destruct (H1 g Hin) as (Hn & _). apply Hn. apply elem_of_list_to_set.
    apply (HasRole_app p (Roles p) []) in Hr; [|by rewrite app_nil_r]. set_solver.
Qed.

(** The metadata Cognito adds, key by key. *)
Lemma cognito_metadata_spec claims m :
  cognito_metadata claims m =
  (if decide (claim_str claims "cognito:username" = "") then id
   else <["cognito_username" := AString (claim_str claims "cognito:username")]>)
  match federated claims with
  | Some name =>
      (if EqualFold name "Google" || Contains (ToLower name) "saml"
       then <["auth_origin" := AString "google_saml"]> else id)
      (<["federated_provider" := AString name]> m)
  | None => m
  end.
Proof.
  unfold cognito_metadata, federated. generalize (claim_str claims "cognito:username"). intros u.
  destruct (claims !! "identities") as [[| | | | | | |l| | |]|]; try (by case_bool_decide; case_decide).
  destruct l as [|[| | | | | | | | |first|] l]; try (by case_bool_decide; case_decide).
  destruct (first !! "providerName") as [[]|]; simpl; try (by case_bool_decide; case_decide).
  destruct (_ || _); by case_bool_decide; case_decide.
Qed.

Lemma cognito_normalized claims raw p q :
  Standard_Normalize claims raw = Ok p -> Cognito_Normalize claims raw = Ok q -> cognito_adds claims p q.
Proof.
  intros Hp Hq. pose proof (fun groups => cognito_groups_are_roles claims raw p q groups Hp Hq) as Hg.
  pose proof (standard_normalized _ _ _ Hp) as Hn. unfold Cognito_Normalize in Hq. rewrite Hp in Hq.
  injection Hq as <-. split; simpl; rewrite ?cognito_metadata_spec.
  - done.
  - unfold cognito_client. case_bool_decide as Ec.
    + assert (Hc : claim_str claims "client_id" = "").
      { apply n_client in Hn. rewrite Ec, first_claim_cons in Hn. case_bool_decide; [congruence|by first [done|apply dec_stable]]. }
      rewrite Hc. simpl. case_bool_decide as Et; case_decide as Ed; [|tauto|tauto|done].
      destruct (Audiences p); [done|done].
    + by rewrite decide_False by tauto.
  - unfold cognito_roles in *. destruct (claims !! "cognito:groups") as [[]|] eqn:Eg;
      try (split; [done|]; intros r; split; [by left|]; by intros [?|(? & ? & [=] & _)]).
    destruct (Hg l eq_refl) as [Hr (added & Ha & _)]. simpl in *.
    split; [by exists added|]. intros r. etrans; [apply Hr|]. split.
    + intros [?|(g & ?)]; [by left|right; by exists l, g].
    + intros [?|(l' & g & [= <-] & ?)]; [by left|right; by exists g].
  - repeat case_match; simpl; rewrite ?lookup_insert_ne by done; try done; by rewrite lookup_insert_eq.
  - repeat case_match; simpl; rewrite ?lookup_insert_ne by done; try done; rewrite ?lookup_insert_eq; try done;
      by rewrite lookup_insert_ne.
  - case_decide; [|by rewrite lookup_insert_eq]. unfold id.
    repeat case_match; simpl; by rewrite ?lookup_insert_ne by done.
  - intros k Hk. assert (Hne : k <> "federated_provider" /\ k <> "auth_origin" /\ k <> "cognito_username") by set_solver.
    destruct Hne as (? & ? & ?). repeat case_match; simpl; unfold id; by rewrite ?lookup_insert_ne by done.
Qed.

(** C14: Normalisation of verified claims: it fails for want of a subject
    exactly when [sub] is not a non-empty string.  Otherwise the standard
    principal has that subject, the first client claim, the flow the rules of
    [oauth_flow] give, exactly the scopes of [scope] (or else [scp]), exactly
    the roles of [roles], [permissions] or [realm_access], and all other claims
    as metadata; Cognito adds its groups as roles up to case, the audience of
    an id token as client, and the federation and user name as metadata, and
    changes nothing else. *)
Theorem normalize_principal claims raw :
  (claim_str claims "sub" = "" ->
     Standard_Normalize claims raw = Err ErrMissingSubject /\
     Cognito_Normalize claims raw = Err ErrMissingSubject) /\
  (claim_str claims "sub" <> "" -> exists p q,
     Standard_Normalize claims raw = Ok p /\ normalized claims raw p /\
     Cognito_Normalize claims raw = Ok q /\ cognito_adds claims p q).
Proof.
  split; intros Hs.
  - unfold Cognito_Normalize, Standard_Normalize. by rewrite bool_decide_true.
  - assert (exists p, Standard_Normalize claims raw = Ok p) as [p Hp]
      by (unfold Standard_Normalize; rewrite bool_decide_false by done; eauto).
    assert (exists q, Cognito_Normalize claims raw = Ok q) as [q Hq]
      by (unfold Cognito_Normalize; rewrite Hp; eauto).
    exists p, q. split_and!; [done|by apply standard_normalized|done|by eapply cognito_normalized].
Qed.

(** A scope claim written as the space-joined list of words is read back
    as that list. *)
Theorem scopes_roundtrip claims l :
  l <> [] -> Forall (fun w => no_char " " w = true /\ trimmed w /\ w <> "") l ->
  claims !! "scope" = Some (AString (Join l " ")) -> extractScopes claims = l.
Proof.
  intros Hne Hl Hc. unfold extractScopes. rewrite Hc, scope_words_Join by done. by destruct l.
Qed.

(** A JWT validator built by [NewJWTValidator] with the default normaliser
    accepts a token only if the parser accepted it as valid under the
    configured leeway, algorithms, issuer and audience, and then yields the
    normalised claims of that token; parser errors keep their kind. *)
Theorem jwt_validate cfg v t :
  NewJWTValidator cfg = Ok v -> cfg_Normalizer cfg = None ->
  (forall p, JWT_ValidateToken v t = Ok p <->
     exists claims, ParseWithClaims t (jv_key v) (parserOpts v) = Ok (claims, true) /\
       Standard_Normalize claims t = Ok p) /\
  (forall e, ParseWithClaims t (jv_key v) (parserOpts v) = Err e ->
     JWT_ValidateToken v t = Err (map_jwt_err e)) /\
  (ExpectedIssuer cfg <> "" -> WithIssuer (ExpectedIssuer cfg) ∈ parserOpts v) /\
  (ExpectedAudience cfg <> "" -> WithAudience (ExpectedAudience cfg) ∈ parserOpts v) /\
  (AllowedSigningAlgs cfg <> [] -> WithValidMethods (AllowedSigningAlgs cfg) ∈ parserOpts v).
Proof.
  unfold NewJWTValidator. destruct (KeyFunc cfg) as [k|]; [|done]. intros Hv Hn.
  rewrite Hn in Hv. injection Hv as <-. unfold JWT_ValidateToken. split_and!.
  - intros p. destruct (ParseWithClaims _ _ _) as [[claims valid]|e]; [|naive_solver].
    simpl. unfold NewStandardOIDCNormalizer, lift_sentinel. destruct valid; simpl; [|naive_solver].
    destruct (Standard_Normalize claims t) eqn:E; naive_solver congruence.
  - by intros e ->.
  - intros H. unfold parserOpts. simpl. rewrite (bool_decide_true (ExpectedIssuer cfg <> "")) by done. set_solver.
  - intros H. unfold parserOpts. simpl. rewrite (bool_decide_true (ExpectedAudience cfg <> "")) by done. set_solver.
  - intros H. unfold parserOpts. simpl. destruct (AllowedSigningAlgs cfg); [done|]. set_solver.
Qed.

End theorems.

(** ** A concrete library

    A parser that knows one token; the claim accessors read the claims. *)
Module ClaimsWitness.

Definition claims0 : MapClaims :=
  <["sub" := AString "user-1"]> (<["scope" := AString "read write"]>
  (<["roles" := ASlice [AString "Editor"]]>
  (<["cognito:groups" := ASlice [AString "Admins"; AString "editor"; AString "ADMINS"]]> ∅))).

#[local] Instance lib0 : JwtLib unit := {|
  GetIssuedAt _ := None; GetExpirationTime _ := None;
  GetIssuer c := claim_str c "iss"; GetAudience _ := [];
  ParseWithClaims t _ _ := if bool_decide (t = "tok") then Ok (claims0, true)
                           else Err {| jwt_chain := [JErrTokenExpired]; jwt_text := "expired" |} |}.

Definition cfg0 : JWTValidatorConfig unit :=
  {| KeyFunc := Some tt; ExpectedIssuer := "iss"; ExpectedAudience := "";
     AllowedSigningAlgs := ["RS256"]; ClockSkewTolerance := 0; cfg_Normalizer := None |}.

Definition ok_or {E A} (d : A) (r : res E A) : A := match r with Ok a => a | Err _ => d end.
Definition nobody : Principal :=
  {| Subject := ""; ClientID := ""; Method := ""; Scopes := []; Roles := []; Issuer := "";
     Audiences := []; IssuedAt := None; ExpiresAt := None; Metadata := ∅; RawToken := "" |}.

Definition p0 : Principal := ok_or nobody (Standard_Normalize claims0 "tok").
Definition q0 : Principal := ok_or nobody (Cognito_Normalize claims0 "tok").

Example q0_roles : Roles q0 = ["Editor"; "Admins"].
Proof. vm_compute. reflexivity. Qed.

Lemma cognito_groups_are_roles_witness :
  (forall r, HasRole (Some q0) r = true <->
     HasRole (Some p0) r = true \/
     exists g, AString g ∈ [AString "Admins"; AString "editor"; AString "ADMINS"] /\ g <> "" /\
               ToLower g = ToLower r) /\
  exists added, Roles q0 = Roles p0 ++ added /\ NoDup (map ToLower added) /\
    (forall g, g ∈ added -> HasRole (Some p0) g = false).
Proof. apply (cognito_groups_are_roles claims0 "tok"); vm_compute; reflexivity. Defined.

Lemma scopes_roundtrip_witness : extractScopes claims0 = ["read"; "write"].
Proof.
  apply scopes_roundtrip; [done| |vm_compute; reflexivity].
  apply Forall_cons_2; [|apply Forall_cons_2; [|apply Forall_nil_2]];
    (split; [reflexivity|split; [|discriminate]]);
    split; vm_compute; reflexivity.
Defined.

Definition v0 : JWTValidator unit :=
  {| jv_key := tt; jv_issuer := "iss"; jv_audience := ""; jv_algs := ["RS256"];
     jv_skew := 60000000000; jv_normalizer := lift_sentinel Standard_Normalize |}.

Lemma jwt_validate_witness :
  (forall p, JWT_ValidateToken v0 "tok" = Ok p <->
     exists claims, ParseWithClaims "tok" tt (parserOpts v0) = Ok (claims, true) /\
       Standard_Normalize claims "tok" = Ok p) /\
  (forall e, ParseWithClaims "tok" tt (parserOpts v0) = Err e ->
     JWT_ValidateToken v0 "tok" = Err (map_jwt_err e)) /\
  ("iss" <> "" -> WithIssuer "iss" ∈ parserOpts v0) /\
  ("" <> "" -> WithAudience "" ∈ parserOpts v0) /\
  (["RS256"] <> [] -> WithValidMethods ["RS256"] ∈ parserOpts v0).
Proof. apply (jwt_validate cfg0 v0 "tok"); reflexivity. Defined.

End ClaimsWitness.
