(* ===== verification/AuthnMiddleware.v ===== *)
(** * The authentication pipeline: [authn/authenticator.go],
    [authn/middleware.go], [authn/guards.go], [authn/builder.go]

    Validators and transformers are Go interfaces: functions that may return a
    nil principal.  Handlers are functions from the request to the calls they
    issue ([Gin]). *)
From S2P Require Import Prelude GoStrings Principal Gin Extractor Claims ApiKey.

Local Open Scope string_scope.
Local Open Scope Z_scope.
Local Open Scope list_scope.

(** ** The composite authenticator *)

(** [BearerTokenValidator], [KeyValidator]: the credential to a principal. *)
Abbreviation validator := (string -> res authn_err (option Principal)).
Abbreviation transformer := (option Principal -> res authn_err (option Principal)).

(** A function as a [ClaimsTransformer]. *)
Definition Transform (f : transformer) (principal : option Principal)
  : res authn_err (option Principal) := f principal.

Record CompositeAuthenticator : Type := {
  extractor : ExtractorConfig;
  bearerValidator : option validator;
  apiKeyValidator : option validator
}.

Record CompositeAuthenticatorConfig : Type := {
  cac_ExtractorConfig : ExtractorConfig;
  cac_BearerValidator : option validator;
  cac_JWTValidator : option validator;
  cac_APIKeyValidator : option validator
}.

Definition NewCompositeAuthenticator (cfg : CompositeAuthenticatorConfig) : CompositeAuthenticator :=
  {| extractor := NewCredentialExtractor (cac_ExtractorConfig cfg);
     bearerValidator := match cac_BearerValidator cfg with
                        | Some v => Some v
                        | None => cac_JWTValidator cfg
                        end;
     apiKeyValidator := cac_APIKeyValidator cfg |}.

(** The alias [var NewSchemeHandler]. *)
Definition NewSchemeHandler (cfg : CompositeAuthenticatorConfig) : CompositeAuthenticator :=
  NewCompositeAuthenticator cfg.

(** [Authenticator.Authenticate]. *)
Abbreviation Authenticator X := (request X -> res authn_err (option Principal)).

Definition Authenticate {X} (a : CompositeAuthenticator) : Authenticator X := fun c =>
  match Extract (extractor a) c with
  | Err s => Err (plain_err s)
  | Ok cred =>
      match cred_Type cred with
      | CredentialTypeBearer =>
          match bearerValidator a with
          | None => Err (wrap_err ErrAuthenticatorNotConfigured "bearer token validator not provided")
          | Some v => v (cred_Token cred)
          end
      | CredentialTypeAPIKey =>
          match apiKeyValidator a with
          | None => Err (wrap_err ErrAuthenticatorNotConfigured "api key validator not provided")
          | Some v => v (cred_Token cred)
          end
      end
  end.

(** ** The middleware *)
Definition DefaultContextKeyPrincipal : string := "authn.principal".
Definition DefaultRealm : string := "api".

Record MiddlewareConfig (X : Type) : Type := {
  contextKey : string;
  realm : string;
  errorHandler : option (request X -> authn_err -> Z -> list (call X));
  claimsTransformer : option transformer
}.
Arguments contextKey {X}. Arguments realm {X}.
Arguments errorHandler {X}. Arguments claimsTransformer {X}.

Section middleware.
Context {X : Type}.

Abbreviation Option_ := (MiddlewareConfig X -> MiddlewareConfig X).
Abbreviation handler := (request X -> list (call X)).

Definition WithContextKey (key : string) : Option_ := fun cfg =>
  if bool_decide (key <> "")
  then {| contextKey := key; realm := realm cfg; errorHandler := errorHandler cfg;
          claimsTransformer := claimsTransformer cfg |}
  else cfg.
Definition WithRealm (r : string) : Option_ := fun cfg =>
  if bool_decide (r <> "")
  then {| contextKey := contextKey cfg; realm := r; errorHandler := errorHandler cfg;
          claimsTransformer := claimsTransformer cfg |}
  else cfg.
Definition WithCustomErrorHandler (h : option (request X -> authn_err -> Z -> list (call X)))
  : Option_ := fun cfg =>
  {| contextKey := contextKey cfg; realm := realm cfg; errorHandler := h;
     claimsTransformer := claimsTransformer cfg |}.
Definition WithClaimsTransformer (t : option transformer) : Option_ := fun cfg =>
  {| contextKey := contextKey cfg; realm := realm cfg; errorHandler := errorHandler cfg;
     claimsTransformer := t |}.

(** [WithClaimsTransformation], the alias among the options. *)
Definition OptClaimsTransformation (t : option transformer) : Option_ := WithClaimsTransformer t.

Definition default_config : MiddlewareConfig X :=
  {| contextKey := DefaultContextKeyPrincipal; realm := DefaultRealm; errorHandler := None;
     claimsTransformer := None |}.

(** The error code and description of a failure. *)
Definition auth_error_code (err : authn_err) : string * string :=
  if errors_Is err ErrNoCredentialsFound then ("unauthorized", "No credentials provided")
  else if errors_Is err ErrTokenExpired || errors_Is err ErrAPIKeyExpired
  then ("invalid_token", "The credential has expired")
  else if errors_Is err ErrAPIKeyRevoked then ("invalid_token", "The API key has been revoked")
  else if errors_Is err ErrMultipleCredTypes
  then ("invalid_request", "Multiple conflicting authentication methods supplied")
  else if errors_Is err ErrInvalidHeader then ("invalid_request", "Malformed authorization header")
  else ("invalid_token", err_text err).

Definition bearer_challenge (r errCode errDesc : string) : string :=
  "Bearer realm=" +:+ quote r +:+ ", error=" +:+ quote errCode +:+
  ", error_description=" +:+ quote errDesc.

Definition error_body (errCode errDesc : string) : gin_H :=
  [("error", AString errCode); ("error_description", AString errDesc)].

Definition handleAuthError (c : request X) (err : authn_err) (cfg : MiddlewareConfig X)
  : list (call X) :=
  let '(errCode, errDesc) := auth_error_code err in
  Header "WWW-Authenticate" (bearer_challenge (realm cfg) errCode errDesc) ::
  match errorHandler cfg with
  | Some h => h c err StatusUnauthorized
  | None => [JSON StatusUnauthorized (error_body errCode errDesc)]
  end.

(** The handler [New] returns, under its final configuration. *)
Definition authn_handler (auth : Authenticator X) (cfg : MiddlewareConfig X) : handler := fun c =>
  match auth c with
  | Err err => handleAuthError c err cfg ++ [Abort]
  | Ok principal =>
      match match claimsTransformer cfg with
            | Some t => t principal
            | None => Ok principal
            end with
      | Err err => handleAuthError c err cfg ++ [Abort]
      | Ok principal => [Set_ (contextKey cfg) (VPrincipal principal); Next]
      end
  end.

(** [New]; a nil authenticator panics. *)
Definition New (auth : option (Authenticator X)) (opts : list Option_) : res string handler :=
  match auth with
  | None => Err "authn: authenticator cannot be nil"
  | Some auth => Ok (authn_handler auth (fold_left (fun cfg opt => opt cfg) opts default_config))
  end.

Definition UseAuthentication (auth : option (Authenticator X)) (opts : list Option_) : res string handler :=
  New auth opts.

Definition GetPrincipalWithKey (c : request X) (key : string) : option Principal * bool :=
  match rq_keys c !! key with
  | Some (VPrincipal p) => (p, true)
  | _ => (None, false)
  end.
Definition GetPrincipal (c : request X) : option Principal * bool :=
  GetPrincipalWithKey c DefaultContextKeyPrincipal.
Definition User (c : request X) : option Principal := fst (GetPrincipal c).

(** [MustUser] panics without a principal. *)
Definition MustUser (c : request X) : res string Principal :=
  match GetPrincipal c with
  | (Some p, true) => Ok p
  | _ => Err "authn: no Principal found in gin context. Ensure the authn middleware is configured on this route."
  end.

(** ** Guards *)
Definition unauthorized : list (call X) :=
  [AbortWithStatusJSON StatusUnauthorized (error_body "unauthorized" "Authentication required")].

Definition insufficient_scope_header (scopes : list string) : call X :=
  Header "WWW-Authenticate"
    ("Bearer error=" +:+ quote "insufficient_scope" +:+ ", scope=" +:+ quote (Join scopes " ")).

Definition RequireScope (requiredScopes : list string) : handler := fun c =>
  match User c with
  | None => unauthorized
  | Some user =>
      if negb (HasAllScopes (Some user) requiredScopes) then
        [insufficient_scope_header requiredScopes;
         AbortWithStatusJSON StatusForbidden
           (error_body "insufficient_scope"
              ("Requires all of the following scopes: " +:+ Join requiredScopes ", ")
            ++ [("missing_scopes", AStrings (getMissingScopes (Some user) requiredScopes))])]
      else [Next]
  end.

Definition RequireAnyScope (candidateScopes : list string) : handler := fun c =>
  match User c with
  | None => unauthorized
  | Some user =>
      if negb (HasAnyScope (Some user) candidateScopes) then
        [insufficient_scope_header candidateScopes;
         AbortWithStatusJSON StatusForbidden
           (error_body "insufficient_scope"
              ("Requires at least one of the following scopes: " +:+ Join candidateScopes ", "))]
      else [Next]
  end.

(** [allowedMap] is the set of allowed methods. *)
Definition RequireMethod (allowedMethods : list string) : handler := fun c =>
  match User c with
  | None => unauthorized
  | Some user =>
      if negb (bool_decide (Method user ∈ allowedMethods)) then
        [AbortWithStatusJSON StatusForbidden
           (error_body "disallowed_auth_flow"
              ("This endpoint requires authentication via [" +:+ Join allowedMethods ", " +:+
               "], but received [" +:+ Method user +:+ "]")
            ++ [("current_method", AString (Method user))])]
      else [Next]
  end.

Definition RequireUser : handler := RequireMethod [AuthMethodAuthCodePKCE; AuthMethodDeviceFlow].
Definition RequireM2M : handler := RequireMethod [AuthMethodClientCredentials; AuthMethodAPIKey].

(** The loop of [RequireRole]: the first missing role is reported. *)
Definition RequireRole (requiredRoles : list string) : handler := fun c =>
  match User c with
  | None => unauthorized
  | Some user =>
      match find (fun r => negb (HasRole (Some user) r)) requiredRoles with
      | Some r =>
          [AbortWithStatusJSON StatusForbidden
             (error_body "insufficient_role" ("Missing required role: " +:+ r))]
      | None => [Next]
      end
  end.

Definition RequireAnyRole (candidateRoles : list string) : handler := fun c =>
  match User c with
  | None => unauthorized
  | Some user =>
      if negb (HasAnyRole (Some user) candidateRoles) then
        [AbortWithStatusJSON StatusForbidden
           (error_body "insufficient_role"
              ("Requires at least one of the following roles: " +:+ Join candidateRoles ", "))]
      else [Next]
  end.

End middleware.

(** ** The builder *)
Record CognitoOptions : Type := {
  co_Region : string; co_UserPoolID : string; co_IssuerURL : string;
  co_CustomKeySetURL : string; co_ClientID : string
}.

Record AuthenticationBuilder (X : Type) : Type := {
  b_extractorConfig : option ExtractorConfig;
  b_bearerValidator : option validator;
  b_apiKeyValidator : option validator;
  b_claimsTransformer : option transformer;
  b_middlewareOptions : list (MiddlewareConfig X -> MiddlewareConfig X);
  b_err : option authn_err
}.
Arguments b_extractorConfig {X}. Arguments b_bearerValidator {X}.
Arguments b_apiKeyValidator {X}. Arguments b_claimsTransformer {X}.
Arguments b_middlewareOptions {X}. Arguments b_err {X}.

Section builder.
Context {X : Type}.
Abbreviation builder := (AuthenticationBuilder X).

Definition NewBuilder : builder :=
  {| b_extractorConfig := None; b_bearerValidator := None; b_apiKeyValidator := None;
     b_claimsTransformer := None; b_middlewareOptions := []; b_err := None |}.

Definition WithBearerValidator (v : option validator) (b : builder) : builder :=
  {| b_extractorConfig := b_extractorConfig b; b_bearerValidator := v;
     b_apiKeyValidator := b_apiKeyValidator b; b_claimsTransformer := b_claimsTransformer b;
     b_middlewareOptions := b_middlewareOptions b; b_err := b_err b |}.
Definition WithApiKeyValidator (v : option validator) (b : builder) : builder :=
  {| b_extractorConfig := b_extractorConfig b; b_bearerValidator := b_bearerValidator b;
     b_apiKeyValidator := v; b_claimsTransformer := b_claimsTransformer b;
     b_middlewareOptions := b_middlewareOptions b; b_err := b_err b |}.
Definition WithExtractorConfig (cfg : ExtractorConfig) (b : builder) : builder :=
  {| b_extractorConfig := Some cfg; b_bearerValidator := b_bearerValidator b;
     b_apiKeyValidator := b_apiKeyValidator b; b_claimsTransformer := b_claimsTransformer b;
     b_middlewareOptions := b_middlewareOptions b; b_err := b_err b |}.
Definition WithClaimsTransformation (t : option transformer) (b : builder) : builder :=
  {| b_extractorConfig := b_extractorConfig b; b_bearerValidator := b_bearerValidator b;
     b_apiKeyValidator := b_apiKeyValidator b; b_claimsTransformer := t;
     b_middlewareOptions := b_middlewareOptions b; b_err := b_err b |}.
Definition WithOption (opts : list (MiddlewareConfig X -> MiddlewareConfig X)) (b : builder)
  : builder :=
  {| b_extractorConfig := b_extractorConfig b; b_bearerValidator := b_bearerValidator b;
     b_apiKeyValidator := b_apiKeyValidator b; b_claimsTransformer := b_claimsTransformer b;
     b_middlewareOptions := b_middlewareOptions b ++ opts; b_err := b_err b |}.
Definition with_err (e : authn_err) (b : builder) : builder :=
  {| b_extractorConfig := b_extractorConfig b; b_bearerValidator := b_bearerValidator b;
     b_apiKeyValidator := b_apiKeyValidator b; b_claimsTransformer := b_claimsTransformer b;
     b_middlewareOptions := b_middlewareOptions b; b_err := Some e |}.

(** An [OIDCValidator] as a [BearerTokenValidator]: it never returns a nil
    principal without an error. *)
Definition oidc_bearer (v : OIDCValidator) : validator := fun tok =>
  match OIDC_ValidateToken v tok with Ok p => Ok (Some p) | Err e => Err e end.

Definition cognito_issuer (opts : CognitoOptions) : string :=
  if bool_decide (co_IssuerURL opts = "") && bool_decide (co_Region opts <> "")
     && bool_decide (co_UserPoolID opts <> "")
  then "https://cognito-idp." +:+ co_Region opts +:+ ".amazonaws.com/" +:+ co_UserPoolID opts
  else co_IssuerURL opts.

Definition WithCognito {K} `{!JwtLib K} (lib : OidcLib) (opts : CognitoOptions) (b : builder)
  : builder :=
  match b_err b with
  | Some _ => b
  | None =>
      match NewOIDCValidator lib
              {| IssuerURL := cognito_issuer opts; ExpectedClientID := co_ClientID opts;
                 SkipClientIDCheck := true; SupportedSigningAlgs := ["RS256"];
                 ocfg_Normalizer := Some NewCognitoClaimsNormalizer;
                 CustomKeySetURL := co_CustomKeySetURL opts |} with
      | Err e =>
          with_err {| err_chain := err_chain e;
                      err_text := "authn: failed configuring Cognito validator: " +:+ err_text e |} b
      | Ok v => WithBearerValidator (Some (oidc_bearer v)) b
      end
  end.

(** The [Add…] spellings of the builder. *)
Definition AddBearerValidator (v : option validator) (b : builder) : builder := WithBearerValidator v b.
Definition AddApiKeyValidator (v : option validator) (b : builder) : builder := WithApiKeyValidator v b.
Definition AddClaimsTransformation (t : option transformer) (b : builder) : builder :=
  WithClaimsTransformation t b.
Definition AddCognito {K} `{!JwtLib K} (lib : OidcLib) (opts : CognitoOptions) (b : builder) : builder :=
  WithCognito lib opts b.

Definition Build (b : builder) : res authn_err CompositeAuthenticator :=
  match b_err b with
  | Some e => Err e
  | None =>
      Ok (NewCompositeAuthenticator
            {| cac_ExtractorConfig := default DefaultExtractorConfig (b_extractorConfig b);
               cac_BearerValidator := b_bearerValidator b; cac_JWTValidator := None;
               cac_APIKeyValidator := b_apiKeyValidator b |})
  end.

(** The options are followed by the builder's own transformer, when set. *)
Definition BuildMiddleware (b : builder) : res authn_err (request X -> list (call X)) :=
  let? auth := Build b in
  let opts := b_middlewareOptions b ++
              match b_claimsTransformer b with
              | Some t => [OptClaimsTransformation (Some t)]
              | None => []
              end in
  match UseAuthentication (Some (Authenticate auth)) opts with
  | Ok h => Ok h
  | Err panic => Err (opaque_err panic)
  end.

End builder.

(** ** Theorems *)
Section theorems.
Context {X : Type}.
Implicit Type c : request X.

(** A guard lets exactly the principals satisfying [ok] through: no principal
    is a 401, another principal a 403. *)
Definition gates (ok : Principal -> Prop) (h : request X -> list (call X)) : Prop :=
  forall c,
    match User c with
    | None => rejects StatusUnauthorized (h c)
    | Some p => (ok p -> h c = [Next]) /\ (~ ok p -> rejects StatusForbidden (h c))
    end.

Lemma gates_bool (ok : Principal -> bool) (P : Principal -> Prop) h deny :
  (forall p, ok p = true <-> P p) ->
  (forall c, h c = match User c with
                   | None => unauthorized
                   | Some p => if negb (ok p) then deny p else [Next]
                   end) ->
  (forall p, rejects (X := X) StatusForbidden (deny p)) -> gates P h.
Proof.
  intros HP Hh Hd c. rewrite Hh. destruct (User c) as [p|]; [|done].
  rewrite <- HP. destruct (ok p); simpl; split; try done.
Qed.

Lemma require_scope_gates l : gates (fun p => l ⊆ Scopes p) (RequireScope l).
Proof. eapply gates_bool; [intros p; apply HasAllScopes_spec|done|done]. Qed.

(** C15: The six guards admit exactly the principals they describe: all scopes,
    some scope (or none asked), an allowed method, all roles, some role (or
    none asked) up to case; without a principal they answer 401, otherwise
    403, and they abort whenever they do not call [Next]. *)
Theorem authn_guards_gate l :
  gates (fun p => l ⊆ Scopes p) (RequireScope l) /\
  gates (fun p => l = [] \/ exists s, s ∈ l /\ s ∈ Scopes p) (RequireAnyScope l) /\
  gates (fun p => Method p ∈ l) (RequireMethod l) /\
  gates (fun p => IsUserPresent (Some p) = true) RequireUser /\
  gates (fun p => forall r, r ∈ l -> HasRole (Some p) r = true) (RequireRole l) /\
  gates (fun p => l = [] \/ exists r, r ∈ l /\ HasRole (Some p) r = true) (RequireAnyRole l).
Proof.
  split_and!.
  - apply require_scope_gates.
  - eapply gates_bool; [intros p; apply HasAnyScope_spec|done|done].
  - eapply (gates_bool (fun p => bool_decide (Method p ∈ l)));
    [intros p; apply bool_decide_eq_true|done|done].
  - eapply (gates_bool (fun p => bool_decide (Method p ∈ [AuthMethodAuthCodePKCE; AuthMethodDeviceFlow])));
      [|done|done].
    intros p. unfold IsUserPresent. simpl. rewrite bool_decide_eq_true, orb_true_iff,
      !bool_decide_eq_true. set_solver.
  - intros c. unfold RequireRole. destruct (User c) as [p|]; [|done].
    destruct (find _ l) as [r|] eqn:E.
    + apply find_some in E as [Hin Hr]. apply negb_true_iff in Hr. split; [|done].
      intros Hall. rewrite Hall in Hr; [done|]. by apply list_elem_of_In.
    + split; [done|]. intros []. intros r Hin. apply list_elem_of_In in Hin.
      apply (find_none _ _ E) in Hin. by apply negb_false_iff in Hin.
  - eapply gates_bool; [intros p; apply HasAnyRole_spec|done|done].
Qed.

Lemma handleAuthError_rejects c err cfg :
  errorHandler cfg = None -> rejects StatusUnauthorized (handleAuthError c err cfg ++ [Abort]).
Proof. unfold handleAuthError. intros ->. by destruct (auth_error_code err). Qed.

(** The middleware is fail-closed: without a custom error handler it
    either rejects with 401 and an RFC 6750 challenge, or it stores under the
    configured key the principal that the authenticator accepted and the
    transformer kept, and only then calls [Next]. *)
Theorem authn_middleware_gate auth opts cfg c :
  cfg = fold_left (fun cfg opt => opt cfg) opts default_config ->
  errorHandler cfg = None ->
  exists h, New (Some auth) opts = Ok h /\
    ((exists e, (auth c = Err e \/
                 exists t p, claimsTransformer cfg = Some t /\ auth c = Ok p /\ t p = Err e) /\
        rejects StatusUnauthorized (h c) /\
        (exists rest, h c = Header "WWW-Authenticate"
           (bearer_challenge (realm cfg) (fst (auth_error_code e)) (snd (auth_error_code e)))
           :: rest)) \/
     (exists p q, auth c = Ok p /\
        match claimsTransformer cfg with Some t => t p = Ok q | None => q = p end /\
        h c = [Set_ (contextKey cfg) (VPrincipal q); Next])).
Proof.
  intros -> He. eexists. split; [done|].
  set (cfg := fold_left (fun cfg opt => opt cfg) opts default_config) in *.
  unfold authn_handler. destruct (auth c) as [p|e] eqn:Ea.
  - destruct (claimsTransformer cfg) as [t|] eqn:Et.
    + destruct (t p) as [q|e] eqn:Eq; [right; eauto 10|].
      left. exists e. split_and!; [eauto 10|by apply handleAuthError_rejects|].
      unfold handleAuthError. rewrite He. destruct (auth_error_code e). by eexists.
    + right. eauto 10.
  - left. exists e. split_and!; [auto|by apply handleAuthError_rejects|].
    unfold handleAuthError. rewrite He. destruct (auth_error_code e). by eexists.
Qed.

(** What a later handler reads after the middleware passed. *)
Lemma User_after_set c key p :
  User (with_keys (apply_sets [Set_ key (VPrincipal p); Next] (rq_keys c)) c) =
    if bool_decide (key = DefaultContextKeyPrincipal) then p else User c.
Proof.
  unfold User, GetPrincipal, GetPrincipalWithKey. simpl.
  case_bool_decide as E; [subst; by rewrite lookup_insert_eq|by rewrite lookup_insert_ne].
Qed.

(** C16: End to end for API keys: behind the middleware of a builder with only
    an API key validator over the memory store, a request whose sole credential
    is the key [k] passes the middleware and then [RequireScope] exactly when
    the store accepts [k] at that time and its record has all the scopes. *)
Theorem api_key_pipeline s now k scopes c :
  Extract DefaultExtractorConfig c
    = Ok {| cred_Type := CredentialTypeAPIKey; cred_Token := k |} ->
  let v tok := match validate_at now s tok with Ok p => Ok (Some p) | Err e => Err (plain_err e) end in
  exists h, BuildMiddleware (WithApiKeyValidator (Some v) NewBuilder) = Ok h /\
    (passes (h c) /\
     passes (RequireScope scopes (with_keys (apply_sets (h c) (rq_keys c)) c)) <->
     exists p, validate_at now s k = Ok p /\ scopes ⊆ Scopes p).
Proof.
  intros He v.
  assert (Ha : forall a, extractor a = DefaultExtractorConfig -> apiKeyValidator a = Some v ->
            Authenticate a c = v k).
  { intros a E1 E2. unfold Authenticate. rewrite E1, He. simpl. by rewrite E2. }
  eexists. split; [done|]. unfold authn_handler. rewrite Ha by done. simpl.
  unfold v. clear v Ha. destruct (validate_at now s k) as [p|e] eqn:Ev; simpl.
  - pose proof (User_after_set c DefaultContextKeyPrincipal (Some p)) as Hu. simpl in Hu.
    pose proof (require_scope_gates scopes) as Hg.
    specialize (Hg (with_keys (<[DefaultContextKeyPrincipal := VPrincipal (Some p)]> (rq_keys c)) c)).
    rewrite Hu in Hg. destruct Hg as [Hg1 Hg2]. split.
    + intros [_ Hp]. exists p. split; [done|].
      destruct (decide (scopes ⊆ Scopes p)) as [|Hn]; [done|].
      destruct (passes_not_rejects _ _ Hp (Hg2 Hn)).
    + intros (p' & [= <-] & Hs). rewrite (Hg1 Hs). done.
  - split; [|naive_solver]. intros [Hp _].
    destruct (passes_not_rejects _ StatusUnauthorized Hp).
    by apply (handleAuthError_rejects c (plain_err e) default_config).
Qed.

(** [WithContextKey] disconnects the guards: with a custom key and no
    other source of principals, the middleware authenticates the request and
    every guard behind it still answers 401. *)
Theorem context_key_breaks_guards auth key c p l :
  key <> "" -> key <> DefaultContextKeyPrincipal -> User c = None -> auth c = Ok (Some p) ->
  exists h, New (Some auth) [WithContextKey key] = Ok h /\ passes (h c) /\
    let c' := with_keys (apply_sets (h c) (rq_keys c)) c in
    GetPrincipalWithKey c' key = (Some p, true) /\
    rejects StatusUnauthorized (RequireScope l c') /\
    rejects StatusUnauthorized (RequireMethod l c') /\
    rejects StatusUnauthorized (RequireRole l c').
Proof.
  intros Hk Hd Hu Ha. eexists. split; [done|]. simpl. unfold WithContextKey, authn_handler.
  rewrite bool_decide_true by done. simpl. rewrite Ha. simpl. split; [done|].
  pose proof (User_after_set c key (Some p)) as Hu'. rewrite bool_decide_false in Hu' by done.
  simpl in Hu'. rewrite Hu in Hu'. split_and!.
  - unfold GetPrincipalWithKey. simpl. by rewrite lookup_insert_eq.
  - unfold RequireScope. by rewrite Hu'.
  - unfold RequireMethod. by rewrite Hu'.
  - unfold RequireRole. by rewrite Hu'.
Qed.

End theorems.

(** ** Concrete requests *)
Module AuthnWitness.

Definition key0 : string := raw_key rb0.
Definition store0 : store := run [OCreate (Ok rb0) ib0 args0 0] NewMemoryAPIKeyStore.
Definition req0 : request unit :=
  {| rq_Method := "GET"; rq_Path := "/"; rq_Query := fun _ => ""; rq_Param := fun _ => "";
     rq_GetHeader := fun k => if bool_decide (k = "X-API-Key") then key0 else "";
     rq_HasHeader := fun k => bool_decide (k = "X-Api-Key");
     rq_ClientIP := "10.0.0.1"; rq_HandlerNames := []; rq_keys := ∅; rq_now := 5 |}.
Definition principal0 : Principal :=
  record_principal (new_record key0 (key_id ib0) args0 0) key0.

Lemma authn_middleware_gate_witness :
  exists h, New (Some (fun _ : request unit => Ok (Some principal0))) [WithRealm "shop"] = Ok h /\
    ((exists e, (@Ok authn_err _ (Some principal0) = Err e \/
                 exists t p, @None transformer = Some t /\
                   @Ok authn_err _ (Some principal0) = Ok p /\ t p = Err e) /\
        rejects StatusUnauthorized (h req0) /\
        (exists rest, h req0 = Header "WWW-Authenticate"
           (bearer_challenge "shop" (fst (auth_error_code e)) (snd (auth_error_code e))) :: rest)) \/
     (exists p q, @Ok authn_err _ (Some principal0) = Ok p /\ q = p /\
        h req0 = [Set_ DefaultContextKeyPrincipal (VPrincipal q); Next])).
Proof.
  apply (authn_middleware_gate (fun _ : request unit => Ok (Some principal0)) [WithRealm "shop"]
           {| contextKey := DefaultContextKeyPrincipal; realm := "shop"; errorHandler := None;
              claimsTransformer := None |} req0); reflexivity.
Defined.

Lemma api_key_pipeline_witness :
  let v tok := match validate_at 5 store0 tok with Ok p => Ok (Some p) | Err e => Err (plain_err e) end in
  exists h, BuildMiddleware (WithApiKeyValidator (Some v) NewBuilder) = Ok h /\
    (passes (h req0) /\
     passes (RequireScope ["read"] (with_keys (apply_sets (h req0) (rq_keys req0)) req0)) <->
     exists p, validate_at 5 store0 key0 = Ok p /\ ["read"] ⊆ Scopes p).
Proof. apply api_key_pipeline. vm_compute. reflexivity. Defined.

Lemma context_key_breaks_guards_witness :
  exists h, New (Some (fun _ : request unit => Ok (Some principal0))) [WithContextKey "me"] = Ok h /\
    passes (h req0) /\
    let c' := with_keys (apply_sets (h req0) (rq_keys req0)) req0 in
    GetPrincipalWithKey c' "me" = (Some principal0, true) /\
    rejects StatusUnauthorized (RequireScope [] c') /\
    rejects StatusUnauthorized (RequireMethod [] c') /\
    rejects StatusUnauthorized (RequireRole [] c').
Proof.
  apply (context_key_breaks_guards (fun _ => Ok (Some principal0)) "me" req0 principal0 []);
    [discriminate|discriminate|reflexivity|reflexivity].
Defined.

End AuthnWitness.
