(* ===== verification/AuthzMiddleware.v ===== *)
(** * The enforcement points: [authz/middleware.go], [authz/guard.go],
    [authz/builder.go]

    Handlers read the request, consult the engine (which threads the world
    through caches and repositories) and issue gin calls.  The engine pointer
    is stored in the context, so the context values are extended with it.  A
    panic is [Err]. *)
From S2P Require Import Prelude GoStrings Parc Principal Policy CacheIface RefWorld Engine Gin Extractor AuthnMiddleware.

Local Open Scope string_scope.
Local Open Scope Z_scope.
Local Open Scope list_scope.

Definition ContextKeyAllowAnonymous : string := "authz.allow_anonymous".
Definition ContextKeyAuthorizationService : string := "authz.service".

Section authz.
Context {W : Type} {codec : PermCodec}.

(** A [*PolicyEngine] in the context. *)
Abbreviation X := (option (PolicyEngine W)).
Abbreviation req := (request X).
Abbreviation calls := (list (call X)).

Definition ResultHandler : Type := req -> AuthorizationResult -> string -> calls.
Definition ResourceExtractorFunc : Type := req -> Resource.

(** ** Responses *)
Definition challenge_401 : call X :=
  Header "WWW-Authenticate"
    ("Bearer error=" +:+ quote "unauthorized" +:+ ", error_description=" +:+
     quote "Authentication required").
Definition body_401 : gin_H := error_body "unauthorized" "Authentication required".
Definition challenge_403 (reason : string) : call X :=
  Header "WWW-Authenticate"
    ("Bearer error=" +:+ quote "insufficient_scope" +:+ ", error_description=" +:+ quote reason).

Definition handleResult (c : req) (result : AuthorizationResult) (policyName : string)
  (customHandler : option ResultHandler) : calls :=
  match customHandler with
  | Some h => h c result policyName
  | None =>
      if negb (Succeeded result) && bool_decide (FailureReason result = "Authentication required")
      then [challenge_401; JSON StatusUnauthorized body_401]
      else [challenge_403 (FailureReason result);
            JSON StatusForbidden
              (error_body "forbidden" (FailureReason result) ++ [("policy", AString policyName)])]
  end.

(** The evaluation context the handlers build for an action and a resource. *)
Definition request_action (c : req) : Action :=
  {| act_Name := rq_Method c; act_HTTPMethod := rq_Method c |}.
Definition make_eval (c : req) (a : Action) (r : Resource) : EvaluationContext :=
  {| ev_Resource := r; ev_Action := a;
     ev_Context := {| ctx_ClientIP := rq_ClientIP c; ctx_Timestamp := rq_now c;
                      ctx_Headers := ∅; ctx_Data := ∅ |} |}.

Definition or_reason (reason dflt : string) : string :=
  if bool_decide (reason = "") then dflt else reason.

(** ** The pipeline middleware *)
Record MiddlewareConfig : Type := {
  mc_resultHandler : option ResultHandler;
  mc_fallbackPolicy : option Policy;
  mc_defaultPolicy : option Policy
}.

Definition WithResultHandler (h : option ResultHandler) (cfg : MiddlewareConfig) : MiddlewareConfig :=
  {| mc_resultHandler := h; mc_fallbackPolicy := mc_fallbackPolicy cfg;
     mc_defaultPolicy := mc_defaultPolicy cfg |}.
Definition WithFallbackPolicy (policy : Policy) (cfg : MiddlewareConfig) : MiddlewareConfig :=
  {| mc_resultHandler := mc_resultHandler cfg; mc_fallbackPolicy := Some policy;
     mc_defaultPolicy := mc_defaultPolicy cfg |}.
Definition WithDefaultPolicy (policy : Policy) (cfg : MiddlewareConfig) : MiddlewareConfig :=
  {| mc_resultHandler := mc_resultHandler cfg; mc_fallbackPolicy := mc_fallbackPolicy cfg;
     mc_defaultPolicy := Some policy |}.

(** The handler names that count as explicit authorization. *)
Definition explicit_name (name : string) : bool :=
  Contains name "AllowAnonymous" || Contains name "Authorize" || Contains name "WithPolicy"
  || Contains name "RequirePolicy" || Contains name "RequirePARC".
Definition hasExplicitAuth (c : req) : bool := existsb explicit_name (rq_HandlerNames c).

(** The handler [New] returns, under its final configuration. *)
Definition authz_handler (service : PolicyEngine W) (cfg : MiddlewareConfig) (c : req) (w : W)
  : calls * W :=
  let set_service := Set_ ContextKeyAuthorizationService (VExt (Some service)) in
  let c := with_keys (<[ContextKeyAuthorizationService := VExt (Some service)]> (rq_keys c)) c in
  match mc_fallbackPolicy cfg with
  | None => ([set_service; Next], w)
  | Some policy =>
      if hasExplicitAuth c then ([set_service; Next], w) else
      match User c with
      | None =>
          (set_service :: handleResult c (FailedResult "Authentication required") (pol_Name policy)
                            (mc_resultHandler cfg) ++ [Abort], w)
      | Some user =>
          let evalCtx := make_eval c (request_action c) zero_Resource in
          let '(decision, err, w') := Engine_Evaluate service policy (Some user) (Some evalCtx) w in
          let result := ToResult decision in
          match err, Succeeded result with
          | None, true => ([set_service; Next], w')
          | _, _ =>
              let reason := or_reason (FailureReason result) "Access denied by fallback policy" in
              (set_service :: handleResult c (FailedResult reason) (pol_Name policy)
                                (mc_resultHandler cfg) ++ [Abort], w')
          end
      end
  end.

Definition New (service : option (PolicyEngine W))
  (opts : list (MiddlewareConfig -> MiddlewareConfig)) : res string (req -> W -> calls * W) :=
  match service with
  | None => Err "authz: PolicyEngine cannot be nil"
  | Some service =>
      let cfg := {| mc_resultHandler := None; mc_fallbackPolicy := Engine_FallbackPolicy service;
                    mc_defaultPolicy := Engine_DefaultPolicy service |} in
      Ok (authz_handler service (fold_left (fun cfg opt => opt cfg) opts cfg))
  end.

Definition UseAuthorization (service : option (PolicyEngine W))
  (opts : list (MiddlewareConfig -> MiddlewareConfig)) : res string (req -> W -> calls * W) :=
  New service opts.

Definition AllowAnonymous (c : req) : calls := [Set_ ContextKeyAllowAnonymous (VBool true); Next].

(** ** Endpoint guards *)

(** The variadic [args ...any] of [Authorize]. *)
Inductive arg : Type :=
| ArgEngine (e : option (PolicyEngine W))
| ArgExtractor (f : option ResourceExtractorFunc)
| ArgOther.

Fixpoint parse_args (args : list arg) (engine : option (PolicyEngine W))
  (extractor : option ResourceExtractorFunc)
  : option (PolicyEngine W) * option ResourceExtractorFunc :=
  match args with
  | [] => (engine, extractor)
  | ArgEngine v :: args' => parse_args args' v extractor
  | ArgExtractor v :: args' => parse_args args' engine v
  | ArgOther :: args' => parse_args args' engine extractor
  end.

(** The engine stored by the pipeline middleware. *)
Definition context_service (c : req) : option (PolicyEngine W) :=
  match rq_keys c !! ContextKeyAuthorizationService with
  | Some (VExt s) => s
  | _ => None
  end.

Definition Authorize (policyName : string) (args : list arg) (c : req) (w : W)
  : res string calls * W :=
  let '(engine, extractor) := parse_args args None None in
  let srv := match engine with Some e => Some e | None => context_service c end in
  match srv with
  | None =>
      (Err "authz: no PolicyEngine provided to Authorize or found in context via UseAuthorization", w)
  | Some srv =>
      match User c with
      | None =>
          (Ok (handleResult c (FailedResult "Authentication required") policyName None ++ [Abort]), w)
      | Some user =>
          let res := match extractor with Some f => f c | None => zero_Resource end in
          let evalCtx := make_eval c (request_action c) res in
          let '(result, err, w') := Engine_Authorize srv (Some user) policyName (Some evalCtx) w in
          match err, Succeeded result with
          | None, true => (Ok [Next], w')
          | _, _ =>
              let reason := or_reason (FailureReason result) "Access denied by policy" in
              (Ok (handleResult c (FailedResult reason) policyName None ++ [Abort]), w')
          end
      end
  end.

Definition WithPolicy (policyName : string) (args : list arg) := Authorize policyName args.

Definition AuthorizeResource (c : req) (resource : Resource) (policyName : string) (w : W)
  : res string AuthorizationResult * W :=
  match rq_keys c !! ContextKeyAuthorizationService with
  | None => (Ok (FailedResult "authz: authorization service not found in context"), w)
  | Some (VExt service) =>
      match User c with
      | None => (Ok (FailedResult "Authentication required"), w)
      | Some user =>
          match service with
          | None => (Err "runtime error: invalid memory address or nil pointer dereference", w)
          | Some service =>
              let evalCtx := make_eval c (request_action c) resource in
              let '(result, err, w') := Engine_Authorize service (Some user) policyName (Some evalCtx) w in
              match err with
              | Some e => (Ok (FailedResult (Error e)), w')
              | None => (Ok result, w')
              end
          end
      end
  | Some _ => (Ok (FailedResult "authz: invalid authorization service in context"), w)
  end.

Definition ExtractResourceFromParam (paramName resourceType : string) : ResourceExtractorFunc :=
  fun c => {| res_Type := resourceType; res_ID := rq_Param c paramName; res_TenantID := "";
              res_Attributes := ∅ |}.

(** [len(getResource) > 0 && getResource[0] != nil]. *)
Definition first_extractor (getResource : list (option ResourceExtractorFunc))
  : option ResourceExtractorFunc :=
  match getResource with Some f :: _ => Some f | _ => None end.

Definition guard_401 : calls := [challenge_401; AbortWithStatusJSON StatusUnauthorized body_401].

(** The handlers [RequirePolicy] and [RequirePARC] return. *)
Definition require_policy (engine : PolicyEngine W) (policyName : string)
  (getResource : list (option ResourceExtractorFunc)) (c : req) (w : W) : calls * W :=
  match User c with
  | None => (guard_401, w)
  | Some user =>
      let res := match first_extractor getResource with Some f => f c | None => zero_Resource end in
      let evalCtx := make_eval c (request_action c) res in
      let '(decision, err, w') := EvaluatePolicy engine policyName (Some user) (Some evalCtx) w in
      match err, Allowed decision with
      | None, true => ([Next], w')
      | _, _ =>
          let reason := or_reason (Reason decision) "Access denied by policy" in
          ([challenge_403 reason;
            AbortWithStatusJSON StatusForbidden
              (error_body "forbidden" reason ++ [("policy", AString policyName)])], w')
      end
  end.

Definition inline_policy (action resourceType : string) : Policy :=
  Policy.Build (Policy.RequirePARC action resourceType
    (Policy.NewPolicy ("inline:parc:" +:+ action +:+ ":" +:+ resourceType))).

Definition require_parc (engine : PolicyEngine W) (action resourceType : string)
  (getResource : list (option ResourceExtractorFunc)) (c : req) (w : W) : calls * W :=
  match User c with
  | None => (guard_401, w)
  | Some user =>
      let res := match first_extractor getResource with
                 | Some f => f c
                 | None => {| res_Type := resourceType; res_ID := "*"; res_TenantID := "";
                              res_Attributes := ∅ |}
                 end in
      let evalCtx := make_eval c {| act_Name := action; act_HTTPMethod := rq_Method c |} res in
      let '(decision, err, w') :=
        Engine_Evaluate engine (inline_policy action resourceType) (Some user) (Some evalCtx) w in
      match err, Allowed decision with
      | None, true => ([Next], w')
      | _, _ =>
          let reason := or_reason (Reason decision)
            ("Missing permission for action '" +:+ action +:+ "' on resource '" +:+ resourceType
             +:+ "'") in
          ([challenge_403 reason;
            AbortWithStatusJSON StatusForbidden
              (error_body "insufficient_permissions" reason ++
               [("action", AString action); ("resource_type", AString resourceType)])], w')
      end
  end.

(** The constructors panic on a nil engine. *)
Definition RequirePolicy (engine : option (PolicyEngine W)) (policyName : string)
  (getResource : list (option ResourceExtractorFunc)) : res string (req -> W -> calls * W) :=
  match engine with
  | None => Err "authz: PolicyEngine cannot be nil"
  | Some engine => Ok (require_policy engine policyName getResource)
  end.
Definition RequirePARC (engine : option (PolicyEngine W)) (action resourceType : string)
  (getResource : list (option ResourceExtractorFunc)) : res string (req -> W -> calls * W) :=
  match engine with
  | None => Err "authz: PolicyEngine cannot be nil"
  | Some engine => Ok (require_parc engine action resourceType getResource)
  end.

(** ** The builder *)
Record AuthorizationBuilder : Type := {
  ab_options : AuthorizationOptions;
  ab_handlers : list (Handler W);
  ab_middlewareOptions : list (MiddlewareConfig -> MiddlewareConfig);
  ab_err : option string
}.

Definition NewBuilder : AuthorizationBuilder :=
  {| ab_options := NewAuthorizationOptions; ab_handlers := []; ab_middlewareOptions := [];
     ab_err := None |}.

Definition set_options (o : AuthorizationOptions) (b : AuthorizationBuilder) : AuthorizationBuilder :=
  {| ab_options := o; ab_handlers := ab_handlers b;
     ab_middlewareOptions := ab_middlewareOptions b; ab_err := ab_err b |}.

Definition WithOptions (opts : option AuthorizationOptions) (b : AuthorizationBuilder)
  : AuthorizationBuilder :=
  match opts with Some o => set_options o b | None => b end.
Definition Builder_AddPolicy (name : string) (policy : Policy) (b : AuthorizationBuilder)
  : AuthorizationBuilder := set_options (Engine.AddPolicy name policy (ab_options b)) b.
Definition Builder_WithDefaultPolicy (policy : option Policy) (b : AuthorizationBuilder)
  : AuthorizationBuilder :=
  set_options {| opt_policies := opt_policies (ab_options b); DefaultPolicy := policy;
                 FallbackPolicy := FallbackPolicy (ab_options b) |} b.
Definition Builder_WithFallbackPolicy (policy : option Policy) (b : AuthorizationBuilder)
  : AuthorizationBuilder :=
  set_options {| opt_policies := opt_policies (ab_options b);
                 DefaultPolicy := DefaultPolicy (ab_options b); FallbackPolicy := policy |} b.

Definition WithHandler (h : option (Handler W)) (b : AuthorizationBuilder) : AuthorizationBuilder :=
  match h with
  | Some h => {| ab_options := ab_options b; ab_handlers := ab_handlers b ++ [h];
                 ab_middlewareOptions := ab_middlewareOptions b; ab_err := ab_err b |}
  | None => b
  end.

Definition WithPARC (mkMemoryCache : res string (CacheProvider W))
  (repo : option (PermissionRepository W)) (cacheProvider : option (CacheProvider W)) (grantTTL : Z)
  (b : AuthorizationBuilder) : AuthorizationBuilder :=
  match ab_err b with
  | Some _ => b
  | None =>
      match NewPARCHandler mkMemoryCache
              {| cfg_Repository := repo; cfg_Cache := cacheProvider; cfg_GrantTTL := grantTTL |} with
      | Err e => {| ab_options := ab_options b; ab_handlers := ab_handlers b;
                    ab_middlewareOptions := ab_middlewareOptions b;
                    ab_err := Some ("authz: failed initializing PARC handler: " +:+ e) |}
      | Ok h => WithHandler (Some (PARCHandlerPtr h)) b
      end
  end.

(** The [Add…] spellings of the builder. *)
Definition AddHandler (h : option (Handler W)) (b : AuthorizationBuilder) : AuthorizationBuilder :=
  WithHandler h b.
Definition AddPARC (mkMemoryCache : res string (CacheProvider W))
  (repo : option (PermissionRepository W)) (cacheProvider : option (CacheProvider W)) (grantTTL : Z)
  (b : AuthorizationBuilder) : AuthorizationBuilder :=
  WithPARC mkMemoryCache repo cacheProvider grantTTL b.

(** [newRepo] is the fresh in-memory repository. *)
Definition WithMemoryPARC (mkMemoryCache : res string (CacheProvider W))
  (newRepo : PermissionRepository W) (grantTTL : Z) (repo : list (option (PermissionRepository W)))
  (b : AuthorizationBuilder) : AuthorizationBuilder :=
  match ab_err b with
  | Some _ => b
  | None =>
      let r := match repo with Some r :: _ => r | _ => newRepo end in
      WithPARC mkMemoryCache (Some r) None grantTTL b
  end.

Definition AddMemoryPARC (mkMemoryCache : res string (CacheProvider W))
  (newRepo : PermissionRepository W) (grantTTL : Z) (repo : list (option (PermissionRepository W)))
  (b : AuthorizationBuilder) : AuthorizationBuilder :=
  WithMemoryPARC mkMemoryCache newRepo grantTTL repo b.

Definition WithMiddlewareOption (opts : list (MiddlewareConfig -> MiddlewareConfig))
  (b : AuthorizationBuilder) : AuthorizationBuilder :=
  {| ab_options := ab_options b; ab_handlers := ab_handlers b;
     ab_middlewareOptions := ab_middlewareOptions b ++ opts; ab_err := ab_err b |}.

Definition Builder_Build (b : AuthorizationBuilder) : res string (PolicyEngine W) :=
  match ab_err b with
  | Some e => Err e
  | None => Ok (NewAuthorizationService (Some (ab_options b)) (ab_handlers b))
  end.

Definition BuildMiddleware (b : AuthorizationBuilder) : res string (req -> W -> calls * W) :=
  let? service := Builder_Build b in UseAuthorization (Some service) (ab_middlewareOptions b).

(** ** Lemmas *)
Lemma User_set_service (c : req) s :
  User (with_keys (<[ContextKeyAuthorizationService := VExt s]> (rq_keys c)) c) = User c.
Proof. unfold User, GetPrincipal, GetPrincipalWithKey. simpl. by rewrite lookup_insert_ne. Qed.

(** A refusal is a 401 or a 403 that aborts. *)
Definition refuses (tr : calls) : Prop :=
  rejects StatusUnauthorized tr \/ rejects StatusForbidden tr.

Lemma refuses_not_passes tr : refuses tr -> ~ passes tr.
Proof. intros [H|H] Hp; by eapply passes_not_rejects. Qed.

Lemma handleResult_refuses c reason name :
  refuses (handleResult c (FailedResult reason) name None ++ [Abort]).
Proof. unfold handleResult. case_match; [by left|by right]. Qed.

(** The engine's answer as an equivalence. *)
Lemma engine_allows (e : PolicyEngine W) policy user ev w d err w' :
  Engine_Evaluate e policy (Some user) (Some ev) w = (d, err, w') ->
  (err = None /\ Allowed d = true <-> all_satisfied e user ev (Requirements policy) w w').
Proof.
  simpl. intros E. rewrite <- (evaluate_reqs_allowed _ _ _ _ _ _ _ _ E). split; [tauto|].
  intros H. split; [|done]. by eapply evaluate_reqs_err.
Qed.

(** A policy decision point call: the outcome of a guard on it. *)
Definition outcome (d : Decision) (err : option authz_err) (deny : calls) : calls :=
  match err, Allowed d with None, true => [Next] | _, _ => deny end.

Lemma outcome_spec d err deny :
  refuses deny ->
  (outcome d err deny = [Next] /\ err = None /\ Allowed d = true) \/
  (refuses (outcome d err deny) /\ ~ (err = None /\ Allowed d = true)).
Proof.
  intros Hd. unfold outcome. destruct err as [e|]; [right; naive_solver|].
  destruct (Allowed d); naive_solver.
Qed.

(** What an enforcement point must do for a policy: call [Next] exactly when a
    principal is attached that satisfies every requirement, answer 401 without
    a principal, and abort with 401 or 403 otherwise. *)
Definition enforces (e : PolicyEngine W) (policy : option Policy) (c : req)
  (ev : EvaluationContext) (w : W) (tr : calls) (w' : W) : Prop :=
  match User c, policy with
  | None, _ => rejects StatusUnauthorized tr /\ w' = w
  | Some user, None => refuses tr /\ w' = w
  | Some user, Some policy =>
      (tr = [Next] /\ all_satisfied e user ev (Requirements policy) w w') \/
      (refuses tr /\ ~ all_satisfied e user ev (Requirements policy) w w')
  end.

Lemma enforces_outcome (e : PolicyEngine W) policy user ev w d err w' deny :
  Engine_Evaluate e policy (Some user) (Some ev) w = (d, err, w') -> refuses deny ->
  (outcome d err deny = [Next] /\ all_satisfied e user ev (Requirements policy) w w') \/
  (refuses (outcome d err deny) /\ ~ all_satisfied e user ev (Requirements policy) w w').
Proof.
  intros E Hd. rewrite <- (engine_allows _ _ _ _ _ _ _ _ E). by apply outcome_spec.
Qed.

(** C17: [RequirePolicy] enforces the named policy: it calls [Next] exactly
    when a principal is attached, the policy is registered and every
    requirement of it is satisfied in order. *)
Theorem require_policy_enforces (e : PolicyEngine W) name gr :
  exists h, RequirePolicy (Some e) name gr = Ok h /\ forall c w,
  let '(tr, w') := h c w in
  enforces e (policies e !! name) c
    (make_eval c (request_action c)
       (match first_extractor gr with Some f => f c | None => zero_Resource end)) w tr w'.
Proof.
  eexists. split; [done|]. intros c w. unfold require_policy, enforces. destruct (User c) as [user|]; [|done].
  unfold EvaluatePolicy. destruct (policies e !! name) as [policy|].
  - set (ev := make_eval c _ _).
    destruct (Engine_Evaluate e policy (Some user) (Some ev) w) as [[d err] w'] eqn:E.
    assert (Hd : forall r body, refuses [challenge_403 r; AbortWithStatusJSON StatusForbidden body])
      by (by right).
    pose proof (enforces_outcome _ _ _ _ _ _ _ _ _ E
      (Hd (or_reason (Reason d) "Access denied by policy")
          (error_body "forbidden" (or_reason (Reason d) "Access denied by policy")
           ++ [("policy", AString name)]))) as H.
    unfold outcome in H. by destruct err, (Allowed d).
  - simpl. split; [by right|done].
Qed.

(** [RequirePARC] enforces the inline requirement of its action and
    resource type on the extracted resource. *)
Theorem require_parc_enforces (e : PolicyEngine W) action rtype gr :
  exists h, RequirePARC (Some e) action rtype gr = Ok h /\ forall c w,
  let '(tr, w') := h c w in
  enforces e (Some {| pol_Name := "inline:parc:" +:+ action +:+ ":" +:+ rtype;
                      Requirements := [PARCRequirement action rtype] |}) c
    (make_eval c {| act_Name := action; act_HTTPMethod := rq_Method c |}
       (match first_extractor gr with
        | Some f => f c
        | None => {| res_Type := rtype; res_ID := "*"; res_TenantID := ""; res_Attributes := ∅ |}
        end)) w tr w'.
Proof.
  eexists. split; [done|]. intros c w. unfold require_parc, enforces. destruct (User c) as [user|]; [|done].
  set (ev := make_eval c _ _). set (policy := inline_policy action rtype).
  destruct (Engine_Evaluate e policy (Some user) (Some ev) w) as [[d err] w'] eqn:E.
  set (reason := or_reason (Reason d) _).
  assert (Hd : forall r body, refuses [challenge_403 r; AbortWithStatusJSON StatusForbidden body])
    by (by right).
  pose proof (enforces_outcome _ _ _ _ _ _ _ _ _ E
    (Hd reason (error_body "insufficient_permissions" reason ++
       [("action", AString action); ("resource_type", AString rtype)]))) as H.
  unfold outcome in H. by destruct err, (Allowed d).
Qed.

(** The engine [Authorize] uses. *)
Definition authorize_engine (args : list arg) (c : req) : option (PolicyEngine W) :=
  match fst (parse_args args None None) with Some e => Some e | None => context_service c end.

Lemma authorize_enforces_engine (e : PolicyEngine W) name args c w :
  authorize_engine args c = Some e ->
  exists tr w', Authorize name args c w = (Ok tr, w') /\
    enforces e (policies e !! name) c
      (make_eval c (request_action c)
         (match snd (parse_args args None None) with Some f => f c | None => zero_Resource end))
      w tr w'.
Proof.
  unfold Authorize, authorize_engine, enforces. destruct (parse_args args None None) as [en ex].
  simpl. intros ->. destruct (User c) as [user|]; [|by eexists _, _].
  unfold Engine_Authorize, EvaluatePolicy. destruct (policies e !! name) as [policy|].
  - set (ev := make_eval c _ _).
    destruct (Engine_Evaluate e policy (Some user) (Some ev) w) as [[d err] w'] eqn:E.
    pose proof (enforces_outcome _ _ _ _ _ _ _ _ _ E (handleResult_refuses c
      (or_reason (Reason d) "Access denied by policy") name)) as H. simpl.
    unfold outcome in H. destruct err as [er|], (Allowed d); by eexists _, _.
  - simpl. eexists _, _. split; [done|]. split; [|done]. by right.
Qed.

(** Behind the pipeline middleware without a fallback policy, the endpoint
    guard [Authorize(name)] without an engine of its own enforces the policy of
    the middleware's engine; without a middleware it panics. *)
Theorem pipeline_authorize (service : PolicyEngine W) opts c w name :
  mc_fallbackPolicy (fold_left (fun cfg opt => opt cfg) opts
    {| mc_resultHandler := None; mc_fallbackPolicy := fallbackPolicy service;
       mc_defaultPolicy := defaultPolicy service |}) = None ->
  exists h, New (Some service) opts = Ok h /\
    let '(tr, w1) := h c w in
    passes tr /\ w1 = w /\
    let c' := with_keys (apply_sets tr (rq_keys c)) c in
    exists tr' w', Authorize name [] c' w = (Ok tr', w') /\
      enforces service (policies service !! name) c (make_eval c (request_action c) zero_Resource)
        w tr' w'.
Proof.
  intros Hf. eexists. split; [done|]. unfold authz_handler, Engine_FallbackPolicy, Engine_DefaultPolicy. rewrite Hf. split_and!; [done|done|].
  destruct (authorize_enforces_engine service name []
    (with_keys (apply_sets [Set_ ContextKeyAuthorizationService (VExt (Some service)); Next]
       (rq_keys c)) c) w) as (tr' & w' & E & H).
  - unfold authorize_engine, context_service. simpl. by rewrite lookup_insert_eq.
  - exists tr', w'. split; [exact E|]. unfold enforces in *. simpl in H.
    rewrite User_set_service in H. exact H.
Qed.

(** The middleware with a fallback policy. *)
Lemma fallback_handler (service : PolicyEngine W) cfg policy c w :
  mc_fallbackPolicy cfg = Some policy -> mc_resultHandler cfg = None ->
  let '(tr, w') := authz_handler service cfg c w in
  let set_service := Set_ ContextKeyAuthorizationService (VExt (Some service)) in
  if hasExplicitAuth c then tr = [set_service; Next] /\ w' = w
  else exists tr', tr = set_service :: tr' /\
    enforces service (Some policy) c (make_eval c (request_action c) zero_Resource) w tr' w'.
Proof.
  intros Hf Hr. unfold authz_handler. rewrite Hf, Hr. unfold hasExplicitAuth, enforces. simpl.
  destruct (existsb explicit_name (rq_HandlerNames c)); [done|]. rewrite User_set_service.
  destruct (User c) as [user|]; [|by eexists].
  set (c1 := with_keys _ c).
  change (make_eval c1 (request_action c1) zero_Resource)
    with (make_eval c (request_action c) zero_Resource).
  set (ev := make_eval c _ _).
  destruct (evaluate_reqs service (Requirements policy) user ev w) as [[d err] w'] eqn:E.
  pose proof (enforces_outcome service policy user ev w d err w' _ E (handleResult_refuses c1
    (or_reason (Reason d) "Access denied by fallback policy") (pol_Name policy))) as H.
  unfold outcome in H. destruct err as [er|], (Allowed d); by eexists.
Qed.

(** The world after the middleware evaluated the fallback policy. *)
Lemma fallback_world (service : PolicyEngine W) cfg policy c w q :
  mc_fallbackPolicy cfg = Some policy -> User c = Some q ->
  let ev := make_eval c (request_action c) zero_Resource in
  hasExplicitAuth c = false ->
  snd (authz_handler service cfg c w) = (evaluate_reqs service (Requirements policy) q ev w).2.
Proof.
  intros Hf Hu ev Hx. unfold authz_handler. rewrite Hf. unfold hasExplicitAuth in *. simpl. rewrite Hx, User_set_service, Hu.
  change (make_eval (with_keys _ c) _ zero_Resource) with ev.
  destruct (evaluate_reqs service (Requirements policy) q ev w) as [[d err] w'].
  by destruct err, (Allowed d).
Qed.

(** C18: Zero trust: with a fallback policy and no custom result handler, a
    route none of whose handler names counts as explicit authorization passes
    the middleware only with a principal that satisfies the fallback policy;
    a route with such a name is never subjected to it. *)
Theorem fallback_enforced (service : PolicyEngine W) cfg policy c w :
  mc_fallbackPolicy cfg = Some policy -> mc_resultHandler cfg = None ->
  let '(tr, w') := authz_handler service cfg c w in
  let set_service := Set_ ContextKeyAuthorizationService (VExt (Some service)) in
  if hasExplicitAuth c then tr = [set_service; Next] /\ w' = w
  else exists tr', tr = set_service :: tr' /\
    enforces service (Some policy) c (make_eval c (request_action c) zero_Resource) w tr' w'.
Proof. apply fallback_handler. Qed.

(** The default policy is never consulted: [WithDefaultPolicy] does not
    change the middleware, and [Authorize("")] refuses every principal unless a
    policy with the empty name is registered. *)
Theorem default_policy_unused (service : PolicyEngine W) cfg p c w :
  authz_handler service (WithDefaultPolicy p cfg) c w = authz_handler service cfg c w /\
  forall e args, authorize_engine args c = Some e -> policies e !! "" = None ->
    exists tr, fst (Authorize "" args c w) = Ok tr /\ refuses tr.
Proof.
  split; [done|]. intros e args He Hp.
  destruct (authorize_enforces_engine e "" args c w He) as (tr & w' & E & H).
  exists tr. rewrite E. split; [done|]. unfold enforces in H. rewrite Hp in H.
  destruct (User c); [by destruct H|]. left. by destruct H.
Qed.

End authz.
Arguments MiddlewareConfig : clear implicits.
Arguments AuthorizationBuilder : clear implicits.

(** ** Concrete pipelines *)
Module AuthzWitness.
Import EngineWitness LineCodec.

Definition admin : Policy := Policy.RequireRole ["editor"] (Policy.NewPolicy "admin").
Definition service0 : PolicyEngine World := RegisterPolicy admin engine1.

Definition alice_request : request (option (PolicyEngine World)) :=
  with_keys {[DefaultContextKeyPrincipal := VPrincipal (Some alice)]} empty_request.

Lemma pipeline_authorize_witness :
  exists h, New (Some service0) [] = Ok h /\
    let '(tr, w1) := h alice_request world1 in
    passes tr /\ w1 = world1 /\
    let c' := with_keys (apply_sets tr (rq_keys alice_request)) alice_request in
    exists tr' w', Authorize "admin" [] c' world1 = (Ok tr', w') /\
      enforces service0 (policies service0 !! "admin") alice_request
        (make_eval alice_request (request_action alice_request) zero_Resource) world1 tr' w'.
Proof. apply (pipeline_authorize service0 []). reflexivity. Defined.

(** That request is let through, and refused for another policy. *)
Example alice_admin :
  fst (Authorize "admin" [ArgEngine (Some service0)] alice_request world1) = Ok [Next].
Proof. vm_compute. reflexivity. Qed.

Definition strict : MiddlewareConfig World :=
  {| mc_resultHandler := None; mc_fallbackPolicy := Some admin; mc_defaultPolicy := None |}.

Lemma fallback_enforced_witness :
  let '(tr, w') := authz_handler service0 strict alice_request world1 in
  let set_service := Set_ ContextKeyAuthorizationService (VExt (Some service0)) in
  if hasExplicitAuth alice_request then tr = [set_service; Next] /\ w' = world1
  else exists tr', tr = set_service :: tr' /\
    enforces service0 (Some admin) alice_request
      (make_eval alice_request (request_action alice_request) zero_Resource) world1 tr' w'.
Proof. apply (fallback_enforced service0 strict admin); reflexivity. Defined.

(** An application handler whose name merely contains the word is exempt. *)
Definition callback_request : request (option (PolicyEngine World)) :=
  {| rq_Method := "GET"; rq_Path := "/oauth/callback"; rq_GetHeader := fun _ => "";
     rq_HasHeader := fun _ => false;
     rq_Query := fun _ => ""; rq_Param := fun _ => ""; rq_ClientIP := "10.0.0.1";
     rq_HandlerNames := ["main.handleAuthorizeCallback"]; rq_keys := ∅; rq_now := 0 |}.
Example fallback_name_bypass :
  fst (authz_handler service0 strict callback_request world1)
  = [Set_ ContextKeyAuthorizationService (VExt (Some service0)); Next].
Proof. reflexivity. Qed.

Lemma default_policy_unused_witness :
  exists tr, fst (Authorize "" [ArgEngine (Some service0)] alice_request world1) = Ok tr /\ refuses tr.
Proof.
  destruct (default_policy_unused service0 strict admin alice_request world1) as [_ H].
  apply (H service0 [ArgEngine (Some service0)]); reflexivity.
Defined.

End AuthzWitness.
