(* ===== verification/Versioning.v ===== *)
(** * API versioning: [versioning/]

    Route matching, the version registry, the reading strategies, and the
    middleware that validates the version, rewrites the path and dispatches
    the request again.  Iteration over a Go map is a parameter: the order in
    which the runtime visits the keys. *)
From S2P Require Import Prelude GoStrings Gin.

Local Open Scope string_scope.
Local Open Scope list_scope.

(** ** Paths: [match.go] *)

(** [splitPath], and [strings.FieldsFunc] on slashes. *)
Definition splitPath (path : string) : list string :=
  filter (fun s => s <> "") (Split "/" path).

(** The loop of [matchPattern] at index [i]. *)
Fixpoint match_loop (pats : list string) (i : nat) (urlParts patParts : list string) : bool :=
  match pats with
  | [] => (length urlParts =? length patParts)%nat
  | pat :: pats' =>
      if HasPrefix pat "*" then (i + 1 <=? length urlParts)%nat
      else match urlParts !! i with
           | None => false
           | Some u =>
               if HasPrefix pat ":" then match_loop pats' (S i) urlParts patParts
               else if bool_decide (pat <> u) then false
               else match_loop pats' (S i) urlParts patParts
           end
  end.

Definition matchPattern (urlPath pattern : string) : bool :=
  let urlParts := splitPath urlPath in
  let patParts := splitPath pattern in
  match_loop patParts 0 urlParts patParts.

Definition extractBasePath (urlPath : string) : string :=
  if HasPrefix urlPath "/api" then
    let result := TrimPrefix urlPath "/api" in
    if bool_decide (result = "") then "/" else result
  else urlPath.

(** ** The registry: [registry.go] *)
Record RouteKey : Type := { rk_Method : string; rk_Pattern : string }.

#[global] Instance RouteKey_eq_dec : EqDecision RouteKey.
Proof. solve_decision. Defined.
#[global] Instance RouteKey_countable : Countable RouteKey.
Proof.
  refine (inj_countable' (fun k => (rk_Method k, rk_Pattern k))
            (fun p => {| rk_Method := p.1; rk_Pattern := p.2 |}) _).
  by intros [].
Defined.

(** [routes map[RouteKey]map[string]bool]: the inner maps only hold [true]. *)
Abbreviation RouteVersionRegistry := (gmap RouteKey (gset string)).

Definition NewRouteVersionRegistry : RouteVersionRegistry := ∅.

Definition Register (method pattern version : string) (r : RouteVersionRegistry)
  : RouteVersionRegistry :=
  let key := {| rk_Method := ToUpper method; rk_Pattern := pattern |} in
  <[key := {[version]} ∪ default ∅ (r !! key)]> r.

Definition literal_segment (seg : string) : bool :=
  negb (HasPrefix seg ":") && negb (HasPrefix seg "*").
Definition countLiteralSegments (pattern : string) : nat :=
  length (List.filter literal_segment (splitPath pattern)).
Definition isMoreSpecific (a b : string) : bool :=
  (countLiteralSegments b <? countLiteralSegments a)%nat.

(** The scan of [Lookup] and [SupportedVersions] over the keys in some order:
    the body of the loop, and the loop. *)
Definition visit (method urlPath : string) (matchedKey : option RouteKey) (key : RouteKey)
  : option RouteKey :=
  if bool_decide (rk_Method key <> method) then matchedKey
  else if matchPattern urlPath (rk_Pattern key) then
    match matchedKey with
    | None => Some key
    | Some k => if isMoreSpecific (rk_Pattern key) (rk_Pattern k) then Some key else Some k
    end
  else matchedKey.
Definition best_match (method urlPath : string) (order : list RouteKey) : option RouteKey :=
  fold_left (visit method urlPath) order None.

(** [(endpointExists, versionSupported)] *)
Definition Lookup (order : list RouteKey) (method urlPath version : string)
  (r : RouteVersionRegistry) : bool * bool :=
  match best_match (ToUpper method) urlPath order with
  | None => (false, false)
  | Some k => (true, bool_decide (version ∈ default ∅ (r !! k)))
  end.

Definition SupportedVersions (order : list RouteKey) (method urlPath : string)
  (r : RouteVersionRegistry) : list string :=
  match best_match (ToUpper method) urlPath order with
  | None => []
  | Some k => SortStrings (elements (default ∅ (r !! k)))
  end.

(** ** Versioned groups: [versioned_group.go]

    A registration on a group records the route in the registry and in the
    underlying router, here the list of its routes. *)
Record VersionedGroup : Type := { vg_routes : list (string * string); vg_version : string }.

Definition vg_handle (method relativePath : string) (vg : VersionedGroup)
  (r : RouteVersionRegistry) : VersionedGroup * RouteVersionRegistry :=
  ({| vg_routes := vg_routes vg ++ [(method, relativePath)]; vg_version := vg_version vg |},
   Register method relativePath (vg_version vg) r).

(** Panics on a nil registry. *)
Definition NewVersionedGroup (group : list (string * string)) (registry : option RouteVersionRegistry)
  (version : string) : res string VersionedGroup :=
  match registry with
  | None => Err "versioning: NewVersionedGroup requires a non-nil RouteVersionRegistry"
  | Some _ => Ok {| vg_routes := group; vg_version := version |}
  end.
Definition POST := vg_handle "POST".
Definition GET := vg_handle "GET".
Definition PUT := vg_handle "PUT".
Definition DELETE := vg_handle "DELETE".
Definition PATCH := vg_handle "PATCH".

(** ** Reading strategies: [strategy.go] *)
Inductive VersionReadingStrategy : Type :=
| HeaderVersionStrategy (HeaderName : string)
| QueryStringVersionStrategy (ParamName : string)
| URLSegmentVersionStrategy
| CompositeVersionStrategy (strategies : list VersionReadingStrategy).

(** A version segment: [v] followed by at least one character. *)
Definition version_segment (candidate : string) : bool :=
  HasPrefix candidate "v" && (1 <? String.length candidate)%nat.

Definition read_url_segment (path : string) : option string :=
  if negb (HasPrefix path "/api/") then None else
  match SplitN2 (TrimPrefix path "/api/") "/" with
  | [] => None
  | candidate :: _ => if version_segment candidate then Some candidate else None
  end.

(** [ReadVersion]: [None] when not found. *)
Fixpoint ReadVersion {X} (s : VersionReadingStrategy) (c : request X) : option string :=
  match s with
  | HeaderVersionStrategy name =>
      let v := rq_GetHeader c name in
      if bool_decide (v <> "") then Some v
      else if rq_HasHeader c name then Some "" else None
  | QueryStringVersionStrategy name =>
      let v := rq_Query c name in if bool_decide (v = "") then None else Some v
  | URLSegmentVersionStrategy => read_url_segment (rq_Path c)
  | CompositeVersionStrategy l =>
      (fix first l :=
         match l with
         | [] => None
         | s :: l' => match ReadVersion s c with Some v => Some v | None => first l' end
         end) l
  end.

(** ** The middleware: [config.go], [middleware.go], [errors.go] *)
Definition DefaultVersionHeaderName : string := "x-version".
Definition DefaultVersionValue : string := "v1".

Definition is_digit (a : ascii) : bool :=
  let n := nat_of_ascii a in ((48 <=? n) && (n <=? 57))%nat.

(** The digits at the front of a text, and the rest. *)
Fixpoint span_digits (s : string) : nat * string :=
  match s with
  | String a s' => if is_digit a then let '(n, r) := span_digits s' in (S n, r) else (O, s)
  | EmptyString => (O, "")
  end.

(** [`^v\d+(b\d+)?$`]: digits are matched greedily, and no other split can
    succeed since [b] is not a digit. *)
Definition default_format (s : string) : bool :=
  match s with
  | String a s1 =>
      if bool_decide (a = "v"%char) then
        let '(n, r) := span_digits s1 in
        if (n =? 0)%nat then false else
        match r with
        | EmptyString => true
        | String b s2 =>
            if bool_decide (b = "b"%char) then
              let '(m, r2) := span_digits s2 in negb (m =? 0)%nat && str_is_empty r2
            else false
        end
      else false
  | EmptyString => false
  end.

(** [VersionFormat] is the match function of the compiled expression. *)
Record Config : Type := {
  DefaultVersion : string;
  AssumeDefaultVersionWhenUnspecified : bool;
  ReportApiVersions : bool;
  Reader : option VersionReadingStrategy;
  VersionFormat : string -> bool
}.

Definition DefaultConfig : Config :=
  {| DefaultVersion := DefaultVersionValue; AssumeDefaultVersionWhenUnspecified := false;
     ReportApiVersions := false; Reader := Some (HeaderVersionStrategy DefaultVersionHeaderName);
     VersionFormat := default_format |}.

Definition resolve_config (configs : list Config) : Config :=
  match configs with [] => DefaultConfig | c :: _ => c end.
Definition reader (cfg : Config) : VersionReadingStrategy :=
  match Reader cfg with
  | Some r => r
  | None => HeaderVersionStrategy DefaultVersionHeaderName
  end.

Definition shouldVersionRoute (method path : string) : bool :=
  if bool_decide (path = "/") || bool_decide (path = "/health") || HasPrefix path "/test"
     || HasPrefix path "/swagger" || bool_decide (method = "OPTIONS")
  then false
  else HasPrefix path "/api".

Definition hasVersionPrefix (path version : string) : bool :=
  bool_decide (splitPath path !! 1%nat = Some version).

(** The candidate before the next slash of [base[1:]], when there is one. *)
Definition extractBasePathForLookup (urlPath : string) : string :=
  let base := extractBasePath urlPath in
  match base with
  | String c rest =>
      if bool_decide (c = "/"%char) && (1 <? String.length base)%nat then
        match str_cut "/" rest with
        | Some (candidate, after) =>
            if version_segment candidate then "/" +:+ after else base
        | None => base
        end
      else base
  | EmptyString => base
  end.

Definition rewritePath (path version : string) : string :=
  "/api/" +:+ version +:+ Join (drop 1 (SplitAfter path "/api")) "".

(** [writeProblem] with [problemToMap]. *)
Definition writeProblem {X} (path detail : string) : list (call X) :=
  [Header "Content-Type" "application/problem+json";
   JSON 400
     ([("type", AString "https://tools.ietf.org/html/rfc7231#section-6.5.1");
       ("title", AString "Bad Request"); ("status", AInt 400)]
      ++ (if bool_decide (detail <> "") then [("detail", AString detail)] else [])
      ++ (if bool_decide (path <> "") then [("instance", AString path)] else []));
   Abort].

(** How one pass of the handler ends: [c.Next()], a problem response, or the
    path rewritten and [engine.HandleContext(c)] called, followed by
    [c.Abort()] and [c.Next()]. *)
Inductive ending : Type :=
| Dispatch
| Problem (detail : string)
| Rewrite (path : string).

Section middleware.
Context {X : Type}.
(** The orders in which the two scans of a pass, [Lookup] and
    [SupportedVersions], visit the registry: Go chooses one per iteration. *)
Definition scans : Type := list RouteKey * list RouteKey.

Definition with_path (p : string) (c : request X) : request X :=
  {| rq_Method := rq_Method c; rq_Path := p; rq_GetHeader := rq_GetHeader c;
     rq_HasHeader := rq_HasHeader c; rq_Query := rq_Query c; rq_Param := rq_Param c;
     rq_ClientIP := rq_ClientIP c; rq_HandlerNames := rq_HandlerNames c; rq_keys := rq_keys c;
     rq_now := rq_now c |}.

(** Step 1: the version of a request. *)
Definition requested_version (cfg : Config) (c : request X) : option string :=
  match ReadVersion (reader cfg) c with
  | None => if AssumeDefaultVersionWhenUnspecified cfg then Some (DefaultVersion cfg) else None
  | Some v => Some (if bool_decide (v = "") then DefaultVersion cfg else v)
  end.

(** Step 3 against a registry. *)
Definition registry_check (o : scans) (cfg : Config) (registry : option RouteVersionRegistry)
  (c : request X) (version : string) : res string (list (call X)) :=
  match registry with
  | None => Ok []
  | Some r =>
      let basePath := extractBasePathForLookup (rq_Path c) in
      let '(endpointExists, versionSupported) := Lookup (fst o) (rq_Method c) basePath version r in
      if endpointExists && negb versionSupported then Err "Unsupported API version"
      else if ReportApiVersions cfg && endpointExists
      then Ok [Header "api-supported-versions"
                 (Join (SupportedVersions (snd o) (rq_Method c) basePath r) ", ")]
      else Ok []
  end.

(** One pass: the calls before the ending, and the ending. *)
Definition pass (o : scans) (cfg : Config) (registry : option RouteVersionRegistry) (c : request X)
  : list (call X) * ending :=
  if negb (shouldVersionRoute (rq_Method c) (rq_Path c)) then ([], Dispatch) else
  match requested_version cfg c with
  | None => (writeProblem (rq_Path c) "Missing API version", Problem "Missing API version")
  | Some version =>
      let h := [Header DefaultVersionHeaderName version] in
      if negb (VersionFormat cfg version)
      then (h ++ writeProblem (rq_Path c) "Invalid API version format",
            Problem "Invalid API version format")
      else
        match registry_check o cfg registry c version with
        | Err detail => (h ++ writeProblem (rq_Path c) detail, Problem detail)
        | Ok report =>
            if hasVersionPrefix (rq_Path c) version then (h ++ report, Dispatch)
            else (h ++ report, Rewrite (rewritePath (rq_Path c) version))
        end
  end.

(** The request through the engine: a rewritten request enters the middleware
    again.  [orders] gives the scans of each pass.  [None] when the fuel does
    not suffice. *)
Fixpoint serve (orders : nat -> scans) (fuel : nat) (cfg : Config) (registry : option RouteVersionRegistry)
  (c : request X) : option (request X * ending) :=
  match fuel with
  | O => None
  | S fuel' =>
      match snd (pass (orders fuel') cfg registry c) with
      | Rewrite p => serve orders fuel' cfg registry (with_path p c)
      | e => Some (c, e)
      end
  end.

End middleware.

(** ** Route patterns *)

(** What a pattern accepts: a wildcard takes one or more segments and ends the
    pattern, a parameter takes one, a literal takes itself. *)
Inductive pmatch : list string -> list string -> Prop :=
| pm_nil : pmatch [] []
| pm_star pat pats u us : HasPrefix pat "*" = true -> pmatch (pat :: pats) (u :: us)
| pm_param pat pats u us :
    HasPrefix pat "*" = false -> HasPrefix pat ":" = true -> pmatch pats us ->
    pmatch (pat :: pats) (u :: us)
| pm_lit pat pats us :
    HasPrefix pat "*" = false -> HasPrefix pat ":" = false -> pmatch pats us ->
    pmatch (pat :: pats) (pat :: us).

Lemma match_loop_spec pats pre us pat_all :
  length pat_all = (length pre + length pats)%nat ->
  match_loop pats (length pre) (pre ++ us) pat_all = true <-> pmatch pats us.
Proof.
  revert pre us. induction pats as [|pat pats IH]; intros pre us Hl; simpl in *.
  { rewrite Nat.eqb_eq, length_app. split.
    - intros. destruct us; [constructor|simpl in *; lia].
    - inversion 1; subst. simpl. lia. }
  destruct (HasPrefix pat "*") eqn:E1.
  { rewrite Nat.leb_le, length_app. split.
    - intros. destruct us; [simpl in *; lia|by constructor].
    - inversion 1; subst; simpl; try congruence; lia. }
  rewrite lookup_app_r by lia. rewrite Nat.sub_diag. destruct us as [|u us]; simpl.
  { split; [done|inversion 1]. }
  assert (Hstep : match_loop pats (S (length pre)) (pre ++ u :: us) pat_all = true <-> pmatch pats us).
  { specialize (IH (pre ++ [u]) us). rewrite length_app, <- app_assoc in IH. simpl in IH.
    rewrite Nat.add_1_r in IH. apply IH. lia. }
  destruct (HasPrefix pat ":") eqn:E2.
  { rewrite Hstep. split; [by constructor|inversion 1; subst; congruence]. }
  case_bool_decide as Hu.
  - split; [done|]. inversion 1; subst; congruence.
  - subst u. rewrite Hstep. split; [by constructor|].
    inversion 1; subst; congruence.
Qed.

(** [matchPattern] accepts exactly the paths its documentation describes,
    segment by segment: literals match themselves, [:param] one segment, and
    [*rest] one or more remaining segments. *)
Theorem matchPattern_spec urlPath pattern :
  matchPattern urlPath pattern = true <-> pmatch (splitPath pattern) (splitPath urlPath).
Proof. apply (match_loop_spec _ [] (splitPath urlPath)). simpl. lia. Qed.

(** ** The registry *)
Section registry.
Variables (method urlPath : string).

(** A registered key that the request hits. *)
Definition candidate (k : RouteKey) : Prop :=
  rk_Method k = method /\ matchPattern urlPath (rk_Pattern k) = true.

Definition spec_le (k k' : RouteKey) : Prop :=
  (countLiteralSegments (rk_Pattern k) <= countLiteralSegments (rk_Pattern k'))%nat.

(** [acc] is a most specific key among those satisfying [P]. *)
Definition is_best (P : RouteKey -> Prop) (acc : option RouteKey) : Prop :=
  match acc with
  | None => forall k, ~ P k
  | Some k => P k /\ forall k', P k' -> spec_le k' k
  end.

Lemma is_best_proper P Q acc : (forall k, P k <-> Q k) -> is_best P acc -> is_best Q acc.
Proof. intros H. unfold is_best. destruct acc; naive_solver. Qed.

Lemma visit_best P acc key :
  is_best P acc ->
  is_best (fun k => P k \/ (k = key /\ candidate k)) (visit method urlPath acc key).
Proof.
  intros Hb. unfold visit, candidate. case_bool_decide as Hm.
  { eapply is_best_proper; [|exact Hb]. intros k. split; [tauto|].
    intros [?|(-> & ? & _)]; [done|congruence]. }
  destruct (matchPattern urlPath (rk_Pattern key)) eqn:Hp.
  2:{ eapply is_best_proper; [|exact Hb]. intros k. split; [tauto|].
      intros [?|(-> & _ & ?)]; [done|congruence]. }
  destruct acc as [k|]; simpl in Hb.
  - destruct Hb as [Hk Hmax]. unfold isMoreSpecific, spec_le in *.
    destruct (_ <? _)%nat eqn:Es; [apply Nat.ltb_lt in Es|apply Nat.ltb_ge in Es]; simpl.
    + split; [auto|]. unfold spec_le. intros k' [Hk'|[-> _]]; [|done].
      specialize (Hmax k' Hk'). lia.
    + split; [auto|]. unfold spec_le. intros k' [Hk'|[-> _]]; auto.
  - simpl. split; [auto|]. unfold spec_le. intros k' [?|[-> _]]; [naive_solver|done].
Qed.

Lemma best_match_best order : is_best (fun k => k ∈ order /\ candidate k) (best_match method urlPath order).
Proof.
  unfold best_match.
  assert (H : forall l P acc, is_best P acc ->
            is_best (fun k => P k \/ (k ∈ l /\ candidate k)) (fold_left (visit method urlPath) l acc)).
  { induction l as [|key l IH]; intros P acc Hb; simpl.
    - eapply is_best_proper; [|exact Hb]. intros k. rewrite elem_of_nil. tauto.
    - eapply is_best_proper; [|apply IH, visit_best, Hb]. intros k. rewrite elem_of_cons. tauto. }
  eapply is_best_proper; [|apply (H order (fun _ => False) None)]; [tauto|]. simpl. tauto.
Qed.

(** A most specific key that is visited first is found. *)
Lemma best_match_first k order :
  candidate k -> (forall k', k' ∈ order -> candidate k' -> spec_le k' k) ->
  best_match method urlPath (k :: order) = Some k.
Proof.
  intros [Hm Hp] Hmax. unfold best_match. cbn [fold_left]. unfold visit at 2.
  rewrite bool_decide_false, Hp by tauto. induction order as [|k' order IH]; [done|]. cbn [fold_left].
  replace (visit method urlPath (Some k) k') with (Some k).
  - apply IH. intros k'' Hin. apply Hmax. by right.
  - symmetry. unfold visit. case_bool_decide; [done|].
    destruct (matchPattern urlPath (rk_Pattern k')) eqn:E; [|done].
    assert (H' : spec_le k' k) by (apply Hmax; [left|split; [tauto|done]]).
    unfold isMoreSpecific, spec_le in *. by rewrite (proj2 (Nat.ltb_ge _ _) H').
Qed.

End registry.

(** The keys in the order of a map iteration. *)
Definition enumerates (order : list RouteKey) (r : RouteVersionRegistry) : Prop :=
  forall k, k ∈ order <-> is_Some (r !! k).

(** The answers agree in all orders exactly when the tied patterns do. *)
Lemma lookup_ties order r method urlPath :
  enumerates order r ->
  let cand k := candidate (ToUpper method) urlPath k /\ is_Some (r !! k) in
  (forall o, enumerates o r -> is_best cand (best_match (ToUpper method) urlPath o)) ->
  (forall order' v, enumerates order' r ->
      Lookup order' method urlPath v r = Lookup order method urlPath v r) <->
  (forall k k', is_best cand (Some k) -> is_best cand (Some k') -> r !! k = r !! k').
Proof.
  intros He cand HB. split.
  - intros HL k k' Hk Hk'.
    assert (HF : forall k, is_best cand (Some k) -> forall v, exists vs, r !! k = Some vs /\
              Lookup order method urlPath v r = (true, bool_decide (v ∈ vs))).
    { clear k k' Hk Hk'. intros k [[Hc [vs Hvs]] Hmax] v. exists vs. split; [done|].
      rewrite <- (HL (k :: order) v).
      - unfold Lookup. rewrite best_match_first; [by rewrite Hvs|done|].
        intros k' Hin Hc'. apply Hmax. split; [done|]. by apply He.
      - intros k'. rewrite elem_of_cons, (He k'). naive_solver. }
    destruct (HF k Hk "") as (vs & E & _), (HF k' Hk' "") as (vs' & E' & _). rewrite E, E'. f_equal.
    apply leibniz_equiv. intros v.
    destruct (HF k Hk v) as (x & Ex & L), (HF k' Hk' v) as (x' & Ex' & L').
    rewrite L in L'. injection L' as L'. simplify_eq.
    rewrite <- (bool_decide_eq_true (v ∈ vs)), <- (bool_decide_eq_true (v ∈ vs')). by rewrite L'.
  - intros Heq order' v He'. unfold Lookup. pose proof (HB order He) as Hb. pose proof (HB order' He') as Hb'.
    destruct (best_match _ _ order) as [k|], (best_match _ _ order') as [k'|]; simpl in Hb, Hb'.
    + by rewrite (Heq k' k).
    + naive_solver.
    + naive_solver.
    + done.
Qed.

(** C22: Whatever the iteration order of the registry, [Lookup] finds an
    endpoint exactly when some pattern registered for the method matches, and
    then answers for a matching pattern with the most literal segments; and
    the answers are the same in every order exactly when all the matching
    patterns with the most literal segments have the same versions. *)
Theorem lookup_most_specific order r method urlPath version :
  enumerates order r ->
  let cand k := candidate (ToUpper method) urlPath k /\ is_Some (r !! k) in
  let '(ex, sup) := Lookup order method urlPath version r in
  (ex = true <-> exists k, cand k) /\
  (ex = true -> exists k vs, cand k /\ r !! k = Some vs /\
     (forall k', cand k' -> spec_le k' k) /\ sup = bool_decide (version ∈ vs)) /\
  ((forall order' v, enumerates order' r ->
      Lookup order' method urlPath v r = Lookup order method urlPath v r) <->
   forall k k', is_best cand (Some k) -> is_best cand (Some k') -> r !! k = r !! k').
Proof.
  intros He cand.
  assert (HB : forall o, enumerates o r -> is_best cand (best_match (ToUpper method) urlPath o)).
  { intros o Ho. eapply is_best_proper; [|apply best_match_best].
    intros k. unfold cand. rewrite (Ho k). tauto. }
  assert (HD : (forall order' v, enumerates order' r ->
      Lookup order' method urlPath v r = Lookup order method urlPath v r) <->
    forall k k', is_best cand (Some k) -> is_best cand (Some k') -> r !! k = r !! k')
    by (by apply lookup_ties).
  destruct (Lookup order method urlPath version r) as [ex sup] eqn:EL.
  enough (H : (ex = true <-> exists k, cand k) /\ (ex = true -> exists k vs, cand k /\ r !! k = Some vs /\
    (forall k', cand k' -> spec_le k' k) /\ sup = bool_decide (version ∈ vs))) by (destruct H; done).
  clear HD. revert EL. unfold Lookup. pose proof (HB order He) as Hb.
  destruct (best_match _ _ order) as [k|]; simpl in Hb; intros [= <- <-]; split.
  - split; [intros _; exists k; apply Hb|done].
  - intros _. destruct Hb as [[Hk [vs Hvs]] Hmax]. exists k, vs. rewrite Hvs. unfold cand. eauto 10.
  - naive_solver.
  - done.
Qed.

(** ** The middleware *)

(** A usable version string: not empty and without a slash. *)
Definition version_ok (v : string) : Prop := v <> "" /\ no_char "/" v = true.

Lemma span_digits_spec s n r :
  span_digits s = (n, r) ->
  exists d, s = d +:+ r /\ str_forallb is_digit d = true /\ String.length d = n.
Proof.
  revert n r. induction s as [|a s IH]; intros n r; simpl; [intros [= <- <-]; by exists ""|].
  destruct (is_digit a) eqn:E.
  - destruct (span_digits s) as [n' r'] eqn:E'. intros [= <- <-].
    destruct (IH _ _ eq_refl) as (d & -> & Hd & Hl). exists (String a d). simpl. rewrite E, Hd, Hl. done.
  - intros [= <- <-]. by exists "".
Qed.

Lemma no_char_app c a b : no_char c (a +:+ b) = no_char c a && no_char c b.
Proof. unfold no_char. induction a as [|x a IH]; simpl; [done|]. by rewrite IH, andb_assoc. Qed.

Lemma no_char_digits d : str_forallb is_digit d = true -> no_char "/" d = true.
Proof.
  unfold no_char. induction d as [|a d IH]; simpl; [done|]. intros [Ha Hd]%andb_true_iff.
  rewrite IH by done. case_bool_decide; [by subst|done].
Qed.

Lemma default_format_ok v : default_format v = true -> version_ok v.
Proof.
  unfold default_format, version_ok. destruct v as [|a s1]; [done|]. case_bool_decide; [|done].
  subst a. split; [done|]. destruct (span_digits s1) as [n r] eqn:E1.
  destruct (n =? 0)%nat; [done|]. apply span_digits_spec in E1 as (d & -> & Hd & _).
  change (no_char "/" (String "v" (d +:+ r))) with (no_char "/" (d +:+ r)).
  rewrite no_char_app, no_char_digits by done. destruct r as [|b s2]; [done|].
  case_bool_decide; [|done]. subst b. destruct (span_digits s2) as [m r2] eqn:E2.
  apply span_digits_spec in E2 as (d2 & -> & Hd2 & _).
  destruct (negb (m =? 0)%nat); [|done]. destruct r2; [|done]. cbn [andb].
  change (no_char "/" (String "b" (d2 +:+ ""))) with (no_char "/" (d2 +:+ "")).
  by rewrite no_char_app, no_char_digits.
Qed.

(** Rewriting a path under [/api] inserts the version after it. *)
Lemma rewritePath_api t v : rewritePath ("/api" +:+ t) v = "/api/" +:+ (v +:+ t).
Proof. unfold rewritePath. by rewrite SplitAfter_tail. Qed.

Lemma splitPath_api s : splitPath ("/api/" +:+ s) = "api" :: splitPath s.
Proof. done. Qed.

(** A version followed by nothing or by a slash is the second segment. *)
Lemma hasVersionPrefix_slash v t :
  version_ok v -> t = "" \/ HasPrefix t "/" = true ->
  hasVersionPrefix ("/api/" +:+ (v +:+ t)) v = true.
Proof.
  intros [Hne Hv] Ht. unfold hasVersionPrefix. rewrite splitPath_api.
  apply bool_decide_eq_true. simpl. unfold splitPath.
  assert (exists l, Split "/" (v +:+ t) = v :: l) as [l ->].
  { destruct Ht as [->|Ht].
    - rewrite str_app_nil_r. rewrite Split_no_sep by done. by exists [].
    - apply HasPrefix_spec in Ht as [t' ->]. simpl. rewrite Split_cons by done. by eexists. }
  by rewrite filter_cons_True.
Qed.

(** *** Readers and the path

    Where a reader answers with the version segment of the path, the request has
    its version already; otherwise it answers as it would without a path. *)
Section strategy_ind.
Context (P : VersionReadingStrategy -> Prop).
Hypothesis header_case : forall name, P (HeaderVersionStrategy name).
Hypothesis query_case : forall name, P (QueryStringVersionStrategy name).
Hypothesis url_case : P URLSegmentVersionStrategy.
Hypothesis composite_case : forall l, Forall P l -> P (CompositeVersionStrategy l).

Fixpoint strategy_ind (s : VersionReadingStrategy) : P s :=
  match s with
  | HeaderVersionStrategy name => header_case name
  | QueryStringVersionStrategy name => query_case name
  | URLSegmentVersionStrategy => url_case
  | CompositeVersionStrategy l =>
      composite_case l
        ((fix all (l : list VersionReadingStrategy) : Forall P l :=
            match l with [] => Forall_nil_2 P | s :: l' => Forall_cons_2 P s l' (strategy_ind s) (all l') end) l)
  end.
End strategy_ind.

Definition reads_path {X} (s : VersionReadingStrategy) (c : request X) : Prop :=
  exists v, ReadVersion s c = Some v /\ read_url_segment (rq_Path c) = Some v.

Lemma ReadVersion_cases {X} s (c : request X) :
  reads_path s c \/ ReadVersion s c = ReadVersion s (with_path "" c).
Proof.
  unfold reads_path. induction s as [name|name| |l IH] using strategy_ind; try (by right).
  - simpl. destruct (read_url_segment (rq_Path c)) as [v|]; [left; by exists v|by right].
  - induction IH as [|s l Hs _ IHl]; [by right|]. cbn [ReadVersion] in *.
    destruct Hs as [(v & Hv & Hu)|Hs]; [left; rewrite Hv; by exists v|].
    rewrite Hs. destruct (ReadVersion s (with_path "" c)); [by right|exact IHl].
Qed.

(** What precedes the first slash. *)
Lemma SplitN2_head t : exists rest, SplitN2 t "/" = hd "" (Split "/" t) :: rest.
Proof.
  unfold SplitN2. destruct (Split "/" t) as [|w ws] eqn:E; [by destruct (Split_nonempty "/" t)|].
  pose proof (Split_no_char "/" t) as Hn. pose proof (Join_Split "/" t) as Hj. rewrite E in Hn, Hj.
  apply Forall_cons in Hn as [Hw _]. destruct ws as [|w' ws].
  - change (w = t) in Hj. subst w. destruct (str_cut "/" t) as [[a b]|] eqn:Ec; [|by eexists].
    apply str_cut_char_inv in Ec as [-> _]. rewrite no_char_app in Hw. simpl in Hw. by rewrite andb_false_r in Hw.
  - rewrite <- Hj. change (Join (w :: w' :: ws) "/") with (w +:+ String "/" (Join (w' :: ws) "/")).
    rewrite str_cut_char by done. by eexists.
Qed.

(** The version segment of a path under [/api/] is its second segment. *)
Lemma url_segment_prefix path v :
  read_url_segment path = Some v -> v <> "" /\ hasVersionPrefix path v = true.
Proof.
  unfold read_url_segment. destruct (HasPrefix path "/api/") eqn:Hp; [|done].
  apply HasPrefix_spec in Hp as [t ->]. rewrite TrimPrefix_app. simpl negb. cbn iota.
  unfold hasVersionPrefix. rewrite splitPath_api, bool_decide_eq_true. simpl.
  destruct (SplitN2_head t) as [rest ->].
  destruct (version_segment (hd "" (Split "/" t))) eqn:Hv; [|done]. intros [= <-].
  assert (hd "" (Split "/" t) <> "") as Hne by (intros E; by rewrite E in Hv). split; [done|].
  unfold splitPath. destruct (Split "/" t) as [|w ws]; [done|]. by rewrite filter_cons_True.
Qed.

Section serve.
Context {X : Type} (orders : nat -> scans) (cfg : Config) (registry : option RouteVersionRegistry).

Hypothesis format_ok : forall v, VersionFormat cfg v = true -> version_ok v.

(** The version of a request on another path: the version segment of that
    path, or the same as without a path. *)
Lemma requested_version_cases (c : request X) :
  (exists v, requested_version cfg c = Some v /\ read_url_segment (rq_Path c) = Some v) \/
  requested_version cfg c = requested_version cfg (with_path "" c).
Proof.
  destruct (ReadVersion_cases (reader cfg) c) as [(v & Hr & Hu)|Hr]; unfold requested_version.
  - left. exists v. rewrite Hr, Hu. destruct (url_segment_prefix _ _ Hu). by rewrite bool_decide_false.
  - right. by rewrite Hr.
Qed.

Lemma shouldVersion_api method path t :
  shouldVersionRoute method path = true -> shouldVersionRoute method ("/api/" +:+ t) = true.
Proof.
  unfold shouldVersionRoute. intros H.
  assert (bool_decide (method = "OPTIONS") = false) as ->.
  { destruct (bool_decide (method = "OPTIONS")); [|done]. by rewrite !orb_true_r in H. }
  change (HasPrefix ("/api/" +:+ t) "/api") with (HasPrefix ("/api" +:+ String "/" t) "/api").
  rewrite HasPrefix_app. repeat (rewrite bool_decide_false by done). done.
Qed.

(** How a pass over a versioned route ends. *)
Lemma pass_versioned o (c : request X) v :
  shouldVersionRoute (rq_Method c) (rq_Path c) = true -> requested_version cfg c = Some v ->
  match snd (pass o cfg registry c) with
  | Dispatch => VersionFormat cfg v = true /\ hasVersionPrefix (rq_Path c) v = true /\
      (forall r, registry = Some r ->
         Lookup (fst o) (rq_Method c) (extractBasePathForLookup (rq_Path c)) v r <> (true, false))
  | Problem _ => True
  | Rewrite p => VersionFormat cfg v = true /\ hasVersionPrefix (rq_Path c) v = false /\
      p = rewritePath (rq_Path c) v
  end.
Proof.
  intros Hs Hv. unfold pass. rewrite Hs, Hv. simpl.
  destruct (VersionFormat cfg v) eqn:Ef; simpl; [|done].
  destruct (registry_check o cfg registry c v) as [rep|e] eqn:Er; [|done].
  destruct (hasVersionPrefix (rq_Path c) v) eqn:Eh; simpl; [|done].
  split_and!; [done|done|]. intros r ->. unfold registry_check in Er.
  destruct (Lookup _ _ _ _ _) as [[] []]; simpl in Er; congruence.
Qed.

Lemma should_api (c : request X) :
  shouldVersionRoute (rq_Method c) (rq_Path c) = true -> exists t, rq_Path c = "/api" +:+ t.
Proof.
  unfold shouldVersionRoute. intros H. case_match; [done|]. by apply HasPrefix_spec.
Qed.

(** A request that is rewritten takes its version from elsewhere. *)
Lemma rewritten_version (c : request X) v :
  requested_version cfg c = Some v -> hasVersionPrefix (rq_Path c) v = false ->
  requested_version cfg (with_path "" c) = Some v.
Proof.
  intros Hv Hp. destruct (requested_version_cases c) as [(v' & Hv' & Hu)|<-]; [|done].
  apply url_segment_prefix in Hu as [_ Hu]. congruence.
Qed.

(** A pass on a rewritten path: its version is the old one or the path's. *)
Lemma rewritten_pass (c : request X) v p :
  requested_version cfg (with_path "" c) = Some v ->
  exists v', requested_version cfg (with_path p c) = Some v' /\
    (v' = v \/ read_url_segment p = Some v').
Proof.
  intros Hv. destruct (requested_version_cases (with_path p c)) as [(v' & Hv' & Hu)|Hr].
  - exists v'. auto.
  - exists v. split; [by rewrite Hr|by left].
Qed.

(** The outcome of a request to a versioned route with version [v]. *)
Definition settled (v : string) (c c' : request X) (e : ending) : Prop :=
  match e with
  | Rewrite _ => False
  | Problem _ => True
  | Dispatch => VersionFormat cfg v = true /\ hasVersionPrefix (rq_Path c') v = true /\
      rq_Method c' = rq_Method c /\
      forall r, registry = Some r -> exists k,
        Lookup (fst (orders k)) (rq_Method c) (extractBasePathForLookup (rq_Path c')) v r <> (true, false)
  end.

Lemma serve_prefixed n (c : request X) v :
  shouldVersionRoute (rq_Method c) (rq_Path c) = true -> requested_version cfg c = Some v ->
  (VersionFormat cfg v = true -> hasVersionPrefix (rq_Path c) v = true) ->
  exists e, serve orders (S n) cfg registry c = Some (c, e) /\ settled v c c e.
Proof.
  intros Hs Hv Hp. pose proof (pass_versioned (orders n) c v Hs Hv) as H. simpl.
  destruct (snd (pass (orders n) cfg registry c)) as [|d|p].
  - destruct H as (? & ? & ?). eexists. split; [done|]. simpl. eauto 10.
  - by eexists.
  - destruct H as (Hf & Hn & _). rewrite (Hp Hf) in Hn. done.
Qed.

Lemma serve_unversioned n (c : request X) :
  shouldVersionRoute (rq_Method c) (rq_Path c) = false \/ requested_version cfg c = None ->
  exists e, serve orders (S n) cfg registry c = Some (c, e) /\
    e = if shouldVersionRoute (rq_Method c) (rq_Path c) then Problem "Missing API version"
        else Dispatch.
Proof.
  simpl. unfold pass. destruct (shouldVersionRoute _ _); simpl; [|by eexists].
  intros [H|H]; [done|]. rewrite H. by eexists.
Qed.

Lemma with_path_fold (c : request X) p q : with_path p (with_path q c) = with_path p c.
Proof. done. Qed.

(** The path after the rewrites with version [v]. *)
Definition rewritten (v path path' : string) : Prop :=
  exists t u, path = "/api" +:+ t /\ path' = "/api/" +:+ (v +:+ (u +:+ t)) /\
    (u = "" \/ (u = "/" +:+ v /\ t <> "" /\ HasPrefix t "/" = false)).

(** A request whose path has the version after [/api/] settles at once. *)
Lemma serve_rewritten n (c : request X) v t :
  shouldVersionRoute (rq_Method c) (rq_Path c) = true -> VersionFormat cfg v = true ->
  requested_version cfg (with_path "" c) = Some v -> t = "" \/ HasPrefix t "/" = true ->
  let c1 := with_path ("/api/" +:+ (v +:+ t)) c in
  exists v' e, serve orders (S n) cfg registry c1 = Some (c1, e) /\
    requested_version cfg c1 = Some v' /\ settled v' c c1 e /\
    (v' = v \/ read_url_segment (rq_Path c1) = Some v').
Proof.
  intros Hs Hf Hv Ht c1.
  destruct (rewritten_pass c v ("/api/" +:+ (v +:+ t)) Hv) as (v' & Hv1 & Hsame). fold c1 in Hv1.
  destruct (serve_prefixed n c1 v' (shouldVersion_api _ _ _ Hs) Hv1) as (e & He & Hse).
  { intros _. destruct Hsame as [->|Hu]; [by apply hasVersionPrefix_slash; [apply format_ok|]|].
    by apply url_segment_prefix in Hu as [_ ?]. }
  by exists v', e.
Qed.

(** C23: Rewriting terminates, for every reader of the package, when the
    version format admits no empty version and no slash, as the default one
    does: at most two rewrites happen, so three passes settle every request.  A
    request to a versioned route reaches a handler only with a well-formed
    version as its second path segment, and only if a lookup of its path did
    not find the endpoint without that version, whatever order each scan takes;
    that version is the one the request asked for, or the version segment of
    the path it reaches the handler with. *)
Theorem serve_settles n (c : request X) :
  exists c' e, serve orders (3 + n) cfg registry c = Some (c', e) /\
    if shouldVersionRoute (rq_Method c) (rq_Path c) then
      match requested_version cfg c with
      | None => c' = c /\ e = Problem "Missing API version"
      | Some v => exists v', requested_version cfg c' = Some v' /\ settled v' c c' e /\
          (v' = v \/ read_url_segment (rq_Path c') = Some v') /\
          (c' = c \/ rewritten v (rq_Path c) (rq_Path c'))
      end
    else c' = c /\ e = Dispatch.
Proof.
  destruct (shouldVersionRoute (rq_Method c) (rq_Path c)) eqn:Hs.
  2:{ destruct (serve_unversioned (2 + n) c) as (e & He & ->); [auto|]. rewrite Hs in He. eauto. }
  destruct (requested_version cfg c) as [v|] eqn:Hv.
  2:{ destruct (serve_unversioned (2 + n) c) as (e & He & ->); [auto|]. rewrite Hs in He. eauto. }
  pose proof (pass_versioned (orders (S (S n))) c v Hs Hv) as H1. cbn [serve Nat.add].
  destruct (snd (pass (orders (S (S n))) cfg registry c)) as [|d|p].
  - destruct H1 as (? & ? & ?). eexists _, _. split; [done|]. exists v. split_and!; simpl; eauto 10.
  - eexists _, _. split; [done|]. exists v. split_and!; simpl; auto.
  - destruct H1 as (Hf & Hp & ->). destruct (should_api c Hs) as [t Ht]. rewrite Ht, rewritePath_api.
    pose proof (rewritten_version c v Hv Hp) as Hb. unfold rewritten.
    destruct (decide (t = "" \/ HasPrefix t "/" = true)) as [Hsl|Hsl].
    { destruct (serve_rewritten (S n) c v t Hs Hf Hb Hsl) as (v' & e & He & Hv' & Hse & Hwhy).
      eexists _, e. split; [exact He|]. exists v'. split_and!; try done. right. exists t, "". auto. }
    set (c1 := with_path ("/api/" +:+ (v +:+ t)) c).
    destruct (rewritten_pass c v ("/api/" +:+ (v +:+ t)) Hb) as (v1 & Hv1 & Hw1). fold c1 in Hv1.
    pose proof (pass_versioned (orders (S n)) c1 v1 (shouldVersion_api _ _ _ Hs) Hv1) as H2.
    destruct (snd (pass (orders (S n)) cfg registry c1)) as [|d|p].
    + destruct H2 as (? & ? & ?). eexists _, _. split; [done|]. exists v1. split_and!; simpl; eauto 10.
      right. exists t, "". auto.
    + eexists _, _. split; [done|]. exists v1. split_and!; simpl; auto. right. exists t, "". auto.
    + destruct H2 as (_ & Hp1 & ->). destruct Hw1 as [->|Hu].
      2:{ apply url_segment_prefix in Hu as [_ Hu]. change (hasVersionPrefix (rq_Path c1) v1 = true) in Hu. congruence. }
      change (rq_Path c1) with ("/api" +:+ ("/" +:+ (v +:+ t))). rewrite rewritePath_api. unfold c1. rewrite with_path_fold.
      destruct (serve_rewritten n c v ("/" +:+ (v +:+ t)) Hs Hf Hb) as (v' & e & He & Hv' & Hse & Hwhy);
        [right; apply (HasPrefix_app "/")|].
      eexists _, e. split; [exact He|]. exists v'. split_and!; try done. right. exists t, ("/" +:+ v).
      split_and!; [done|done|]. right. split_and!; [done|tauto|]. apply not_true_is_false. tauto.
Qed.

End serve.

(** No path has a segment with a slash. *)
Lemma hasVersionPrefix_no_slash path v : hasVersionPrefix path v = true -> no_char "/" v = true.
Proof.
  unfold hasVersionPrefix, splitPath. rewrite bool_decide_eq_true. intros Hv%list_elem_of_lookup_2.
  apply list_elem_of_filter in Hv as [_ Hv]. pose proof (Split_no_char "/" path) as H.
  rewrite Forall_forall in H. by apply H.
Qed.

(** Where the format does admit a version with a slash, and the reader takes it
    from a header, the request is rewritten and dispatched again for ever: no
    number of passes settles it. *)
Theorem slash_version_loops {X} orders cfg name v fuel (c : request X) :
  Reader cfg = Some (HeaderVersionStrategy name) -> rq_GetHeader c name = v -> v <> "" ->
  VersionFormat cfg v = true -> no_char "/" v = false ->
  shouldVersionRoute (rq_Method c) (rq_Path c) = true ->
  serve orders fuel cfg None c = None.
Proof.
  intros Hr Hh Hne Hf Hs. revert c Hh. induction fuel as [|fuel IH]; intros c Hh Hroute; [done|].
  assert (Hv : requested_version cfg c = Some v).
  { unfold requested_version, reader. rewrite Hr. simpl. rewrite Hh. rewrite bool_decide_true by done.
    by rewrite bool_decide_false. }
  pose proof (pass_versioned cfg None (orders fuel) c v Hroute Hv) as H. cbn [serve].
  destruct (should_api c Hroute) as [t Ht]. revert H. unfold pass. rewrite Hroute, Hv. simpl. rewrite Hf. simpl.
  destruct (hasVersionPrefix (rq_Path c) v) eqn:Hp; [apply hasVersionPrefix_no_slash in Hp; congruence|].
  intros _. simpl. rewrite Ht, rewritePath_api. apply IH; [done|]. by eapply shouldVersion_api.
Qed.

(** *** Concrete services *)
Definition domains : RouteVersionRegistry :=
  Register "POST" "/domains" "v2" (Register "POST" "/domains" "v1"
  (Register "GET" "/domains/:id" "v1" NewRouteVersionRegistry)).
Definition domains_order : list RouteKey := map fst (map_to_list domains).

Definition version_request (method path version : string) : request unit :=
  {| rq_Method := method; rq_Path := path;
     rq_GetHeader := fun k => if bool_decide (k = "x-version") then version else "";
     rq_HasHeader := fun k => bool_decide (k = "x-version"); rq_Query := fun _ => "";
     rq_Param := fun _ => ""; rq_ClientIP := ""; rq_HandlerNames := []; rq_keys := ∅; rq_now := 0 |}.

Definition outcome_of (method path version : string) : option (string * ending) :=
  match serve (fun _ => (domains_order, domains_order)) 3 DefaultConfig (Some domains) (version_request method path version) with
  | Some (c, e) => Some (rq_Path c, e)
  | None => None
  end.

Example serve_v2 : outcome_of "POST" "/api/domains" "v2" = Some ("/api/v2/domains", Dispatch).
Proof. vm_compute. reflexivity. Qed.
Example serve_v2_unsupported :
  outcome_of "GET" "/api/domains/test.net" "v2"
  = Some ("/api/domains/test.net", Problem "Unsupported API version").
Proof. vm_compute. reflexivity. Qed.
(** A path that merely starts with the letters of [/api] is rewritten too. *)
Example serve_apiary : outcome_of "GET" "/apiary" "v1" = Some ("/api/v1/v1ary", Dispatch).
Proof. vm_compute. reflexivity. Qed.
(** A resource whose name starts with [v] is taken for a version. *)
Example base_path_vendors : extractBasePathForLookup "/api/vendors/7" = "/7".
Proof. vm_compute. reflexivity. Qed.
Example url_segment_vendors : read_url_segment "/api/vendors" = Some "vendors".
Proof. vm_compute. reflexivity. Qed.

(** Patterns with equally many literals: the answer depends on the iteration
    order of the map. *)
Definition tie_a : RouteKey := {| rk_Method := "GET"; rk_Pattern := "/a/:x" |}.
Definition tie_b : RouteKey := {| rk_Method := "GET"; rk_Pattern := "/:y/b" |}.
Definition tied : RouteVersionRegistry :=
  Register "GET" "/a/:x" "v1" (Register "GET" "/:y/b" "v2" NewRouteVersionRegistry).
Example lookup_tie_order :
  Lookup [tie_a; tie_b] "GET" "/a/b" "v1" tied = (true, true) /\
  Lookup [tie_b; tie_a] "GET" "/a/b" "v1" tied = (true, false).
Proof. split; vm_compute; reflexivity. Qed.

Lemma lookup_most_specific_witness :
  let cand k := candidate (ToUpper "post") "/domains" k /\ is_Some (domains !! k) in
  let '(ex, sup) := Lookup domains_order "post" "/domains" "v2" domains in
  (ex = true <-> exists k, cand k) /\
  (ex = true -> exists k vs, cand k /\ domains !! k = Some vs /\
     (forall k', cand k' -> spec_le k' k) /\ sup = bool_decide ("v2" ∈ vs)) /\
  ((forall order' v, enumerates order' domains ->
      Lookup order' "post" "/domains" v domains = Lookup domains_order "post" "/domains" v domains) <->
   forall k k', is_best cand (Some k) -> is_best cand (Some k') -> domains !! k = domains !! k').
Proof.
  apply (lookup_most_specific domains_order domains "post" "/domains" "v2").
  intros k. unfold domains_order. rewrite list_elem_of_fmap. split.
  - intros ([k' vs] & -> & Hin). apply elem_of_map_to_list in Hin. by exists vs.
  - intros [vs Hvs]. exists (k, vs). split; [done|]. by apply elem_of_map_to_list.
Defined.

(** A reader of the URL segment, then of the header. *)
Definition composite_config : Config :=
  {| DefaultVersion := "v1"; AssumeDefaultVersionWhenUnspecified := true; ReportApiVersions := true;
     Reader := Some (CompositeVersionStrategy [URLSegmentVersionStrategy; HeaderVersionStrategy "x-version"]);
     VersionFormat := default_format |}.

Lemma serve_settles_witness :
  exists c' e v', serve (fun _ => (domains_order, domains_order)) 3 composite_config (Some domains)
                    (version_request "POST" "/api/domains" "v2") = Some (c', e) /\
    settled (fun _ => (domains_order, domains_order)) composite_config (Some domains) v'
      (version_request "POST" "/api/domains" "v2") c' e.
Proof.
  destruct (serve_settles (fun _ => (domains_order, domains_order)) composite_config (Some domains)
              default_format_ok 0 (version_request "POST" "/api/domains" "v2")) as (c' & e & He & H).
  assert (Hs : shouldVersionRoute "POST" "/api/domains" = true) by (vm_compute; reflexivity).
  change (rq_Method _) with "POST" in H. change (rq_Path (version_request _ _ _)) with "/api/domains" in H.
  rewrite Hs in H. change (requested_version _ (version_request _ _ _)) with (Some "v2") in H. destruct H as (v' & _ & H & _).
  exists c', e, v'. split; [exact He|exact H].
Defined.

(** A format that is not anchored accepts a version with a slash. *)
Definition unanchored_config : Config :=
  {| DefaultVersion := "v1"; AssumeDefaultVersionWhenUnspecified := false; ReportApiVersions := false;
     Reader := Some (HeaderVersionStrategy "x-version"); VersionFormat := fun v => HasPrefix v "v1" |}.

Lemma slash_version_loops_witness fuel :
  serve (fun _ => ([], [])) fuel unanchored_config None (version_request "GET" "/api/domains" "v1/x") = None.
Proof. by apply (slash_version_loops _ _ "x-version" "v1/x"). Defined.
