(* ===== verification/GoStrconv.v ===== *)
(** * The Go standard library: [strconv.Quote] and [strconv.FormatFloat]

    The text of [%q] on strings and of [%v] on [float64], as the error messages
    of the search package use them, and that a quoted text can be read back
    from the front of any message. *)
From Stdlib Require Import SpecFloat.
From S2P Require Import Prelude GoUnicode GoStrings GoCrypto.

Local Open Scope string_scope.
Local Open Scope Z_scope.
Local Open Scope list_scope.

(** ** Printable characters *)

(** [strconv.IsPrint] above Latin-1: letters, marks, numbers, punctuation and
    symbols of Unicode 15.0. *)
Definition print_table : list (Z * Z) :=
  [(256, 887); (890, 895); (900, 906); (908, 908); (910, 929); (931, 1327); (1329, 1366);
   (1369, 1418); (1421, 1423); (1425, 1479); (1488, 1514); (1519, 1524); (1542, 1563);
   (1565, 1756); (1758, 1805); (1808, 1866); (1869, 1969); (1984, 2042); (2045, 2093);
   (2096, 2110); (2112, 2139); (2142, 2142); (2144, 2154); (2160, 2190); (2200, 2273);
   (2275, 2435); (2437, 2444); (2447, 2448); (2451, 2472); (2474, 2480); (2482, 2482);
   (2486, 2489); (2492, 2500); (2503, 2504); (2507, 2510); (2519, 2519); (2524, 2525);
   (2527, 2531); (2534, 2558); (2561, 2563); (2565, 2570); (2575, 2576); (2579, 2600);
   (2602, 2608); (2610, 2611); (2613, 2614); (2616, 2617); (2620, 2620); (2622, 2626);
   (2631, 2632); (2635, 2637); (2641, 2641); (2649, 2652); (2654, 2654); (2662, 2678);
   (2689, 2691); (2693, 2701); (2703, 2705); (2707, 2728); (2730, 2736); (2738, 2739);
   (2741, 2745); (2748, 2757); (2759, 2761); (2763, 2765); (2768, 2768); (2784, 2787);
   (2790, 2801); (2809, 2815); (2817, 2819); (2821, 2828); (2831, 2832); (2835, 2856);
   (2858, 2864); (2866, 2867); (2869, 2873); (2876, 2884); (2887, 2888); (2891, 2893);
   (2901, 2903); (2908, 2909); (2911, 2915); (2918, 2935); (2946, 2947); (2949, 2954);
   (2958, 2960); (2962, 2965); (2969, 2970); (2972, 2972); (2974, 2975); (2979, 2980);
   (2984, 2986); (2990, 3001); (3006, 3010); (3014, 3016); (3018, 3021); (3024, 3024);
   (3031, 3031); (3046, 3066); (3072, 3084); (3086, 3088); (3090, 3112); (3114, 3129);
   (3132, 3140); (3142, 3144); (3146, 3149); (3157, 3158); (3160, 3162); (3165, 3165);
   (3168, 3171); (3174, 3183); (3191, 3212); (3214, 3216); (3218, 3240); (3242, 3251);
   (3253, 3257); (3260, 3268); (3270, 3272); (3274, 3277); (3285, 3286); (3293, 3294);
   (3296, 3299); (3302, 3311); (3313, 3315); (3328, 3340); (3342, 3344); (3346, 3396);
   (3398, 3400); (3402, 3407); (3412, 3427); (3430, 3455); (3457, 3459); (3461, 3478);
   (3482, 3505); (3507, 3515); (3517, 3517); (3520, 3526); (3530, 3530); (3535, 3540);
   (3542, 3542); (3544, 3551); (3558, 3567); (3570, 3572); (3585, 3642); (3647, 3675);
   (3713, 3714); (3716, 3716); (3718, 3722); (3724, 3747); (3749, 3749); (3751, 3773);
   (3776, 3780); (3782, 3782); (3784, 3790); (3792, 3801); (3804, 3807); (3840, 3911);
   (3913, 3948); (3953, 3991); (3993, 4028); (4030, 4044); (4046, 4058); (4096, 4293);
   (4295, 4295); (4301, 4301); (4304, 4680); (4682, 4685); (4688, 4694); (4696, 4696);
   (4698, 4701); (4704, 4744); (4746, 4749); (4752, 4784); (4786, 4789); (4792, 4798);
   (4800, 4800); (4802, 4805); (4808, 4822); (4824, 4880); (4882, 4885); (4888, 4954);
   (4957, 4988); (4992, 5017); (5024, 5109); (5112, 5117); (5120, 5759); (5761, 5788);
   (5792, 5880); (5888, 5909); (5919, 5942); (5952, 5971); (5984, 5996); (5998, 6000);
   (6002, 6003); (6016, 6109); (6112, 6121); (6128, 6137); (6144, 6157); (6159, 6169);
   (6176, 6264); (6272, 6314); (6320, 6389); (6400, 6430); (6432, 6443); (6448, 6459);
   (6464, 6464); (6468, 6509); (6512, 6516); (6528, 6571); (6576, 6601); (6608, 6618);
   (6622, 6683); (6686, 6750); (6752, 6780); (6783, 6793); (6800, 6809); (6816, 6829);
   (6832, 6862); (6912, 6988); (6992, 7038); (7040, 7155); (7164, 7223); (7227, 7241);
   (7245, 7304); (7312, 7354); (7357, 7367); (7376, 7418); (7424, 7957); (7960, 7965);
   (7968, 8005); (8008, 8013); (8016, 8023); (8025, 8025); (8027, 8027); (8029, 8029);
   (8031, 8061); (8064, 8116); (8118, 8132); (8134, 8147); (8150, 8155); (8157, 8175);
   (8178, 8180); (8182, 8190); (8208, 8231); (8240, 8286); (8304, 8305); (8308, 8334);
   (8336, 8348); (8352, 8384); (8400, 8432); (8448, 8587); (8592, 9254); (9280, 9290);
   (9312, 11123); (11126, 11157); (11159, 11507); (11513, 11557); (11559, 11559); (11565, 11565);
   (11568, 11623); (11631, 11632); (11647, 11670); (11680, 11686); (11688, 11694);
   (11696, 11702); (11704, 11710); (11712, 11718); (11720, 11726); (11728, 11734);
   (11736, 11742); (11744, 11869); (11904, 11929); (11931, 12019); (12032, 12245);
   (12272, 12283); (12289, 12351); (12353, 12438); (12441, 12543); (12549, 12591);
   (12593, 12686); (12688, 12771); (12784, 12830); (12832, 42124); (42128, 42182);
   (42192, 42539); (42560, 42743); (42752, 42954); (42960, 42961); (42963, 42963);
   (42965, 42969); (42994, 43052); (43056, 43065); (43072, 43127); (43136, 43205);
   (43214, 43225); (43232, 43347); (43359, 43388); (43392, 43469); (43471, 43481);
   (43486, 43518); (43520, 43574); (43584, 43597); (43600, 43609); (43612, 43714);
   (43739, 43766); (43777, 43782); (43785, 43790); (43793, 43798); (43808, 43814);
   (43816, 43822); (43824, 43883); (43888, 44013); (44016, 44025); (44032, 55203);
   (55216, 55238); (55243, 55291); (63744, 64109); (64112, 64217); (64256, 64262);
   (64275, 64279); (64285, 64310); (64312, 64316); (64318, 64318); (64320, 64321);
   (64323, 64324); (64326, 64450); (64467, 64911); (64914, 64967); (64975, 64975);
   (65008, 65049); (65056, 65106); (65108, 65126); (65128, 65131); (65136, 65140);
   (65142, 65276); (65281, 65470); (65474, 65479); (65482, 65487); (65490, 65495);
   (65498, 65500); (65504, 65510); (65512, 65518); (65532, 65533); (65536, 65547);
   (65549, 65574); (65576, 65594); (65596, 65597); (65599, 65613); (65616, 65629);
   (65664, 65786); (65792, 65794); (65799, 65843); (65847, 65934); (65936, 65948);
   (65952, 65952); (66000, 66045); (66176, 66204); (66208, 66256); (66272, 66299);
   (66304, 66339); (66349, 66378); (66384, 66426); (66432, 66461); (66463, 66499);
   (66504, 66517); (66560, 66717); (66720, 66729); (66736, 66771); (66776, 66811);
   (66816, 66855); (66864, 66915); (66927, 66938); (66940, 66954); (66956, 66962);
   (66964, 66965); (66967, 66977); (66979, 66993); (66995, 67001); (67003, 67004);
   (67072, 67382); (67392, 67413); (67424, 67431); (67456, 67461); (67463, 67504);
   (67506, 67514); (67584, 67589); (67592, 67592); (67594, 67637); (67639, 67640);
   (67644, 67644); (67647, 67669); (67671, 67742); (67751, 67759); (67808, 67826);
   (67828, 67829); (67835, 67867); (67871, 67897); (67903, 67903); (67968, 68023);
   (68028, 68047); (68050, 68099); (68101, 68102); (68108, 68115); (68117, 68119);
   (68121, 68149); (68152, 68154); (68159, 68168); (68176, 68184); (68192, 68255);
   (68288, 68326); (68331, 68342); (68352, 68405); (68409, 68437); (68440, 68466);
   (68472, 68497); (68505, 68508); (68521, 68527); (68608, 68680); (68736, 68786);
   (68800, 68850); (68858, 68903); (68912, 68921); (69216, 69246); (69248, 69289);
   (69291, 69293); (69296, 69297); (69373, 69415); (69424, 69465); (69488, 69513);
   (69552, 69579); (69600, 69622); (69632, 69709); (69714, 69749); (69759, 69820);
   (69822, 69826); (69840, 69864); (69872, 69881); (69888, 69940); (69942, 69959);
   (69968, 70006); (70016, 70111); (70113, 70132); (70144, 70161); (70163, 70209);
   (70272, 70278); (70280, 70280); (70282, 70285); (70287, 70301); (70303, 70313);
   (70320, 70378); (70384, 70393); (70400, 70403); (70405, 70412); (70415, 70416);
   (70419, 70440); (70442, 70448); (70450, 70451); (70453, 70457); (70459, 70468);
   (70471, 70472); (70475, 70477); (70480, 70480); (70487, 70487); (70493, 70499);
   (70502, 70508); (70512, 70516); (70656, 70747); (70749, 70753); (70784, 70855);
   (70864, 70873); (71040, 71093); (71096, 71133); (71168, 71236); (71248, 71257);
   (71264, 71276); (71296, 71353); (71360, 71369); (71424, 71450); (71453, 71467);
   (71472, 71494); (71680, 71739); (71840, 71922); (71935, 71942); (71945, 71945);
   (71948, 71955); (71957, 71958); (71960, 71989); (71991, 71992); (71995, 72006);
   (72016, 72025); (72096, 72103); (72106, 72151); (72154, 72164); (72192, 72263);
   (72272, 72354); (72368, 72440); (72448, 72457); (72704, 72712); (72714, 72758);
   (72760, 72773); (72784, 72812); (72816, 72847); (72850, 72871); (72873, 72886);
   (72960, 72966); (72968, 72969); (72971, 73014); (73018, 73018); (73020, 73021);
   (73023, 73031); (73040, 73049); (73056, 73061); (73063, 73064); (73066, 73102);
   (73104, 73105); (73107, 73112); (73120, 73129); (73440, 73464); (73472, 73488);
   (73490, 73530); (73534, 73561); (73648, 73648); (73664, 73713); (73727, 74649);
   (74752, 74862); (74864, 74868); (74880, 75075); (77712, 77810); (77824, 78895);
   (78912, 78933); (82944, 83526); (92160, 92728); (92736, 92766); (92768, 92777);
   (92782, 92862); (92864, 92873); (92880, 92909); (92912, 92917); (92928, 92997);
   (93008, 93017); (93019, 93025); (93027, 93047); (93053, 93071); (93760, 93850);
   (93952, 94026); (94031, 94087); (94095, 94111); (94176, 94180); (94192, 94193);
   (94208, 100343); (100352, 101589); (101632, 101640); (110576, 110579); (110581, 110587);
   (110589, 110590); (110592, 110882); (110898, 110898); (110928, 110930); (110933, 110933);
   (110948, 110951); (110960, 111355); (113664, 113770); (113776, 113788); (113792, 113800);
   (113808, 113817); (113820, 113823); (118528, 118573); (118576, 118598); (118608, 118723);
   (118784, 119029); (119040, 119078); (119081, 119154); (119163, 119274); (119296, 119365);
   (119488, 119507); (119520, 119539); (119552, 119638); (119648, 119672); (119808, 119892);
   (119894, 119964); (119966, 119967); (119970, 119970); (119973, 119974); (119977, 119980);
   (119982, 119993); (119995, 119995); (119997, 120003); (120005, 120069); (120071, 120074);
   (120077, 120084); (120086, 120092); (120094, 120121); (120123, 120126); (120128, 120132);
   (120134, 120134); (120138, 120144); (120146, 120485); (120488, 120779); (120782, 121483);
   (121499, 121503); (121505, 121519); (122624, 122654); (122661, 122666); (122880, 122886);
   (122888, 122904); (122907, 122913); (122915, 122916); (122918, 122922); (122928, 122989);
   (123023, 123023); (123136, 123180); (123184, 123197); (123200, 123209); (123214, 123215);
   (123536, 123566); (123584, 123641); (123647, 123647); (124112, 124153); (124896, 124902);
   (124904, 124907); (124909, 124910); (124912, 124926); (124928, 125124); (125127, 125142);
   (125184, 125259); (125264, 125273); (125278, 125279); (126065, 126132); (126209, 126269);
   (126464, 126467); (126469, 126495); (126497, 126498); (126500, 126500); (126503, 126503);
   (126505, 126514); (126516, 126519); (126521, 126521); (126523, 126523); (126530, 126530);
   (126535, 126535); (126537, 126537); (126539, 126539); (126541, 126543); (126545, 126546);
   (126548, 126548); (126551, 126551); (126553, 126553); (126555, 126555); (126557, 126557);
   (126559, 126559); (126561, 126562); (126564, 126564); (126567, 126570); (126572, 126578);
   (126580, 126583); (126585, 126588); (126590, 126590); (126592, 126601); (126603, 126619);
   (126625, 126627); (126629, 126633); (126635, 126651); (126704, 126705); (126976, 127019);
   (127024, 127123); (127136, 127150); (127153, 127167); (127169, 127183); (127185, 127221);
   (127232, 127405); (127462, 127490); (127504, 127547); (127552, 127560); (127568, 127569);
   (127584, 127589); (127744, 128727); (128732, 128748); (128752, 128764); (128768, 128886);
   (128891, 128985); (128992, 129003); (129008, 129008); (129024, 129035); (129040, 129095);
   (129104, 129113); (129120, 129159); (129168, 129197); (129200, 129201); (129280, 129619);
   (129632, 129645); (129648, 129660); (129664, 129672); (129680, 129725); (129727, 129733);
   (129742, 129755); (129760, 129768); (129776, 129784); (129792, 129938); (129940, 129994);
   (130032, 130041); (131072, 173791); (173824, 177977); (177984, 178205); (178208, 183969);
   (183984, 191456); (194560, 195101); (196608, 201546); (201552, 205743); (917760, 917999)].

Definition IsPrint (r : Z) : bool :=
  if r <=? 255 then in_range 32 126 r || (in_range 161 255 r && negb (r =? 173))
  else existsb (fun lh => in_range lh.1 lh.2 r) print_table.

(** ** [strconv.Quote] *)

(** The [n] low hexadecimal digits of a number, highest first. *)
Fixpoint hex_n (n : nat) (r : Z) : string :=
  match n with
  | O => ""
  | S n' => String (hex_digit (r / 16 ^ Z.of_nat n' mod 16)) (hex_n n' r)
  end.

(** A backslash and a letter. *)
Definition esc (c : ascii) (rest : string) : string := String bslash (String c rest).

(** The control characters with a letter of their own. *)
Definition letter_escapes : list (Z * ascii) :=
  [(7, "a"%char); (8, "b"%char); (12, "f"%char); (10, "n"%char); (13, "r"%char); (9, "t"%char);
   (11, "v"%char)].
Definition letter_of (r : Z) : option ascii :=
  match find (fun kv => kv.1 =? r) letter_escapes with Some (_, c) => Some c | None => None end.

(** [appendEscapedRune] with the double quote; the runes of a string are valid. *)
Definition appendEscapedRune (r : Z) : string :=
  if (r =? 34) || (r =? 92) then esc (GoUnicode.byte_of r) ""
  else if IsPrint r then encode_rune r
  else match letter_of r with
       | Some c => esc c ""
       | None =>
           if (r <? 32) || (r =? 127) then esc "x" (hex_n 2 r)
           else if r <? 65536 then esc "u" (hex_n 4 r)
           else esc "U" (hex_n 8 r)
       end.

(** The body: rune by rune, a byte that starts no valid sequence as [\x].
    [skip] bytes belong to the last rune. *)
Fixpoint quote_skip (skip : nat) (s : string) : string :=
  match s with
  | EmptyString => ""
  | String a s' =>
      match skip with
      | S skip' => quote_skip skip' s'
      | O =>
          let '(r, width) := decode_rune s in
          (if (width =? 1)%nat && (r =? RuneError) then esc "x" (hex_n 2 (Z.of_N (N_of_ascii a)))
           else appendEscapedRune r) +:+ quote_skip (width - 1) s'
      end
  end.
Definition Quote (s : string) : string := String dq (quote_skip 0 s +:+ String dq "").

Example quote_plain : Quote "status" = quote "status".
Proof. vm_compute. done. Qed.
Example quote_controls :
  Quote (String (ascii_of_nat 10) (String dq (String (ascii_of_nat 0) (String (ascii_of_nat 255) "é"))))
  = String dq (esc "n" (esc dq (esc "x" ("00" +:+ esc "x" ("ff" +:+ "é" +:+ String dq ""))))).
Proof. vm_compute. done. Qed.
Example quote_unprintable : Quote (encode_rune 8203 +:+ encode_rune 917505)
  = String dq (esc "u" ("200b" +:+ esc "U" ("000e0001" +:+ String dq ""))).
Proof. vm_compute. done. Qed.

(** ** Reading a quoted text back

    [unquote] reads up to the closing quote: the text and what follows it. *)
Definition hex_val (c : ascii) : Z :=
  default 0 (find (fun n => bool_decide (hex_digit n = c)) (Z_range 16)).
Definition push (p : string) (r : option (string * string)) : option (string * string) :=
  match r with Some (s, t) => Some (p +:+ s, t) | None => None end.
Definition byte_text (n : Z) : string := String (GoUnicode.byte_of n) "".

Definition letter_val (c : ascii) : string :=
  match find (fun kv => bool_decide (kv.2 = c)) letter_escapes with
  | Some (r, _) => byte_text r
  | None => String c ""
  end.

Fixpoint unquote (s : string) : option (string * string) :=
  match s with
  | EmptyString => None
  | String c s1 =>
      if bool_decide (c = dq) then Some ("", s1)
      else if negb (bool_decide (c = bslash)) then push (String c "") (unquote s1)
      else match s1 with
           | EmptyString => None
           | String k s2 =>
               if bool_decide (k = "x"%char) then
                 match s2 with
                 | String h1 (String h0 s3) =>
                     push (byte_text (hex_val h1 * 16 + hex_val h0)) (unquote s3)
                 | _ => None
                 end
               else if bool_decide (k = "u"%char) then
                 match s2 with
                 | String h3 (String h2 (String h1 (String h0 s3))) =>
                     push (encode_rune (((hex_val h3 * 16 + hex_val h2) * 16 + hex_val h1) * 16
                                        + hex_val h0)) (unquote s3)
                 | _ => None
                 end
               else if bool_decide (k = "U"%char) then
                 match s2 with
                 | String h7 (String h6 (String h5 (String h4
                     (String h3 (String h2 (String h1 (String h0 s3))))))) =>
                     push (encode_rune (fold_left (fun acc h => acc * 16 + hex_val h)
                             [h7; h6; h5; h4; h3; h2; h1; h0] 0)) (unquote s3)
                 | _ => None
                 end
               else push (letter_val k) (unquote s2)
           end
  end.

Lemma hex_val_digit n : 0 <= n < 16 -> hex_val (hex_digit n) = n.
Proof.
  intros H. assert (T : forallb (fun n => hex_val (hex_digit n) =? n) (Z_range 16) = true) by done.
  rewrite forallb_elem_of in T. apply Z.eqb_eq, T, Z_range_in. lia.
Qed.
Lemma hex_mod n : hex_val (hex_digit (n mod 16)) = n mod 16.
Proof. apply hex_val_digit, Z.mod_pos_bound. lia. Qed.

Lemma push_app p q r : push (p +:+ q) r = push p (push q r).
Proof. destruct r as [[s t]|]; [|done]. simpl. by rewrite str_app_assoc. Qed.

(** Characters that stand for themselves. *)
Definition plain_char (c : ascii) : bool := negb (bool_decide (c = dq)) && negb (bool_decide (c = bslash)).

Lemma unquote_plain p X : str_forallb plain_char p = true -> unquote (p +:+ X) = push p (unquote X).
Proof.
  induction p as [|c p IH]; cbn [str_forallb].
  { intros _. simpl. destruct (unquote X) as [[s t]|]; done. }
  intros [Hc Hp]%andb_true_iff. unfold plain_char in Hc. apply andb_true_iff in Hc as [H1 H2].
  cbn [String.append unquote]. destruct (bool_decide (c = dq)); [done|]. rewrite H2, IH by done.
  by rewrite <- (push_app (String c "") p).
Qed.

Lemma plain_byte n : 0 <= n < 256 -> n <> 34 -> n <> 92 -> plain_char (GoUnicode.byte_of n) = true.
Proof.
  intros Hn H1 H2. unfold plain_char.
  assert (T : forall c, GoUnicode.byte_of n = c -> n = Z.of_N (N_of_ascii c)).
  { intros c <-. unfold GoUnicode.byte_of. rewrite N_ascii_embedding; lia. }
  rewrite !bool_decide_false; [done|intros ->%T..]; by vm_compute in H1, H2.
Qed.

(** The encoding of a rune that needs no backslash. *)
Lemma plain_encode r : valid_rune r -> r <> 34 -> r <> 92 -> str_forallb plain_char (encode_rune r) = true.
Proof.
  intros V H1 H2. destruct (decide (r < 128)); [|destruct (decide (r < 2048));
    [|destruct (decide (r < 65536))]]; destruct V as [Hv Hs];
    [rewrite encode_1 by lia|rewrite encode_2 by (unfold valid_rune; lia)
    |rewrite encode_3 by (unfold valid_rune; lia)|rewrite encode_4 by (unfold valid_rune; lia)];
    cbn [str_forallb]; rewrite !plain_byte; try done; Z.to_euclidean_division_equations; lia.
Qed.

(** An escape of one letter. *)
Lemma unquote_letter k X :
  k <> "x"%char -> k <> "u"%char -> k <> "U"%char ->
  unquote (esc k "" +:+ X) = push (letter_val k) (unquote X).
Proof.
  intros Hx Hu HU. cbn [esc String.append unquote].
  rewrite (bool_decide_false (k = "x"%char)), (bool_decide_false (k = "u"%char)),
    (bool_decide_false (k = "U"%char)) by done. reflexivity.
Qed.

(** The numeric escapes, on any digits. *)
Lemma unquote_esc_x h1 h0 X :
  unquote (esc "x" (String h1 (String h0 X))) = push (byte_text (hex_val h1 * 16 + hex_val h0)) (unquote X).
Proof. reflexivity. Qed.
Lemma unquote_esc_u h3 h2 h1 h0 X :
  unquote (esc "u" (String h3 (String h2 (String h1 (String h0 X))))) =
  push (encode_rune (((hex_val h3 * 16 + hex_val h2) * 16 + hex_val h1) * 16 + hex_val h0)) (unquote X).
Proof. reflexivity. Qed.
Lemma unquote_esc_U h7 h6 h5 h4 h3 h2 h1 h0 X :
  unquote (esc "U" (String h7 (String h6 (String h5 (String h4
    (String h3 (String h2 (String h1 (String h0 X))))))))) =
  push (encode_rune (fold_left (fun acc h => acc * 16 + hex_val h) [h7; h6; h5; h4; h3; h2; h1; h0] 0))
    (unquote X).
Proof. reflexivity. Qed.
Lemma esc_app k s X : esc k s +:+ X = esc k (s +:+ X).
Proof. done. Qed.

(** The digits of [hex_n] denote the number. *)
Ltac read_digits :=
  cbn [fold_left]; rewrite !hex_mod;
  repeat match goal with |- context [16 ^ Z.of_nat ?n] =>
    let v := eval vm_compute in (16 ^ Z.of_nat n) in change (16 ^ Z.of_nat n) with v end;
  match goal with |- push ?f ?X = push ?g ?X => f_equal end;
  match goal with |- ?f ?v = ?f ?r => f_equal end; Z.to_euclidean_division_equations; lia.

Lemma unquote_x r X : 0 <= r < 256 -> unquote (esc "x" (hex_n 2 r) +:+ X) = push (byte_text r) (unquote X).
Proof. intros H. rewrite esc_app. cbn [hex_n String.append]. rewrite unquote_esc_x. read_digits. Qed.
Lemma unquote_u r X : 0 <= r < 65536 -> unquote (esc "u" (hex_n 4 r) +:+ X) = push (encode_rune r) (unquote X).
Proof. intros H. rewrite esc_app. cbn [hex_n String.append]. rewrite unquote_esc_u. read_digits. Qed.
Lemma unquote_U r X : 0 <= r < 4294967296 -> unquote (esc "U" (hex_n 8 r) +:+ X) = push (encode_rune r) (unquote X).
Proof. intros H. rewrite esc_app. cbn [hex_n String.append]. rewrite unquote_esc_U. read_digits. Qed.

Lemma letter_of_spec r c : letter_of r = Some c ->
  c <> "x"%char /\ c <> "u"%char /\ c <> "U"%char /\ letter_val c = byte_text r /\ 0 <= r < 128.
Proof.
  unfold letter_of. destruct (find _ _) as [[r' c']|] eqn:E; [|done]. intros [= <-].
  apply find_some in E as [Hin Hr]. apply Z.eqb_eq in Hr. simpl in Hr, Hin. subst r'.
  repeat (destruct Hin as [[= <- <-]|Hin]; [split_and!; try done; lia|]). done.
Qed.

Lemma unquote_rune r X : valid_rune r ->
  unquote (appendEscapedRune r +:+ X) = push (encode_rune r) (unquote X).
Proof.
  intros V. unfold appendEscapedRune. destruct ((r =? 34) || (r =? 92)) eqn:Eq.
  { apply orb_true_iff in Eq as [E%Z.eqb_eq|E%Z.eqb_eq]; subst r; by rewrite unquote_letter. }
  apply orb_false_iff in Eq as [H1%Z.eqb_neq H2%Z.eqb_neq].
  destruct (IsPrint r); [by apply unquote_plain, plain_encode|].
  destruct (letter_of r) as [c|] eqn:El.
  { apply letter_of_spec in El as (? & ? & ? & Hl & Hr). rewrite unquote_letter, Hl by done.
    by rewrite encode_1. }
  destruct V as [V1 V2]. destruct ((r <? 32) || (r =? 127)) eqn:Ex.
  { assert (0 <= r < 128) by (apply orb_true_iff in Ex as [?%Z.ltb_lt|?%Z.eqb_eq]; lia).
    rewrite unquote_x by lia. by rewrite encode_1. }
  destruct (r <? 65536) eqn:Eu; [apply Z.ltb_lt in Eu; rewrite unquote_u by lia; done|].
  by rewrite unquote_U by lia.
Qed.

Lemma quote_skip_app p t : quote_skip (String.length p) (p +:+ t) = quote_skip 0 t.
Proof. induction p as [|c p IH]; [done|]. exact IH. Qed.

(** Whatever follows the closing quote, a quoted text reads back as itself. *)
Lemma unquote_quoted s t : unquote (quote_skip 0 s +:+ String dq t) = Some (s, t).
Proof.
  remember (String.length s) as n eqn:Hn. assert (L : (String.length s <= n)%nat) by lia. clear Hn.
  revert s L. induction n as [|n IH]; intros s L; (destruct s as [|a s]; [done|]); [simpl in L; lia|].
  cbn [quote_skip]. destruct (decode_rune (String a s)) as [r w] eqn:E. rewrite str_app_assoc.
  destruct (decode_rune_inv _ _ _ _ E) as [(-> & -> & Ha)|(V & Hw & u & Hs)].
  - cbn [Nat.eqb andb]. rewrite Z.eqb_refl, unquote_x by (pose proof (N_ascii_bounded a); lia).
    cbn [Nat.sub]. rewrite IH by (simpl in L; lia). unfold byte_text. simpl.
    by rewrite (byte_of_ascii a).
  - assert (Hb : ((w =? 1)%nat && (r =? RuneError)) = false).
    { apply andb_false_iff. destruct (decide (r = RuneError)) as [->|]; [left; by subst w|].
      right. by apply Z.eqb_neq. }
    rewrite Hb, unquote_rune by done.
    destruct (encode_rune r) as [|c p] eqn:Ep; [exfalso; revert Ep; unfold encode_rune; by repeat case_match|].
    injection Hs as <- ->. simpl in Hw. subst w. cbn [Nat.sub]. rewrite Nat.sub_0_r, quote_skip_app.
    rewrite IH by (simpl in L; rewrite str_length_app in L; lia). done.
Qed.

(** Quoting is injective, even in front of other text. *)
Lemma Quote_inj s s' t t' : Quote s +:+ t = Quote s' +:+ t' -> s = s' /\ t = t'.
Proof.
  unfold Quote. cbn [String.append]. rewrite !str_app_assoc. cbn [String.append]. intros [= H].
  apply (f_equal unquote) in H. rewrite !unquote_quoted in H. by injection H.
Qed.

(** ** [strconv.FormatFloat(f, 'g', -1, 64)]

    A finite nonzero float is [m * 2 ^ e].  The decimals that read back as it
    lie between the midpoints to its neighbours, which belong to them when the
    significand is even. *)
Record decimal : Type := { digs : string; dp : Z }.

(** [a / b < 10 ^ k] *)
Definition below_pow (a b k : Z) : bool := a * 10 ^ Z.max (- k) 0 <? b * 10 ^ Z.max k 0.
(** The [k] with [10 ^ (k - 1) <= a / b < 10 ^ k], from the logarithm. *)
Definition decimal_point (a b : Z) : Z :=
  let est := (Z.log2 a - Z.log2 b) * 30103 / 100000 - 1 in
  default (est + 4) (find (below_pow a b) [est; est + 1; est + 2; est + 3]).

Fixpoint strip_zeros_right (s : string) : string :=
  match s with
  | EmptyString => ""
  | String a s' =>
      match strip_zeros_right s' with
      | EmptyString => if bool_decide (a = "0"%char) then "" else String a ""
      | t => String a t
      end
  end.

(** [q] in units of [10 ^ (dp - n)]; a carry may have added a digit. *)
Definition make_decimal (q point : Z) (n : nat) : decimal :=
  {| digs := strip_zeros_right (itoa q);
     dp := point + Z.of_nat (String.length (itoa q)) - Z.of_nat n |}.

(** Cut after [n] digits or one more: the nearer where both read back. *)
Fixpoint shortest_from (fuel n : nat) (lo v hi b point : Z) (incl : bool) : decimal :=
  let A := b * 10 ^ Z.max (point - Z.of_nat n) 0 in
  let B := 10 ^ Z.max (Z.of_nat n - point) 0 in
  let q := v * B / A in
  let okdown := if incl then lo * B <=? q * A else lo * B <? q * A in
  let okup := if incl then (q + 1) * A <=? hi * B else (q + 1) * A <? hi * B in
  let nearer := match 2 * (v * B - q * A) ?= A with
                | Lt => q | Gt => q + 1 | Eq => if Z.even q then q else q + 1
                end in
  match fuel with
  | O => make_decimal nearer point n
  | S fuel' =>
      if okdown && okup then make_decimal nearer point n
      else if okdown then make_decimal q point n
      else if okup then make_decimal (q + 1) point n
      else shortest_from fuel' (S n) lo v hi b point incl
  end.

(** Seventeen digits always suffice for binary64. *)
Definition shortest (m : positive) (e : Z) : decimal :=
  let P := 2 ^ Z.max (e - 2) 0 in
  let b := 2 ^ Z.max (2 - e) 0 in
  let v := 4 * Zpos m * P in
  let lo := (if (Zpos m =? 2 ^ 52) && negb (e =? -1074) then 4 * Zpos m - 1 else 4 * Zpos m - 2) * P in
  let hi := (4 * Zpos m + 2) * P in
  shortest_from 16 1 lo v hi b (decimal_point v b) (Z.even (Zpos m)).

(** [%e] of the digits: at least two digits of exponent. *)
Definition fmtE (d : decimal) : string :=
  let exp := dp d - 1 in
  (match digs d with
   | EmptyString => ""
   | String a rest => String a (if str_is_empty rest then "" else "." +:+ rest)
   end) +:+ "e" +:+ (if exp <? 0 then "-" else "+") +:+
  (if Z.abs exp <? 10 then "0" else "") +:+ itoa (Z.abs exp).

Fixpoint zeros_text (n : nat) : string := match n with O => "" | S n' => String "0" (zeros_text n') end.

(** [%f] of the digits, as many decimals as there are. *)
Definition fmtF (d : decimal) : string :=
  let k := Z.to_nat (dp d) in
  let int := if 0 <? dp d
             then String.substring 0 k (digs d) +:+ zeros_text (k - String.length (digs d)) else "0" in
  let frac := zeros_text (Z.to_nat (- dp d)) +:+ str_drop k (digs d) in
  int +:+ (if str_is_empty (str_drop k (digs d)) then "" else "." +:+ frac).

(** [%v] of a [float64]. *)
Definition FormatFloat_g (f : spec_float) : string :=
  let sign (s : bool) := if s then "-" else "" in
  match f with
  | S754_nan => "NaN"
  | S754_infinity s => if s then "-Inf" else "+Inf"
  | S754_zero s => sign s +:+ "0"
  | S754_finite s m e =>
      let d := shortest m e in
      let exp := dp d - 1 in
      sign s +:+ (if (exp <? -4) || (6 <=? exp) then fmtE d else fmtF d)
  end.

Example floats_printed :
  map FormatFloat_g
    [S754_finite false 8331659310635418 (-51); S754_finite true 7205759403792794 (-56);
     S754_finite false 4503599627370496 11; S754_finite false 1 (-1074);
     S754_finite false 8483885939586761 (-36); S754_finite false 5302427037204480 (-32);
     S754_finite false 8854437155380585 (-69); S754_finite false 8854437155380585 (-66);
     S754_finite false 4768371582031250 21; S754_infinity true]
  = ["3.7"; "-0.1"; "9.223372036854776e+18"; "5e-324"; "123456.789"; "1.2345675e+06"; "1.5e-05";
     "0.00012"; "1e+22"; "-Inf"].
Proof. vm_compute. done. Qed.
