(* ===== verification/SearchTypes.v ===== *)
(** * Search requests: [search/types.go] and [search/wildcard.go]

    Pagination arithmetic on 64-bit integers, and the translation of user
    wildcards to LIKE patterns. *)
From S2P Require Import Prelude GoStrings.

Local Open Scope string_scope.
Local Open Scope Z_scope.
Local Open Scope list_scope.

(** ** Data *)

(** [FieldType] is an [int]; [FieldOther] stands for the values without a name. *)
Inductive FieldType : Type :=
| FieldString | FieldUUID | FieldInt | FieldBool | FieldDate | FieldArray | FieldOther (n : Z).

Definition cast (t : FieldType) : string :=
  match t with
  | FieldUUID => "::uuid"
  | FieldDate => "::timestamptz"
  | FieldInt => "::bigint"
  | FieldBool => "::boolean"
  | FieldString | FieldArray | FieldOther _ => ""
  end.

Record SortConfig : Type := { sc_Field : string; sc_Direction : string }.
Record SortField : Type := { sf_Field : string; sf_Direction : string }.
Record FilterParameter : Type := { f_Field : string; f_Operator : string; f_Value : any }.
Record CountResult : Type := { Count : Z; IsEstimated : bool }.

Definition DefaultPageSize : Z := 10.
Definition DefaultMaxPageSize : Z := 100.

Record Pagination : Type := { PageSize : Z; PageNumber : Z }.

Record RequestBody : Type := {
  SearchTerms : list string;
  Filters : list FilterParameter;
  SortFields : list SortField;
  rb_Pagination : Pagination
}.

(** ** Pagination *)
Definition SizeWithMax (p : Pagination) (max : Z) : Z :=
  let max := if bool_decide (max <= 0) then DefaultMaxPageSize else max in
  if bool_decide (PageSize p <= 0)
  then if bool_decide (max < DefaultPageSize) then max else DefaultPageSize
  else if bool_decide (max < PageSize p) then max
  else PageSize p.

Definition Size (p : Pagination) : Z := SizeWithMax p DefaultMaxPageSize.

Definition Number (p : Pagination) : Z := if bool_decide (PageNumber p <= 0) then 1 else PageNumber p.

(** Machine arithmetic: the product wraps. *)
Definition OffsetWithMax (p : Pagination) (max : Z) : Z :=
  wrap64 (wrap64 (Number p - 1) * SizeWithMax p max).
Definition Offset (p : Pagination) : Z := OffsetWithMax p DefaultMaxPageSize.

Definition TotalPagesWithMax (p : Pagination) (total max : Z) : Z :=
  if bool_decide (total <= 0) then 0
  else let size := SizeWithMax p max in Z.quot (wrap64 (wrap64 (total + size) - 1)) size.
Definition TotalPages (p : Pagination) (total : Z) : Z := TotalPagesWithMax p total DefaultMaxPageSize.

Definition HasPreviousPage (p : Pagination) : bool := bool_decide (1 < Number p).

Record PagedViewModel : Type := {
  vm_PageSize : Z; vm_PageNumber : Z; vm_TotalCount : Z; vm_TotalPages : Z;
  vm_HasNextPage : bool; vm_HasPreviousPage : bool; vm_IsEstimatedCount : bool
}.

Definition NewPagedViewModel (p : Pagination) (total : Z) (estimated : bool) (max : Z)
  : PagedViewModel :=
  let totalPages := TotalPagesWithMax p total max in
  {| vm_PageSize := SizeWithMax p max; vm_PageNumber := Number p; vm_TotalCount := total;
     vm_TotalPages := totalPages; vm_HasNextPage := bool_decide (Number p < totalPages);
     vm_HasPreviousPage := HasPreviousPage p; vm_IsEstimatedCount := estimated |}.

(** The cap in force. *)
Definition eff_max (max : Z) : Z := if bool_decide (max <= 0) then DefaultMaxPageSize else max.

Lemma size_bounds p max : 1 <= SizeWithMax p max <= eff_max max.
Proof.
  unfold SizeWithMax, eff_max, DefaultPageSize, DefaultMaxPageSize. repeat case_bool_decide; lia.
Qed.

Lemma number_pos p : 1 <= Number p.
Proof. unfold Number. case_bool_decide; lia. Qed.

Lemma number_range p : in_int64 (PageNumber p) -> in_int64 (Number p).
Proof. unfold in_int64, Number, min_int64, max_int64. case_bool_decide; lia. Qed.

Lemma offset_exact p max :
  in_int64 (PageNumber p) -> (Number p - 1) * SizeWithMax p max <= max_int64 ->
  OffsetWithMax p max = (Number p - 1) * SizeWithMax p max.
Proof.
  intros Hn Ho. pose proof (number_pos p). pose proof (size_bounds p max).
  apply number_range in Hn. unfold OffsetWithMax. rewrite (wrap64_id (Number p - 1)).
  - apply wrap64_id. unfold in_int64, min_int64, max_int64 in *. nia.
  - unfold in_int64, min_int64, max_int64 in *. lia.
Qed.

Lemma total_pages_exact p total max :
  0 < total -> total + SizeWithMax p max <= max_int64 ->
  TotalPagesWithMax p total max = (total + SizeWithMax p max - 1) / SizeWithMax p max.
Proof.
  intros Ht Hm. pose proof (size_bounds p max). unfold TotalPagesWithMax.
  rewrite bool_decide_false by lia.
  rewrite (wrap64_id (total + SizeWithMax p max)), wrap64_id;
    [|unfold in_int64, min_int64, max_int64 in *; lia..].
  apply Z.quot_div_nonneg; lia.
Qed.

Lemma has_next_exact p total estimated max :
  in_int64 (PageNumber p) -> (Number p - 1) * SizeWithMax p max <= max_int64 ->
  0 <= total -> total + eff_max max <= max_int64 ->
  vm_HasNextPage (NewPagedViewModel p total estimated max) = true <->
    OffsetWithMax p max + SizeWithMax p max < total.
Proof.
  intros Hn Ho Ht Hm. pose proof (size_bounds p max) as Hs. pose proof (number_pos p).
  rewrite offset_exact by done. simpl. rewrite bool_decide_eq_true.
  destruct (decide (total = 0)) as [->|].
  { unfold TotalPagesWithMax. rewrite bool_decide_true by lia. nia. }
  rewrite total_pages_exact by lia. set (size := SizeWithMax p max) in *. split; intros H1.
  - pose proof (Z.mul_div_le (total + size - 1) size). nia.
  - assert (Number p + 1 <= (total + size - 1) / size) by (apply Z.div_le_lower_bound; lia). lia.
Qed.

Definition page (size number : Z) : Pagination := {| PageSize := size; PageNumber := number |}.

(** C29: Pages tile the result: as long as nothing overflows, every row of a
    result of [total] rows lies on exactly one page between 1 and the reported
    page count, the clamped size is between 1 and the cap, and a next page is
    announced exactly when rows remain after the current one. *)
Theorem pages_tile p total max :
  in_int64 (PageNumber p) -> 0 < total -> total + eff_max max <= max_int64 ->
  Number p <= TotalPagesWithMax p total max ->
  let size := SizeWithMax p max in
  1 <= size <= eff_max max /\
  (forall row, 0 <= row < total ->
     exists! n, 1 <= n <= TotalPagesWithMax p total max /\
       OffsetWithMax (page (PageSize p) n) max <= row < OffsetWithMax (page (PageSize p) n) max + size) /\
  (vm_HasNextPage (NewPagedViewModel p total false max) = true <->
     OffsetWithMax p max + size < total).
Proof.
  intros Hn Ht Hm Hp size. pose proof (size_bounds p max) as Hs. fold size in Hs.
  assert (Htp : TotalPagesWithMax p total max = (total + size - 1) / size)
    by (apply total_pages_exact; lia).
  rewrite Htp in *.
  assert (Hoff : forall n, 1 <= n <= (total + size - 1) / size ->
            OffsetWithMax (page (PageSize p) n) max = (n - 1) * size).
  { intros n [Hn1 Hn2]. assert (HN : Number (page (PageSize p) n) = n)
      by (unfold Number; simpl; rewrite bool_decide_false; lia).
    assert (n * size <= total + size - 1) by (pose proof (Z.mul_div_le (total + size - 1) size); nia).
    rewrite offset_exact; rewrite ?HN; [done| |].
    - simpl. unfold in_int64, min_int64, max_int64 in *. nia.
    - change (SizeWithMax (page (PageSize p) n) max) with size. unfold max_int64 in *. nia. }
  split_and!; [lia|lia| |].
  - intros row Hr. exists (row / size + 1). split.
    + assert (1 <= row / size + 1 <= (total + size - 1) / size).
      { split; [pose proof (Z.div_pos row size); lia|].
        replace (total + size - 1) with ((total - 1) + 1 * size) by lia. rewrite Z.div_add by lia.
        pose proof (Z.div_le_mono row (total - 1) size). lia. }
      split; [done|]. rewrite Hoff by done.
      pose proof (Z.div_mod row size). pose proof (Z.mod_pos_bound row size). nia.
    + intros n [Hn1 Hn2]. rewrite Hoff in Hn2 by done.
      enough (row / size = n - 1) by lia. symmetry. apply (Z.div_unique row size _ (row - (n - 1) * size)); lia.
  - pose proof (number_pos p).
    assert (Number p * size <= total + size - 1)
      by (pose proof (Z.mul_div_le (total + size - 1) size); nia).
    apply has_next_exact; [done| |lia|done]. fold size. unfold max_int64 in *. nia.
Qed.

(** A positive page number whose offset wraps to a negative one. *)
Example offset_wraps : OffsetWithMax (page 100 (2 ^ 62)) 100 < 0.
Proof. vm_compute. reflexivity. Qed.
Example total_pages_wraps : TotalPagesWithMax (page 100 1) max_int64 100 < 0.
Proof. vm_compute. reflexivity. Qed.

Lemma pages_tile_witness :
  let size := SizeWithMax (page 25 3) 50 in
  1 <= size <= eff_max 50 /\
  (forall row, 0 <= row < 101 ->
     exists! n, 1 <= n <= TotalPagesWithMax (page 25 3) 101 50 /\
       OffsetWithMax (page 25 n) 50 <= row < OffsetWithMax (page 25 n) 50 + size) /\
  (vm_HasNextPage (NewPagedViewModel (page 25 3) 101 false 50) = true <->
     OffsetWithMax (page 25 3) 50 + size < 101).
Proof. apply (pages_tile (page 25 3) 101 50); vm_compute; try split; congruence. Defined.

(** ** Wildcards *)
Inductive WildcardPattern : Type := PatternExact | PatternPrefix | PatternContains.
Record WildcardResult : Type := { Pattern : string; PatternType : WildcardPattern }.

Definition star : ascii := "*".
Definition qmark : ascii := "?".

(** [strings.NewReplacer] on three single bytes. *)
Definition escape_char (a : ascii) : string :=
  if bool_decide (a = bslash) then String bslash (String bslash "")
  else if bool_decide (a = "%"%char) then String bslash "%"
  else if bool_decide (a = "_"%char) then String bslash "_"
  else String a "".
Definition escapeLikeLiterals (s : string) : string := str_flat_map escape_char s.

Definition containsWildcard (term : string) : bool := ContainsAny term "*?".

(** The loop of [classifyPattern] over the rest of the pattern: the counts of
    unescaped [%] and [_], and whether the last [%] ended the pattern. *)
Fixpoint classify_loop (s : string) (pct under : nat) (pctAtEnd : bool) : nat * nat * bool :=
  match s with
  | EmptyString => (pct, under, pctAtEnd)
  | String a s' =>
      if bool_decide (a = bslash) then
        match s' with
        | EmptyString => (pct, under, pctAtEnd)
        | String _ s'' => classify_loop s'' pct under pctAtEnd
        end
      else if bool_decide (a = "%"%char) then classify_loop s' (S pct) under (str_is_empty s')
      else if bool_decide (a = "_"%char) then classify_loop s' pct (S under) pctAtEnd
      else classify_loop s' pct under pctAtEnd
  end.

Definition classifyPattern (pattern : string) : WildcardPattern :=
  let '(pct, under, pctAtEnd) := classify_loop pattern 0 0 false in
  if (pct =? 1)%nat && (under =? 0)%nat && pctAtEnd then PatternPrefix else PatternContains.

Definition TranslateWildcard (term : string) : WildcardResult :=
  if negb (containsWildcard term)
  then {| Pattern := escapeLikeLiterals term; PatternType := PatternExact |}
  else
    let p := escapeLikeLiterals term in
    let p := ReplaceAll star "%" p in
    let p := ReplaceAll qmark "_" p in
    {| Pattern := p; PatternType := classifyPattern p |}.

Definition wildcardToLike (term : string) : string := Pattern (TranslateWildcard term).

(** Empty or made of wildcards only. *)
Definition IsAllWildcard (term : string) : bool :=
  str_forallb (fun c => bool_decide (c = star) || bool_decide (c = qmark)) term.

Example translate_1 :
  TranslateWildcard "100%*" = {| Pattern := String.append "100" (String bslash "%%");
                                 PatternType := PatternPrefix |}.
Proof. vm_compute. reflexivity. Qed.
Example translate_2 : TranslateWildcard "a?c" = {| Pattern := "a_c"; PatternType := PatternContains |}.
Proof. vm_compute. reflexivity. Qed.

(** *** What a LIKE operator does

    The database is a parameter: [like p s] says that the pattern [p] accepts
    the text [s], [ceq] is the comparison of characters (equality for LIKE, up
    to case for ILIKE).  The laws are those of LIKE with the default escape
    character, for a single-byte encoding: where characters take several bytes,
    [_] stands for all bytes of one. *)
Class LikeSpec (ceq : ascii -> ascii -> Prop) (like : string -> string -> Prop) := {
  like_nil : forall s, like "" s <-> s = "";
  like_percent : forall p s, like (String "%" p) s <-> exists a b, s = a +:+ b /\ like p b;
  like_underscore : forall p s, like (String "_" p) s <-> exists c b, s = String c b /\ like p b;
  like_escape : forall c p s,
    like (String bslash (String c p)) s <-> exists d b, s = String d b /\ ceq c d /\ like p b;
  like_char : forall c p s, c <> "%"%char -> c <> "_"%char -> c <> bslash ->
    like (String c p) s <-> exists d b, s = String d b /\ ceq c d /\ like p b
}.

(** What the user's term means: [*] any text, [?] any character, every other
    character itself. *)
Fixpoint term_accepts (ceq : ascii -> ascii -> Prop) (term s : string) : Prop :=
  match term with
  | EmptyString => s = ""
  | String c term' =>
      if bool_decide (c = star) then exists a b, s = a +:+ b /\ term_accepts ceq term' b
      else if bool_decide (c = qmark) then exists d b, s = String d b /\ term_accepts ceq term' b
      else exists d b, s = String d b /\ ceq c d /\ term_accepts ceq term' b
  end.

(** The translation as one substitution. *)
Definition translate_char (a : ascii) : string :=
  if bool_decide (a = star) then "%" else if bool_decide (a = qmark) then "_" else escape_char a.

Lemma str_flat_map_ext f g s : (forall a, f a = g a) -> str_flat_map f s = str_flat_map g s.
Proof. intros H. induction s as [|a s IH]; simpl; [done|]. by rewrite H, IH. Qed.
Lemma str_flat_map_app f a b : str_flat_map f (a +:+ b) = str_flat_map f a +:+ str_flat_map f b.
Proof. induction a as [|x a IH]; simpl; [done|]. by rewrite IH, str_app_assoc. Qed.
Lemma str_flat_map_comp f g s :
  str_flat_map g (str_flat_map f s) = str_flat_map (fun a => str_flat_map g (f a)) s.
Proof. induction s as [|a s IH]; simpl; [done|]. by rewrite str_flat_map_app, IH. Qed.

Lemma containsWildcard_cons a s :
  containsWildcard (String a s) = false ->
  a <> star /\ a <> qmark /\ containsWildcard s = false.
Proof.
  unfold containsWildcard, ContainsAny, str_existsb. cbn [str_forallb].
  rewrite negb_false_iff, andb_true_iff, negb_false_iff. intros [Ha Hs]. split_and!; [| |done];
    intros ->; by vm_compute in Ha.
Qed.

Lemma wildcardToLike_translate term : wildcardToLike term = str_flat_map translate_char term.
Proof.
  unfold wildcardToLike, TranslateWildcard. destruct (containsWildcard term) eqn:E; simpl.
  - unfold ReplaceAll, escapeLikeLiterals. rewrite !str_flat_map_comp. apply str_flat_map_ext.
    intros a. destruct a as [[] [] [] [] [] [] [] []]; reflexivity.
  - unfold escapeLikeLiterals. induction term as [|a s IH]; simpl; [done|].
    apply containsWildcard_cons in E as (H1 & H2 & E). rewrite IH by done. unfold translate_char.
    by rewrite !bool_decide_false.
Qed.

(** C30: A translated term means what the user wrote: for every LIKE operator
    with the default escape, the pattern accepts a text exactly when the term
    does, with [*] and [?] as the only wildcards, so a literal percent sign,
    underscore or backslash in the term only matches itself. *)
Theorem wildcard_means_term ceq like `{!LikeSpec ceq like} term s :
  like (wildcardToLike term) s <-> term_accepts ceq term s.
Proof.
  rewrite wildcardToLike_translate. revert s. induction term as [|c term IH]; intros s; simpl.
  { apply like_nil. }
  set (rest := str_flat_map translate_char term) in *. unfold translate_char, escape_char.
  repeat case_bool_decide; subst; simpl.
  - rewrite like_percent. by setoid_rewrite IH.
  - rewrite like_underscore. by setoid_rewrite IH.
  - rewrite like_escape. by setoid_rewrite IH.
  - rewrite like_escape. by setoid_rewrite IH.
  - rewrite like_escape. by setoid_rewrite IH.
  - rewrite like_char by done. by setoid_rewrite IH.
Qed.

(** *** A reference operator *)
Fixpoint like_ref (p s : string) : Prop :=
  match p with
  | EmptyString => s = ""
  | String c p' =>
      if bool_decide (c = "%"%char) then exists a b, s = a +:+ b /\ like_ref p' b
      else if bool_decide (c = "_"%char) then exists d b, s = String d b /\ like_ref p' b
      else if bool_decide (c = bslash) then
        match p' with
        | EmptyString => False
        | String c' p'' => exists d b, s = String d b /\ c' = d /\ like_ref p'' b
        end
      else exists d b, s = String d b /\ c = d /\ like_ref p' b
  end.

#[export] Instance like_ref_spec : LikeSpec eq like_ref.
Proof.
  split; try done. intros c p s H1 H2 H3. cbn [like_ref]. by rewrite !bool_decide_false.
Defined.

Lemma wildcard_means_term_witness :
  like_ref (wildcardToLike "100%*") "100% cotton".
Proof.
  apply (wildcard_means_term eq like_ref "100%*" "100% cotton").
  exists "1"%char, "00% cotton". do 2 (split; [reflexivity|]).
  exists "0"%char, "0% cotton". do 2 (split; [reflexivity|]).
  exists "0"%char, "% cotton". do 2 (split; [reflexivity|]).
  exists "%"%char, " cotton". do 2 (split; [reflexivity|]).
  exists " cotton", "". split; reflexivity.
Defined.
