(* ===== verification/SearchCoerce.v ===== *)
(** * Value coercion: [search/coerce.go] and the errors of [search/errors.go]

    JSON numbers are IEEE 754 binary64 data; [strconv.ParseInt],
    [strconv.ParseBool] and [time.Parse] for the two accepted layouts are
    modelled as the standard library documents them. *)
From Stdlib Require Import SpecFloat.
From S2P Require Import Prelude GoStrings GoStrconv SearchTypes.

Local Open Scope string_scope.
Local Open Scope Z_scope.
Local Open Scope list_scope.

(** ** Errors *)

(** The [Got] text of [InvalidValueTypeError]: fixed text, [%v] of a float, or
    [%q] of a string. *)
Inductive got : Type :=
| GotText (s : string)
| GotFractional (f : spec_float)
| GotFloat (f : spec_float)
| GotString (s : string)
| GotCount (n : nat) (what : string).

Inductive search_err : Type :=
| InvalidFieldError (Field Resource : string)
| UnsupportedOperatorError (Field Operator : string)
| FieldNotSortableError (Field Resource : string)
| InvalidValueTypeError (Field Expected : string) (Got : got)
| PageOutOfRangeError (Page TotalPages : Z)
| UnknownResourceError (Resource : string)
| OtherError (msg : string).

Definition IsValidationError (e : search_err) : bool :=
  match e with
  | InvalidFieldError _ _ | UnsupportedOperatorError _ _ | FieldNotSortableError _ _
  | InvalidValueTypeError _ _ _ | PageOutOfRangeError _ _ => true
  | UnknownResourceError _ | OtherError _ => false
  end.

(** The [Got] field as it is formatted, and the messages. *)
Definition got_text (g : got) : string :=
  match g with
  | GotText s => s
  | GotFractional f => "fractional number " +:+ FormatFloat_g f
  | GotFloat f => FormatFloat_g f
  | GotString s => "string " +:+ Quote s
  | GotCount n what => itoa (Z.of_nat n) +:+ what
  end.

Definition Error (e : search_err) : string :=
  match e with
  | InvalidFieldError f r =>
      "field " +:+ Quote f +:+ " is not a valid field for resource " +:+ Quote r
  | UnsupportedOperatorError f op =>
      "operator " +:+ Quote op +:+ " is not supported for field " +:+ Quote f
  | FieldNotSortableError f r =>
      "field " +:+ Quote f +:+ " is not sortable for resource " +:+ Quote r
  | InvalidValueTypeError f expected g =>
      "field " +:+ Quote f +:+ " expects " +:+ expected +:+ ", got " +:+ got_text g
  | PageOutOfRangeError page total =>
      "page " +:+ itoa page +:+ " is out of range (total pages: " +:+ itoa total +:+ ")"
  | UnknownResourceError r => "unknown search resource " +:+ Quote r
  | OtherError msg => msg
  end.

(** What a caller is told: the kind of the error and the names in it. *)
Inductive err_kind : Type := KField | KOperator | KSort | KValue | KPage | KResource.
Definition reported (e : search_err) : option (err_kind * list string) :=
  match e with
  | InvalidFieldError f r => Some (KField, [f; r])
  | UnsupportedOperatorError f op => Some (KOperator, [f; op])
  | FieldNotSortableError f r => Some (KSort, [f; r])
  | InvalidValueTypeError f _ _ => Some (KValue, [f])
  | PageOutOfRangeError _ _ => Some (KPage, [])
  | UnknownResourceError r => Some (KResource, [r])
  | OtherError _ => None
  end.

Lemma Quote_inj_end s s' : Quote s = Quote s' -> s = s'.
Proof. intros H. by apply (Quote_inj s s' "" ""); rewrite H. Qed.

(** C32: The messages of the search errors are unambiguous although names come
    from the request: two errors of the package with the same text are of the
    same kind and name the same field, operator and resource, whatever quotes,
    control characters or invalid UTF-8 a name contains. *)
Theorem error_text_unambiguous e e' k k' :
  reported e = Some k -> reported e' = Some k' -> Error e = Error e' -> k = k'.
Proof.
  intros Hk Hk'. destruct e, e'; simplify_eq; cbn [reported] in *; simplify_eq; unfold Error;
    generalize Quote_inj Quote_inj_end; generalize Quote; intros Q I J H; cbn [String.append] in H;
    simplify_eq; try done;
    repeat match goal with
    | H : Q _ +:+ _ = Q _ +:+ _ |- _ => apply I in H as [-> H]
    | H : Q _ = Q _ |- _ => apply J in H as ->
    | _ => progress simplify_eq
    end; done.
Qed.

Lemma error_text_unambiguous_witness : (KSort, [quote "x"; "r"]) = (KSort, [quote "x"; "r"]).
Proof.
  apply (error_text_unambiguous (FieldNotSortableError (quote "x") "r") (FieldNotSortableError (quote "x") "r"));
    reflexivity.
Defined.

(** ** Numbers *)

(** The integer a float denotes, when it denotes one. *)
Definition float_int (f : spec_float) : option Z :=
  match f with
  | S754_zero _ => Some 0
  | S754_finite s m e =>
      let signed z := if s then - z else z in
      if bool_decide (0 <= e) then Some (signed (Z.pos m * 2 ^ e))
      else if bool_decide (Z.pos m mod 2 ^ (- e) = 0) then Some (signed (Z.pos m / 2 ^ (- e)))
      else None
  | S754_infinity _ | S754_nan => None
  end.

Definition digit_val (a : ascii) : option Z :=
  let n := Z.of_nat (nat_of_ascii a) in
  if bool_decide (48 <= n <= 57) then Some (n - 48) else None.

Fixpoint digits_val (s : string) (acc : Z) : option Z :=
  match s with
  | EmptyString => Some acc
  | String a s' => match digit_val a with Some d => digits_val s' (10 * acc + d) | None => None end
  end.

(** [strconv.ParseInt(s, 10, 64)] *)
Definition ParseInt (s : string) : option Z :=
  let '(neg, body) :=
    match s with
    | String a s' => if bool_decide (a = "-"%char) then (true, s')
                     else if bool_decide (a = "+"%char) then (false, s') else (false, s)
    | EmptyString => (false, s)
    end in
  if str_is_empty body then None else
  match digits_val body 0 with
  | Some n => let z := if neg : bool then - n else n in if decide (in_int64 z) then Some z else None
  | None => None
  end.

(** [strconv.ParseBool] *)
Definition ParseBool (s : string) : option bool :=
  if bool_decide (s ∈ ["1"; "t"; "T"; "TRUE"; "true"; "True"]) then Some true
  else if bool_decide (s ∈ ["0"; "f"; "F"; "FALSE"; "false"; "False"]) then Some false
  else None.

(** ** Dates

    [time.Parse] for "2006-01-02" and RFC 3339, as Unix nanoseconds. *)
Definition isLeap (y : Z) : bool :=
  bool_decide (y mod 4 = 0) && (negb (bool_decide (y mod 100 = 0)) || bool_decide (y mod 400 = 0)).
Definition daysIn (m y : Z) : Z :=
  if bool_decide (m = 2) then if isLeap y then 29 else 28
  else if bool_decide (m ∈ [4; 6; 9; 11]) then 30 else 31.

(** Days since 1970-01-01: whole years, whole months, days. *)
Definition days_before_year (y : Z) : Z :=
  let n := y - 1 in 365 * n + n / 4 - n / 100 + n / 400 - 719162.
Definition days_before_month (m y : Z) : Z :=
  fold_left (fun acc k => acc + daysIn (Z.of_nat k) y) (seq 1 (Z.to_nat (m - 1))) 0.
Definition unix_days (y m d : Z) : Z := days_before_year y + days_before_month m y + (d - 1).

(** Exactly [n] digits; one or two digits. *)
Fixpoint take_digits (n : nat) (s : string) (acc : Z) : option (Z * string) :=
  match n with
  | O => Some (acc, s)
  | S n' => match s with
            | String a s' => match digit_val a with
                             | Some d => take_digits n' s' (10 * acc + d)
                             | None => None
                             end
            | EmptyString => None
            end
  end.
Definition take_hour (s : string) : option (Z * string) :=
  match take_digits 2 s 0 with Some r => Some r | None => take_digits 1 s 0 end.
Definition expect (c : ascii) (s : string) : option string :=
  match s with String a s' => if bool_decide (a = c) then Some s' else None | EmptyString => None end.

Fixpoint span_frac (s : string) : list Z * string :=
  match s with
  | String a s' => match digit_val a with
                   | Some d => let '(l, r) := span_frac s' in (d :: l, r)
                   | None => ([], s)
                   end
  | EmptyString => ([], s)
  end.

(** An optional fraction after the seconds; nanoseconds, further digits are
    dropped. *)
Definition take_fraction (s : string) : Z * string :=
  match s with
  | String a s' =>
      if bool_decide (a = "."%char) || bool_decide (a = ","%char) then
        match span_frac s' with
        | ([], _) => (0, s)
        | (ds, r) => (fold_left (fun acc d => 10 * acc + d) (take 9 (ds ++ repeat 0 9)) 0, r)
        end
      else (0, s)
  | EmptyString => (0, s)
  end.

(** [Z] or a signed [hh:mm] offset, in seconds. *)
Definition take_zone (s : string) : option (Z * string) :=
  match s with
  | String a s' =>
      if bool_decide (a = "Z"%char) then Some (0, s')
      else if bool_decide (a = "+"%char) || bool_decide (a = "-"%char) then
        match take_digits 2 s' 0 with
        | Some (hh, s1) =>
            match expect ":" s1 with
            | Some s2 =>
                match take_digits 2 s2 0 with
                | Some (mm, s3) =>
                    if bool_decide (hh <= 24) && bool_decide (mm <= 60)
                    then let off := hh * 3600 + mm * 60 in
                         Some (if bool_decide (a = "-"%char) then - off else off, s3)
                    else None
                | None => None
                end
            | None => None
            end
        | None => None
        end
      else None
  | EmptyString => None
  end.

Definition take_date (s : string) : option (Z * string) :=
  match take_digits 4 s 0 with
  | Some (y, s1) =>
      match expect "-" s1 ≫= fun s => take_digits 2 s 0 with
      | Some (m, s2) =>
          match expect "-" s2 ≫= fun s => take_digits 2 s 0 with
          | Some (d, s3) =>
              if bool_decide (1 <= m <= 12) && bool_decide (1 <= d <= daysIn m y)
              then Some (unix_days y m d, s3) else None
          | None => None
          end
      | None => None
      end
  | None => None
  end.

Definition parse_date_only (s : string) : option Z :=
  match take_date s with
  | Some (days, rest) => if str_is_empty rest then Some (days * 86400 * 10 ^ 9) else None
  | None => None
  end.

Definition parse_rfc3339 (s : string) : option Z :=
  match take_date s with
  | Some (days, s1) =>
      match expect "T" s1 ≫= take_hour with
      | Some (h, s2) =>
          match expect ":" s2 ≫= fun s => take_digits 2 s 0 with
          | Some (mi, s3) =>
              match expect ":" s3 ≫= fun s => take_digits 2 s 0 with
              | Some (sec, s4) =>
                  let '(ns, s5) := take_fraction s4 in
                  match take_zone s5 with
                  | Some (off, s6) =>
                      if str_is_empty s6 && bool_decide (h < 24) && bool_decide (mi < 60)
                         && bool_decide (sec < 60)
                      then Some ((days * 86400 + h * 3600 + mi * 60 + sec - off) * 10 ^ 9 + ns)
                      else None
                  | None => None
                  end
              | None => None
              end
          | None => None
          end
      | None => None
      end
  | None => None
  end.

Definition parse_date (s : string) : option Z :=
  match parse_rfc3339 s with Some t => Some t | None => parse_date_only s end.

Example date_1 : parse_date "2024-02-29" = Some (1709164800 * 10 ^ 9).
Proof. vm_compute. reflexivity. Qed.
Example date_2 : parse_date "2023-02-29" = None.
Proof. vm_compute. reflexivity. Qed.
Example date_3 : parse_date "2024-01-15T10:30:00+02:00" = Some (1705307400 * 10 ^ 9).
Proof. vm_compute. reflexivity. Qed.
Example date_4 : parse_date "1970-01-01T00:00:01.5Z" = Some 1500000000.
Proof. vm_compute. reflexivity. Qed.

(** ** Coercion *)
Definition typeName (t : FieldType) : string :=
  match t with
  | FieldString => "string" | FieldUUID => "uuid string" | FieldInt => "integer"
  | FieldBool => "boolean" | FieldDate => "date" | FieldArray => "array element"
  | FieldOther _ => "value"
  end.

(** [%T] *)
Definition goType (v : any) : string :=
  match v with
  | ANil => "<nil>" | ABool _ => "bool" | AString _ => "string" | AFloat _ => "float64"
  | AInt _ => "int" | AInt64 _ => "int64" | ATime _ => "time.Time"
  | ASlice _ => "[]interface {}" | AStrings _ => "[]string"
  | AMap _ => "map[string]interface {}" | AOther typ => typ
  end.

(** The [float64] case of an integer field; NaN differs from its truncation,
    infinities do not. *)
Definition coerce_float (field : string) (v : spec_float) : res search_err any :=
  match v with
  | S754_infinity _ => Err (InvalidValueTypeError field "integer within int64 range" (GotFloat v))
  | _ =>
      match float_int v with
      | None => Err (InvalidValueTypeError field "integer" (GotFractional v))
      | Some z =>
          if bool_decide (z < min_int64) || bool_decide (2 ^ 63 <= z)
          then Err (InvalidValueTypeError field "integer within int64 range" (GotFloat v))
          else Ok (AInt64 z)
      end
  end.

Definition coerceScalar (field : string) (t : FieldType) (value : any) : res search_err any :=
  let bad expected g := Err (InvalidValueTypeError field expected g) in
  match value with
  | ANil => bad (typeName t) (GotText "null")
  | _ =>
      match t with
      | FieldString | FieldUUID | FieldArray =>
          match value with
          | AString v => Ok (AString v)
          | _ => bad (typeName t) (GotText (goType value))
          end
      | FieldInt =>
          match value with
          | AFloat v => coerce_float field v
          | AInt v => Ok (AInt64 v)
          | AInt64 v => Ok (AInt64 v)
          | AString v =>
              match ParseInt (TrimSpace v) with
              | Some n => Ok (AInt64 n)
              | None => bad "integer" (GotString v)
              end
          | _ => bad "integer" (GotText (goType value))
          end
      | FieldBool =>
          match value with
          | ABool v => Ok (ABool v)
          | AString v =>
              match ParseBool (TrimSpace v) with
              | Some b => Ok (ABool b)
              | None => bad "boolean" (GotString v)
              end
          | _ => bad "boolean" (GotText (goType value))
          end
      | FieldDate =>
          match value with
          | ATime v => Ok (ATime v)
          | AString v =>
              match parse_date (TrimSpace v) with
              | Some ts => Ok (ATime ts)
              | None => bad "RFC3339 or YYYY-MM-DD date" (GotString v)
              end
          | _ => bad "date" (GotText (goType value))
          end
      | FieldOther _ => Ok value
      end
  end.

Definition coerceList (field : string) (t : FieldType) (value : any) : res search_err (list any) :=
  match value with
  | ASlice v => res_mapM (coerceScalar field t) v
  | AString v =>
      res_mapM (fun p => coerceScalar field t (AString p))
        (filter (fun p => p <> "") (map TrimSpace (Split "," v)))
  | ANil => Err (InvalidValueTypeError field "array" (GotText "null"))
  | _ => let? cv := coerceScalar field t value in Ok [cv]
  end.

(** ** Theorems *)

(** A float denotes the integer [z]: its significand scaled by its exponent. *)
Definition float_denotes (f : spec_float) (z : Z) : Prop :=
  match f with
  | S754_zero _ => z = 0
  | S754_finite s m e =>
      let v := if s then Z.neg m else Z.pos m in
      if decide (0 <= e) then z = v * 2 ^ e else z * 2 ^ (- e) = v
  | _ => False
  end.

Lemma float_int_spec f z : float_int f = Some z <-> float_denotes f z.
Proof.
  destruct f as [s|s| |s m e]; simpl; [naive_solver|naive_solver|naive_solver|].
  destruct (decide (0 <= e)) as [He|He].
  - rewrite bool_decide_true by done. destruct s; split; intros H; simplify_eq; try f_equal; lia.
  - rewrite bool_decide_false by done.
    assert (0 < 2 ^ (- e)) by (apply Z.pow_pos_nonneg; lia).
    case_bool_decide as Hm.
    + apply Z.div_exact in Hm; [|lia]. set (q := Z.pos m / 2 ^ (- e)) in *.
      set (d := 2 ^ (- e)) in *. clearbody q d.
      split; intros Hz; [injection Hz as <-; destruct s; lia|].
      f_equal. destruct s; nia.
    + split; [done|]. intros Hz. destruct Hm.
      assert (Z.pos m = (if s then - z else z) * 2 ^ (- e)) as -> by (destruct s; lia).
      by apply Z_mod_mult.
Qed.

(** The dynamic type a coerced value has. *)
Definition typed (t : FieldType) (v : any) : Prop :=
  match t with
  | FieldString | FieldUUID | FieldArray => exists s, v = AString s
  | FieldInt => exists z, v = AInt64 z /\ in_int64 z
  | FieldBool => exists b, v = ABool b
  | FieldDate => exists ts, v = ATime ts
  | FieldOther _ => v <> ANil
  end.

(** The values JSON decoding and Go callers can supply: integers fit their
    machine type. *)
Definition machine_value (v : any) : Prop :=
  match v with AInt z | AInt64 z => in_int64 z | _ => True end.

Lemma ParseInt_range s z : ParseInt s = Some z -> in_int64 z.
Proof.
  unfold ParseInt. destruct s as [|a s]; [done|]. intros H.
  repeat case_match; simplify_eq; done.
Qed.

Lemma coerce_float_spec field f z :
  coerce_float field f = Ok (AInt64 z) <-> float_denotes f z /\ in_int64 z.
Proof.
  rewrite <- float_int_spec.
  assert (Hc : forall e o, match o with
             | None => Err (InvalidValueTypeError field "integer" (GotFractional f))
             | Some z => if bool_decide (z < min_int64) || bool_decide (2 ^ 63 <= z)
                         then Err e else Ok (AInt64 z)
             end = Ok (AInt64 z) <-> o = Some z /\ in_int64 z).
  { intros e [z'|]; [|naive_solver]. unfold in_int64, min_int64, max_int64.
    case_bool_decide; simpl; [split; [done|intros [[= <-] ?]; lia]|].
    case_bool_decide.
    - split; [done|intros [[= <-] ?]; lia].
    - split; [intros [= <-]; split; [done|lia]|by intros [[= <-] ?]]. }
  unfold coerce_float. destruct f; try apply Hc. simpl. naive_solver.
Qed.

Lemma coerceScalar_typed field t v v' :
  machine_value v -> coerceScalar field t v = Ok v' -> typed t v'.
Proof.
  intros Hm. unfold coerceScalar. destruct v; try done; destruct t; simpl in *; try done;
    try (intros [= <-]; first [done|by eexists]).
  - destruct (ParseInt _) eqn:E; [|done]. intros [= <-]. eexists. split; [done|]. by eapply ParseInt_range.
  - destruct (ParseBool _); [|done]. intros [= <-]. by eexists.
  - destruct (parse_date _); [|done]. intros [= <-]. by eexists.
  - intros H. assert (exists z, v' = AInt64 z) as [z ->].
    { unfold coerce_float in H. repeat case_match; simplify_eq; eauto. }
    apply coerce_float_spec in H as [_ ?]. eauto.
Qed.

(** C31: Coercion is sound: a coerced scalar has the declared type of its field,
    integers within 64 bits; and a JSON number is accepted for an integer field
    exactly when the float denotes an integer in the 64-bit range, and then it
    is that integer. *)
Theorem coercion_sound field t v v' :
  machine_value v -> coerceScalar field t v = Ok v' ->
  typed t v' /\
  (forall f, t = FieldInt -> v = AFloat f -> exists z, v' = AInt64 z /\ float_denotes f z) /\
  (forall f z, float_denotes f z -> in_int64 z -> coerceScalar field FieldInt (AFloat f) = Ok (AInt64 z)).
Proof.
  intros Hm H. pose proof (coerceScalar_typed _ _ _ _ Hm H) as Ht. split_and!; [done| |].
  - intros f -> ->. destruct Ht as (z & -> & _). exists z. split; [done|].
    by apply coerce_float_spec in H as [? _].
  - intros f z Hd Hz. by apply coerce_float_spec.
Qed.

Lemma coercion_sound_witness :
  typed FieldInt (AInt64 12) /\
  (forall f, FieldInt = FieldInt -> AFloat (S754_finite false 3 2) = AFloat f ->
     exists z, AInt64 12 = AInt64 z /\ float_denotes f z) /\
  (forall f z, float_denotes f z -> in_int64 z ->
     coerceScalar "n" FieldInt (AFloat f) = Ok (AInt64 z)).
Proof.
  apply (coercion_sound "n" FieldInt (AFloat (S754_finite false 3 2)) (AInt64 12));
    [exact I|vm_compute; reflexivity].
Defined.
