(* ===== verification/GoFmt.v ===== *)
(** * The Go standard library: [fmt.Sprintf] with one string argument

    The formatting loop of [fmt] for a format that the caller does not control,
    as [SubqueryResolver] uses it: literal text, flags, width, precision,
    argument indexes and verbs, and the marks [fmt] leaves for a bad verb, a
    missing or an extra argument.  The argument is a text in which bytes and
    characters coincide and nothing needs escaping, as a SQL placeholder. *)
From S2P Require Import Prelude GoUnicode GoStrings GoPath GoCrypto SearchCoerce.

Local Open Scope string_scope.
Local Open Scope Z_scope.
Local Open Scope list_scope.

(** The output, with the places where the argument appears unchanged. *)
Inductive piece : Type := PLit (s : string) | PArg.

Definition piece_text (arg : string) (p : piece) : string :=
  match p with PLit s => s | PArg => arg end.

(** The state of a directive: flags, width and precision. *)
Record fmt_spec : Type := {
  sharp : bool; sharpV : bool; zero : bool; plus : bool; minus : bool; space : bool;
  wid : option Z; prec : option Z
}.
Definition clearflags : fmt_spec :=
  {| sharp := false; sharpV := false; zero := false; plus := false; minus := false; space := false;
     wid := None; prec := None |}.

(** ** Printing the argument *)
Fixpoint writePadding (f : fmt_spec) (n : nat) : string :=
  match n with
  | O => ""
  | S n' => String (if zero f && negb (minus f) then "0"%char else " "%char) (writePadding f n')
  end.

Definition padString (f : fmt_spec) (s : string) : string :=
  match wid f with
  | None => s
  | Some w =>
      let p := writePadding f (Z.to_nat (w - Z.of_nat (String.length s))) in
      if minus f then s +:+ p else p +:+ s
  end.

Definition truncateString (f : fmt_spec) (s : string) : string :=
  match prec f with Some n => String.substring 0 (Z.to_nat n) s | None => s end.

Definition fmtS (f : fmt_spec) (s : string) : string := padString f (truncateString f s).

Definition fmtQ (f : fmt_spec) (s : string) : string :=
  let s := truncateString f s in
  padString f (if sharp f then "`" +:+ s +:+ "`" else quote s).

Definition fmtSbx (f : fmt_spec) (upper : bool) (s : string) : string :=
  let bytes := bytes_of (truncateString f s) in
  let mark := if sharp f then if upper then "0X" else "0x" else "" in
  let byte b := let h := hex_EncodeToString [b] in if upper then ToUpper h else h in
  padString f
    match bytes with
    | [] => ""
    | _ => if space f then Join (map (fun b => mark +:+ byte b) bytes) " "
           else mark +:+ Join (map byte bytes) ""
    end.

(** The argument as text, marked as the argument where it is unchanged. *)
Definition shown (arg text : string) : list piece :=
  if bool_decide (text = arg) then [PArg] else [PLit text].

(** [printArg] for a string; [verb] is the text of the verb's rune. *)
Definition printArg (f : fmt_spec) (arg verb : string) : list piece :=
  if bool_decide (verb = "T") then [PLit (fmtS f "string")]
  else if bool_decide (verb = "s") then shown arg (fmtS f arg)
  else if bool_decide (verb = "v") then
    if sharpV f then [PLit (fmtQ f arg)] else shown arg (fmtS f arg)
  else if bool_decide (verb = "x") then [PLit (fmtSbx f false arg)]
  else if bool_decide (verb = "X") then [PLit (fmtSbx f true arg)]
  else if bool_decide (verb = "q") then [PLit (fmtQ f arg)]
  else PLit ("%!" +:+ verb +:+ "(string=") :: shown arg (fmtS f arg) ++ [PLit ")"].

(** For the verb [v] the sharp flag asks for Go syntax. *)
Definition verb_flags (f : fmt_spec) (verb : string) : fmt_spec :=
  if bool_decide (verb = "v")
  then {| sharp := false; sharpV := sharp f; zero := zero f; plus := false; minus := minus f;
          space := space f; wid := wid f; prec := prec f |}
  else f.

(** ** Reading a directive *)
Fixpoint scan_flags (f : fmt_spec) (s : string) : fmt_spec * string :=
  match s with
  | EmptyString => (f, s)
  | String c s' =>
      let set sh z p m sp := {| sharp := sh || sharp f; sharpV := false; zero := z || zero f;
        plus := p || plus f; minus := m || minus f; space := sp || space f; wid := wid f; prec := prec f |} in
      if bool_decide (c = "#"%char) then scan_flags (set true false false false false) s'
      else if bool_decide (c = "0"%char) then scan_flags (set false true false false false) s'
      else if bool_decide (c = "+"%char) then scan_flags (set false false true false false) s'
      else if bool_decide (c = "-"%char) then scan_flags (set false false false true false) s'
      else if bool_decide (c = " "%char) then scan_flags (set false false false false true) s'
      else (f, s)
  end.

(** [parsenum]: a number that grows too large ends the format. *)
Fixpoint parsenum (num : Z) (isnum : bool) (s : string) : Z * bool * string :=
  match s with
  | EmptyString => (num, isnum, s)
  | String a s' =>
      match digit_val a with
      | Some d => if 1000000 <? num then (0, false, "") else parsenum (num * 10 + d) true s'
      | None => (num, isnum, s)
      end
  end.

(** The progress of the loop: the argument to take next, whether the indexes of
    the directive were good, whether there were indexes at all. *)
Record progress : Type := { argNum : nat; goodArgNum : bool; reordered : bool }.

(** [argNumber]: an index [[n]]; with one argument only [[1]] is in range. *)
Definition argNumber (p : progress) (s : string) : progress * string * bool :=
  match s with
  | String "[" s' =>
      let bad := {| argNum := argNum p; goodArgNum := false; reordered := true |} in
      if (String.length s <? 3)%nat then (bad, s', false) else
      match str_cut "]" s' with
      | None => (bad, s', false)
      | Some (inner, rest) =>
          let '(n, ok, rem) := parsenum 0 false inner in
          if ok && str_is_empty rem then
            if n =? 1 then ({| argNum := 0; goodArgNum := goodArgNum p; reordered := true |}, rest, true)
            else (bad, rest, true)
          else (bad, rest, false)
      end
  | _ => (p, s, false)
  end.

Definition bad_index (p : progress) : progress :=
  {| argNum := argNum p; goodArgNum := false; reordered := reordered p |}.
Definition next_arg (p : progress) : progress :=
  {| argNum := S (argNum p); goodArgNum := goodArgNum p; reordered := reordered p |}.

Definition set_wid (f : fmt_spec) (w : option Z) : fmt_spec :=
  {| sharp := sharp f; sharpV := sharpV f; zero := zero f; plus := plus f; minus := minus f;
     space := space f; wid := w; prec := prec f |}.
Definition set_prec (f : fmt_spec) (n : option Z) : fmt_spec :=
  {| sharp := sharp f; sharpV := sharpV f; zero := zero f; plus := plus f; minus := minus f;
     space := space f; wid := wid f; prec := n |}.

(** The width.  A [*] takes the argument, which is no number. *)
Definition read_width (p : progress) (f : fmt_spec) (afterIndex : bool) (s : string)
  : progress * fmt_spec * bool * list piece * string :=
  match s with
  | String "*" s' => (if (argNum p <? 1)%nat then next_arg p else p, f, false, [PLit "%!(BADWIDTH)"], s')
  | _ =>
      let '(n, isnum, rest) := parsenum 0 false s in
      (if afterIndex && isnum then bad_index p else p, set_wid f (if isnum then Some n else None),
       afterIndex, [], rest)
  end.

(** The precision; without digits it is 0. *)
Definition read_prec (p : progress) (f : fmt_spec) (afterIndex : bool) (s : string)
  : progress * fmt_spec * bool * list piece * string :=
  match s with
  | String "." s1 =>
      let p := if afterIndex then bad_index p else p in
      let '(p, s2, afterIndex) := argNumber p s1 in
      match s2 with
      | String "*" s3 => (if (argNum p <? 1)%nat then next_arg p else p, f, false, [PLit "%!(BADPREC)"], s3)
      | _ =>
          let '(n, isnum, rest) := parsenum 0 false s2 in
          (p, set_prec f (Some (if isnum then n else 0)), afterIndex, [], rest)
      end
  | _ => (p, f, afterIndex, [], s)
  end.

(** The text of the verb at the start of [s], and what follows it. *)
Definition read_verb (s : string) : string * string :=
  let n := snd (decode_rune s) in
  let text := String.substring 0 n s in
  (if (n =? 1)%nat && match byte_at 0 s with Some b => 128 <=? b | None => false end
   then String (ascii_of_nat 239) (String (ascii_of_nat 191) (String (ascii_of_nat 189) "")) else text,
   str_drop n s).

(** The verb: what it prints, and whether it takes the argument. *)
Definition print_verb (p : progress) (f : fmt_spec) (arg verb : string) : list piece * progress :=
  if bool_decide (verb = "%") then ([PLit "%"], p)
  else if negb (goodArgNum p) then ([PLit ("%!" +:+ verb +:+ "(BADINDEX)")], p)
  else if negb (argNum p <? 1)%nat then ([PLit ("%!" +:+ verb +:+ "(MISSING)")], p)
  else (printArg (verb_flags f verb) arg verb, next_arg p).

Definition is_lower (c : ascii) : bool :=
  let n := Z.of_nat (nat_of_ascii c) in (97 <=? n) && (n <=? 122).

(** Everything after the flags. *)
Definition slow_directive (arg : string) (p : progress) (f : fmt_spec) (s : string)
  : list piece * progress * string :=
  let '(p, s, afterIndex) := argNumber p s in
  let '(p, f, afterIndex, out1, s) := read_width p f afterIndex s in
  let '(p, f, afterIndex, out2, s) := read_prec p f afterIndex s in
  let '(p, s) := if afterIndex then (p, s) else let '(p, s, _) := argNumber p s in (p, s) in
  if str_is_empty s then (out1 ++ out2 ++ [PLit "%!(NOVERB)"], p, "") else
  let '(verb, rest) := read_verb s in
  let '(out3, p) := print_verb p f arg verb in
  (out1 ++ out2 ++ out3, p, rest).

(** A directive, after its percent sign: the fast path for a lower-case verb
    behind flags, or the rest. *)
Definition directive (arg : string) (p : progress) (s : string) : list piece * progress * string :=
  let p := {| argNum := argNum p; goodArgNum := true; reordered := reordered p |} in
  let '(f, s) := scan_flags clearflags s in
  match s with
  | String c s' =>
      if is_lower c && (argNum p <? 1)%nat
      then (printArg (verb_flags f (String c "")) arg (String c ""), next_arg p, s')
      else slow_directive arg p f s
  | EmptyString => slow_directive arg p f s
  end.

(** ** The loop *)
Fixpoint doPrintf (fuel : nat) (arg : string) (p : progress) (s : string) : list piece * progress :=
  match fuel with
  | O => ([], p)
  | S fuel' =>
      match str_cut "%" s with
      | None => ([PLit s], p)
      | Some (a, b) =>
          let '(out, p1, rest) := directive arg p b in
          let '(more, p2) := doPrintf fuel' arg p1 rest in
          (PLit a :: out ++ more, p2)
      end
  end.

Definition Sprintf1_fuel (fuel : nat) (format arg : string) : list piece :=
  let '(out, p) := doPrintf fuel arg {| argNum := 0; goodArgNum := true; reordered := false |} format in
  out ++ (if negb (reordered p) && (argNum p <? 1)%nat
          then [PLit "%!(EXTRA string="; PArg; PLit ")"] else []).

(** [fmt.Sprintf(format, arg)]; every directive takes at least its percent sign. *)
Definition Sprintf1 (format arg : string) : list piece :=
  Sprintf1_fuel (S (String.length format)) format arg.

Definition text_of (arg : string) (ps : list piece) : string := Join (map (piece_text arg) ps) "".

Example sprintf_plain : text_of "$1" (Sprintf1 "x = %s" "$1") = "x = $1".
Proof. vm_compute. reflexivity. Qed.
Example sprintf_percent : text_of "$1" (Sprintf1 "100%% of %s" "$1") = "100% of $1".
Proof. vm_compute. reflexivity. Qed.
Example sprintf_width : text_of "$1" (Sprintf1 "[%5s|%-5s" "$1") = "[   $1|%!s(MISSING)".
Proof. vm_compute. reflexivity. Qed.
Example sprintf_noverb : text_of "$1" (Sprintf1 "%s 100%" "$1") = "$1 100%!(NOVERB)".
Proof. vm_compute. reflexivity. Qed.
Example sprintf_extra : text_of "$1" (Sprintf1 "none" "$1") = "none%!(EXTRA string=$1)".
Proof. vm_compute. reflexivity. Qed.
Example sprintf_index : text_of "$1" (Sprintf1 "%[1]s %[1]q %[2]s" "$1") = "$1 " +:+ quote "$1" +:+ " %!s(BADINDEX)".
Proof. vm_compute. reflexivity. Qed.
Example sprintf_hex : text_of "$1" (Sprintf1 "%# x" "$1") = "0x24 0x31".
Proof. vm_compute. reflexivity. Qed.

(** ** The fuel is enough *)
Lemma drop_shorter n s : (String.length (str_drop n s) <= String.length s)%nat.
Proof. rewrite str_drop_length. lia. Qed.

Lemma cut_shorter sep s a b : str_cut sep s = Some (a, b) -> (String.length b <= String.length s)%nat.
Proof.
  revert a b. induction s as [|c s IH]; intros a b; simpl.
  - case_match; [|done]. intros [= <- <-]. etrans; [apply drop_shorter|]. done.
  - case_match; [intros [= <- <-]; apply (drop_shorter _ (String c s))|].
    destruct (str_cut sep s) as [[a' b']|]; [|done]. intros [= <- <-]. specialize (IH _ _ eq_refl). lia.
Qed.

Lemma flags_shorter f s : (String.length (snd (scan_flags f s)) <= String.length s)%nat.
Proof.
  revert f. induction s as [|c s IH]; intros f; simpl; [done|].
  repeat case_bool_decide; simpl; try lia; etrans; try apply IH; lia.
Qed.

Lemma num_shorter n b s : (String.length (snd (parsenum n b s)) <= String.length s)%nat.
Proof.
  revert n b. induction s as [|c s IH]; intros n b; simpl; [done|].
  destruct (digit_val c) as [d|]; [|done]. destruct (_ <? _); simpl; [lia|]. etrans; [apply IH|lia].
Qed.

Lemma index_shorter p s : (String.length (snd (fst (argNumber p s))) <= String.length s)%nat.
Proof.
  unfold argNumber. destruct s as [|c s]; [done|].
  destruct c as [[] [] [] [] [] [] [] []]; try done. case_match; [simpl; lia|].
  destruct (str_cut "]" s) as [[inner rest]|] eqn:E; [|simpl; lia]. apply cut_shorter in E.
  destruct (parsenum 0 false inner) as [[n ok] rem]. repeat case_match; simpl; lia.
Qed.

Lemma width_shorter p f b s : (String.length (snd (read_width p f b s)) <= String.length s)%nat.
Proof.
  pose proof (num_shorter 0 false s) as H. unfold read_width. destruct s as [|c s]; [done|].
  destruct (parsenum 0 false (String c s)) as [[n i] rest]. simpl snd in H.
  destruct c as [[] [] [] [] [] [] [] []]; simpl snd; solve [exact H | simpl; lia].
Qed.

Lemma prec_shorter p f b s : (String.length (snd (read_prec p f b s)) <= String.length s)%nat.
Proof.
  unfold read_prec. destruct s as [|c s]; [done|]. destruct c as [[] [] [] [] [] [] [] []]; try done.
  pose proof (index_shorter (if b then bad_index p else p) s) as H.
  destruct (argNumber _ s) as [[p' s2] a]. simpl in H. pose proof (num_shorter 0 false s2) as H2.
  destruct (parsenum 0 false s2) as [[n i] rest]. simpl in H2.
  destruct s2 as [|c s2]; [simpl in *; lia|].
  destruct c as [[] [] [] [] [] [] [] []]; simpl in *; lia.
Qed.

Lemma directive_shorter arg p s : (String.length (snd (directive arg p s)) <= String.length s)%nat.
Proof.
  assert (Hslow : forall p f s, (String.length (snd (slow_directive arg p f s)) <= String.length s)%nat).
  { clear. intros p f s. unfold slow_directive.
    pose proof (index_shorter p s) as H1. destruct (argNumber p s) as [[p1 s1] a1]. simpl in H1.
    pose proof (width_shorter p1 f a1 s1) as H2.
    destruct (read_width p1 f a1 s1) as [[[[p2 f2] a2] o2] s2]. simpl in H2.
    pose proof (prec_shorter p2 f2 a2 s2) as H3.
    destruct (read_prec p2 f2 a2 s2) as [[[[p3 f3] a3] o3] s3]. simpl in H3.
    pose proof (index_shorter p3 s3) as H4.
    assert (H5 : (String.length (snd (if a3 then (p3, s3) else let '(p, s, _) := argNumber p3 s3 in (p, s)))
                  <= String.length s3)%nat) by (destruct a3; [done|by destruct (argNumber p3 s3) as [[? ?] ?]]).
    destruct (if a3 then _ else _) as [p4 s4]. simpl in H5. destruct (str_is_empty s4); [simpl; lia|].
    unfold read_verb. pose proof (drop_shorter (snd (decode_rune s4)) s4) as H6.
    destruct (print_verb _ _ _ _) as [o5 p5]. simpl. lia. }
  unfold directive. pose proof (flags_shorter clearflags s) as Hf.
  destruct (scan_flags clearflags s) as [f s1]. simpl in Hf. destruct s1 as [|c s1].
  - etrans; [apply Hslow|done].
  - destruct (_ && _); [simpl in *; lia|]. etrans; [apply Hslow|done].
Qed.

Lemma cut_percent s a b : str_cut "%" s = Some (a, b) -> (String.length b < String.length s)%nat.
Proof. intros ->%str_cut_Some. rewrite !str_length_app. simpl. lia. Qed.

(** More iterations than the format has characters change nothing. *)
Lemma doPrintf_fuel n m arg p s :
  (String.length s < n)%nat -> (String.length s < m)%nat -> doPrintf n arg p s = doPrintf m arg p s.
Proof.
  revert m p s. induction n as [|n IH]; intros m p s Hn Hm; [lia|]. destruct m as [|m]; [lia|]. simpl.
  destruct (str_cut "%" s) as [[a b]|] eqn:E; [|done]. apply cut_percent in E.
  pose proof (directive_shorter arg p b) as Hd. destruct (directive arg p b) as [[out p1] rest].
  simpl in Hd. by rewrite (IH m) by lia.
Qed.

Lemma str_cut_none c s : no_char c s = true -> str_cut (String c "") s = None.
Proof.
  unfold no_char. induction s as [|a s IH]; intros H; [done|]. simpl in H. go_split.
  cbn [str_cut]. rewrite IH by done.
  assert (HasPrefix (String a s) (String c "") = false) as ->; [|done].
  unfold HasPrefix. simpl. case_match; [congruence|done].
Qed.

(** Around a single [%s] the text is kept as it is. *)
Lemma Sprintf1_single a b arg :
  no_char "%"%char a = true -> no_char "%"%char b = true ->
  Sprintf1 (a +:+ "%s" +:+ b) arg = [PLit a; PArg; PLit b].
Proof.
  intros Ha Hb. unfold Sprintf1, Sprintf1_fuel.
  assert (Hc : str_cut "%" (a +:+ "%s" +:+ b) = Some (a, String "s" b)).
  { apply (str_cut_char "%"%char a (String "s" b)). done. }
  assert (Hn : str_cut "%" b = None) by (by apply str_cut_none).
  assert (Hs : shown arg (fmtS clearflags arg) = [PArg]).
  { unfold shown, fmtS, padString, truncateString. simpl. by rewrite bool_decide_true. }
  assert (Hd : forall p, argNum p = 0%nat ->
    directive arg p (String "s" b) =
    ([PArg], next_arg {| argNum := argNum p; goodArgNum := true; reordered := reordered p |}, b)).
  { intros [n g r] Hp. simpl in Hp. subst n. unfold directive. cbn -[printArg]. do 2 f_equal. exact Hs. }
  rewrite (doPrintf_fuel _ (S (S (S (String.length (a +:+ "%s" +:+ b)))))) by lia.
  cbn [doPrintf]. rewrite Hc, Hd by done. cbn [doPrintf]. rewrite Hn. done.
Qed.
