(* ===== verification/Search.v ===== *)
(** * Search compilation: [search/resolver.go], [search/config.go],
    [search/counter.go], [search/registry.go]

    A SQL text under construction is a list of tokens, literal text and bound
    placeholders; [render] is the string the code builds.  [add] appends to the
    argument list and yields the placeholder of the new argument, so argument
    lists are threaded through the compiler. *)
From S2P Require Import Prelude GoStrings GoStrconv SearchTypes SearchCoerce GoFmt.

Local Open Scope string_scope.
Local Open Scope list_scope.

(** ** SQL text *)
Inductive token : Type := Lit (s : string) | Ph (n : nat).
Abbreviation sql := (list token).

Definition token_text (t : token) : string :=
  match t with Lit s => s | Ph n => "$" +:+ itoa (Z.of_nat n) end.
Definition render (q : sql) : string := Join (map token_text q) "".

(** [strings.Join] on fragments. *)
Fixpoint join_sql (sep : string) (l : list sql) : sql :=
  match l with
  | [] => []
  | [q] => q
  | q :: l' => q ++ Lit sep :: join_sql sep l'
  end.

(** The compiler's [add]. *)
Definition add (v : any) (args : list any) : token * list any :=
  (Ph (S (length args)), args ++ [v]).

(** A resolver: operator and value to a fragment, binding arguments. *)
Definition Resolve : Type := string -> any -> list any -> res search_err (sql * list any).

(** ** Operators *)
Definition OpEq : string := "eq".
Definition OpNe : string := "ne".
Definition OpGt : string := "gt".
Definition OpGte : string := "gte".
Definition OpLt : string := "lt".
Definition OpLte : string := "lte".
Definition OpLike : string := "like".
Definition OpILike : string := "ilike".
Definition OpNotLike : string := "not_like".
Definition OpNotILike : string := "not_ilike".
Definition OpIn : string := "in".
Definition OpNotIn : string := "not_in".
Definition OpIsNull : string := "is_null".
Definition OpIsNotNull : string := "is_not_null".
Definition OpBetween : string := "between".

(** ** Resolvers *)
Definition comparisonSQL (op : string) : option string :=
  let table := [(OpEq, "="); (OpNe, "<>"); (OpGt, ">"); (OpGte, ">="); (OpLt, "<"); (OpLte, "<=");
                (OpLike, "LIKE"); (OpILike, "ILIKE"); (OpNotLike, "NOT LIKE");
                (OpNotILike, "NOT ILIKE")] in
  match find (fun kv => bool_decide (kv.1 = op)) table with
  | Some (_, sym) => Some sym
  | None => None
  end.

(** Binding the values of a list, each with its cast. *)
Fixpoint bind_all (c : string) (vals : list any) (args : list any) : list sql * list any :=
  match vals with
  | [] => ([], args)
  | v :: vals' =>
      let '(p, args1) := add v args in
      let '(ps, args2) := bind_all c vals' args1 in ([p; Lit c] :: ps, args2)
  end.

(** [DirectColumnResolver.Resolve] *)
Definition Direct_Resolve (col : string) (typ : FieldType) (field : string) : Resolve :=
  fun op value args =>
  let c := cast typ in
  match comparisonSQL op with
  | Some sym =>
      let? v := coerceScalar field typ value in
      let '(p, args') := add v args in
      Ok ([Lit col; Lit " "; Lit sym; Lit " "; p; Lit c], args')
  | None =>
      if bool_decide (op = OpIn) || bool_decide (op = OpNotIn) then
        let? vals := coerceList field typ value in
        if (length vals =? 0)%nat
        then Err (InvalidValueTypeError field "non-empty array" (GotText "empty array"))
        else
          let '(phs, args') := bind_all c vals args in
          let kw := if bool_decide (op = OpNotIn) then "NOT IN" else "IN" in
          Ok ([Lit col; Lit " "; Lit kw; Lit " ("] ++ join_sql ", " phs ++ [Lit ")"], args')
      else if bool_decide (op = OpBetween) then
        let? vals := coerceList field typ value in
        match vals with
        | [v0; v1] =>
            let '(p0, args1) := add v0 args in
            let '(p1, args2) := add v1 args1 in
            Ok ([Lit col; Lit " BETWEEN "; p0; Lit c; Lit " AND "; p1; Lit c], args2)
        | _ => Err (InvalidValueTypeError field "two-element array"
                      (GotCount (length vals) "-element array"))
        end
      else if bool_decide (op = OpIsNull) then Ok ([Lit col; Lit " IS NULL"], args)
      else if bool_decide (op = OpIsNotNull) then Ok ([Lit col; Lit " IS NOT NULL"], args)
      else Err (UnsupportedOperatorError field op)
  end.

(** [strings.Count(template, "%s")] *)
Definition count_verbs (template : string) : nat := (length (SplitAfter template "%s") - 1)%nat.

(** What [fmt.Sprintf] writes, with the placeholder where it stands unchanged. *)
Definition piece_tokens (ph : token) (c : string) (p : piece) : sql :=
  match p with PLit s => [Lit s] | PArg => [ph; Lit c] end.

(** [SubqueryResolver.Resolve] *)
Definition Subquery_Resolve (template : string) (typ : FieldType) (field : string) : Resolve :=
  fun op value args =>
  if negb (count_verbs template =? 1)%nat
  then Err (OtherError ("search: SubqueryResolver template for " +:+ Quote field
                        +:+ " must contain exactly one %s"))
  else if bool_decide (op = OpEq) then
    let? v := coerceScalar field typ value in
    let '(p, args') := add v args in
    let pieces := Sprintf1 template (token_text p +:+ cast typ) in
    Ok (concat (map (piece_tokens p (cast typ)) pieces), args')
  else Err (UnsupportedOperatorError field op).

(** ** Configuration *)
Record FieldConfig : Type := {
  fc_Type : FieldType;
  Column : string;
  AllowedOperators : list string;
  Sortable : bool;
  Searchable : bool;
  CaseInsensitive : bool;
  Resolver : option Resolve
}.

(** The counting strategies of the package. *)
Inductive Counter : Type := ExactCounter | AdaptiveCounter (Timeout : Z).

Record ResourceConfig : Type := {
  rc_Name : string;
  Fields : gmap string FieldConfig;
  DefaultSort : SortConfig;
  rc_Counter : option Counter;
  TenantColumn : string;
  MaxPageSize : Z;
  MaxBulkTerms : Z
}.

Record CompiledQuery : Type := { Where : sql; OrderBy : string; Limit : string; Args : list any }.

(** [compileState] after the options. *)
Record compileState : Type := { tenantValue : string; hasTenant : bool }.
Definition WithTenant (value : string) (s : compileState) : compileState :=
  {| tenantValue := value; hasTenant := true |}.

Fixpoint contains (s : list string) (v : string) : bool :=
  match s with
  | [] => false
  | x :: s' => if bool_decide (x = v) then true else contains s' v
  end.

Lemma contains_spec s v : contains s v = true <-> v ∈ s.
Proof.
  induction s as [|x s IH]; simpl; [split; [done|set_solver]|]. rewrite elem_of_cons.
  case_bool_decide; [naive_solver|]. rewrite IH. naive_solver.
Qed.

Section config.
Variable c : ResourceConfig.

Definition maxPageSize : Z :=
  if bool_decide (0 < MaxPageSize c)%Z then MaxPageSize c else DefaultMaxPageSize.
Definition PageSizeOf (p : Pagination) : Z := SizeWithMax p maxPageSize.

(** The terms compilation uses: neither blank nor all wildcards, trimmed. *)
Definition effective_terms (terms : list string) : list string :=
  filter (fun t => t <> "" /\ IsAllWildcard t = false) (map TrimSpace terms).

Definition validateFilter (f : FilterParameter) : res search_err FieldConfig :=
  match Fields c !! f_Field f with
  | None => Err (InvalidFieldError (f_Field f) (rc_Name c))
  | Some fc =>
      if (length (AllowedOperators fc) =? 0)%nat then Ok fc
      else
        let op := ToLower (f_Operator f) in
        if negb (contains (AllowedOperators fc) op)
        then Err (UnsupportedOperatorError (f_Field f) (f_Operator f))
        else Ok fc
  end.

Definition validateSort (s : SortField) : res search_err FieldConfig :=
  match Fields c !! sf_Field s with
  | None => Err (InvalidFieldError (sf_Field s) (rc_Name c))
  | Some fc => if negb (Sortable fc) then Err (FieldNotSortableError (sf_Field s) (rc_Name c))
               else Ok fc
  end.

Definition Validate (req : RequestBody) : option search_err :=
  let effective := length (effective_terms (SearchTerms req)) in
  if bool_decide (0 < MaxBulkTerms c)%Z && bool_decide (MaxBulkTerms c < Z.of_nat effective)%Z
  then Some (InvalidValueTypeError "search_terms"
               ("at most " +:+ itoa (MaxBulkTerms c) +:+ " terms") (GotCount effective " terms"))
  else
    match res_mapM validateFilter (Filters req) with
    | Err e => Some e
    | Ok _ =>
        match res_mapM validateSort (SortFields req) with
        | Err e => Some e
        | Ok _ => None
        end
    end.

(** The searchable columns, sorted. *)
Definition searchColumns : list string :=
  SortStrings (omap (fun kv : string * FieldConfig =>
    if Searchable kv.2 && bool_decide (Column kv.2 <> "") then Some (Column kv.2) else None)
    (map_to_list (Fields c))).

(** One term over the columns: the loop body of [buildSearchTerms]. *)
Definition term_cond (cols : list string) (p : token) : sql :=
  Lit "(" :: join_sql " OR " (map (fun col => [Lit col; Lit " ILIKE "; p]) cols) ++ [Lit ")"].

Fixpoint term_conds (cols terms : list string) (args : list any) : list sql * list any :=
  match terms with
  | [] => ([], args)
  | t :: terms' =>
      let '(p, args1) := add (AString (wildcardToLike t)) args in
      let '(qs, args2) := term_conds cols terms' args1 in (term_cond cols p :: qs, args2)
  end.

Definition buildSearchTerms (terms : list string) (args : list any) : sql * list any :=
  let cols := searchColumns in
  if (length cols =? 0)%nat then ([], args) else
  let '(conds, args') := term_conds cols (effective_terms terms) args in
  if (length conds =? 0)%nat then ([], args')
  else (Lit "(" :: join_sql " OR " conds ++ [Lit ")"], args').

Definition sqlDirection (dir : string) : string :=
  if EqualFold dir "desc" then "DESC" else "ASC".

Definition order_parts (sorts : list SortField) : list string :=
  omap (fun s => match Fields c !! sf_Field s with
                 | Some fc => if Sortable fc
                              then Some (Column fc +:+ " " +:+ sqlDirection (sf_Direction s)) else None
                 | None => None
                 end) sorts.

Definition buildOrderBy (sorts : list SortField) : string :=
  let parts := order_parts sorts in
  if (length parts =? 0)%nat then
    if bool_decide (sc_Field (DefaultSort c) = "") then ""
    else match Fields c !! sc_Field (DefaultSort c) with
         | Some fc => "ORDER BY " +:+ Column fc +:+ " " +:+ sqlDirection (sc_Direction (DefaultSort c))
         | None => ""
         end
  else "ORDER BY " +:+ Join parts ", ".

Definition resolver (field : string) (fc : FieldConfig) : Resolve :=
  match Resolver fc with Some r => r | None => Direct_Resolve (Column fc) (fc_Type fc) field end.

(** The filter loop of [Compile]. *)
Fixpoint compile_filters (fs : list FilterParameter) (args : list any)
  : res search_err (list sql * list any) :=
  match fs with
  | [] => Ok ([], args)
  | f :: fs' =>
      let? fc := validateFilter f in
      let? (frag, args1) := resolver (f_Field f) fc (ToLower (f_Operator f)) (f_Value f) args in
      let? (qs, args2) := compile_filters fs' args1 in
      Ok (if bool_decide (render frag <> "") then frag :: qs else qs, args2)
  end.

Definition Compile (req : RequestBody) (opts : list (compileState -> compileState))
  : res search_err CompiledQuery :=
  let st := fold_left (fun s o => o s) opts {| tenantValue := ""; hasTenant := false |} in
  let '(tenant, args0) :=
    if bool_decide (TenantColumn c <> "") && hasTenant st
    then let '(p, a) := add (AString (tenantValue st)) [] in
         ([[Lit (TenantColumn c); Lit " = "; p]], a)
    else ([], []) in
  let '(term, args1) := buildSearchTerms (SearchTerms req) args0 in
  let? (frags, args2) := compile_filters (Filters req) args1 in
  Ok {| Where := join_sql " AND "
          (tenant ++ (if bool_decide (render term <> "") then [term] else []) ++ frags);
        OrderBy := buildOrderBy (SortFields req);
        Limit := "LIMIT " +:+ itoa (PageSizeOf (rb_Pagination req)) +:+ " OFFSET " +:+
                 itoa (OffsetWithMax (rb_Pagination req) maxPageSize);
        Args := args2 |}.

End config.

(** ** Counting *)

(** A query error, by what the code asks of it: whether [errors.Is] finds
    [context.DeadlineExceeded] or [context.Canceled], the SQLSTATE [errors.As]
    finds, and its text. *)
Record query_err : Type := {
  is_deadline : bool; is_canceled : bool; pg_code : option string; qe_text : string
}.
(** [fmt.Errorf] with [%w]: only the text changes. *)
Definition wrap (msg : string) (e : query_err) : query_err :=
  {| is_deadline := is_deadline e; is_canceled := is_canceled e; pg_code := pg_code e;
     qe_text := msg +:+ ": " +:+ qe_text e |}.

(** A count query, under a timeout of its own (nanoseconds) or in the caller's
    context, over the state [W] of the database. *)
Abbreviation CountFunc W := (option Z -> W -> res query_err Z * W).

Definition DefaultCountTimeout : Z := 200000000.
Definition DefaultAdminCountTimeout : Z := 500000000.

Definition counter_Count {W} (ctr : Counter) (exact estimate : CountFunc W) (w : W)
  : res query_err CountResult * W :=
  match ctr with
  | ExactCounter =>
      match exact None w with
      | (Ok n, w1) => (Ok {| Count := n; IsEstimated := false |}, w1)
      | (Err e, w1) => (Err (wrap "exact count failed" e), w1)
      end
  | AdaptiveCounter t =>
      let timeout := if bool_decide (t <= 0)%Z then DefaultCountTimeout else t in
      match exact (Some timeout) w with
      | (Ok n, w1) => (Ok {| Count := n; IsEstimated := false |}, w1)
      | (Err e, w1) =>
          if negb (is_deadline e) then (Err (wrap "count query failed" e), w1)
          else match estimate None w1 with
               | (Ok est, w2) => (Ok {| Count := est; IsEstimated := true |}, w2)
               | (Err e', w2) => (Err (wrap "count timed out and estimate failed" e'), w2)
               end
      end
  end.

Definition config_Count {W} (c : ResourceConfig) (exact estimate : CountFunc W) (w : W)
  : res query_err CountResult * W :=
  counter_Count (default (AdaptiveCounter 0) (rc_Counter c)) exact estimate w.

Definition CorrectEmptyFirstPage (result : CountResult) (p : Pagination) (rowsOnPage : Z)
  : CountResult :=
  if IsEstimated result && bool_decide (Number p = 1)%Z && bool_decide (rowsOnPage = 0)%Z
  then {| Count := 0; IsEstimated := false |} else result.

(** ** The registry of resources *)
Abbreviation Registry := (gmap string ResourceConfig).

Definition NewRegistry : Registry := ∅.

(** [Register] panics on a nil config, an empty or a taken name. *)
Definition Register (cfg : option ResourceConfig) (r : Registry) : res string Registry :=
  match cfg with
  | None => Err "search: Register requires a non-nil config with a non-empty Name"
  | Some cfg =>
      if bool_decide (rc_Name cfg = "")
      then Err "search: Register requires a non-nil config with a non-empty Name"
      else match r !! rc_Name cfg with
           | Some _ => Err ("search: resource " +:+ Quote (rc_Name cfg) +:+ " already registered")
           | None => Ok (<[rc_Name cfg := cfg]> r)
           end
  end.

Definition Get (name : string) (r : Registry) : res search_err ResourceConfig :=
  match r !! name with Some cfg => Ok cfg | None => Err (UnknownResourceError name) end.
(** Unordered. *)
Definition Names (r : Registry) : list string := map fst (map_to_list r).

(** ** Placeholders *)

(** [q] uses exactly the placeholders [lo+1 .. hi]. *)
Definition uses (lo hi : nat) (q : sql) : Prop := forall n, Ph n ∈ q <-> (lo < n <= hi)%nat.

Lemma uses_app lo mid hi q q' :
  (lo <= mid)%nat -> (mid <= hi)%nat -> uses lo mid q -> uses mid hi q' -> uses lo hi (q ++ q').
Proof. intros H1 H2 U U' n. rewrite elem_of_app, (U n), (U' n). lia. Qed.

Lemma uses_none lo q : (forall n, Ph n ∉ q) -> uses lo lo q.
Proof. intros H n. split; [by intros ?%H|lia]. Qed.

Lemma uses_lit lo hi s q : uses lo hi (Lit s :: q) <-> uses lo hi q.
Proof. unfold uses. setoid_rewrite elem_of_cons. naive_solver. Qed.

Lemma uses_snoc_lit lo hi s q : uses lo hi (q ++ [Lit s]) <-> uses lo hi q.
Proof. unfold uses. setoid_rewrite elem_of_app. setoid_rewrite list_elem_of_singleton. naive_solver. Qed.

(** The fragments of a list, joined: each starts where the previous one ended. *)
Inductive uses_all : nat -> nat -> list sql -> Prop :=
| ua_nil n : uses_all n n []
| ua_cons lo mid hi q qs :
    (lo <= mid)%nat -> (mid <= hi)%nat -> uses lo mid q -> uses_all mid hi qs ->
    uses_all lo hi (q :: qs).

Lemma uses_all_le lo hi qs : uses_all lo hi qs -> (lo <= hi)%nat.
Proof. destruct 1; lia. Qed.

Lemma uses_join sep lo hi qs : uses_all lo hi qs -> uses lo hi (join_sql sep qs).
Proof.
  induction 1 as [n|lo mid hi q qs H1 H2 U Us IH]; [by apply uses_none; set_solver|].
  destruct qs as [|q' qs]; simpl.
  - inversion Us; subst. done.
  - apply (uses_app lo mid hi); [done..|]. by apply uses_lit.
Qed.

Lemma uses_all_app lo mid hi qs qs' :
  uses_all lo mid qs -> uses_all mid hi qs' -> uses_all lo hi (qs ++ qs').
Proof.
  induction 1 as [n|lo mid0 hi0 q qs H1 H2 U Us IH]; intros Us'; [done|].
  simpl. econstructor; [done| |done|by apply IH]. apply uses_all_le in Us'. lia.
Qed.

(** A fragment that renders to nothing binds nothing. *)
Lemma render_cons t q : render (t :: q) = token_text t +:+ render q.
Proof. unfold render, Join. simpl. destruct q; simpl; [by rewrite str_app_nil_r|done]. Qed.

Lemma render_empty_no_ph q n : render q = "" -> Ph n ∉ q.
Proof.
  induction q as [|t q IH]; [set_solver|]. rewrite render_cons. intros H.
  destruct t as [s|m]; [|done]. destruct s; [|done]. simpl in H.
  intros [Hn|Hn]%elem_of_cons; [done|]. by apply (IH H).
Qed.

(** What the compiler relies on of a custom resolver: it keeps the arguments
    bound so far and its fragment uses exactly those it added. *)
Definition resolver_binds (r : Resolve) : Prop :=
  forall op v args frag args', r op v args = Ok (frag, args') ->
    (exists new, args' = args ++ new) /\ uses (length args) (length args') frag.

Lemma bind_all_spec c vals args ps args' :
  bind_all c vals args = (ps, args') ->
  args' = args ++ vals /\ uses_all (length args) (length args') ps /\ length ps = length vals /\
  Forall (fun q => exists n, q = [Ph n; Lit c]) ps.
Proof.
  revert args ps args'. induction vals as [|v vals IH]; intros args ps args'; simpl.
  { intros [= <- <-]. rewrite app_nil_r. split_and!; try done; constructor. }
  destruct (bind_all c vals (args ++ [v])) as [qs args2] eqn:E. intros [= <- <-].
  apply IH in E as (-> & U & L & F). rewrite <- app_assoc in *. split_and!; [done| |simpl; lia|].
  - econstructor; [| | |exact U].
    + rewrite length_app. simpl. lia.
    + by apply uses_all_le in U.
    + intros n. rewrite length_app. simpl. rewrite elem_of_cons, list_elem_of_singleton.
      split; [intros [[= ->]|?]; [lia|done]|]. intros. left. f_equal. lia.
  - constructor; [by eexists|done].
Qed.

(** One argument, one placeholder. *)
Lemma uses_one (args : list any) v q :
  (forall n, Ph n ∈ q <-> n = S (length args)) -> uses (length args) (length (args ++ [v])) q.
Proof. intros H n. rewrite H, length_app. simpl. lia. Qed.

Ltac tokens := rewrite ?elem_of_cons, ?elem_of_nil; intuition (try congruence).

Lemma direct_binds col typ field : resolver_binds (Direct_Resolve col typ field).
Proof.
  intros op v args frag args'. unfold Direct_Resolve, add.
  destruct (comparisonSQL op).
  { destruct (coerceScalar _ _ _) as [x|]; [|done]. intros [= <- <-]. split; [by eexists|].
    apply uses_one. intros n. tokens. }
  destruct (_ || _).
  { destruct (coerceList _ _ _) as [vals|]; [|done]. destruct (_ =? _)%nat; [done|].
    destruct (bind_all _ vals args) as [ps args2] eqn:E. intros [= <- <-].
    apply bind_all_spec in E as (-> & U & _). split; [by eexists|].
    rewrite !uses_lit, uses_snoc_lit. by apply uses_join. }
  destruct (bool_decide (op = OpBetween)).
  { destruct (coerceList _ _ _) as [vals|]; [|done].
    destruct vals as [|v0 [|v1 [|]]]; try done. intros [= <- <-]. rewrite <- app_assoc.
    split; [by eexists|]. intros n. rewrite !length_app, !elem_of_cons, elem_of_nil. simpl. split.
    - intros [?|[?|[[= ->]|[?|[?|[[= ->]|[?|?]]]]]]]; try done; lia.
    - intros Hn. destruct (decide (n = S (length args))); [subst; auto|].
      assert (n = S (length args + 1)) as -> by lia. auto 10. }
  destruct (bool_decide (op = OpIsNull)); [|destruct (bool_decide _); [|done]];
    intros [= <- <-]; (split; [exists []; by rewrite app_nil_r|]); apply uses_none; intros n; tokens.
Qed.

(** The template has one percent sign, that of its [%s]. *)
Definition single_verb (template a b : string) : Prop :=
  template = a +:+ "%s" +:+ b /\ no_char "%"%char a = true /\ no_char "%"%char b = true.

(** Such a template is filled in by the placeholder. *)
Lemma subquery_fragment template a b typ field op value args frag args' :
  single_verb template a b -> Subquery_Resolve template typ field op value args = Ok (frag, args') ->
  op = OpEq /\ exists v, coerceScalar field typ value = Ok v /\ args' = args ++ [v] /\
    frag = [Lit a; Ph (S (length args)); Lit (cast typ); Lit b].
Proof.
  intros (-> & Ha & Hb). unfold Subquery_Resolve, add. destruct (negb _); [done|].
  case_bool_decide as Eop; [|done]. destruct (coerceScalar field typ value) as [v|]; [|done].
  rewrite Sprintf1_single by done. intros [= <- <-]. eauto 10.
Qed.

Lemma subquery_binds template a b typ field :
  single_verb template a b -> resolver_binds (Subquery_Resolve template typ field).
Proof.
  intros Ht op v args frag args' H.
  destruct (subquery_fragment _ _ _ _ _ _ _ _ _ _ Ht H) as (_ & x & _ & -> & ->).
  split; [by eexists|]. apply uses_one. intros n. tokens.
Qed.

(** ** Literal text *)

(** The words of SQL the compiler writes. *)
Definition keywords : list string :=
  ["="; "<>"; ">"; ">="; "<"; "<="; "LIKE"; "ILIKE"; "NOT LIKE"; "NOT ILIKE"; "IN"; "NOT IN";
   " "; " ("; "("; ")"; ", "; " OR "; " AND "; " = "; " ILIKE "; " BETWEEN "; " IS NULL";
   " IS NOT NULL"; ""; "::uuid"; "::timestamptz"; "::bigint"; "::boolean"].

Definition lits (P : string -> Prop) (q : sql) : Prop := forall s, Lit s ∈ q -> P s.

Lemma lits_nil P : lits P [].
Proof. intros s. set_solver. Qed.
Lemma lits_app P q q' : lits P (q ++ q') <-> lits P q /\ lits P q'.
Proof. unfold lits. setoid_rewrite elem_of_app. naive_solver. Qed.
Lemma lits_lit P s q : lits P (Lit s :: q) <-> P s /\ lits P q.
Proof. unfold lits. setoid_rewrite elem_of_cons. naive_solver. Qed.
Lemma lits_ph P n q : lits P (Ph n :: q) <-> lits P q.
Proof. unfold lits. setoid_rewrite elem_of_cons. naive_solver. Qed.
Lemma lits_join (P : string -> Prop) sep qs : P sep -> Forall (lits P) qs -> lits P (join_sql sep qs).
Proof.
  intros Hs. induction 1 as [|q qs Hq Hqs IH]; [apply lits_nil|].
  destruct qs as [|q' qs]; simpl; [done|]. apply lits_app. split; [done|]. by apply lits_lit.
Qed.

Ltac kw := apply (bool_decide_unpack _); vm_compute; exact I.

Lemma cast_keyword t : cast t ∈ keywords.
Proof. destruct t; kw. Qed.
Lemma comparison_keyword op sym : comparisonSQL op = Some sym -> sym ∈ keywords.
Proof.
  unfold comparisonSQL. destruct (find _ _) as [[k y]|] eqn:E; [|done]. intros [= <-].
  apply find_some in E as [Hin _]. simpl in Hin.
  repeat (destruct Hin as [[= <- <-]|Hin]; [kw|]). done.
Qed.

(** Solves [P s] for a keyword, a hypothesis, or an empty list. *)
Ltac own HK := first [assumption | exact (lits_nil _) | apply HK; vm_compute; reflexivity].

Lemma direct_lits (P : string -> Prop) col typ field op v args frag args' :
  P col -> (forall s, s ∈ keywords -> P s) ->
  Direct_Resolve col typ field op v args = Ok (frag, args') -> lits P frag.
Proof.
  intros Hc Hk. unfold Direct_Resolve, add.
  pose proof (Hk _ (cast_keyword typ)) as Hcast.
  assert (HK : forall s, bool_decide (s ∈ keywords) = true -> P s)
    by (intros s Hs; apply Hk; by apply bool_decide_eq_true in Hs).
  assert (Hcmp : forall sym, comparisonSQL op = Some sym -> P sym)
    by (intros sym Hs; by apply Hk, (comparison_keyword op)).
  destruct (comparisonSQL op) eqn:Eop.
  { specialize (Hcmp _ eq_refl). destruct (coerceScalar _ _ _) as [x|]; [|done]. intros [= <- <-].
    rewrite !lits_lit, lits_ph, lits_lit. split_and!; own HK. }
  destruct (_ || _).
  { destruct (coerceList _ _ _) as [vals|]; [|done]. destruct (_ =? _)%nat; [done|].
    destruct (bind_all _ vals args) as [ps args2] eqn:E. intros [= <- <-].
    apply bind_all_spec in E as (_ & _ & _ & F). simpl. rewrite !lits_lit, lits_app, lits_lit.
    split_and!; try own HK.
    - destruct (bool_decide (op = OpNotIn)); own HK.
    - apply lits_join; [own HK|]. eapply Forall_impl; [exact F|].
      intros q [n ->]. rewrite lits_ph, lits_lit. split; own HK. }
  destruct (bool_decide (op = OpBetween)).
  { destruct (coerceList _ _ _) as [vals|]; [|done].
    destruct vals as [|v0 [|v1 [|]]]; try done. intros [= <- <-].
    rewrite !lits_lit, lits_ph, !lits_lit, lits_ph, lits_lit. split_and!; own HK. }
  destruct (bool_decide (op = OpIsNull)); [|destruct (bool_decide _); [|done]];
    intros [= <- <-]; rewrite !lits_lit; split_and!; own HK.
Qed.

(** The texts a resolver writes are among [texts], whatever it is asked: those
    of a subquery template are the template's, around the placeholder; a
    resolver of the client's own only numbers the arguments it binds and writes
    from its [texts]. *)
Definition writes_only (field : string) (r : Resolve) (texts : list string) : Prop :=
  (exists template a b typ, single_verb template a b /\ r = Subquery_Resolve template typ field /\
     texts = [a; cast typ; b]) \/
  (resolver_binds r /\
   forall op v args frag args', r op v args = Ok (frag, args') -> lits (fun s => s ∈ texts) frag).

Lemma writes_only_lits field r texts op v args frag args' :
  writes_only field r texts -> r op v args = Ok (frag, args') ->
  (exists new, args' = args ++ new) /\ uses (length args) (length args') frag /\
  lits (fun s => s ∈ texts) frag.
Proof.
  intros [(template & a & b & typ & Ht & -> & ->)|[Hb Hl]] H.
  - destruct (subquery_binds _ _ _ _ _ Ht _ _ _ _ _ H). split_and!; [done|done|].
    destruct (subquery_fragment _ _ _ _ _ _ _ _ _ _ Ht H) as (_ & x & _ & _ & ->).
    rewrite lits_lit, lits_ph, !lits_lit. split_and!; [set_solver..|apply lits_nil].
  - destruct (Hb _ _ _ _ _ H). split_and!; [done|done|by eapply Hl].
Qed.

Section compile.
Variable c : ResourceConfig.
(** The texts of the configured resolvers, by field. *)
Variable texts : string -> list string.

(** Text that comes from the configuration: a keyword, the tenant column, the
    column of a field, or a fixed text of the field's resolver. *)
Definition owned (s : string) : Prop :=
  s ∈ keywords \/ s = TenantColumn c \/
  exists name fc, Fields c !! name = Some fc /\
    (s = Column fc \/ (is_Some (Resolver fc) /\ s ∈ texts name)).

Lemma owned_kw s : s ∈ keywords -> owned s.
Proof. by left. Qed.
Lemma owned_kw_b s : bool_decide (s ∈ keywords) = true -> owned s.
Proof. intros H%bool_decide_eq_true. by left. Qed.

Lemma validateFilter_field f fc :
  validateFilter c f = Ok fc -> Fields c !! f_Field f = Some fc /\
    (AllowedOperators fc = [] \/ ToLower (f_Operator f) ∈ AllowedOperators fc).
Proof.
  unfold validateFilter. destruct (Fields c !! f_Field f) as [fc'|]; [|done].
  destruct (length (AllowedOperators fc') =? 0)%nat eqn:El.
  - intros [= <-]. apply Nat.eqb_eq, length_zero_iff_nil in El. auto.
  - destruct (contains _ _) eqn:Ec; simpl; [|done]. intros [= <-]. apply contains_spec in Ec. auto.
Qed.

Lemma term_cond_safe cols (args : list any) v :
  cols <> [] -> (forall col, col ∈ cols -> owned col) ->
  uses (length args) (length (args ++ [v])) (term_cond cols (Ph (S (length args)))) /\
  lits owned (term_cond cols (Ph (S (length args)))).
Proof.
  intros Hne Hc. unfold term_cond. split.
  - apply uses_lit, uses_snoc_lit. apply uses_one. intros n.
    assert (H : forall cols, Ph n ∈ join_sql " OR "
              (map (fun col => [Lit col; Lit " ILIKE "; Ph (S (length args))]) cols)
              <-> cols <> [] /\ n = S (length args)); [|by rewrite H; naive_solver].
    clear. induction cols as [|col cols IH]; [simpl; set_solver|].
    destruct cols as [|col' cols]; simpl in *.
    + tokens.
    + rewrite elem_of_cons, elem_of_cons, elem_of_cons, elem_of_cons. simpl in IH.
      rewrite IH. intuition congruence.
  - rewrite lits_lit, lits_app, lits_lit.
    split_and!; try own owned_kw_b.
    apply lits_join; [own owned_kw_b|]. apply Forall_forall.
    intros q (col & -> & Hin)%list_elem_of_fmap. rewrite !lits_lit, lits_ph.
    split_and!; [by apply Hc|own owned_kw_b|own owned_kw_b].
Qed.

Lemma term_conds_safe cols terms args qs args' :
  cols <> [] -> (forall col, col ∈ cols -> owned col) ->
  term_conds cols terms args = (qs, args') ->
  args' = args ++ map (fun t => AString (wildcardToLike t)) terms /\
  uses_all (length args) (length args') qs /\ Forall (lits owned) qs /\
  length qs = length terms.
Proof.
  intros Hne Hc. revert args qs args'. induction terms as [|t terms IH]; intros args qs args'; simpl.
  { intros [= <- <-]. rewrite app_nil_r. split_and!; constructor. }
  destruct (term_conds cols terms (args ++ [AString (wildcardToLike t)])) as [qs' args2] eqn:E.
  intros [= <- <-]. apply IH in E as (-> & U & L & Hl). rewrite <- app_assoc in *.
  destruct (term_cond_safe cols args (AString (wildcardToLike t)) Hne Hc) as [U1 L1].
  split_and!; [done| |by constructor|simpl; lia].
  econstructor; [|by eapply uses_all_le|exact U1|exact U]. rewrite length_app. lia.
Qed.

Lemma searchColumns_owned col : col ∈ searchColumns c -> owned col.
Proof.
  unfold searchColumns. rewrite SortStrings_Permutation.
  intros ([name fc] & Hin & Hx)%list_elem_of_omap. apply elem_of_map_to_list in Hin.
  simpl in Hx. case_match; [|done]. injection Hx as <-. right. right. exists name, fc. auto.
Qed.

Lemma buildSearchTerms_safe terms args q args' :
  buildSearchTerms c terms args = (q, args') ->
  (exists new, args' = args ++ new) /\ uses (length args) (length args') q /\ lits owned q.
Proof.
  unfold buildSearchTerms. destruct (length (searchColumns c) =? 0)%nat eqn:El.
  { intros [= <- <-]. split_and!; [exists []; by rewrite app_nil_r|apply uses_none; set_solver|apply lits_nil]. }
  assert (Hne : searchColumns c <> []) by (intros E; by rewrite E in El).
  destruct (term_conds _ _ args) as [qs args2] eqn:E.
  apply term_conds_safe in E as (-> & U & L & Hl); [|done|apply searchColumns_owned].
  destruct (length qs =? 0)%nat eqn:Eq; intros [= <- <-].
  - apply Nat.eqb_eq in Eq. destruct (effective_terms terms); [|simpl in Hl; lia].
    simpl. rewrite app_nil_r. split_and!; [exists []; by rewrite app_nil_r|apply uses_none; set_solver|apply lits_nil].
  - split_and!; [by eexists| |].
    + rewrite uses_lit, uses_snoc_lit. by apply uses_join.
    + rewrite lits_lit, lits_app, lits_lit.
      split_and!; try own owned_kw_b. apply lits_join; [own owned_kw_b|done].
Qed.

Hypothesis resolvers_fixed : forall name fc r,
  Fields c !! name = Some fc -> Resolver fc = Some r -> writes_only name r (texts name).

Lemma resolver_safe name fc op v args frag args' :
  Fields c !! name = Some fc -> resolver name fc op v args = Ok (frag, args') ->
  (exists new, args' = args ++ new) /\ uses (length args) (length args') frag /\ lits owned frag.
Proof.
  intros Hf. unfold resolver. destruct (Resolver fc) as [r|] eqn:Er; intros H.
  - destruct (writes_only_lits _ _ _ _ _ _ _ _ (resolvers_fixed _ _ _ Hf Er) H) as (? & ? & L). split_and!; [done|done|].
    intros s Hs. right. right. exists name, fc. split; [done|]. right. rewrite Er. eauto.
  - destruct (direct_binds _ _ _ _ _ _ _ _ H) as [? ?]. split_and!; [done|done|].
    eapply direct_lits; [| |exact H].
    + right. right. exists name, fc. auto.
    + apply owned_kw.
Qed.

Lemma compile_filters_safe fs args qs args' :
  compile_filters c fs args = Ok (qs, args') ->
  (exists new, args' = args ++ new) /\ uses_all (length args) (length args') qs /\
  Forall (lits owned) qs.
Proof.
  revert args qs args'. induction fs as [|f fs IH]; intros args qs args'; simpl.
  { intros [= <- <-]. split_and!; [exists []; by rewrite app_nil_r|constructor|constructor]. }
  destruct (validateFilter c f) as [fc|] eqn:Ev; [|done].
  destruct (resolver _ _ _ _ _) as [[frag args1]|] eqn:Er; [|done].
  destruct (compile_filters c fs args1) as [[qs' args2]|] eqn:Ec; [|done]. intros [= <- <-].
  apply validateFilter_field in Ev as [Ef _].
  destruct (resolver_safe _ _ _ _ _ _ _ Ef Er) as ((n1 & ->) & U1 & L1).
  apply IH in Ec as ((n2 & ->) & U2 & L2). split_and!.
  - exists (n1 ++ n2). by rewrite app_assoc.
  - case_bool_decide as Hr.
    + econstructor; [| |exact U1|exact U2]; rewrite !length_app; lia.
    + assert (n1 = []) as ->; [|by rewrite app_nil_r in *].
      destruct n1 as [|v n1]; [done|]. exfalso.
      apply (render_empty_no_ph frag (S (length args))); [exact Hr|].
      apply U1. rewrite length_app. simpl. lia.
  - case_bool_decide; [by constructor|done].
Qed.

End compile.

(** ** Theorems *)
Section theorems.
Variable c : ResourceConfig.

(** The tenant condition of [Compile] and its argument. *)
Definition tenant_part (st : compileState) : list sql * list any :=
  if bool_decide (TenantColumn c <> "") && hasTenant st
  then ([[Lit (TenantColumn c); Lit " = "; Ph 1]], [AString (tenantValue st)])
  else ([], []).

Definition final_state (opts : list (compileState -> compileState)) : compileState :=
  fold_left (fun s o => o s) opts {| tenantValue := ""; hasTenant := false |}.

(** [Compile] as its three parts. *)
Lemma compile_parts req opts q :
  Compile c req opts = Ok q ->
  exists term args1 frags,
    buildSearchTerms c (SearchTerms req) (tenant_part (final_state opts)).2 = (term, args1) /\
    compile_filters c (Filters req) args1 = Ok (frags, Args q) /\
    Where q = join_sql " AND " ((tenant_part (final_state opts)).1 ++
                (if bool_decide (render term <> "") then [term] else []) ++ frags).
Proof.
  unfold Compile. fold (final_state opts). unfold tenant_part, add.
  destruct (_ && _); simpl; destruct (buildSearchTerms _ _ _) as [term args1] eqn:Eb;
    destruct (compile_filters _ _ _) as [[frags args2]|] eqn:Ec; try done; intros [= <-]; simpl;
    eauto 10.
Qed.

Lemma compile_order req opts q :
  Compile c req opts = Ok q -> OrderBy q = buildOrderBy c (SortFields req).
Proof. unfold Compile. intros Hq. repeat case_match; by simplify_eq/=. Qed.

Lemma compile_limit req opts q :
  Compile c req opts = Ok q -> in_int64 (PageNumber (rb_Pagination req)) ->
  let size := PageSizeOf c (rb_Pagination req) in
  let off := ((Number (rb_Pagination req) - 1) * size)%Z in
  (off <= max_int64)%Z -> Limit q = "LIMIT " +:+ itoa size +:+ " OFFSET " +:+ itoa off.
Proof.
  intros Hq Hn size off Ho. unfold Compile in Hq.
  assert (HL : Limit q = "LIMIT " +:+ itoa size +:+ " OFFSET " +:+
                 itoa (OffsetWithMax (rb_Pagination req) (maxPageSize c)))
    by (repeat case_match; by simplify_eq/=).
  by rewrite HL, offset_exact.
Qed.

Lemma tenant_uses st :
  uses_all 0 (length (tenant_part st).2) (tenant_part st).1 /\
  forall texts, Forall (lits (owned c texts)) (tenant_part st).1.
Proof.
  unfold tenant_part. destruct (_ && _); simpl; [|split; [|intros texts]; constructor]. split.
  - econstructor; [| | |constructor]; [lia|lia|]. intros n. rewrite !elem_of_cons, elem_of_nil. split.
    + intros [?|[?|[[= ->]|?]]]; done || lia.
    + intros Hn. assert (n = 1%nat) as -> by lia. auto.
  - intros texts. constructor; [|constructor]. rewrite !lits_lit, lits_ph. split_and!.
    + right. by left.
    + own (owned_kw_b c texts).
    + own (owned_kw_b c texts).
Qed.

(** The sort keys of a compiled query: configured columns, ascending or
    descending. *)
Definition sort_key (part : string) : Prop :=
  exists name fc dir, Fields c !! name = Some fc /\ dir ∈ ["ASC"; "DESC"] /\ part = Column fc +:+ " " +:+ dir.

Lemma sqlDirection_word dir : sqlDirection dir ∈ ["ASC"; "DESC"].
Proof. unfold sqlDirection. destruct (EqualFold dir "desc"); set_solver. Qed.

Lemma buildOrderBy_keys sorts :
  buildOrderBy c sorts = "" \/
  exists parts, parts <> [] /\ Forall sort_key parts /\ buildOrderBy c sorts = "ORDER BY " +:+ Join parts ", ".
Proof.
  unfold buildOrderBy. destruct (length (order_parts c sorts) =? 0)%nat eqn:El.
  - case_bool_decide; [by left|].
    destruct (Fields c !! sc_Field (DefaultSort c)) as [fc|] eqn:Ef; [right|by left].
    exists [Column fc +:+ " " +:+ sqlDirection (sc_Direction (DefaultSort c))].
    split_and!; [done| |done]. constructor; [|constructor].
    exists (sc_Field (DefaultSort c)), fc, (sqlDirection (sc_Direction (DefaultSort c))).
    split_and!; [done|apply sqlDirection_word|done].
  - right. exists (order_parts c sorts). split_and!; [by intros E; rewrite E in El| |done].
    apply Forall_forall. intros part (sf & _ & H)%list_elem_of_omap.
    destruct (Fields c !! sf_Field sf) as [fc|] eqn:Ef; [|done]. destruct (Sortable fc); [|done].
    injection H as <-. exists (sf_Field sf), fc, (sqlDirection (sf_Direction sf)).
    split_and!; [done|apply sqlDirection_word|done].
Qed.

(** C24: Compiled queries are parameterised.  Let each field with a resolver of
    its own come with the finite list of texts its configuration fixes: the two
    sides of a subquery template and the cast of its type, or the texts a
    resolver of the client's own writes from.  Whatever the request, the WHERE
    text uses exactly the placeholders $1 to $n of its n arguments, and every
    other piece of it is an SQL keyword, a configured column or one of those
    texts; ORDER BY lists configured columns with ASC or DESC, and LIMIT and
    OFFSET are numbers.  No value of a request becomes SQL. *)
Theorem compile_parameterised texts req opts q :
  (forall name fc r, Fields c !! name = Some fc -> Resolver fc = Some r ->
     writes_only name r (texts name)) ->
  Compile c req opts = Ok q ->
  (forall n, Ph n ∈ Where q <-> (1 <= n <= length (Args q))%nat) /\
  (forall s, Lit s ∈ Where q -> owned c texts s) /\
  (OrderBy q = "" \/
   exists parts, parts <> [] /\ Forall sort_key parts /\ OrderBy q = "ORDER BY " +:+ Join parts ", ") /\
  (exists size off, Limit q = "LIMIT " +:+ itoa size +:+ " OFFSET " +:+ itoa off).
Proof.
  intros HR H. assert (exists size off, Limit q = "LIMIT " +:+ itoa size +:+ " OFFSET " +:+ itoa off) as HL
    by (unfold Compile in H; repeat case_match; simplify_eq/=; by do 2 eexists).
  rewrite (compile_order _ _ _ H). pose proof (buildOrderBy_keys (SortFields req)) as HO.
  apply compile_parts in H as (term & args1 & frags & Eb & Ec & ->).
  destruct (tenant_uses (final_state opts)) as [Ut Lt].
  destruct (buildSearchTerms_safe c texts _ _ _ _ Eb) as ((n1 & ->) & Ub & Lb).
  destruct (compile_filters_safe c texts HR _ _ _ _ Ec) as ((n2 & Ea) & Uf & Lf). rewrite Ea in *.
  set (args0 := (tenant_part (final_state opts)).2) in *.
  split_and!; [| |done|done].
  - assert (U : forall qs, uses_all 0 (length ((args0 ++ n1) ++ n2)) qs -> forall n,
              Ph n ∈ join_sql " AND " qs <-> (1 <= n <= length ((args0 ++ n1) ++ n2))%nat).
    { intros qs Hq n. rewrite (uses_join " AND " _ _ _ Hq n). lia. }
    apply U. eapply uses_all_app; [exact Ut|]. case_bool_decide as Hr.
    + econstructor; [| |exact Ub|exact Uf]; rewrite !length_app; lia.
    + assert (n1 = []) as ->; [|by rewrite app_nil_r in *].
      destruct n1 as [|v n1]; [done|]. exfalso.
      apply (render_empty_no_ph term (S (length args0))); [exact Hr|].
      apply Ub. rewrite length_app. simpl. lia.
  - apply lits_join; [own (owned_kw_b c texts)|]. rewrite !Forall_app. split_and!; [apply Lt| |done].
    case_bool_decide; [|constructor]. by constructor.
Qed.

(** Every filter of a compiled query names a configured field and an operator
    that field allows. *)
Lemma compile_filters_allowed fs args qs args' :
  compile_filters c fs args = Ok (qs, args') ->
  Forall (fun f => exists fc, Fields c !! f_Field f = Some fc /\
    (AllowedOperators fc = [] \/ ToLower (f_Operator f) ∈ AllowedOperators fc)) fs.
Proof.
  revert args qs args'. induction fs as [|f fs IH]; intros args qs args'; simpl; [constructor|].
  destruct (validateFilter c f) as [fc|] eqn:Ev; [|done].
  destruct (resolver _ _ _ _ _) as [[frag args2]|]; [|done].
  destruct (compile_filters c fs args2) as [[qs' args3]|] eqn:Ec; [|done]. intros _.
  constructor; [|by eapply IH]. exists fc. by apply validateFilter_field.
Qed.

(** With the built-in column resolver, every failure is a validation error. *)
Lemma direct_errors col typ field op v args e :
  Direct_Resolve col typ field op v args = Err e -> IsValidationError e = true.
Proof.
  assert (Hf : forall f e, coerce_float field f = Err e -> IsValidationError e = true).
  { intros f e'. unfold coerce_float. intros. repeat case_match; simplify_eq; done. }
  assert (Hs : forall v e, coerceScalar field typ v = Err e -> IsValidationError e = true).
  { intros v' e'. unfold coerceScalar. intros. repeat case_match; simplify_eq; try done; eauto. }
  assert (Hm : forall {A} (f : A -> any) l e, res_mapM (fun x => coerceScalar field typ (f x)) l = Err e ->
            IsValidationError e = true).
  { intros A f l. induction l as [|x l IH]; intros e'; simpl; [done|].
    destruct (coerceScalar _ _ _) eqn:E; [|intros [= <-]; by eapply Hs].
    destruct (res_mapM _ l) eqn:E'; [done|]. intros [= <-]. by apply IH. }
  assert (Hl : forall v e, coerceList field typ v = Err e -> IsValidationError e = true).
  { intros v' e'. unfold coerceList. destruct v'; intros H; try (by simplify_eq);
      try (by apply (Hm _ (fun x => x)) in H); try (by apply (Hm _ AString) in H);
      destruct (coerceScalar _ _ _) eqn:E; simplify_eq; by eapply Hs. }
  unfold Direct_Resolve, add. intros H. repeat case_match; simplify_eq; try done; eauto.
Qed.

End theorems.

(** ** A concrete resource *)
Module SearchWitness.

Definition field (typ : FieldType) (col : string) (ops : list string) : FieldConfig :=
  {| fc_Type := typ; Column := col; AllowedOperators := ops; Sortable := true; Searchable := true;
     CaseInsensitive := false; Resolver := None |}.
Definition cfg0 : ResourceConfig :=
  {| rc_Name := "domains";
     Fields := <["name" := field FieldString "t.name" []]>
               (<["age" := field FieldInt "t.age" ["eq"; "in"]]> ∅);
     DefaultSort := {| sc_Field := "name"; sc_Direction := "asc" |}; rc_Counter := None;
     TenantColumn := "t.tenant_id"; MaxPageSize := 50; MaxBulkTerms := 0 |}.
Definition req0 : RequestBody :=
  {| SearchTerms := ["x*"; " * "];
     Filters := [{| f_Field := "age"; f_Operator := "IN";
                    f_Value := AString "3, 4" |};
                 {| f_Field := "name"; f_Operator := "eq"; f_Value := AString "x' OR 1=1" |}];
     SortFields := [{| sf_Field := "age"; sf_Direction := "DESC" |}];
     rb_Pagination := {| PageSize := 20; PageNumber := 3 |} |}.

Definition q0 : CompiledQuery :=
  match Compile cfg0 req0 [WithTenant "acme"] with
  | Ok q => q
  | Err _ => {| Where := []; OrderBy := ""; Limit := ""; Args := [] |}
  end.

Example q0_text :
  render (Where q0) =
    "t.tenant_id = $1 AND ((t.age ILIKE $2 OR t.name ILIKE $2)) AND t.age IN ($3::bigint, $4::bigint) AND t.name = $5"
  /\ OrderBy q0 = "ORDER BY t.age DESC" /\ Limit q0 = "LIMIT 20 OFFSET 40".
Proof. vm_compute. done. Qed.

(** A field found in another table. *)
Definition link_template : string := "EXISTS (SELECT 1 FROM l WHERE l.domain = t.id AND l.name = %s)".
Definition link_field : FieldConfig :=
  {| fc_Type := FieldString; Column := ""; AllowedOperators := ["eq"]; Sortable := false; Searchable := false;
     CaseInsensitive := false; Resolver := Some (Subquery_Resolve link_template FieldString "link") |}.
Definition cfg1 : ResourceConfig :=
  {| rc_Name := "domains";
     Fields := <["name" := field FieldString "t.name" []]>
               (<["age" := field FieldInt "t.age" ["eq"; "in"]]> (<["link" := link_field]> ∅));
     DefaultSort := {| sc_Field := "name"; sc_Direction := "asc" |}; rc_Counter := None;
     TenantColumn := "t.tenant_id"; MaxPageSize := 50; MaxBulkTerms := 0 |}.
Definition req1 : RequestBody :=
  {| SearchTerms := ["x*"; " * "];
     Filters := [{| f_Field := "age"; f_Operator := "IN";
                    f_Value := AString "3, 4" |};
                 {| f_Field := "name"; f_Operator := "eq"; f_Value := AString "x' OR 1=1" |};
                 {| f_Field := "link"; f_Operator := "eq"; f_Value := AString "') OR 1=1" |}];
     SortFields := [{| sf_Field := "age"; sf_Direction := "DESC" |}];
     rb_Pagination := {| PageSize := 20; PageNumber := 3 |} |}.

Definition q1 : CompiledQuery :=
  match Compile cfg1 req1 [WithTenant "acme"] with
  | Ok q => q
  | Err _ => {| Where := []; OrderBy := ""; Limit := ""; Args := [] |}
  end.

Example q1_text :
  render (Where q1) =
    "t.tenant_id = $1 AND ((t.age ILIKE $2 OR t.name ILIKE $2)) AND t.age IN ($3::bigint, $4::bigint) AND t.name = $5 AND EXISTS (SELECT 1 FROM l WHERE l.domain = t.id AND l.name = $6)"
  /\ OrderBy q1 = "ORDER BY t.age DESC" /\ Limit q1 = "LIMIT 20 OFFSET 40".
Proof. vm_compute. done. Qed.

Definition texts1 (name : string) : list string :=
  if bool_decide (name = "link") then ["EXISTS (SELECT 1 FROM l WHERE l.domain = t.id AND l.name = "; ""; ")"] else [].

Lemma cfg1_resolvers name fc r :
  Fields cfg1 !! name = Some fc -> Resolver fc = Some r -> writes_only name r (texts1 name).
Proof.
  intros Hf Hr. simpl in Hf.
  rewrite !lookup_insert_Some, lookup_empty in Hf.
  destruct Hf as [[_ <-]|[_ [[_ <-]|[_ [[<- <-]|[_ ?]]]]]]; try done. injection Hr as <-.
  left. eexists link_template, _, _, FieldString. split_and!; [|done|done]. by split_and!.
Qed.

Lemma compile_parameterised_witness :
  (forall n, Ph n ∈ Where q1 <-> (1 <= n <= length (Args q1))%nat) /\
  (forall s, Lit s ∈ Where q1 -> owned cfg1 texts1 s).
Proof.
  destruct (compile_parameterised cfg1 texts1 req1 [WithTenant "acme"] q1) as (H1 & H2 & _);
    [apply cfg1_resolvers|vm_compute; reflexivity|].
  by split.
Defined.

(** A template with its one [%s] and a percent sign of its own, as a LIKE pattern
    has, passes the check and is garbled by [fmt.Sprintf]: the pattern's sign
    takes the placeholder. *)
Example template_percent_garbled :
  let template := "EXISTS (SELECT 1 FROM l WHERE l.name LIKE 'a%' AND l.id = %s)" in
  exists frag, Subquery_Resolve template FieldString "link" OpEq (AString "7") [] =
                 Ok (frag, [AString "7"]) /\
    render frag = "EXISTS (SELECT 1 FROM l WHERE l.name LIKE 'a%!'(string=$1) AND l.id = %!s(MISSING))".
Proof. eexists. split; vm_compute; reflexivity. Qed.

End SearchWitness.
