(* ===== verification/SearchSql.v ===== *)
(** * The meaning of a compiled search condition

    [search/config.go] promises that a request becomes a WHERE clause, an ORDER
    BY and a LIMIT; this file says what these select.  [lex], [parse] and
    [read_statement] read the text as SQL does (OR binds weaker than AND, AND
    weaker than a predicate, the AND of a BETWEEN belongs to it), [eval] is the
    three-valued logic of SQL over a row and the bound arguments.  How the database compares two values and what it
    answers to an EXISTS subquery are parameters.  Against this reading, a
    compiled request selects exactly the rows the request describes, given what
    the client's own resolvers write, and never a row of another tenant;
    [SubqueryResolver] templates are read as the subqueries they are. *)
From S2P Require Import Prelude GoStrings SearchTypes SearchCoerce Search.

Local Open Scope string_scope.
Local Open Scope list_scope.

(** ** Reading SQL text *)

(** Words are the maximal runs between spaces, parentheses and commas. *)
Inductive lexeme : Type := Word (w : string) | LParen | RParen | Comma.

Definition delimiter (a : ascii) : bool :=
  bool_decide (a ∈ [" "%char; "("%char; ")"%char; ","%char]).

Definition emit (acc : string) : list lexeme := if str_is_empty acc then [] else [Word acc].

Definition punct (a : ascii) : list lexeme :=
  if bool_decide (a = "("%char) then [LParen]
  else if bool_decide (a = ")"%char) then [RParen]
  else if bool_decide (a = ","%char) then [Comma] else [].

Fixpoint lex (acc s : string) : list lexeme :=
  match s with
  | EmptyString => emit acc
  | String a s' =>
      if delimiter a then emit acc ++ punct a ++ lex "" s' else lex (acc +:+ String a "") s'
  end.

(** The relations of the generated predicates, and a bound value with its cast. *)
Inductive rel : Type := REq | RNe | RGt | RGe | RLt | RLe | RLike | RILike.
Record param : Type := { p_index : nat; p_cast : string }.

Inductive pred : Type :=
| PCmp (neg : bool) (r : rel) (v : param)
| PIn (neg : bool) (vs : list param)
| PBetween (lo hi : param)
| PNull (neg : bool).

Inductive cond : Type :=
| CPred (col : string) (p : pred)
| CExists (neg : bool) (body : list lexeme)
| CAnd (a b : cond)
| COr (a b : cond).

(** *** Words *)
Fixpoint read_digits (s : string) (acc : Z) : Z * string :=
  match s with
  | EmptyString => (acc, s)
  | String a s' => match digit_val a with
                   | Some d => read_digits s' (10 * acc + d)%Z
                   | None => (acc, s)
                   end
  end.

Definition param_of (w : string) : option param :=
  match w with
  | String a s => if bool_decide (a = "$"%char)
                  then let '(n, c) := read_digits s 0 in Some {| p_index := Z.to_nat n; p_cast := c |}
                  else None
  | EmptyString => None
  end.

Definition reserved : list string :=
  ["AND"; "OR"; "NOT"; "IN"; "IS"; "NULL"; "BETWEEN"; "LIKE"; "ILIKE"; "EXISTS"].
Definition name_char (a : ascii) : bool :=
  let n := Z.of_nat (nat_of_ascii a) in
  bool_decide ((48 <= n <= 57)%Z \/ (65 <= n <= 90)%Z \/ (97 <= n <= 122)%Z) ||
  bool_decide (a ∈ ["_"%char; "."%char]).
(** A column as configuration names it: a possibly qualified SQL name. *)
Definition column_name (s : string) : bool :=
  negb (str_is_empty s) && str_forallb name_char s && negb (bool_decide (ToUpper s ∈ reserved)).

Definition rel_of (w : string) : option rel :=
  match find (fun kv => bool_decide (kv.1 = w))
          [("=", REq); ("<>", RNe); (">", RGt); (">=", RGe); ("<", RLt); ("<=", RLe);
           ("LIKE", RLike); ("ILIKE", RILike)] with
  | Some (_, r) => Some r
  | None => None
  end.

(** *** Predicates and conditions *)
Fixpoint p_params (ts : list lexeme) : option (list param * list lexeme) :=
  match ts with
  | Word w :: Comma :: ts' =>
      match param_of w, p_params ts' with
      | Some v, Some (vs, rest) => Some (v :: vs, rest)
      | _, _ => None
      end
  | Word w :: RParen :: ts' => match param_of w with Some v => Some ([v], ts') | None => None end
  | _ => None
  end.

Definition p_test (neg : bool) (w : string) (ts : list lexeme) : option (pred * list lexeme) :=
  if bool_decide (w = "IN") then
    match ts with
    | LParen :: ts' => match p_params ts' with Some (vs, rest) => Some (PIn neg vs, rest) | None => None end
    | _ => None
    end
  else
    match rel_of w, ts with
    | Some r, Word v :: ts' => match param_of v with Some v' => Some (PCmp neg r v', ts') | None => None end
    | _, _ => None
    end.

Definition p_pred (ts : list lexeme) : option (pred * list lexeme) :=
  match ts with
  | Word "IS" :: Word "NULL" :: ts' => Some (PNull false, ts')
  | Word "IS" :: Word "NOT" :: Word "NULL" :: ts' => Some (PNull true, ts')
  | Word "BETWEEN" :: Word lo :: Word "AND" :: Word hi :: ts' =>
      match param_of lo, param_of hi with Some l, Some h => Some (PBetween l h, ts') | _, _ => None end
  | Word "NOT" :: Word w :: ts' => p_test true w ts'
  | Word w :: ts' => p_test false w ts'
  | _ => None
  end.

(** The text up to the parenthesis that closes [d + 1] open ones. *)
Fixpoint p_close (d : nat) (ts : list lexeme) : option (list lexeme * list lexeme) :=
  match ts with
  | [] => None
  | t :: ts' =>
      let more d' := match p_close d' ts' with Some (b, rest) => Some (t :: b, rest) | None => None end in
      match t with
      | RParen => match d with O => Some ([], ts') | S d' => more d' end
      | LParen => more (S d)
      | _ => more d
      end
  end.

(** [EXISTS (...)] and [NOT EXISTS (...)]: the subquery is kept as it is. *)
Definition p_exists (ts : list lexeme) : option (cond * list lexeme) :=
  let body neg ts := match p_close 0 ts with
                     | Some (b, rest) => Some (CExists neg b, rest)
                     | None => None
                     end in
  match ts with
  | Word w :: LParen :: ts' => if bool_decide (w = "EXISTS") then body false ts' else None
  | Word n :: Word w :: LParen :: ts' =>
      if bool_decide (n = "NOT") && bool_decide (w = "EXISTS") then body true ts' else None
  | _ => None
  end.

Fixpoint p_prim (n : nat) (ts : list lexeme) : option (cond * list lexeme) :=
  match n with
  | O => None
  | S n =>
      match ts with
      | LParen :: ts' => match p_or n ts' with Some (e, RParen :: rest) => Some (e, rest) | _ => None end
      | Word col :: ts' =>
          if column_name col then
            match p_pred ts' with Some (p, rest) => Some (CPred col p, rest) | None => None end
          else p_exists ts
      | _ => None
      end
  end
with p_and (n : nat) (ts : list lexeme) : option (cond * list lexeme) :=
  match n with
  | O => None
  | S n =>
      match p_prim n ts with
      | Some (e, Word "AND" :: ts') =>
          match p_and n ts' with Some (e', rest) => Some (CAnd e e', rest) | None => None end
      | r => r
      end
  end
with p_or (n : nat) (ts : list lexeme) : option (cond * list lexeme) :=
  match n with
  | O => None
  | S n =>
      match p_and n ts with
      | Some (e, Word "OR" :: ts') =>
          match p_or n ts' with Some (e', rest) => Some (COr e e', rest) | None => None end
      | r => r
      end
  end.

(** The fuel is enough for every text the compiler emits ([compile_means]). *)
Definition parse (s : string) : option cond :=
  let ts := lex "" s in
  match p_or (3 * length ts + 2) ts with Some (e, []) => Some e | _ => None end.

(** ** Three-valued evaluation *)
Definition tv : Type := option bool.
Definition tv_not (x : tv) : tv := negb <$> x.
Definition tv_and (x y : tv) : tv :=
  match x, y with
  | Some false, _ | _, Some false => Some false
  | Some true, Some true => Some true
  | _, _ => None
  end.
Definition tv_or (x y : tv) : tv :=
  match x, y with
  | Some true, _ | _, Some true => Some true
  | Some false, Some false => Some false
  | _, _ => None
  end.
Definition tv_any (l : list tv) : tv := foldr tv_or (Some false) l.

(** The text of a subquery with its bound values: casts and arguments. *)
Inductive operand : Type := Tok (t : lexeme) | Val (cast : string) (v : any).

(** What the database decides: the comparison of a column value with an argument
    under a cast, and whether a subquery finds something for a row of the outer
    query (NULL is [None]). *)
Record database (cell : Type) : Type := {
  db_compare : rel -> cell -> string -> any -> tv;
  db_exists : list operand -> (string -> option cell) -> bool
}.
Arguments db_compare {cell}. Arguments db_exists {cell}.

Section eval.
Context {cell : Type} (db : database cell).
(** A row; [None] is NULL. *)
Abbreviation row := (string -> option cell).

(** A comparison with NULL is unknown. *)
Definition test (r : rel) (x : option cell) (c : string) (v : any) : tv :=
  match x with Some a => db_compare db r a c v | None => None end.

Definition arg (args : list any) (p : param) : any := default ANil (args !! (p_index p - 1)%nat).

Definition eval_pred (args : list any) (x : option cell) (p : pred) : tv :=
  let t r v := test r x (p_cast v) (arg args v) in
  match p with
  | PCmp neg r v => if neg then tv_not (t r v) else t r v
  | PIn neg vs => let any := tv_any (map (t REq) vs) in if neg then tv_not any else any
  | PBetween lo hi => tv_and (t RGe lo) (t RLe hi)
  | PNull neg => Some (xorb neg (bool_decide (x = None)))
  end.

Definition bind_operand (args : list any) (t : lexeme) : operand :=
  match t with
  | Word w => match param_of w with Some p => Val (p_cast p) (arg args p) | None => Tok t end
  | _ => Tok t
  end.

Fixpoint eval (args : list any) (r : row) (e : cond) : tv :=
  match e with
  | CPred col p => eval_pred args (r col) p
  | CExists neg body => Some (xorb neg (db_exists db (map (bind_operand args) body) r))
  | CAnd a b => tv_and (eval args r a) (eval args r b)
  | COr a b => tv_or (eval args r a) (eval args r b)
  end.

(** The rows a WHERE clause keeps; without one, all. *)
Definition selects (where_ : string) (args : list any) (r : row) : bool :=
  str_is_empty where_ ||
  match parse where_ with Some e => bool_decide (eval args r e = Some true) | None => false end.

End eval.

(** ** What a request asks for *)
Section meaning.
Context {cell : Type} (db : database cell) (c : ResourceConfig).
Abbreviation row := (string -> option cell).
(** What the fields with a resolver of their own ask of a row, by the field, the
    operator and the value. *)
Context (custom : string -> string -> any -> row -> Prop).

(** The comparison an operator of the API names; [true] marks its negation. *)
Definition op_rel (op : string) : option (bool * rel) :=
  match find (fun kv => bool_decide (kv.1 = op))
          [(OpEq, (false, REq)); (OpNe, (false, RNe)); (OpGt, (false, RGt)); (OpGte, (false, RGe));
           (OpLt, (false, RLt)); (OpLte, (false, RLe)); (OpLike, (false, RLike));
           (OpILike, (false, RILike)); (OpNotLike, (true, RLike)); (OpNotILike, (true, RILike))] with
  | Some (_, x) => Some x
  | None => None
  end.

(** The column value [x] satisfies the operator; the filter's value is read as
    the field's type. *)
Definition value_holds (x : option cell) (typ : FieldType) (field op : string) (value : any) : Prop :=
  let t rl v := test db rl x (cast typ) v in
  let values := coerceList field typ value in
  match op_rel op with
  | Some (neg, rl) => exists v, coerceScalar field typ value = Ok v /\ t rl v = Some (negb neg)
  | None =>
      op = OpIn /\ (exists vs v, values = Ok vs /\ v ∈ vs /\ t REq v = Some true) \/
      op = OpNotIn /\ (exists vs, values = Ok vs /\ forall v, v ∈ vs -> t REq v = Some false) \/
      op = OpBetween /\
        (exists lo hi, values = Ok [lo; hi] /\ t RGe lo = Some true /\ t RLe hi = Some true) \/
      op = OpIsNull /\ x = None \/
      op = OpIsNotNull /\ x <> None
  end.

Definition filter_holds (r : row) (f : FilterParameter) : Prop :=
  exists fc, Fields c !! f_Field f = Some fc /\
    match Resolver fc with
    | None => value_holds (r (Column fc)) (fc_Type fc) (f_Field f) (ToLower (f_Operator f)) (f_Value f)
    | Some _ => custom (f_Field f) (ToLower (f_Operator f)) (f_Value f) r
    end.

(** Some term matches some searchable column, if there are both. *)
Definition terms_hold (r : row) (terms : list string) : Prop :=
  searchColumns c = [] \/ effective_terms terms = [] \/
  exists t col, t ∈ effective_terms terms /\ col ∈ searchColumns c /\
    test db RILike (r col) "" (AString (wildcardToLike t)) = Some true.

Definition tenant_holds (r : row) (st : compileState) : Prop :=
  TenantColumn c = "" \/ hasTenant st = false \/
  test db REq (r (TenantColumn c)) "" (AString (tenantValue st)) = Some true.

(** The rows a request describes. *)
Definition request_holds (req : RequestBody) (opts : list (compileState -> compileState)) (r : row) : Prop :=
  tenant_holds r (final_state opts) /\ terms_hold r (SearchTerms req) /\
  Forall (filter_holds r) (Filters req).

End meaning.

(** ** Lexing generated text *)
Definition plain_word (s : string) : bool := str_forallb (fun a => negb (delimiter a)) s.

Lemma lex_word s acc rest : plain_word s = true -> lex acc (s +:+ rest) = lex (acc +:+ s) rest.
Proof.
  revert acc. induction s as [|a s IH]; intros acc H; simpl; [by rewrite str_app_nil_r|].
  apply andb_true_iff in H as [Ha Hs]. apply negb_true_iff in Ha. rewrite Ha, IH by done.
  by rewrite str_app_assoc.
Qed.

(** A piece of text that ends where a word may end. *)
Definition word_break (s : string) : Prop :=
  match s with EmptyString => True | String a _ => delimiter a = true end.

Lemma lex_break acc s : word_break s -> lex acc s = emit acc ++ lex "" s.
Proof. destruct s as [|a s]; simpl; [by rewrite app_nil_r|]. by intros ->. Qed.

(** Text that reads as [ls] wherever a word break follows. *)
Definition reads (s : string) (ls : list lexeme) : Prop :=
  forall rest, word_break rest -> lex "" (s +:+ rest) = ls ++ lex "" rest.

Lemma reads_word s : plain_word s = true -> s <> "" -> reads s [Word s].
Proof.
  intros Hp Hs rest Hr. rewrite lex_word, lex_break by done. simpl. unfold emit, str_is_empty.
  by rewrite bool_decide_false.
Qed.

(** Text between words: it starts with a break and reads as [ls] before anything. *)
Definition separates (s : string) (ls : list lexeme) : Prop :=
  (forall rest, word_break (s +:+ rest)) /\ forall rest, lex "" (s +:+ rest) = ls ++ lex "" rest.

Lemma reads_sep a la s ls b lb :
  reads a la -> separates s ls -> reads b lb -> reads (a +:+ s +:+ b) (la ++ ls ++ lb).
Proof.
  intros Ha [Hw Hs] Hb rest Hr. rewrite !str_app_assoc, Ha, Hs, Hb, <- !app_assoc by done. done.
Qed.

Lemma name_plain s : str_forallb name_char s = true -> plain_word s = true.
Proof.
  induction s as [|a s IH]; simpl; [done|]. rewrite andb_true_iff. intros [Ha Hs].
  unfold plain_word. simpl. fold (plain_word s). rewrite IH, andb_true_r by done.
  destruct a as [[] [] [] [] [] [] [] []]; done.
Qed.

Lemma column_reads s : column_name s = true -> reads s [Word s].
Proof.
  unfold column_name, str_is_empty. rewrite !andb_true_iff, !negb_true_iff, bool_decide_eq_false.
  intros [[Hs Hc] _]. by apply reads_word; [apply name_plain|].
Qed.

(** *** Placeholders *)
Lemma digit_char x : (x < 10)%N -> digit_val (pretty_N_char x) = Some (Z.of_N x) /\
  delimiter (pretty_N_char x) = false.
Proof.
  intros Hx. assert (x = 0 \/ x = 1 \/ x = 2 \/ x = 3 \/ x = 4 \/ x = 5 \/ x = 6 \/ x = 7 \/ x = 8 \/ x = 9)%N
    as Hc by lia. destruct_or! Hc; subst; done.
Qed.

Lemma read_digits_go x s : read_digits (pretty_N_go x s) 0 = read_digits s (Z.of_N x).
Proof.
  revert s. induction (N.lt_wf_0 x) as [x _ IH]. intros s. destruct (decide (x = 0%N)) as [->|Hx]; [done|].
  rewrite pretty_N_go_step, IH by (lia || by apply N.div_lt; lia). simpl.
  destruct (digit_char (x mod 10)) as [-> _]; [by apply N.mod_lt|].
  f_equal. rewrite (N.div_mod x 10) at 3 by done. lia.
Qed.

Lemma plain_go x s : plain_word s = true -> plain_word (pretty_N_go x s) = true.
Proof.
  revert s. induction (N.lt_wf_0 x) as [x _ IH]. intros s Hs. destruct (decide (x = 0%N)) as [->|Hx]; [done|].
  rewrite pretty_N_go_step by lia. apply IH; [by apply N.div_lt; lia|].
  destruct (digit_char (x mod 10)) as [_ Hd]; [by apply N.mod_lt|]. unfold plain_word in *.
  cbn [str_forallb]. by rewrite Hd, Hs.
Qed.

Lemma pretty_go_app x s t : pretty_N_go x s +:+ t = pretty_N_go x (s +:+ t).
Proof.
  revert s. induction (N.lt_wf_0 x) as [x _ IH]. intros s. destruct (decide (x = 0%N)) as [->|Hx]; [done|].
  rewrite !(pretty_N_go_step x) by lia. by rewrite IH by (apply N.div_lt; lia).
Qed.

(** The text of a bound parameter is a word that reads as it. *)
Lemma param_word n t :
  (0 < n)%nat -> let w := token_text (Ph n) +:+ cast t in
  reads w [Word w] /\ param_of w = Some {| p_index := n; p_cast := cast t |}.
Proof.
  intros Hn. simpl. unfold itoa, pretty, pretty_Z.
  destruct (Z.of_nat n) as [|q|q] eqn:Eq; [lia| |lia].
  change (pretty q) with (pretty_N_go (N.pos q) ""). rewrite pretty_go_app. simpl. split.
  - apply reads_word; [|done]. change (plain_word (pretty_N_go (N.pos q) (cast t)) = true).
    apply plain_go. by destruct t.
  - rewrite read_digits_go.
    assert (read_digits (cast t) (Z.of_N (N.pos q)) = (Z.of_N (N.pos q), cast t)) as -> by (by destruct t).
    do 2 f_equal. lia.
Qed.

(** ** Parsing generated text *)
(** Where a condition ends: at a closing parenthesis, at the next clause of the
    statement, or with the text. *)
Definition stops (ts : list lexeme) : Prop :=
  match ts with
  | [] | RParen :: _ => True
  | Word w :: _ => w = "ORDER" \/ w = "LIMIT"
  | _ => False
  end.

(** [ls] is read as the condition [e], as a predicate or in parentheses; as a
    conjunction; as a whole.  The fuel counts three levels per lexeme. *)
Definition prim_is (ls : list lexeme) (e : cond) : Prop :=
  forall n rest, (3 * length ls <= n)%nat -> p_prim n (ls ++ rest) = Some (e, rest).
Definition and_is (ls : list lexeme) (e : cond) : Prop :=
  forall n rest, (3 * length ls + 1 <= n)%nat -> stops rest \/ (exists ts, rest = Word "OR" :: ts) ->
    p_and n (ls ++ rest) = Some (e, rest).
Definition or_is (ls : list lexeme) (e : cond) : Prop :=
  forall n rest, (3 * length ls + 2 <= n)%nat -> stops rest -> p_or n (ls ++ rest) = Some (e, rest).

Lemma and_one ls e : prim_is ls e -> and_is ls e.
Proof.
  intros H [|n] rest Hn Hr; [lia|]. simpl. rewrite H by lia.
  destruct Hr as [Hr|[ts ->]]; [|done]. destruct rest as [|[] ?]; try done. by destruct Hr as [-> | ->].
Qed.

Lemma and_more ls e ls' e' : prim_is ls e -> and_is ls' e' -> and_is (ls ++ Word "AND" :: ls') (CAnd e e').
Proof.
  intros H H' [|n] rest Hn Hr; [lia|]. rewrite length_app in Hn. simpl in Hn. simpl.
  rewrite <- app_assoc, H by lia. simpl. rewrite H' by (done || lia). done.
Qed.

Lemma or_one ls e : and_is ls e -> or_is ls e.
Proof.
  intros H [|n] rest Hn Hr; [lia|]. simpl. rewrite H by (lia || by left).
  destruct rest as [|[] ?]; try done. by destruct Hr as [-> | ->].
Qed.

Lemma or_more ls e ls' e' : and_is ls e -> or_is ls' e' -> or_is (ls ++ Word "OR" :: ls') (COr e e').
Proof.
  intros H H' [|n] rest Hn Hr; [lia|]. rewrite length_app in Hn. simpl in Hn. simpl.
  rewrite <- app_assoc, H by (lia || by right; eexists). simpl. rewrite H' by (done || lia). done.
Qed.

Lemma prim_paren ls e : or_is ls e -> prim_is (LParen :: ls ++ [RParen]) e.
Proof.
  intros H [|n] rest Hn; simpl in Hn; [lia|]. rewrite length_app in Hn. simpl in Hn. simpl.
  rewrite <- app_assoc, H by (done || lia). done.
Qed.

(** A parenthesised text is closed by its own parenthesis. *)
Fixpoint depth_after (d : nat) (ls : list lexeme) : option nat :=
  match ls with
  | [] => Some d
  | RParen :: ls' => match d with O => None | S d' => depth_after d' ls' end
  | LParen :: ls' => depth_after (S d) ls'
  | _ :: ls' => depth_after d ls'
  end.

Lemma depth_app d ls ls' :
  depth_after d (ls ++ ls') = match depth_after d ls with Some d' => depth_after d' ls' | None => None end.
Proof. revert d. induction ls as [|[] ls IH]; intros d; simpl; try done. by destruct d. Qed.

Lemma p_close_balanced d ls rest :
  depth_after d ls = Some 0%nat -> p_close d (ls ++ RParen :: rest) = Some (ls, rest).
Proof.
  revert d. induction ls as [|t ls IH]; intros d; simpl; [by intros [= ->]|].
  destruct t; try (intros H; by rewrite (IH _ H)). destruct d; [done|]. intros H. by rewrite (IH _ H).
Qed.

Lemma prim_exists (neg : bool) ls :
  depth_after 0 ls = Some 0%nat ->
  prim_is ((if neg then [Word "NOT"] else []) ++ Word "EXISTS" :: LParen :: ls ++ [RParen]) (CExists neg ls).
Proof.
  intros Hd [|n] rest Hn; [rewrite length_app in Hn; simpl in Hn; lia|].
  rewrite <- app_assoc. simpl. rewrite <- app_assoc. simpl.
  destruct neg; simpl; by rewrite (p_close_balanced 0 ls rest Hd).
Qed.

Lemma prim_pred col ts p :
  column_name col = true -> (forall rest, p_pred (ts ++ rest) = Some (p, rest)) ->
  prim_is (Word col :: ts) (CPred col p).
Proof. intros Hc Hp [|n] rest Hn; simpl in Hn; [lia|]. simpl. by rewrite Hc, Hp. Qed.

(** *** Conditions joined by AND and by OR *)
Fixpoint all_of (e : cond) (es : list cond) : cond :=
  match es with [] => e | e' :: es' => CAnd e (all_of e' es') end.
Fixpoint any_of (e : cond) (es : list cond) : cond :=
  match es with [] => e | e' :: es' => COr e (any_of e' es') end.

(** The fragment [q] is read as the condition [e]. *)
Definition frag_is (q : sql) (e : cond) : Prop := exists ls, reads (render q) ls /\ prim_is ls e.

Lemma render_app q q' : render (q ++ q') = render q +:+ render q'.
Proof.
  induction q as [|t q IH]; [done|]. simpl. rewrite !render_cons, IH. by rewrite str_app_assoc.
Qed.

Lemma and_sep : separates " AND " [Word "AND"].
Proof. by split. Qed.
Lemma or_sep : separates " OR " [Word "OR"].
Proof. by split. Qed.
Lemma comma_sep : separates ", " [Comma].
Proof. by split. Qed.

Lemma reads_join sep ls q lq qs lqs :
  separates sep ls -> reads (render q) lq -> reads (render qs) lqs ->
  reads (render (q ++ Lit sep :: qs)) (lq ++ ls ++ lqs).
Proof. intros. rewrite render_app, render_cons. simpl. by apply reads_sep. Qed.

(** Predicates chained by AND, and the conditions they are read as. *)
Inductive chain_is : list lexeme -> list cond -> Prop :=
| chain_one ls e : prim_is ls e -> chain_is ls [e]
| chain_more ls e ls' es :
    prim_is ls e -> chain_is ls' es -> chain_is (ls ++ [Word "AND"] ++ ls') (e :: es).

Lemma chain_app ls es ls' es' :
  chain_is ls es -> chain_is ls' es' -> chain_is (ls ++ [Word "AND"] ++ ls') (es ++ es').
Proof.
  induction 1 as [ls e H|ls e ls1 es H _ IH]; intros H'; [by apply chain_more|].
  rewrite <- !app_assoc. apply chain_more; [done|]. by apply IH.
Qed.

Lemma chain_and ls e es : chain_is ls (e :: es) -> and_is ls (all_of e es).
Proof.
  revert ls e. induction es as [|e' es IH]; intros ls e H; inversion H; subst.
  - by apply and_one.
  - by match goal with Hc : chain_is _ [] |- _ => inversion Hc end.
  - apply and_more; [done|]. by apply IH.
Qed.

Lemma joined_chain q qs ess :
  Forall2 (fun q es => exists ls, reads (render q) ls /\ chain_is ls es) (q :: qs) ess ->
  exists ls, reads (render (join_sql " AND " (q :: qs))) ls /\ chain_is ls (concat ess).
Proof.
  revert q ess. induction qs as [|q' qs IH]; intros q ess H;
    apply Forall2_cons_inv_l in H as (es & ess' & (lq & Hq & Pq) & H & ->).
  - apply Forall2_nil_inv_l in H as ->. exists lq. simpl. by rewrite app_nil_r.
  - destruct (IH q' ess' H) as (ls & Hl & Pl). exists (lq ++ [Word "AND"] ++ ls).
    split; [by apply reads_join, Hl; [apply and_sep|]|by apply chain_app].
Qed.

Lemma joined_or q e qs es :
  Forall2 frag_is (q :: qs) (e :: es) ->
  frag_is (Lit "(" :: join_sql " OR " (q :: qs) ++ [Lit ")"]) (any_of e es).
Proof.
  intros H. cut (exists ls, reads (render (join_sql " OR " (q :: qs))) ls /\ or_is ls (any_of e es)).
  { intros (ls & Hl & Pl). exists (LParen :: ls ++ [RParen]). split; [|by apply prim_paren].
    intros rest Hr. rewrite render_cons, render_app. simpl. rewrite str_app_assoc, Hl by done.
    simpl. by rewrite <- app_assoc. }
  revert q e es H. induction qs as [|q' qs IH]; intros q e es H;
    apply Forall2_cons in H as [(lq & Hq & Pq) H].
  - apply Forall2_nil_inv_l in H as ->. exists lq. split; [done|by apply or_one, and_one].
  - apply Forall2_cons_inv_l in H as (e' & es' & He & H & ->).
    destruct (IH q' e' es') as (ls & Hl & Pl); [by constructor|].
    exists (lq ++ [Word "OR"] ++ ls). split; [by apply reads_join, Hl; [apply or_sep|]|].
    by apply or_more; [apply and_one|].
Qed.

Lemma parse_is s ls e : reads s ls -> and_is ls e -> parse s = Some e.
Proof.
  intros Hs He. assert (Hl : lex "" s = ls).
  { specialize (Hs "" I). rewrite str_app_nil_r in Hs. rewrite Hs. apply app_nil_r. }
  unfold parse. rewrite Hl. apply or_one in He.
  specialize (He (3 * length ls + 2)%nat [] (le_n _) I). rewrite app_nil_r in He. by rewrite He.
Qed.

(** ** Truth of conditions *)
Lemma tv_and_true x y : tv_and x y = Some true <-> x = Some true /\ y = Some true.
Proof. destruct x as [[]|], y as [[]|]; naive_solver. Qed.
Lemma tv_or_true x y : tv_or x y = Some true <-> x = Some true \/ y = Some true.
Proof. destruct x as [[]|], y as [[]|]; naive_solver. Qed.
Lemma tv_or_false x y : tv_or x y = Some false <-> x = Some false /\ y = Some false.
Proof. destruct x as [[]|], y as [[]|]; naive_solver. Qed.
Lemma tv_not_true x : tv_not x = Some true <-> x = Some false.
Proof. destruct x as [[]|]; naive_solver. Qed.

Lemma tv_any_true l : tv_any l = Some true <-> Some true ∈ l.
Proof. induction l as [|x l IH]; simpl; [set_solver|]. rewrite tv_or_true, IH. set_solver. Qed.
Lemma tv_any_false l : tv_any l = Some false <-> forall x, x ∈ l -> x = Some false.
Proof. induction l as [|x l IH]; simpl; [set_solver|]. rewrite tv_or_false, IH. set_solver. Qed.

Section truth.
Context {cell : Type} (db : database cell).

Lemma all_of_true args (r : string -> option cell) e es :
  eval db args r (all_of e es) = Some true <-> Forall (fun e => eval db args r e = Some true) (e :: es).
Proof.
  revert e. induction es as [|e' es IH]; intros e; simpl.
  - rewrite Forall_singleton. done.
  - by rewrite tv_and_true, IH, !Forall_cons.
Qed.

Lemma any_of_true args (r : string -> option cell) e es :
  eval db args r (any_of e es) = Some true <-> Exists (fun e => eval db args r e = Some true) (e :: es).
Proof.
  revert e. induction es as [|e' es IH]; intros e; simpl.
  - rewrite Exists_cons, Exists_nil. tauto.
  - by rewrite tv_or_true, IH, !Exists_cons.
Qed.

Lemma arg_bound args v final c :
  args ++ [v] `prefix_of` final -> arg final {| p_index := S (length args); p_cast := c |} = v.
Proof.
  intros [more ->]. unfold arg. simpl. rewrite Nat.sub_0_r, <- app_assoc. simpl.
  by rewrite list_lookup_middle.
Qed.

(** A fragment and what it asks of a row, given all the arguments in the end. *)
Definition means (args : list any) (q : sql) (P : (string -> option cell) -> Prop) : Prop :=
  exists e, frag_is q e /\
    forall final, args `prefix_of` final -> forall r, eval db final r e = Some true <-> P r.

Lemma bind_all_reads t vals args phs args' :
  vals <> [] -> bind_all (cast t) vals args = (phs, args') ->
  args' = args ++ vals /\ exists ps ls, reads (render (join_sql ", " phs)) ls /\
    (forall rest, p_params (ls ++ RParen :: rest) = Some (ps, rest)) /\
    forall final, args' `prefix_of` final -> map (fun p => (p_cast p, arg final p)) ps = map (pair (cast t)) vals.
Proof.
  revert args phs args'. induction vals as [|v vals IH]; intros args phs args' Hv H; [done|]. simpl in H.
  destruct (bind_all (cast t) vals (args ++ [v])) as [ps args2] eqn:E. injection H as <- <-.
  destruct (param_word (S (length args)) t) as [Hw Hp]; [lia|]. cbn zeta in Hw, Hp.
  assert (Hr : render [Ph (S (length args)); Lit (cast t)] = token_text (Ph (S (length args))) +:+ cast t)
    by (by rewrite !render_cons; cbn [token_text]; unfold render, Join; simpl; rewrite str_app_nil_r).
  rewrite <- Hr in Hw, Hp. set (w := render _) in *. destruct vals as [|v' vals].
  - simpl in E. injection E as <- <-. split; [done|].
    exists [{| p_index := S (length args); p_cast := cast t |}], [Word w]. split_and!; [done| |].
    + intros rest. cbn [app p_params]. by rewrite Hp.
    + intros final Hf. simpl. by rewrite (arg_bound args v).
  - destruct (IH _ _ _ ltac:(done) E) as (-> & qs & ls & Hl & Pl & Al). rewrite <- app_assoc. split; [done|].
    exists ({| p_index := S (length args); p_cast := cast t |} :: qs), ([Word w] ++ [Comma] ++ ls). split_and!.
    + destruct ps as [|p ps]; [simpl in E; by repeat case_match|]. apply reads_join; [apply comma_sep|done|done].
    + intros rest. cbn [app p_params]. by rewrite Hp, Pl.
    + intros final Hf. cbn [map]. rewrite Al by (by rewrite <- app_assoc). simpl. rewrite (arg_bound args v); [done|].
      etrans; [|exact Hf]. exists (v' :: vals). by rewrite <- app_assoc.
Qed.

(** *** A column predicate *)
Lemma frag_pred col tail s ls b lb p :
  column_name col = true -> render tail = s +:+ b -> separates s ls -> reads b lb ->
  (forall rest, p_pred (ls ++ lb ++ rest) = Some (p, rest)) -> frag_is (Lit col :: tail) (CPred col p).
Proof.
  intros Hc Ht Hs Hb Hp. exists ([Word col] ++ ls ++ lb). split.
  - rewrite render_cons, Ht. by apply reads_sep; [apply column_reads| |].
  - apply prim_pred; [done|]. intros rest. by rewrite <- app_assoc.
Qed.

(** The ten comparisons: the symbol reads as the relation the operator names. *)
Lemma comparison_reads op sym :
  comparisonSQL op = Some sym ->
  exists ls neg r, op_rel op = Some (neg, r) /\ separates (" " +:+ sym +:+ " ") ls /\
    forall w p rest, param_of w = Some p -> p_pred (ls ++ [Word w] ++ rest) = Some (PCmp neg r p, rest).
Proof.
  unfold comparisonSQL. simpl. intros H.
  exists (lex "" (" " +:+ sym +:+ " ")).
  repeat (case_bool_decide as E; [subst op; injection H as <-; do 2 eexists;
    (split_and!; [reflexivity|by split|intros w p rest Hp; lazy -[param_of]; by rewrite Hp])|clear E]).
  done.
Qed.

Lemma param_render n c : render [Ph n; Lit c] = token_text (Ph n) +:+ c.
Proof. rewrite !render_cons. unfold render, Join. simpl. by rewrite str_app_nil_r. Qed.

Lemma compare_means col typ field op sym value v args :
  column_name col = true -> comparisonSQL op = Some sym -> coerceScalar field typ value = Ok v ->
  means (args ++ [v]) [Lit col; Lit " "; Lit sym; Lit " "; Ph (S (length args)); Lit (cast typ)]
    (fun r => value_holds db (r col) typ field op value).
Proof.
  intros Hc Hs Hv. destruct (comparison_reads op sym Hs) as (ls & neg & rl & Eo & Hsep & Hp).
  destruct (param_word (S (length args)) typ) as [Hw Hq]; [lia|].
  eexists (CPred col (PCmp neg rl {| p_index := S (length args); p_cast := cast typ |})). split.
  - eapply frag_pred; [done| |exact Hsep|exact Hw|].
    + rewrite 3!render_cons, param_render. cbn [token_text]. by rewrite !str_app_assoc.
    + intros rest. apply Hp. exact Hq.
  - intros final Hf r. unfold value_holds. rewrite Eo. simpl. rewrite (arg_bound args v) by done.
    assert (Hx : forall b, test db rl (r col) (cast typ) v = Some b <->
              exists v', coerceScalar field typ value = Ok v' /\ test db rl (r col) (cast typ) v' = Some b).
    { intros b. rewrite Hv. split; [by exists v|]. by intros (? & [= <-] & ?). }
    destruct neg; [rewrite tv_not_true|]; apply Hx.
Qed.

Lemma in_means col typ field value vals args phs args' (neg : bool) :
  column_name col = true -> coerceList field typ value = Ok vals -> vals <> [] ->
  bind_all (cast typ) vals args = (phs, args') ->
  means args' ([Lit col; Lit " "; Lit (if neg then "NOT IN" else "IN"); Lit " ("] ++ join_sql ", " phs ++ [Lit ")"])
    (fun r => value_holds db (r col) typ field (if neg then OpNotIn else OpIn) value).
Proof.
  intros Hc Hl Hv Hb. destruct (bind_all_reads typ vals args phs args' Hv Hb) as (_ & ps & ls & Hr & Hp & Ha).
  exists (CPred col (PIn neg ps)). split.
  - eapply (frag_pred _ _ (" " +:+ (if neg then "NOT IN" else "IN") +:+ " (")
              ((if neg then [Word "NOT"] else []) ++ [Word "IN"; LParen])
              (render (join_sql ", " phs) +:+ ")") (ls ++ [RParen])); [done| | | |].
    + rewrite 3!render_cons, render_app. cbn [token_text].
      change (render [Lit ")"]) with ")". by rewrite !str_app_assoc.
    + by destruct neg; split.
    + intros rest Hx. rewrite str_app_assoc, Hr by done. simpl. by rewrite <- app_assoc.
    + intros rest. assert (Hin : forall ts, p_pred ((if neg then [Word "NOT"] else []) ++ Word "IN" :: LParen :: ts) =
          match p_params ts with Some (vs, rest) => Some (PIn neg vs, rest) | None => None end)
        by (by destruct neg).
      rewrite <- !app_assoc. simpl. by rewrite Hin, Hp.
  - intros final Hf r.
    assert (Hm : forall f : string -> any -> tv,
              map (fun p => f (p_cast p) (arg final p)) ps = map (f (cast typ)) vals).
    { intros f. specialize (Ha final Hf). apply (f_equal (map (uncurry f))) in Ha. by rewrite !map_map in Ha. }
    simpl. rewrite (Hm (test db REq (r col))). unfold value_holds. destruct neg; simpl.
    + rewrite tv_not_true, tv_any_false. split.
      * intros H. right. left. split; [done|]. exists vals. split; [done|]. intros v Hin.
        by apply H, list_elem_of_fmap_2.
      * intros [[? _]|[[_ (vs & E & H)]|[[? _]|[[? _]|[? _]]]]]; try done. rewrite Hl in E.
        injection E as <-. intros x (v & -> & Hin)%list_elem_of_fmap. by apply H.
    + rewrite tv_any_true, list_elem_of_fmap. split.
      * intros (v & E & Hin). left. split; [done|]. by exists vals, v.
      * intros [[_ (vs & v & E & Hin & H)]|[[? _]|[[? _]|[[? _]|[? _]]]]]; try done. rewrite Hl in E.
        injection E as <-. by exists v.
Qed.

Lemma between_means col typ field value lo hi args :
  column_name col = true -> coerceList field typ value = Ok [lo; hi] ->
  means ((args ++ [lo]) ++ [hi])
    [Lit col; Lit " BETWEEN "; Ph (S (length args)); Lit (cast typ); Lit " AND ";
     Ph (S (length (args ++ [lo]))); Lit (cast typ)]
    (fun r => value_holds db (r col) typ field OpBetween value).
Proof.
  intros Hc Hl. destruct (param_word (S (length args)) typ) as [Hw Hq]; [lia|].
  destruct (param_word (S (length (args ++ [lo]))) typ) as [Hw' Hq']; [lia|]. cbn zeta in *.
  set (n := S (length args)) in *. set (m := S (length (args ++ [lo]))) in *.
  exists (CPred col (PBetween {| p_index := n; p_cast := cast typ |} {| p_index := m; p_cast := cast typ |})).
  split.
  - eapply (frag_pred _ _ " BETWEEN " [Word "BETWEEN"]); 
      [done| |by split|by eapply reads_sep, Hw'; [exact Hw|apply and_sep]|].
    + rewrite 4!render_cons, param_render. cbn [token_text]. by rewrite !str_app_assoc.
    + intros rest. generalize dependent (token_text (Ph n) +:+ cast typ).
      generalize dependent (token_text (Ph m) +:+ cast typ). intros w' _ Hq' w _ Hq.
      lazy -[param_of]. by rewrite Hq, Hq'.
  - intros final Hf r. subst n m. unfold value_holds. simpl.
    rewrite (arg_bound (args ++ [lo]) hi final (cast typ) Hf), (arg_bound args lo final (cast typ)).
    2:{ etrans; [|exact Hf]. by eexists. }
    rewrite tv_and_true. split.
    + intros H. right. right. left. split; [done|]. by exists lo, hi.
    + intros [[? _]|[[? _]|[[_ (l & h & E & H)]|[[? _]|[? _]]]]]; try done. rewrite Hl in E. by injection E as <- <-.
Qed.

Lemma null_means col typ field value args (neg : bool) :
  column_name col = true ->
  means args [Lit col; Lit (if neg then " IS NOT NULL" else " IS NULL")]
    (fun r => value_holds db (r col) typ field (if neg then OpIsNotNull else OpIsNull) value).
Proof.
  intros Hc. exists (CPred col (PNull neg)). split.
  - eapply (frag_pred _ _ (if neg then " IS NOT " else " IS ")
              (if neg then [Word "IS"; Word "NOT"] else [Word "IS"]) "NULL" [Word "NULL"]); [done| | | |].
    + by destruct neg.
    + by destruct neg; split.
    + by apply reads_word.
    + intros rest. by destruct neg.
  - intros final _ r. unfold value_holds. destruct neg; simpl; case_bool_decide as E; simpl; naive_solver.
Qed.

Lemma render_col col q : column_name col = true -> render (Lit col :: q) <> "".
Proof. rewrite render_cons. by destruct col. Qed.

Lemma direct_means col typ field op value args frag args' :
  column_name col = true -> Direct_Resolve col typ field op value args = Ok (frag, args') ->
  args `prefix_of` args' /\ render frag <> "" /\
  means args' frag (fun r => value_holds db (r col) typ field op value).
Proof.
  intros Hc. unfold Direct_Resolve, add. destruct (comparisonSQL op) as [sym|] eqn:Es.
  { destruct (coerceScalar field typ value) as [v|] eqn:Ev; [|done]. intros [= <- <-].
    split_and!; [by eexists|by apply render_col|by apply compare_means]. }
  destruct (bool_decide (op = OpIn) || bool_decide (op = OpNotIn)) eqn:Ein.
  { destruct (coerceList field typ value) as [vals|] eqn:Ev; [|done].
    destruct (length vals =? 0)%nat eqn:El; [done|]. apply Nat.eqb_neq in El.
    assert (Hv : vals <> []) by (by intros ->).
    destruct (bind_all (cast typ) vals args) as [phs args2] eqn:Eb. intros [= <- <-].
    destruct (bind_all_reads typ vals args phs args2 Hv Eb) as (-> & _).
    split_and!; [by eexists|by apply render_col|]. destruct (decide (op = OpNotIn)) as [->|Hni].
    - by apply (in_means col typ field value vals args phs (args ++ vals) true).
    - rewrite (bool_decide_false (op = OpNotIn)), orb_false_r, bool_decide_eq_true in * by done. subst.
      by apply (in_means col typ field value vals args phs (args ++ vals) false). }
  clear Ein. repeat case_bool_decide; subst.
  - destruct (coerceList field typ value) as [[|lo [|hi []]]|] eqn:Ev; try done. intros [= <- <-].
    split_and!; [|by apply render_col|by apply between_means]. rewrite <- app_assoc. by eexists.
  - intros [= <- <-]. split_and!; [done|by apply render_col|by apply (null_means col typ field value args false)].
  - intros [= <- <-]. split_and!; [done|by apply render_col|by apply (null_means col typ field value args true)].
  - done.
Qed.

(** *** Composing meanings *)
Lemma means_mono args args' q P : args `prefix_of` args' -> means args q P -> means args' q P.
Proof. intros Hp (e & He & H). exists e. split; [done|]. intros final Hf. apply H. by etrans. Qed.

Lemma means_ext args q P P' : (forall r, P r <-> P' r) -> means args q P -> means args q P'.
Proof. intros HP (e & He & H). exists e. split; [done|]. intros final Hf r. by rewrite <- HP, H. Qed.

Lemma means_split args qs Ps :
  Forall2 (means args) qs Ps ->
  exists es, Forall2 frag_is qs es /\
    Forall2 (fun e P => forall final, args `prefix_of` final -> forall r, eval db final r e = Some true <-> P r)
      es Ps.
Proof.
  induction 1 as [|q P qs Ps (e & He & H) _ (es & IH1 & IH2)]; [by exists []|].
  exists (e :: es). by split; constructor.
Qed.

Lemma Forall2_truth (Q : cond -> Prop) r es (Ps : list ((string -> option cell) -> Prop)) :
  Forall2 (fun e P => Q e <-> P r) es Ps ->
  (Forall Q es <-> Forall (fun P => P r) Ps) /\ (Exists Q es <-> Exists (fun P => P r) Ps).
Proof.
  induction 1 as [|e P es Ps He _ [IH1 IH2]].
  - by rewrite !Forall_nil, !Exists_nil.
  - by rewrite !Forall_cons, !Exists_cons, He, IH1, IH2.
Qed.

Lemma means_any args q qs Ps :
  Forall2 (means args) (q :: qs) Ps ->
  means args (Lit "(" :: join_sql " OR " (q :: qs) ++ [Lit ")"]) (fun r => Exists (fun P => P r) Ps).
Proof.
  intros H. destruct (means_split _ _ _ H) as (es & Hf & He).
  destruct es as [|e es]; [by inversion Hf|]. exists (any_of e es). split; [by apply joined_or|].
  intros final Hp r. rewrite any_of_true. apply (Forall2_truth _ r).
  eapply Forall2_impl; [exact He|]. intros ? ? HP. by apply HP.
Qed.

(** A fragment that may be a chain of predicates joined by AND. *)
Definition conj_means (args : list any) (q : sql) (P : (string -> option cell) -> Prop) : Prop :=
  exists ls es, reads (render q) ls /\ chain_is ls es /\
    forall final, args `prefix_of` final -> forall r, Forall (fun e => eval db final r e = Some true) es <-> P r.

Lemma means_conj args q P : means args q P -> conj_means args q P.
Proof.
  intros (e & (ls & Hr & Hp) & H). exists ls, [e]. split_and!; [done|by apply chain_one|].
  intros final Hf r. by rewrite Forall_singleton, H.
Qed.

Lemma conj_mono args args' q P : args `prefix_of` args' -> conj_means args q P -> conj_means args' q P.
Proof. intros Hp (ls & es & Hr & Hc & H). exists ls, es. split_and!; [done..|]. intros final Hf. apply H. by etrans. Qed.

Lemma conj_ext args q P P' : (forall r, P r <-> P' r) -> conj_means args q P -> conj_means args q P'.
Proof. intros HP (ls & es & Hr & Hc & H). exists ls, es. split_and!; [done..|]. intros final Hf r. by rewrite <- HP, H. Qed.

Lemma conj_and args q q' P P' :
  conj_means args q P -> conj_means args q' P' ->
  conj_means args (q ++ Lit " AND " :: q') (fun r => P r /\ P' r).
Proof.
  intros (ls & es & Hr & Hc & H) (ls' & es' & Hr' & Hc' & H').
  exists (ls ++ [Word "AND"] ++ ls'), (es ++ es'). split_and!.
  - by apply reads_join; [apply and_sep| |].
  - by apply chain_app.
  - intros final Hf r. by rewrite Forall_app, H, H'.
Qed.

Lemma conj_split args qs Ps :
  Forall2 (conj_means args) qs Ps ->
  exists ess, Forall2 (fun q es => exists ls, reads (render q) ls /\ chain_is ls es) qs ess /\
    forall r, Forall (fun e => eval db args r e = Some true) (concat ess) <-> Forall (fun P => P r) Ps.
Proof.
  induction 1 as [|q P qs Ps (ls & es & Hr & Hc & H) _ (ess & IH1 & IH2)].
  - exists []. split; [constructor|]. intros r. by rewrite !Forall_nil.
  - exists (es :: ess). split; [constructor; eauto|]. intros r. simpl.
    by rewrite Forall_app, Forall_cons, IH2, H.
Qed.

Lemma conj_all args qs Ps :
  Forall2 (conj_means args) qs Ps -> qs <> [] ->
  exists ls e, reads (render (join_sql " AND " qs)) ls /\ and_is ls e /\
    forall r, eval db args r e = Some true <-> Forall (fun P => P r) Ps.
Proof.
  intros H Hq. destruct (conj_split _ _ _ H) as (ess & Hf & He). destruct qs as [|q qs]; [done|].
  destruct (joined_chain q qs ess Hf) as (ls & Hl & Pl). destruct (concat ess) as [|e es] eqn:Ec.
  { inversion Pl. }
  exists ls, (all_of e es). split_and!; [done|by apply chain_and|]. intros r. by rewrite all_of_true, He.
Qed.

(** *** Resolvers of the client *)

(** Whatever the resolver writes means [P] of the operator and the value: it
    binds its values behind those already bound, and its text reads as a
    predicate, an EXISTS or a parenthesised condition, or several joined by AND. *)
Definition resolver_means (rv : Resolve) (P : string -> any -> (string -> option cell) -> Prop) : Prop :=
  forall op value args frag args', rv op value args = Ok (frag, args') ->
    args `prefix_of` args' /\ render frag <> "" /\ conj_means args' frag (P op value).

Lemma lex_app acc s rest : word_break rest -> lex acc (s +:+ rest) = lex acc s ++ lex "" rest.
Proof.
  intros Hr. revert acc. induction s as [|a s IH]; intros acc; simpl; [by apply lex_break|].
  destruct (delimiter a); [|apply IH]. by rewrite IH, !app_assoc.
Qed.

(** The text ends with a delimiter. *)
Fixpoint ends_break (s : string) : bool :=
  match s with
  | EmptyString => false
  | String a EmptyString => delimiter a
  | String _ s' => ends_break s'
  end.

Lemma lex_ends acc s rest : ends_break s = true -> lex acc (s +:+ rest) = lex acc s ++ lex "" rest.
Proof.
  revert acc. induction s as [|a s IH]; intros acc H; [done|]. simpl. destruct s as [|b s].
  - simpl in H. simpl. rewrite H. by rewrite !app_nil_r, app_assoc.
  - destruct (delimiter a); [|by apply IH]. by rewrite IH, !app_assoc.
Qed.

(** The template is [EXISTS (la %s lb)], or [NOT EXISTS], with balanced
    parentheses, the placeholder a word of its own and no other parameter. *)
Definition exists_template (template : string) (neg : bool) (la lb : list lexeme) : Prop :=
  exists a b, single_verb template a b /\ ends_break a = true /\ word_break b /\
    lex "" a = (if neg then [Word "NOT"] else []) ++ Word "EXISTS" :: LParen :: la /\
    lex "" b = lb ++ [RParen] /\ depth_after 0 (la ++ lb) = Some 0%nat /\
    Forall (fun t => forall w, t = Word w -> param_of w = None) (la ++ lb).

(** The subquery finds something for the value of the filter (or nothing). *)
Definition subquery_holds (neg : bool) (la lb : list lexeme) (typ : FieldType) (field op : string)
  (value : any) (r : string -> option cell) : Prop :=
  op = OpEq /\ exists v, coerceScalar field typ value = Ok v /\
    db_exists db (map Tok la ++ Val (cast typ) v :: map Tok lb) r = negb neg.

Lemma bind_opaque args ls :
  Forall (fun t => forall w, t = Word w -> param_of w = None) ls ->
  map (bind_operand args) ls = map Tok ls.
Proof.
  induction 1 as [|t ls Ht _ IH]; [done|]. simpl. rewrite IH. f_equal.
  destruct t as [w| | |]; try done. simpl. by rewrite (Ht w).
Qed.

Lemma depth_word d la w lb : depth_after d (la ++ Word w :: lb) = depth_after d (la ++ lb).
Proof. by rewrite !depth_app. Qed.

(** A [SubqueryResolver] means the subquery of its template. *)
Lemma subquery_means template typ field neg la lb :
  exists_template template neg la lb ->
  resolver_means (Subquery_Resolve template typ field) (subquery_holds neg la lb typ field).
Proof.
  intros (a & b & Ht & Ha & Hb & La & Lb & Hd & Hp) op value args frag args' Hres.
  destruct (subquery_fragment _ _ _ _ _ _ _ _ _ _ Ht Hres) as (Eop & v & Ev & -> & ->).
  destruct (param_word (S (length args)) typ) as [Hw Hq]; [lia|]. cbn zeta in Hw, Hq.
  set (w := token_text (Ph (S (length args))) +:+ cast typ) in *.
  assert (Hr : render [Lit a; Ph (S (length args)); Lit (cast typ); Lit b] = a +:+ w +:+ b).
  { rewrite 3!render_cons. change (render [Lit b]) with b. cbn [token_text]. unfold w. by rewrite !str_app_assoc. }
  split_and!; [by eexists|rewrite Hr; destruct a; [discriminate Ha|discriminate]|].
  apply means_conj. exists (CExists neg (la ++ Word w :: lb)). split.
  - exists ((if neg then [Word "NOT"] else []) ++ Word "EXISTS" :: LParen :: (la ++ Word w :: lb) ++ [RParen]).
    split; [|by apply prim_exists; rewrite depth_word].
    intros rest Hrest. rewrite Hr, !str_app_assoc, (lex_ends _ _ _ Ha), La, Hw, (lex_app _ b), Lb;
      [|done|by destruct b].
    destruct neg; simpl; rewrite <- !app_assoc; simpl; by rewrite <- ?app_assoc.
  - intros final Hf r. apply Forall_app in Hp as [Hpa Hpb]. cbn [eval].
    rewrite map_app, (bind_opaque final la Hpa). cbn [map]. rewrite (bind_opaque final lb Hpb).
    cbn [bind_operand]. rewrite Hq. cbn [p_cast]. rewrite (arg_bound args v) by done.
    unfold subquery_holds. rewrite Ev. split.
    + intros [= H]. split; [done|]. exists v. split; [done|]. destruct (db_exists _ _ _), neg; done.
    + intros (_ & v' & [= <-] & ->). by destruct neg.
Qed.

(** ** The parts of a compiled query *)
Section compiled.
Variable c : ResourceConfig.
Variable custom : string -> string -> any -> (string -> option cell) -> Prop.

(** The columns a request reaches are names, and the fields it filters by with a
    resolver of their own mean what [custom] says. *)
Record plain_request (req : RequestBody) : Prop := {
  plain_tenant : TenantColumn c = "" \/ column_name (TenantColumn c) = true;
  plain_search : Forall (fun col => column_name col = true) (searchColumns c);
  plain_filters : Forall (fun f => forall fc, Fields c !! f_Field f = Some fc ->
                    match Resolver fc with
                    | None => column_name (Column fc) = true
                    | Some rv => resolver_means rv (custom (f_Field f))
                    end) (Filters req)
}.

(** A term over the columns: the parameter carries no cast. *)
Definition term_holds (cols : list string) (t : string) (r : string -> option cell) : Prop :=
  exists col, col ∈ cols /\ test db RILike (r col) "" (AString (wildcardToLike t)) = Some true.

Lemma bare_param n : (0 < n)%nat ->
  reads (token_text (Ph n)) [Word (token_text (Ph n))] /\
  param_of (token_text (Ph n)) = Some {| p_index := n; p_cast := "" |}.
Proof. intros Hn. destruct (param_word n FieldString Hn) as [H1 H2]. simpl in *. by rewrite str_app_nil_r in *. Qed.

(** The two comparisons the compiler writes itself. *)
Lemma bare_means col (like : bool) v args :
  column_name col = true ->
  means (args ++ [v]) [Lit col; Lit (if like then " ILIKE " else " = "); Ph (S (length args))]
    (fun r => test db (if like then RILike else REq) (r col) "" v = Some true).
Proof.
  intros Hc. destruct (bare_param (S (length args))) as [Hw Hp]; [lia|].
  exists (CPred col (PCmp false (if like then RILike else REq)
                       {| p_index := S (length args); p_cast := "" |})). split.
  - eapply (frag_pred _ _ (if like then " ILIKE " else " = ") [Word (if like then "ILIKE" else "=")]);
      [done| |by destruct like; split|exact Hw|].
    + rewrite !render_cons. unfold render, Join. simpl. by rewrite str_app_nil_r.
    + intros rest. generalize dependent (token_text (Ph (S (length args)))). intros w _ Hp.
      destruct like; lazy -[param_of]; by rewrite Hp.
  - intros final Hf r. simpl. by rewrite (arg_bound args v).
Qed.

Lemma term_means cols t args :
  cols <> [] -> Forall (fun col => column_name col = true) cols ->
  means (args ++ [AString (wildcardToLike t)]) (term_cond cols (Ph (S (length args)))) (term_holds cols t).
Proof.
  intros Hn Hc. set (v := AString _). eapply (means_ext _ _ (fun r => Exists (fun P => P r)
    (map (fun col r => test db RILike (r col) "" v = Some true) cols))).
  { intros r. rewrite Exists_exists. setoid_rewrite list_elem_of_fmap. unfold term_holds. split.
    - intros (P & (col & -> & Hin) & H). by exists col.
    - intros (col & Hin & H). by exists (fun r => test db RILike (r col) "" v = Some true); eauto. }
  assert (HF : Forall2 (means (args ++ [v])) (map (fun col => [Lit col; Lit " ILIKE "; Ph (S (length args))]) cols)
                 (map (fun col r => test db RILike (r col) "" v = Some true) cols)).
  { clear Hn. induction Hc as [|x l Hx _ IH]; simpl; constructor; [by apply (bare_means x true)|done]. }
  unfold term_cond. destruct cols as [|col cols]; [done|]. by apply means_any.
Qed.

Lemma terms_mean cols terms args qs args' :
  cols <> [] -> Forall (fun col => column_name col = true) cols ->
  term_conds cols terms args = (qs, args') ->
  args `prefix_of` args' /\ Forall2 (means args') qs (map (term_holds cols) terms).
Proof.
  intros Hn Hc. revert args qs args'. induction terms as [|t terms IH]; intros args qs args' H; simpl in H.
  { injection H as <- <-. split; [done|constructor]. }
  destruct (term_conds cols terms _) as [qs1 args1] eqn:E. injection H as <- <-.
  destruct (IH _ _ _ E) as [Hp HF]. split; [etrans; [|exact Hp]; by eexists|].
  constructor; [|done]. eapply means_mono; [exact Hp|]. by apply term_means.
Qed.

Lemma search_means terms args q args' :
  Forall (fun col => column_name col = true) (searchColumns c) ->
  buildSearchTerms c terms args = (q, args') ->
  args `prefix_of` args' /\
  Forall2 (means args') (if bool_decide (render q <> "") then [q] else [])
    (if bool_decide (render q <> "") then [fun r => terms_hold db c r terms] else []) /\
  (render q = "" -> forall r, terms_hold db c r terms).
Proof.
  intros Hc. unfold buildSearchTerms, terms_hold.
  destruct (length (searchColumns c) =? 0)%nat eqn:El.
  { apply Nat.eqb_eq, nil_length_inv in El. intros [= <- <-]. split_and!; [done|constructor|by left]. }
  apply Nat.eqb_neq in El. assert (Hn : searchColumns c <> []) by (intros E; by rewrite E in El).
  destruct (term_conds _ _ args) as [qs args1] eqn:E.
  destruct (terms_mean _ _ _ _ _ Hn Hc E) as [Hp HF]. destruct qs as [|q1 qs]; simpl.
  { intros [= <- <-]. split_and!; [done|constructor|]. intros _ r. right. left.
    by apply Forall2_nil_inv_l, fmap_nil_inv in HF. }
  intros [= <- <-]. rewrite bool_decide_true by (by rewrite render_cons). split_and!; [done| |by rewrite render_cons].
  constructor; [|constructor]. eapply means_ext; [|by apply means_any, HF]. intros r.
  rewrite Exists_exists. setoid_rewrite list_elem_of_fmap. unfold term_holds. split.
  - intros (P & (t & -> & Ht) & col & Hin & H). right. right. by exists t, col.
  - intros [?|[He|(t & col & Ht & Hin & H)]]; [done| |].
    + rewrite He in HF. by apply Forall2_nil_inv_r in HF.
    + exists (term_holds (searchColumns c) t). split; [eauto|]. by exists col.
Qed.

(** The fragment of one filter. *)
Lemma resolver_fragment f fc args frag args' :
  match Resolver fc with
  | None => column_name (Column fc) = true
  | Some rv => resolver_means rv (custom (f_Field f))
  end ->
  resolver (f_Field f) fc (ToLower (f_Operator f)) (f_Value f) args = Ok (frag, args') ->
  args `prefix_of` args' /\ render frag <> "" /\
  conj_means args' frag (fun r => match Resolver fc with
    | None => value_holds db (r (Column fc)) (fc_Type fc) (f_Field f) (ToLower (f_Operator f)) (f_Value f)
    | Some _ => custom (f_Field f) (ToLower (f_Operator f)) (f_Value f) r
    end).
Proof.
  unfold resolver. destruct (Resolver fc) as [rv|]; intros Hc; [apply Hc|]. intros H.
  destruct (direct_means _ _ _ _ _ _ _ _ Hc H) as (? & ? & ?). split_and!; [done..|by apply means_conj].
Qed.

Lemma filters_mean fs args qs args' :
  Forall (fun f => forall fc, Fields c !! f_Field f = Some fc ->
    match Resolver fc with
    | None => column_name (Column fc) = true
    | Some rv => resolver_means rv (custom (f_Field f))
    end) fs ->
  compile_filters c fs args = Ok (qs, args') ->
  args `prefix_of` args' /\ Forall2 (conj_means args') qs (map (fun f r => filter_holds db c custom r f) fs).
Proof.
  intros HF. revert args qs args'. induction HF as [|f fs Hf _ IH]; intros args qs args' H; simpl in H.
  { injection H as <- <-. split; [done|constructor]. }
  destruct (validateFilter c f) as [fc|] eqn:Ev; [|done]. apply validateFilter_field in Ev as [Ev _].
  destruct (resolver (f_Field f) fc _ _ args) as [[frag args1]|] eqn:Ed; [|done].
  destruct (resolver_fragment f fc args frag args1 (Hf fc Ev) Ed) as (Hp1 & Hne & Hm).
  destruct (compile_filters c fs args1) as [[qs1 args2]|] eqn:Ec; [|done]. injection H as <- <-.
  destruct (IH _ _ _ Ec) as [Hp2 HF2]. split; [by etrans|]. rewrite bool_decide_true by done.
  constructor; [|done]. eapply conj_ext; [|by eapply conj_mono, Hm].
  intros r. unfold filter_holds. rewrite Ev. split; [intros H; by exists fc|]. by intros (? & [= <-] & ?).
Qed.

Lemma tenant_means st :
  TenantColumn c = "" \/ column_name (TenantColumn c) = true ->
  exists Ps, Forall2 (means (tenant_part c st).2) (tenant_part c st).1 Ps /\
    forall r, Forall (fun P => P r) Ps <-> tenant_holds db c r st.
Proof.
  intros Hc. unfold tenant_part, tenant_holds. destruct (_ && _) eqn:E; simpl.
  - apply andb_true_iff in E as [Ht%bool_decide_eq_true Hs]. destruct Hc as [?|Hc]; [done|].
    exists [fun r => test db REq (r (TenantColumn c)) "" (AString (tenantValue st)) = Some true]. split.
    + constructor; [|constructor]. exact (bare_means (TenantColumn c) false (AString (tenantValue st)) [] Hc).
    + intros r. rewrite Forall_singleton, Hs. naive_solver.
  - exists []. split; [constructor|]. intros r. rewrite Forall_nil.
    apply andb_false_iff in E as [E%bool_decide_eq_false|E]; [apply dec_stable in E|]; tauto.
Qed.

(** The WHERE text is empty and every row is described, or it reads as a
    condition that is true of the rows described. *)
Lemma compile_reads req opts q :
  plain_request req -> Compile c req opts = Ok q ->
  (render (Where q) = "" /\ forall r, request_holds db c custom req opts r) \/
  exists ls e, reads (render (Where q)) ls /\ and_is ls e /\
    forall r, eval db (Args q) r e = Some true <-> request_holds db c custom req opts r.
Proof.
  intros [Ht Hs Hf] Hq. apply compile_parts in Hq as (term & args1 & frags & Eb & Ec & ->).
  destruct (tenant_means (final_state opts) Ht) as (Ps & HT & HP).
  destruct (search_means _ _ _ _ Hs Eb) as (P1 & HS & HS0).
  destruct (filters_mean _ _ _ _ Hf Ec) as (P2 & HF).
  set (qs := _ ++ _ ++ frags). set (Q := if bool_decide _ then [fun _ => _] else []) in HS.
  assert (HA : Forall2 (conj_means (Args q)) qs (Ps ++ Q ++ map (fun f r => filter_holds db c custom r f) (Filters req))).
  { apply Forall2_app; [eapply Forall2_impl; [exact HT|]|apply Forall2_app; [eapply Forall2_impl; [exact HS|]|done]];
      intros ? ? ?; apply means_conj; (eapply means_mono; [|done]); [by etrans|done]. }
  assert (HQ : forall r, Forall (fun P => P r) (Ps ++ Q ++ map (fun f r => filter_holds db c custom r f) (Filters req)) <->
            request_holds db c custom req opts r).
  { intros r. unfold request_holds. rewrite !Forall_app, HP, Forall_fmap. unfold Q. case_bool_decide as Er.
    - by rewrite Forall_singleton.
    - rewrite Forall_nil. specialize (HS0 Er r). tauto. }
  setoid_rewrite <- HQ. clearbody qs. destruct (decide (qs = [])) as [->|Hn].
  - apply Forall2_nil_inv_l in HA as ->. left. split; [done|]. intros r. by rewrite Forall_nil.
  - right. by apply conj_all.
Qed.

Lemma compile_selects req opts q :
  plain_request req -> Compile c req opts = Ok q ->
  (render (Where q) = "" \/ is_Some (parse (render (Where q)))) /\
  forall r, selects db (render (Where q)) (Args q) r = true <-> request_holds db c custom req opts r.
Proof.
  intros Hp Hq. destruct (compile_reads req opts q Hp Hq) as [[-> Hall]|(ls & e & Hr & Ha & Hev)].
  - split; [by left|]. intros r. split; [done|by intros].
  - pose proof (parse_is _ _ _ Hr Ha) as He. split; [right; by rewrite He|]. intros r.
    rewrite <- Hev. unfold selects. rewrite He. destruct (str_is_empty _) eqn:E0.
    + apply bool_decide_eq_true in E0. by rewrite E0 in He.
    + simpl. apply bool_decide_eq_true.
Qed.

(** C26: A compiled request means what it says: read as SQL, its WHERE clause
    parses, and with the bound arguments it keeps exactly the rows that belong
    to the tenant, match some search term in some searchable column (when there
    are terms and columns), and satisfy every filter with the operator it
    names; NULL satisfies no comparison, negated or not.  A field with a
    resolver of its own asks what that resolver's fragment means. *)
Theorem compile_means req opts q :
  plain_request req -> Compile c req opts = Ok q ->
  (render (Where q) = "" \/ is_Some (parse (render (Where q)))) /\
  forall r, selects db (render (Where q)) (Args q) r = true <->
    tenant_holds db c r (final_state opts) /\ terms_hold db c r (SearchTerms req) /\
    Forall (filter_holds db c custom r) (Filters req).
Proof. apply compile_selects. Qed.

(** *** Tenants

    Isolation needs less of a resolver than a meaning: that its text stands on
    its own between the ANDs, and that it leaves the arguments bound so far
    where they are. *)
Definition stands_alone (q : sql) : Prop := exists ls es, reads (render q) ls /\ chain_is ls es.

Definition resolver_closed (rv : Resolve) : Prop :=
  forall op value args frag args', rv op value args = Ok (frag, args') ->
    args `prefix_of` args' /\ (render frag = "" \/ stands_alone frag).

Lemma resolver_means_closed rv P : resolver_means rv P -> resolver_closed rv.
Proof.
  intros H op value args frag args' Hr. destruct (H _ _ _ _ _ Hr) as (Hp & _ & ls & es & Hl & Hc & _).
  split; [done|]. right. by exists ls, es.
Qed.

Definition closed_fields (fs : list FilterParameter) : Prop :=
  Forall (fun f => forall fc, Fields c !! f_Field f = Some fc ->
    match Resolver fc with
    | None => column_name (Column fc) = true
    | Some rv => resolver_closed rv
    end) fs.

Lemma filters_closed fs args qs args' :
  closed_fields fs -> compile_filters c fs args = Ok (qs, args') ->
  args `prefix_of` args' /\ Forall stands_alone qs.
Proof.
  intros HF. revert args qs args'. induction HF as [|f fs Hf _ IH]; intros args qs args' H; simpl in H.
  { injection H as <- <-. split; [done|constructor]. }
  destruct (validateFilter c f) as [fc|] eqn:Ev; [|done]. apply validateFilter_field in Ev as [Ev _].
  destruct (resolver (f_Field f) fc _ _ args) as [[frag args1]|] eqn:Ed; [|done].
  destruct (compile_filters c fs args1) as [[qs1 args2]|] eqn:Ec; [|done]. injection H as <- <-.
  destruct (IH _ _ _ Ec) as [Hp2 HF2].
  assert (args `prefix_of` args1 /\ (render frag = "" \/ stands_alone frag)) as [Hp1 Hs].
  { specialize (Hf fc Ev). unfold resolver in Ed. destruct (Resolver fc) as [rv|]; [by eapply Hf|].
    destruct (direct_means _ _ _ _ _ _ _ _ Hf Ed) as (? & _ & (ls & es & ? & ? & _)%means_conj).
    split; [done|]. right. by exists ls, es. }
  split; [by etrans|]. case_bool_decide; [|done]. constructor; [|done]. by destruct Hs.
Qed.

Lemma chains_choose qs :
  Forall stands_alone qs ->
  exists ess, Forall2 (fun q es => exists ls, reads (render q) ls /\ chain_is ls es) qs ess.
Proof.
  induction 1 as [|q qs (ls & es & Hr & Hc) _ (ess & IH)]; [by exists []|].
  exists (es :: ess). constructor; [by exists ls|done].
Qed.

(** The fragments after the tenant condition cannot make the query keep a row
    that fails it. *)
Lemma guarded_selects v rest args r :
  column_name (TenantColumn c) = true -> Forall stands_alone rest -> [v] `prefix_of` args ->
  selects db (render (join_sql " AND " ([Lit (TenantColumn c); Lit " = "; Ph 1] :: rest))) args r = true ->
  test db REq (r (TenantColumn c)) "" v = Some true.
Proof.
  intros Hc Hrest Hargs. destruct (bare_means (TenantColumn c) false v [] Hc) as (e & (lt & Ht & Pt) & He).
  destruct (chains_choose rest Hrest) as (ess & HF). set (q := [Lit (TenantColumn c); Lit " = "; Ph 1]).
  destruct (joined_chain q rest ([e] :: ess)) as (ls & Hl & Pl).
  { constructor; [|done]. exists lt. split; [exact Ht|by apply chain_one]. }
  unfold selects. rewrite (parse_is _ ls (all_of e (concat ess)) Hl (chain_and _ _ _ Pl)).
  destruct (str_is_empty _) eqn:E0.
  { apply bool_decide_eq_true in E0. revert E0 Hc.
    destruct rest; cbn [join_sql app q]; unfold q; cbn [app]; rewrite render_cons; cbn [token_text];
      by destruct (TenantColumn c). }
  simpl. rewrite bool_decide_eq_true, all_of_true, Forall_cons. intros [H _]. by apply (He args Hargs r) in H.
Qed.

(** C25: Tenant isolation and allow-lists, without [Validate].  Read as SQL, a
    query compiled with [WithTenant v] for a resource with a tenant column keeps
    no row of which the database does not say that its tenant column equals [v],
    whatever the request asks; the resolvers of the client only have to write
    text that stands on its own between ANDs, as a template with a disjunction
    at its top does not.  And every filter of a compiled query names a
    configured field with an operator that field allows. *)
Theorem compile_guards req opts v q :
  column_name (TenantColumn c) = true -> Forall (fun col => column_name col = true) (searchColumns c) ->
  closed_fields (Filters req) ->
  Compile c req (opts ++ [WithTenant v]) = Ok q ->
  (forall r, selects db (render (Where q)) (Args q) r = true ->
     test db REq (r (TenantColumn c)) "" (AString v) = Some true) /\
  Forall (fun f => exists fc, Fields c !! f_Field f = Some fc /\
     (AllowedOperators fc = [] \/ ToLower (f_Operator f) ∈ AllowedOperators fc)) (Filters req).
Proof.
  intros Ht Hs Hf H. apply compile_parts in H as (term & args1 & frags & Eb & Ec & ->).
  split; [|by eapply compile_filters_allowed].
  assert (Ef : final_state (opts ++ [WithTenant v]) = {| tenantValue := v; hasTenant := true |})
    by (unfold final_state; by rewrite fold_left_app).
  rewrite Ef in *. unfold tenant_part in *.
  rewrite bool_decide_true in * by (by destruct (TenantColumn c)). cbn [andb hasTenant tenantValue fst snd app] in *.
  destruct (search_means _ _ _ _ Hs Eb) as (P1 & HS & _).
  destruct (filters_closed _ _ _ _ Hf Ec) as (P2 & HF).
  intros r. apply guarded_selects; [done| |by etrans]. apply Forall_app. split; [|done].
  destruct (bool_decide (render term <> "")); [|constructor].
  apply Forall2_cons_inv_l in HS as (P & ? & (ls & es & ? & ? & _)%means_conj & _).
  constructor; [by exists ls, es|constructor].
Qed.

End compiled.

End truth.

(** ** Statements *)

(** The columns of an ORDER BY with their direction, [true] for descending. *)
Abbreviation sort_key := (string * bool)%type.

Definition direction_of (w : string) : option bool :=
  if bool_decide (w = "ASC") then Some false else if bool_decide (w = "DESC") then Some true else None.

Fixpoint p_keys (ts : list lexeme) : option (list sort_key * list lexeme) :=
  match ts with
  | Word col :: Word dir :: rest =>
      match column_name col, direction_of dir, rest with
      | true, Some d, Comma :: rest' =>
          match p_keys rest' with Some (ks, rest'') => Some ((col, d) :: ks, rest'') | None => None end
      | true, Some d, _ => Some ([(col, d)], rest)
      | _, _, _ => None
      end
  | _ => None
  end.

(** A number in decimal digits. *)
Definition number_of (w : string) : option Z :=
  match w with
  | EmptyString => None
  | _ => let '(n, rest) := read_digits w 0 in if str_is_empty rest then Some n else None
  end.

(** What follows the FROM clause of a SELECT: the condition, the sort keys and
    the window (limit and offset), each of which may be absent. *)
Record statement : Type := {
  st_where : option cond;
  st_order : list sort_key;
  st_window : option (Z * Z)
}.

Definition p_where (ts : list lexeme) : option (option cond * list lexeme) :=
  match ts with
  | Word "WHERE" :: ts' =>
      match p_or (3 * length ts' + 2) ts' with Some (e, rest) => Some (Some e, rest) | None => None end
  | _ => Some (None, ts)
  end.
Definition p_order (ts : list lexeme) : option (list sort_key * list lexeme) :=
  match ts with Word "ORDER" :: Word "BY" :: ts' => p_keys ts' | _ => Some ([], ts) end.
Definition p_window (ts : list lexeme) : option (option (Z * Z) * list lexeme) :=
  match ts with
  | Word "LIMIT" :: Word l :: Word "OFFSET" :: Word o :: ts' =>
      match number_of l, number_of o with Some n, Some m => Some (Some (n, m), ts') | _, _ => None end
  | _ => Some (None, ts)
  end.

Definition p_statement (ts : list lexeme) : option statement :=
  match p_where ts with
  | None => None
  | Some (w, ts1) =>
      match p_order ts1 with
      | None => None
      | Some (ks, ts2) =>
          match p_window ts2 with
          | Some (win, []) => Some {| st_where := w; st_order := ks; st_window := win |}
          | _ => None
          end
      end
  end.

(** The text after the FROM clause, which ends at a space. *)
Definition read_statement (tail : string) : option statement :=
  if str_is_empty tail || HasPrefix tail " " then p_statement (lex "" tail) else None.

(** The rows a statement keeps. *)
Definition st_keeps {cell} (db : database cell) (st : statement) (args : list any)
  (r : string -> option cell) : bool :=
  match st_where st with Some e => bool_decide (eval db args r e = Some true) | None => true end.
Definition st_page {A} (st : statement) (rows : list A) : list A :=
  match st_window st with Some (l, o) => take (Z.to_nat l) (drop (Z.to_nat o) rows) | None => rows end.

(** What a request asks: its sortable sort fields, or the default sort. *)
Definition requested_keys (c : ResourceConfig) (sorts : list SortField) : list sort_key :=
  omap (fun s => match Fields c !! sf_Field s with
                 | Some fc => if Sortable fc then Some (Column fc, EqualFold (sf_Direction s) "desc") else None
                 | None => None
                 end) sorts.
Definition default_key (c : ResourceConfig) : list sort_key :=
  if bool_decide (sc_Field (DefaultSort c) = "") then [] else
  match Fields c !! sc_Field (DefaultSort c) with
  | Some fc => [(Column fc, EqualFold (sc_Direction (DefaultSort c)) "desc")]
  | None => []
  end.
Definition order_keys (c : ResourceConfig) (sorts : list SortField) : list sort_key :=
  match requested_keys c sorts with [] => default_key c | ks => ks end.

Definition key_text (k : sort_key) : string := k.1 +:+ " " +:+ (if k.2 then "DESC" else "ASC").

Lemma order_parts_keys c sorts : order_parts c sorts = map key_text (requested_keys c sorts).
Proof.
  induction sorts as [|s sorts IH]; [done|]. unfold order_parts, requested_keys in *. cbn [omap list_omap].
  destruct (Fields c !! sf_Field s) as [fc|]; [|exact IH]. destruct (Sortable fc); [|exact IH].
  cbn [map]. by rewrite <- IH.
Qed.

Lemma build_order_text c sorts :
  buildOrderBy c sorts =
  match order_keys c sorts with [] => "" | ks => "ORDER BY " +:+ Join (map key_text ks) ", " end.
Proof.
  unfold buildOrderBy, order_keys, default_key. rewrite order_parts_keys.
  destruct (requested_keys c sorts) as [|k ks]; [|done]. cbn [map length Nat.eqb].
  case_bool_decide; [done|]. by destruct (Fields c !! sc_Field (DefaultSort c)).
Qed.

Lemma key_reads k : column_name k.1 = true ->
  reads (key_text k) [Word k.1; Word (if k.2 then "DESC" else "ASC")].
Proof.
  intros Hk. apply (reads_sep k.1 [Word k.1] " " [] (if k.2 then "DESC" else "ASC") [Word (if k.2 then "DESC" else "ASC")]).
  - by apply column_reads.
  - by split.
  - apply reads_word; by destruct k.2.
Qed.

(** No further key follows. *)
Definition keys_end (ts : list lexeme) : Prop := match ts with Comma :: _ => False | _ => True end.

Lemma keys_read k ks :
  Forall (fun k => column_name k.1 = true) (k :: ks) ->
  exists ls, reads (Join (map key_text (k :: ks)) ", ") ls /\
    forall rest, keys_end rest -> p_keys (ls ++ rest) = Some (k :: ks, rest).
Proof.
  revert k. induction ks as [|k' ks IH]; intros k [Hk H]%Forall_cons.
  - eexists. split; [exact (key_reads k Hk)|]. intros rest Hr. cbn [app p_keys]. rewrite Hk.
    destruct k as [col []]; by destruct rest as [|[] ?].
  - destruct (IH k' H) as (ls & Hr & Hp). exists ([Word k.1; Word (if k.2 then "DESC" else "ASC")] ++ [Comma] ++ ls). split.
    + exact (reads_sep _ _ ", " _ _ _ (key_reads k Hk) comma_sep Hr).
    + intros rest He. cbn [app p_keys]. rewrite Hk, (Hp rest He). by destruct k as [col []].
Qed.

(** *** Clauses

    A clause starts with a space, so it follows any text that may end there. *)
Definition clause (s : string) (ls : list lexeme) : Prop :=
  reads s ls /\ (s = "" \/ HasPrefix s " " = true).

Lemma clause_app a la b lb : clause a la -> clause b lb -> clause (a +:+ b) (la ++ lb).
Proof.
  intros [Ra Ha] [Rb Hb]. split.
  - intros rest Hr. rewrite str_app_assoc, Ra, Rb, <- app_assoc; [done|done|].
    destruct Hb as [->|[t ->]%HasPrefix_spec]; [done|]. by rewrite str_app_assoc.
  - destruct Ha as [->|[t ->]%HasPrefix_spec]; [done|]. right. rewrite str_app_assoc. apply (HasPrefix_app " ").
Qed.

(** *** The clauses of a compiled query *)
Definition where_text (cond : string) : string := if bool_decide (cond <> "") then " WHERE " +:+ cond else "".

(** [s] is an absent WHERE clause, or one that reads as a condition. *)
Definition where_is (s : string) (ls : list lexeme) (w : option cond) : Prop :=
  clause s ls /\
  ((ls = [] /\ w = None) \/ exists ls' e, ls = Word "WHERE" :: ls' /\ and_is ls' e /\ w = Some e).

Lemma where_empty : where_is "" [] None.
Proof. split; [split; [by intros rest|by left]|by left]. Qed.

Lemma where_cond cond ls e :
  reads cond ls -> and_is ls e -> where_is (where_text cond) (Word "WHERE" :: ls) (Some e).
Proof.
  intros Hr He. split; [|right; by exists ls, e].
  assert (cond <> "") as Hne.
  { intros ->. specialize (Hr "" I). assert (ls = []) as -> by (destruct ls; by simplify_eq).
    specialize (He 1%nat [] ltac:(simpl; lia) (or_introl I)). done. }
  unfold where_text. rewrite bool_decide_true by done. split; [|by right]. intros rest Hrest.
  rewrite str_app_assoc, (lex_ends "" " WHERE " _ eq_refl), Hr by done. done.
Qed.

Lemma p_where_is s ls w rest : where_is s ls w -> stops rest -> p_where (ls ++ rest) = Some (w, rest).
Proof.
  intros [_ [[-> ->]|(ls' & e & -> & He & ->)]] Hs.
  - destruct rest as [|[] ?]; try done. by destruct Hs as [-> | ->].
  - cbn [app p_where]. rewrite (or_one _ _ He _ rest); [done| |done]. rewrite length_app. lia.
Qed.

(** A number is a word that reads as it. *)
Lemma number_word z : (0 <= z)%Z -> reads (itoa z) [Word (itoa z)] /\ number_of (itoa z) = Some z.
Proof.
  intros Hz. destruct z as [|q|q]; [|unfold itoa, pretty, pretty_Z|lia].
  { split; [by apply reads_word|vm_compute; reflexivity]. }
  change (pretty q) with (pretty_N_go (N.pos q) "").
  assert (Hne : pretty_N_go (N.pos q) "" <> "").
  { intros E. pose proof (read_digits_go (N.pos q) "") as H. rewrite E in H. by simpl in H. }
  split.
  - apply reads_word; [by apply plain_go|done].
  - unfold number_of. rewrite read_digits_go. by destruct (pretty_N_go (N.pos q) "").
Qed.

Definition window_text (l o : Z) : string := "LIMIT " +:+ itoa l +:+ " OFFSET " +:+ itoa o.

Lemma clause_window l o :
  (0 <= l)%Z -> (0 <= o)%Z ->
  exists ls, clause (" " +:+ window_text l o) (Word "LIMIT" :: ls) /\
    p_window (Word "LIMIT" :: ls) = Some (Some (l, o), []).
Proof.
  intros Hl Ho. destruct (number_word l Hl) as [Rl Nl], (number_word o Ho) as [Ro No].
  exists ([Word (itoa l)] ++ [Word "OFFSET"] ++ [Word (itoa o)]). split.
  - split; [|by right]. intros rest Hr.
    change (" " +:+ window_text l o) with (" LIMIT " +:+ (itoa l +:+ " OFFSET " +:+ itoa o)).
    rewrite str_app_assoc, (lex_ends "" " LIMIT " _ eq_refl).
    rewrite (reads_sep (itoa l) _ " OFFSET " [Word "OFFSET"] (itoa o) _ Rl ltac:(by split) Ro rest Hr). done.
  - cbn [app p_window]. by rewrite Nl, No.
Qed.

(** The clause [Compile] writes reads as the order the request asks. *)
Definition order_text (s : string) : string := if bool_decide (s <> "") then " " +:+ s else "".

Lemma clause_order c sorts :
  Forall (fun k => column_name k.1 = true) (order_keys c sorts) ->
  exists ls, clause (order_text (buildOrderBy c sorts)) ls /\
    (ls = [] \/ exists ls', ls = Word "ORDER" :: ls') /\
    forall ts, p_order (ls ++ Word "LIMIT" :: ts) = Some (order_keys c sorts, Word "LIMIT" :: ts).
Proof.
  unfold order_text. rewrite build_order_text. destruct (order_keys c sorts) as [|k ks].
  { intros _. exists []. split_and!; [split; [by intros rest|by left]|by left|done]. }
  intros H. destruct (keys_read k ks H) as (ls & Hr & Hp). exists (Word "ORDER" :: Word "BY" :: ls).
  rewrite bool_decide_true by done. split_and!; [|right; by eexists|].
  - split; [|by right]. intros rest Hrest. change (" " +:+ ("ORDER BY " +:+ ?t)) with (" ORDER BY " +:+ t).
    rewrite str_app_assoc, (lex_ends "" " ORDER BY " _ eq_refl), Hr by done. done.
  - intros ts. cbn [app p_order]. by apply Hp.
Qed.

Lemma read_clause s ls : clause s ls -> read_statement s = p_statement ls.
Proof.
  intros [Hr Hs]. specialize (Hr "" I). rewrite str_app_nil_r, app_nil_r in Hr. unfold read_statement. rewrite Hr.
  destruct Hs as [-> | ->]; [done|]. by rewrite orb_true_r.
Qed.

(** A condition, an order and a window, one after the other. *)
Lemma read_full sw lw w c sorts l o :
  where_is sw lw w -> Forall (fun k => column_name k.1 = true) (order_keys c sorts) ->
  (0 <= l)%Z -> (0 <= o)%Z ->
  read_statement (sw +:+ order_text (buildOrderBy c sorts) +:+ " " +:+ window_text l o) =
  Some {| st_where := w; st_order := order_keys c sorts; st_window := Some (l, o) |}.
Proof.
  intros Hw Hk Hl Ho. destruct (clause_order c sorts Hk) as (lk & Ck & Ek & Pk).
  destruct (clause_window l o Hl Ho) as (lo & Cl & Pl).
  rewrite (read_clause _ (lw ++ lk ++ Word "LIMIT" :: lo)).
  2:{ apply clause_app; [apply Hw|]. by apply clause_app. }
  unfold p_statement. rewrite (p_where_is _ _ _ _ Hw).
  - rewrite Pk. by rewrite Pl.
  - destruct Ek as [->|[ls' ->]]; simpl; auto.
Qed.

(** A condition alone. *)
Lemma read_where sw lw w :
  where_is sw lw w -> read_statement sw = Some {| st_where := w; st_order := []; st_window := None |}.
Proof.
  intros Hw. rewrite (read_clause _ lw) by apply Hw. pose proof (p_where_is _ _ _ [] Hw I) as H.
  rewrite app_nil_r in H. unfold p_statement. by rewrite H.
Qed.

(** A row comes before another under the keys, the first key deciding first. *)
Section order.
Context {cell : Type} (cmp : option cell -> option cell -> comparison).

Fixpoint row_le (ks : list sort_key) (x y : string -> option cell) : Prop :=
  match ks with
  | [] => True
  | (col, desc) :: ks' =>
      match cmp (x col) (y col) with
      | Eq => row_le ks' x y
      | Lt => desc = false
      | Gt => desc = true
      end
  end.
End order.

(** ** A table of texts *)
Module SqlWitness.
Import SearchWitness.

(** Cells are texts; the comparisons the examples use, others are unknown. *)
Definition text_cmp (rl : rel) (a : string) (c : string) (v : any) : tv :=
  match rl, v with
  | REq, AString s => Some (bool_decide (a = s))
  | REq, AInt64 z => Some (bool_decide (a = itoa z))
  | RNe, AString s => Some (bool_decide (a <> s))
  | RILike, AString p =>
      match str_cut "%" p with Some (start, _) => Some (HasPrefix a start) | None => Some (bool_decide (a = p)) end
  | _, _ => None
  end.

(** The links of the rows, by the row's id, as the subquery of the examples
    looks for them. *)
Definition link_exists (ops : list operand) (r : string -> option string) : bool :=
  existsb (fun o => match o with
                    | Val _ (AString v) => bool_decide (r "t.id" = Some "7" /\ v = "net")
                    | _ => false
                    end) ops.
Definition text_db : database string := {| db_compare := text_cmp; db_exists := link_exists |}.

Definition row0 (col : string) : option string :=
  if bool_decide (col = "t.tenant_id") then Some "acme"
  else if bool_decide (col = "t.age") then Some "4"
  else if bool_decide (col = "t.name") then Some "x' OR 1=1" else None.

Example q0_selects : selects text_db (render (Where q0)) (Args q0) row0 = true.
Proof. vm_compute. reflexivity. Qed.
Example precedence : parse "a = $1 AND b = $2 OR c IS NOT NULL" =
  Some (COr (CAnd (CPred "a" (PCmp false REq {| p_index := 1; p_cast := "" |}))
                  (CPred "b" (PCmp false REq {| p_index := 2; p_cast := "" |})))
            (CPred "c" (PNull true))).
Proof. vm_compute. reflexivity. Qed.

(** No field has a resolver of its own. *)
Definition no_custom (field op : string) (value : any) (r : string -> option string) : Prop := False.

Lemma plain0 : plain_request text_db cfg0 no_custom req0.
Proof.
  split; [by right| |].
  - assert (searchColumns cfg0 = ["t.age"; "t.name"]) as -> by (vm_compute; reflexivity).
    by repeat constructor.
  - constructor; [|constructor; [|constructor]]; intros fc H; vm_compute in H; by injection H as <-.
Qed.

(** A relationship filter, as the documentation of [SubqueryResolver] has it. *)
Definition link_template : string :=
  "EXISTS (SELECT 1 FROM tld_links l WHERE l.parent_id = t.id AND l.tld_id = %s)".
(** A resolver of the client's own: the owner of a row that is not deleted. *)
Definition owner_resolver : Resolve := fun op value args =>
  let '(p, args') := add value args in
  Ok ([Lit "t.deleted_at"; Lit " IS NULL"; Lit " AND "; Lit "t.owner"; Lit " = "; p], args').
Definition cfg_sub : ResourceConfig :=
  {| rc_Name := "domains";
     Fields := <["owner" := {| fc_Type := FieldString; Column := ""; AllowedOperators := [];
                               Sortable := false; Searchable := false; CaseInsensitive := false;
                               Resolver := Some owner_resolver |}]>
               (<["tld" := {| fc_Type := FieldString; Column := ""; AllowedOperators := [OpEq];
                             Sortable := false; Searchable := false; CaseInsensitive := false;
                             Resolver := Some (Subquery_Resolve link_template FieldUUID "tld") |}]>
               (<["name" := {| fc_Type := FieldString; Column := "t.name"; AllowedOperators := [];
                               Sortable := true; Searchable := false; CaseInsensitive := false;
                               Resolver := None |}]> ∅));
     DefaultSort := {| sc_Field := ""; sc_Direction := "asc" |}; rc_Counter := None;
     TenantColumn := "t.tenant_id"; MaxPageSize := 50; MaxBulkTerms := 0 |}.
Definition req_sub : RequestBody :=
  {| SearchTerms := []; SortFields := []; rb_Pagination := {| PageSize := 20; PageNumber := 1 |};
     Filters := [{| f_Field := "tld"; f_Operator := "EQ"; f_Value := AString "net" |};
                 {| f_Field := "owner"; f_Operator := "eq"; f_Value := AString "ann" |};
                 {| f_Field := "name"; f_Operator := "ne"; f_Value := AString "x" |}] |}.
Definition link_head : list lexeme :=
  map Word ["SELECT"; "1"; "FROM"; "tld_links"; "l"; "WHERE"; "l.parent_id"; "="; "t.id"; "AND";
            "l.tld_id"; "="].
Definition owned_by (op : string) (value : any) (r : string -> option string) : Prop :=
  r "t.deleted_at" = None /\ test text_db REq (r "t.owner") "" value = Some true.
Definition links (field : string) : string -> any -> (string -> option string) -> Prop :=
  if bool_decide (field = "owner") then owned_by
  else subquery_holds text_db false link_head [] FieldUUID "tld".

Lemma owner_means : resolver_means text_db owner_resolver owned_by.
Proof.
  intros op value args frag args' [= <- <-]. split_and!; [by eexists|by rewrite render_cons|].
  apply (conj_and text_db _ [Lit "t.deleted_at"; Lit " IS NULL"] [Lit "t.owner"; Lit " = "; _]
           (fun r => r "t.deleted_at" = None)).
  - apply means_conj. eapply means_ext; [|by apply (null_means text_db "t.deleted_at" FieldString "" ANil _ false)].
    intros r. unfold value_holds. simpl. naive_solver.
  - apply means_conj. by apply (bare_means text_db "t.owner" false).
Qed.

Lemma link_template_reads : exists_template link_template false link_head [].
Proof.
  exists "EXISTS (SELECT 1 FROM tld_links l WHERE l.parent_id = t.id AND l.tld_id = ", ")".
  split_and!; [by split_and!|vm_compute; reflexivity..|].
  repeat (apply Forall_cons; split; [by intros w [= <-]|]). constructor.
Qed.

Lemma plain_sub : plain_request text_db cfg_sub links req_sub.
Proof.
  split; [by right| |].
  - assert (searchColumns cfg_sub = []) as -> by (vm_compute; reflexivity). constructor.
  - constructor; [|constructor; [|constructor; [|constructor]]]; intros fc H;
      unfold cfg_sub in H; cbn [Fields f_Field] in H.
    + rewrite lookup_insert_ne, lookup_insert_eq in H by done. injection H as <-. simpl.
      apply subquery_means, link_template_reads.
    + rewrite lookup_insert_eq in H by done. injection H as <-. simpl. apply owner_means.
    + rewrite !lookup_insert_ne, lookup_insert_eq in H by done. by injection H as <-.
Qed.

Definition q_sub : CompiledQuery :=
  match Compile cfg_sub req_sub [WithTenant "acme"] with Ok q => q | Err _ => q0 end.

Example q_sub_text : render (Where q_sub) =
  "t.tenant_id = $1 AND EXISTS (SELECT 1 FROM tld_links l WHERE l.parent_id = t.id AND l.tld_id = $2::uuid) AND t.deleted_at IS NULL AND t.owner = $3 AND t.name <> $4".
Proof. vm_compute. reflexivity. Qed.

Lemma compile_means_witness :
  (render (Where q_sub) = "" \/ is_Some (parse (render (Where q_sub)))) /\
  forall r, selects text_db (render (Where q_sub)) (Args q_sub) r = true <->
    tenant_holds text_db cfg_sub r (final_state [WithTenant "acme"]) /\
    terms_hold text_db cfg_sub r (SearchTerms req_sub) /\
    Forall (filter_holds text_db cfg_sub links r) (Filters req_sub).
Proof.
  apply (compile_means text_db cfg_sub links req_sub [WithTenant "acme"] q_sub); [apply plain_sub|].
  vm_compute. reflexivity.
Defined.

Lemma compile_guards_witness :
  (forall r, selects text_db (render (Where q_sub)) (Args q_sub) r = true ->
     test text_db REq (r "t.tenant_id") "" (AString "acme") = Some true) /\
  Forall (fun f => exists fc, Fields cfg_sub !! f_Field f = Some fc /\
     (AllowedOperators fc = [] \/ ToLower (f_Operator f) ∈ AllowedOperators fc)) (Filters req_sub).
Proof.
  apply (compile_guards text_db cfg_sub req_sub [] "acme" q_sub).
  - reflexivity.
  - assert (searchColumns cfg_sub = []) as -> by (vm_compute; reflexivity). constructor.
  - eapply Forall_impl; [exact (plain_filters _ _ _ _ plain_sub)|].
    intros f Hf fc Hfc. specialize (Hf fc Hfc). destruct (Resolver fc); [|done].
    by eapply resolver_means_closed.
  - vm_compute. reflexivity.
Defined.

(** A [SubqueryResolver] whose template has one [%s], as required, and a
    disjunction at its top level. *)
Definition cfg_or : ResourceConfig :=
  {| rc_Name := "domains";
     Fields := <["owner" := {| fc_Type := FieldString; Column := ""; AllowedOperators := [];
                               Sortable := false; Searchable := false; CaseInsensitive := false;
                               Resolver := Some (Subquery_Resolve "t.owner = %s OR t.owner IS NULL"
                                                   FieldString "owner") |}]> ∅;
     DefaultSort := {| sc_Field := ""; sc_Direction := "asc" |}; rc_Counter := None;
     TenantColumn := "t.tenant_id"; MaxPageSize := 50; MaxBulkTerms := 0 |}.
Definition req_or : RequestBody :=
  {| SearchTerms := []; SortFields := []; rb_Pagination := {| PageSize := 20; PageNumber := 1 |};
     Filters := [{| f_Field := "owner"; f_Operator := "eq"; f_Value := AString "ann" |}] |}.
Definition foreign_row (col : string) : option string :=
  if bool_decide (col = "t.tenant_id") then Some "other" else None.

(** The fragments are joined by AND without parentheses, so a disjunctive
    template takes the tenant condition into its first branch only: the query
    compiled for tenant "acme" keeps a row of tenant "other". *)
Theorem template_or_escapes_tenant :
  exists q, Compile cfg_or req_or [WithTenant "acme"] = Ok q /\
    render (Where q) = "t.tenant_id = $1 AND t.owner = $2 OR t.owner IS NULL" /\
    selects text_db (render (Where q)) (Args q) foreign_row = true /\
    ~ tenant_holds text_db cfg_or foreign_row (final_state [WithTenant "acme"]).
Proof.
  eexists. split; [vm_compute; reflexivity|]. split; [vm_compute; reflexivity|].
  split; [vm_compute; reflexivity|]. by intros [?|[?|?]].
Qed.

End SqlWitness.
