(* ===== verification/SearchPgx.v ===== *)
(** * Executing a search on PostgreSQL: [search/pgx/*.go]

    The searcher assembles the three statements of a compiled query (data, exact
    count, planner estimate), runs count and data fetch as two goroutines of an
    [errgroup] and pages the result.  The querier, the pool behind it and the
    decoding of EXPLAIN's JSON are parameters; [W] is the state of the database,
    [Row] the element type of the destination slice. *)
From Stdlib Require Import SpecFloat.
From S2P Require Import Prelude GoStrings SearchTypes SearchCoerce Search SearchSql GoFloat.

Local Open Scope string_scope.
Local Open Scope Z_scope.
Local Open Scope list_scope.

(** ** Statements *)
Record Table : Type := { Columns : string; From : string }.

Definition writeWhere (cond : string) : string :=
  if bool_decide (cond <> "") then " WHERE " +:+ cond else "".

Definition buildDataSQL (tbl : Table) (q : CompiledQuery) : string :=
  "SELECT " +:+ Columns tbl +:+ " FROM " +:+ From tbl +:+ writeWhere (render (Where q)) +:+
  (if bool_decide (OrderBy q <> "") then " " +:+ OrderBy q else "") +:+
  (if bool_decide (Limit q <> "") then " " +:+ Limit q else "").

Definition buildCountSQL (tbl : Table) (q : CompiledQuery) : string :=
  "SELECT COUNT(*) FROM " +:+ From tbl +:+ writeWhere (render (Where q)).

Definition buildEstimateSQL (tbl : Table) (q : CompiledQuery) : string :=
  "EXPLAIN (FORMAT JSON) SELECT 1 FROM " +:+ From tbl +:+ writeWhere (render (Where q)).

(** ** Destinations and errors *)

(** What reflection sees of [dest]. *)
Inductive dest (Row : Type) : Type :=
| SlicePtr (rows : list Row) | NilPtr | NotSlicePtr.
Arguments SlicePtr {Row} rows.
Arguments NilPtr {Row}.
Arguments NotSlicePtr {Row}.

Definition sliceLen {Row} (d : dest Row) : Z :=
  match d with SlicePtr rows => Z.of_nat (length rows) | NilPtr => 1 | NotSlicePtr => 1 end.

Definition pgErrCodeQueryCanceled : string := "57014".

Definition IsQueryTimeout (err : option query_err) : bool :=
  match err with
  | None => false
  | Some e => is_deadline e || is_canceled e || bool_decide (pg_code e = Some pgErrCodeQueryCanceled)
  end.

Inductive pgx_err : Type := ErrCompile (e : search_err) | ErrQuery (e : query_err).

(** An error with a text only. *)
Definition plain (msg : string) : query_err :=
  {| is_deadline := false; is_canceled := false; pg_code := None; qe_text := msg |}.

(** ** The querier *)

(** The context of a query: a timeout of its own, and whether the group's
    context is cancelled already. *)
Record qctx : Type := { timeout : option Z; cancelled : bool }.

Record Querier (W Row : Type) : Type := {
  q_Select : qctx -> dest Row -> string -> list any -> W -> option query_err * dest Row * W;
  q_Count : qctx -> string -> list any -> W -> res query_err Z * W;
  q_QueryRow : qctx -> string -> list any -> W -> res query_err string * W
}.
Arguments q_Select {W Row} _.
Arguments q_Count {W Row} _.
Arguments q_QueryRow {W Row} _.

(** [pgxPool] with the scans the querier makes of its results. *)
Record pgxPool (W Row Rows : Type) : Type := {
  p_Query : qctx -> string -> list any -> W -> res query_err Rows * W;
  p_QueryRow_int64 : qctx -> string -> list any -> W -> res query_err Z * W;
  p_QueryRow_string : qctx -> string -> list any -> W -> res query_err string * W;
  p_ScanAll : dest Row -> Rows -> W -> option query_err * dest Row * W;
  p_Close : Rows -> W -> W
}.
Arguments p_Query {W Row Rows} _.
Arguments p_QueryRow_int64 {W Row Rows} _.
Arguments p_QueryRow_string {W Row Rows} _.
Arguments p_ScanAll {W Row Rows} _.
Arguments p_Close {W Row Rows} _.

Definition poolQuerier {W Row Rows} (pool : pgxPool W Row Rows) : Querier W Row :=
  {| q_Select := fun ctx d query args w =>
       match p_Query pool ctx query args w with
       | (Err e, w1) => (Some e, d, w1)
       | (Ok rows, w1) =>
           let '(r, d', w2) := p_ScanAll pool d rows w1 in (r, d', p_Close pool rows w2)
       end;
     q_Count := fun ctx query args w => p_QueryRow_int64 pool ctx query args w;
     q_QueryRow := fun ctx query args w => p_QueryRow_string pool ctx query args w |}.

(** A [Searcher] is its querier. *)
Definition New {W Row} (q : Querier W Row) : Querier W Row := q.
Definition NewFromPool {W Row Rows} (pool : pgxPool W Row Rows) : Querier W Row := poolQuerier pool.

Section searcher.
Context {W Row : Type}.
(** [json.Unmarshal] of EXPLAIN's output: the plans' [Plan Rows]. *)
Variable unmarshal_plans : string -> res string (list spec_float).
Variable s : Querier W Row.

Definition ParseExplainEstimate (explainJSON : string) : res query_err Z :=
  match unmarshal_plans explainJSON with
  | Err e => Err (plain ("failed to parse EXPLAIN output: " +:+ e))
  | Ok [] => Err (plain "empty EXPLAIN output")
  | Ok (rows :: _) => Ok (f_int64 rows)
  end.

(** [countFuncs], in the group's context. *)
Definition exact_func (tbl : Table) (q : CompiledQuery) (gone : bool) : CountFunc W :=
  fun t w => q_Count s {| timeout := t; cancelled := gone |} (buildCountSQL tbl q) (Args q) w.
Definition estimate_func (tbl : Table) (q : CompiledQuery) (gone : bool) : CountFunc W :=
  fun t w =>
    match q_QueryRow s {| timeout := t; cancelled := gone |} (buildEstimateSQL tbl q) (Args q) w with
    | (Err e, w1) => (Err e, w1)
    | (Ok explainJSON, w1) => (ParseExplainEstimate explainJSON, w1)
    end.

Definition run_count (cfg : ResourceConfig) (tbl : Table) (q : CompiledQuery) (gone : bool) (w : W) :=
  config_Count cfg (exact_func tbl q gone) (estimate_func tbl q gone) w.
Definition run_select (tbl : Table) (q : CompiledQuery) (d : dest Row) (gone : bool) (w : W) :=
  q_Select s {| timeout := None; cancelled := gone |} d (buildDataSQL tbl q) (Args q) w.

Definition failed {A E} (r : res E A) : bool := match r with Ok _ => false | Err _ => true end.

(** The group: the goroutine that settles first may cancel the other one, and
    the first error is the group's. *)
Definition run_group (count_first : bool) cfg tbl q (d : dest Row) (w : W)
  : res query_err CountResult * dest Row * W :=
  if count_first then
    let '(c, w1) := run_count cfg tbl q false w in
    let '(r, d', w2) := run_select tbl q d (failed c) w1 in
    (match c, r with Err e, _ => Err e | Ok _, Some e => Err e | Ok n, None => Ok n end, d', w2)
  else
    let '(r, d', w1) := run_select tbl q d false w in
    let '(c, w2) := run_count cfg tbl q (bool_decide (is_Some r)) w1 in
    (match r, c with Some e, _ => Err e | None, Err e => Err e | None, Ok n => Ok n end, d', w2).

Definition Search (count_first : bool) (cfg : ResourceConfig) (req : RequestBody) (tbl : Table)
  (d : dest Row) (opts : list (compileState -> compileState)) (w : W)
  : res pgx_err PagedViewModel * dest Row * W :=
  match Validate cfg req with
  | Some e => (Err (ErrCompile e), d, w)
  | None =>
      match Compile cfg req opts with
      | Err e => (Err (ErrCompile e), d, w)
      | Ok q =>
          match run_group count_first cfg tbl q d w with
          | (Err e, d', w') => (Err (ErrQuery e), d', w')
          | (Ok n, d', w') =>
              let count := CorrectEmptyFirstPage n (rb_Pagination req) (sliceLen d') in
              (Ok (NewPagedViewModel (rb_Pagination req) (Count count) (IsEstimated count)
                     (MaxPageSize cfg)), d', w')
          end
      end
  end.

(** ** What the statements denote *)

(** The database executes what the text of a statement says.  [table] holds the
    rows of the FROM clause, and does not change while the search runs; [cols]
    are the columns of a row, [db] the comparisons and subqueries of the
    database, [ord] its order of column values, NULL included.  A fetch with a
    FROM clause and some further text that reads as a statement, if it returns,
    yields the statement's window of the rows it keeps, in its order; a count
    with a condition, if it returns, counts the rows it keeps. *)
Context {cell : Type} (db : database cell) (ord : option cell -> option cell -> comparison)
  (cols : Row -> string -> option cell).

Definition kept (st : statement) (args : list any) (table : list Row) : list Row :=
  filter (fun x => st_keeps db st args (cols x) = true) table.

Record executes (tbl : Table) (table : list Row) : Prop := {
  exec_select : forall ctx d tail st args w d' w', read_statement tail = Some st ->
    q_Select s ctx d ("SELECT " +:+ Columns tbl +:+ " FROM " +:+ From tbl +:+ tail) args w = (None, d', w') ->
    exists rows, rows ≡ₚ kept st args table /\
      StronglySorted (fun x y => row_le ord (st_order st) (cols x) (cols y)) rows /\
      d' = SlicePtr (st_page st rows);
  exec_count : forall ctx tail e args w n w',
    read_statement tail = Some {| st_where := e; st_order := []; st_window := None |} ->
    q_Count s ctx ("SELECT COUNT(*) FROM " +:+ From tbl +:+ tail) args w = (Ok n, w') ->
    n = Z.of_nat (length (kept {| st_where := e; st_order := []; st_window := None |} args table))
}.

(** The statements of a compiled query, read as SQL: one condition, that of the
    request, for both; the order and the window of the request for the data. *)
Lemma statements_read custom cfg req opts q tbl :
  let p := rb_Pagination req in
  let size := PageSizeOf cfg p in
  let off := (Number p - 1) * size in
  in_int64 (PageNumber p) -> off <= max_int64 -> 0 <= size -> 0 <= off ->
  plain_request db cfg custom req ->
  Forall (fun k => column_name k.1 = true) (order_keys cfg (SortFields req)) ->
  Compile cfg req opts = Ok q ->
  exists e data count,
    buildDataSQL tbl q = "SELECT " +:+ Columns tbl +:+ " FROM " +:+ From tbl +:+ data /\
    read_statement data =
      Some {| st_where := e; st_order := order_keys cfg (SortFields req); st_window := Some (size, off) |} /\
    buildCountSQL tbl q = "SELECT COUNT(*) FROM " +:+ From tbl +:+ count /\
    read_statement count = Some {| st_where := e; st_order := []; st_window := None |} /\
    forall r ks win, st_keeps db {| st_where := e; st_order := ks; st_window := win |} (Args q) r = true <->
      request_holds db cfg custom req opts r.
Proof.
  intros p size off Hn Ho Hs0 Ho0 Hp Hk Hq.
  assert (exists lw w, where_is (writeWhere (render (Where q))) lw w /\
            forall r ks win, st_keeps db {| st_where := w; st_order := ks; st_window := win |} (Args q) r = true <->
              request_holds db cfg custom req opts r) as (lw & w & Hw & Hkeep).
  { destruct (compile_reads db cfg custom req opts q Hp Hq) as [[-> Hall]|(ls & e & Hr & He & Hev)].
    - exists [], None. split; [apply where_empty|]. intros r ks win. split; [done|by intros].
    - exists (Word "WHERE" :: ls), (Some e). split; [by apply where_cond|]. intros r ks win.
      rewrite <- Hev. apply bool_decide_eq_true. }
  exists w, (writeWhere (render (Where q)) +:+ order_text (buildOrderBy cfg (SortFields req)) +:+
             " " +:+ window_text size off), (writeWhere (render (Where q))).
  split_and!; [|by eapply read_full|done|by eapply read_where|exact Hkeep].
  unfold buildDataSQL. rewrite (compile_order _ _ _ _ Hq), (compile_limit _ _ _ _ Hq Hn Ho).
  rewrite (bool_decide_true ("LIMIT " +:+ _ <> "")) by done. done.
Qed.

Lemma run_group_ok first cfg tbl q d w n d' w' :
  run_group first cfg tbl q d w = (Ok n, d', w') ->
  (exists gone w1 w2, run_count cfg tbl q gone w1 = (Ok n, w2)) /\
  (exists gone w1 w2, run_select tbl q d gone w1 = (None, d', w2)).
Proof.
  unfold run_group. destruct first.
  - destruct (run_count cfg tbl q false w) as [c w1] eqn:Ec.
    destruct (run_select tbl q d (failed c) w1) as [[r d1] w2] eqn:Er.
    intros H. destruct c, r; simplify_eq. eauto 10.
  - destruct (run_select tbl q d false w) as [[r d1] w1] eqn:Er.
    destruct (run_count cfg tbl q _ w1) as [c w2] eqn:Ec.
    intros H. destruct r, c; simplify_eq. eauto 10.
Qed.

Lemma run_count_exact cfg tbl q gone w n w' :
  run_count cfg tbl q gone w = (Ok n, w') -> IsEstimated n = false ->
  exists ctx w1 w2, q_Count s ctx (buildCountSQL tbl q) (Args q) w1 = (Ok (Count n), w2).
Proof.
  unfold run_count, config_Count, counter_Count, exact_func.
  destruct (default _ _) as [|t]; intros H He.
  - destruct (q_Count _ _ _ _ _) as [[] ] eqn:E; simplify_eq. eauto.
  - destruct (q_Count _ _ _ _ _) as [[] ] eqn:E; simplify_eq/=; [eauto|].
    destruct (is_deadline e); simplify_eq/=. destruct (estimate_func _ _ _ _ _) as [[] ]; by simplify_eq/=.
Qed.

Lemma corrected_count n p total rowsOnPage :
  IsEstimated (CorrectEmptyFirstPage n p rowsOnPage) = false ->
  (IsEstimated n = false -> Count n = total) ->
  (Number p = 1 -> rowsOnPage = 0 -> total = 0) ->
  Count (CorrectEmptyFirstPage n p rowsOnPage) = total.
Proof.
  unfold CorrectEmptyFirstPage. destruct (IsEstimated n) eqn:E; simpl; [|tauto].
  repeat case_bool_decide; simpl; try congruence. intros. symmetry. auto.
Qed.

Lemma max_eff cfg p : SizeWithMax p (MaxPageSize cfg) = PageSizeOf cfg p.
Proof.
  unfold PageSizeOf, maxPageSize, SizeWithMax, DefaultMaxPageSize. repeat case_bool_decide; lia.
Qed.

(** C27: A search that returns has fetched exactly the page it reports.  On a
    database that executes what the text of a statement says, over a table that
    does not change meanwhile, the matching rows are those of the table that
    satisfy the request (its tenant, terms and filters), in the order of its
    sort fields or of the default sort; the destination holds the window of them
    that page size and number denote; and an exact total is the number of
    matching rows, with a next page announced exactly when rows remain. *)
Theorem search_pages custom first cfg req tbl d opts w table vm d' w' :
  let p := rb_Pagination req in
  let size := PageSizeOf cfg p in
  let off := (Number p - 1) * size in
  let ks := order_keys cfg (SortFields req) in
  executes tbl table -> plain_request db cfg custom req -> Forall (fun k => column_name k.1 = true) ks ->
  in_int64 (PageNumber p) -> off <= max_int64 ->
  Z.of_nat (length table) + eff_max (MaxPageSize cfg) <= max_int64 ->
  Search first cfg req tbl d opts w = (Ok vm, d', w') ->
  exists keep rows,
    (forall x, keep x = true <-> request_holds db cfg custom req opts (cols x)) /\
    rows ≡ₚ filter (fun x => keep x = true) table /\
    StronglySorted (fun x y => row_le ord ks (cols x) (cols y)) rows /\
    d' = SlicePtr (take (Z.to_nat size) (drop (Z.to_nat off) rows)) /\
    vm_PageSize vm = size /\ vm_PageNumber vm = Number p /\
    (vm_IsEstimatedCount vm = false ->
       vm_TotalCount vm = Z.of_nat (length rows) /\
       (vm_HasNextPage vm = true <-> off + size < Z.of_nat (length rows))).
Proof.
  intros p size off ks HX Hp Hk Hn Ho Hm H. unfold Search in H.
  destruct (Validate cfg req); [done|]. destruct (Compile cfg req opts) as [q|] eqn:Hq; [|done].
  destruct (run_group first cfg tbl q d w) as [[[n|e] d1] w1] eqn:Eg; simplify_eq.
  apply run_group_ok in Eg as [(g1 & wc & wc' & Ec) (g2 & ws & ws' & Es)].
  pose proof (size_bounds p (MaxPageSize cfg)) as Hsz. pose proof (number_pos p) as Hnum.
  assert (Hsize : SizeWithMax p (MaxPageSize cfg) = size) by apply max_eff. rewrite Hsize in Hsz.
  assert (0 <= size) as Hs0 by lia. assert (0 <= off) as Ho0 by (unfold off; nia).
  destruct (statements_read custom cfg req opts q tbl Hn Ho Hs0 Ho0 Hp Hk Hq)
    as (e & data & count & Ed & Rd & En & Rn & Hkeep). fold p size off ks in Rd.
  unfold run_select in Es. rewrite Ed in Es.
  destruct (exec_select _ _ HX _ _ _ _ _ _ _ _ Rd Es) as (rows & Hrows & Hsort & Hd).
  exists (fun x => st_keeps db {| st_where := e; st_order := ks; st_window := Some (size, off) |} (Args q) (cols x)), rows.
  split; [intros x; apply Hkeep|]. split; [exact Hrows|]. split; [exact Hsort|].
  change (d' = SlicePtr (take (Z.to_nat size) (drop (Z.to_nat off) rows))) in Hd. split; [done|].
  split; [exact Hsize|]. split; [done|]. cbn [vm_IsEstimatedCount vm_TotalCount NewPagedViewModel]. intros He.
  assert (Hlen : Z.of_nat (length rows) <= Z.of_nat (length table)).
  { rewrite Hrows. apply inj_le, length_filter. }
  assert (Hsame : length rows = length (kept {| st_where := e; st_order := []; st_window := None |} (Args q) table))
    by (by rewrite Hrows).
  assert (Htot : Count (CorrectEmptyFirstPage n p (sliceLen d')) = Z.of_nat (length rows)).
  { apply (corrected_count n p _ (sliceLen d')); [done| |].
    - intros Hne. destruct (run_count_exact _ _ _ _ _ _ _ Ec Hne) as (ctx & ? & ? & HC). rewrite En in HC.
      rewrite (exec_count _ _ HX _ _ _ _ _ _ _ Rn HC). by rewrite Hsame.
    - intros H1 H0. subst d'. unfold off in H0. rewrite H1 in H0. simpl in H0. rewrite drop_0 in H0.
      rewrite length_take in H0. lia. }
  fold p. split; [done|]. rewrite Htot.
  assert (Hoff : OffsetWithMax p (MaxPageSize cfg) = off) by (rewrite offset_exact by (by rewrite ?Hsize); by rewrite Hsize).
  rewrite has_next_exact, Hoff, Hsize by (rewrite ?Hsize; done || lia). done.
Qed.

(** A query of [q] failed with [cause], or the planner's answer was unreadable. *)
Definition query_failed (tbl : Table) (q : CompiledQuery) (cause : query_err) : Prop :=
  (exists ctx d w d' w', q_Select s ctx d (buildDataSQL tbl q) (Args q) w = (Some cause, d', w')) \/
  (exists ctx w w', q_Count s ctx (buildCountSQL tbl q) (Args q) w = (Err cause, w')) \/
  (exists ctx w w', q_QueryRow s ctx (buildEstimateSQL tbl q) (Args q) w = (Err cause, w')) \/
  (exists ctx w j w', q_QueryRow s ctx (buildEstimateSQL tbl q) (Args q) w = (Ok j, w') /\
     ParseExplainEstimate j = Err cause).

(** The rows of [q] were counted, or estimated by the planner. *)
Definition counted (tbl : Table) (q : CompiledQuery) (n : CountResult) : Prop :=
  if IsEstimated n then
    exists ctx w j w', q_QueryRow s ctx (buildEstimateSQL tbl q) (Args q) w = (Ok j, w') /\
      ParseExplainEstimate j = Ok (Count n)
  else exists ctx w w', q_Count s ctx (buildCountSQL tbl q) (Args q) w = (Ok (Count n), w').

(** [errors.Is] and [errors.As] find the same in both. *)
Definition same_cause (e cause : query_err) : Prop :=
  is_deadline e = is_deadline cause /\ is_canceled e = is_canceled cause /\ pg_code e = pg_code cause.

Lemma run_count_settles cfg tbl q gone w :
  match fst (run_count cfg tbl q gone w) with
  | Ok n => counted tbl q n
  | Err e => exists cause, query_failed tbl q cause /\ same_cause e cause
  end.
Proof.
  unfold run_count, config_Count, counter_Count, exact_func, query_failed, counted, same_cause.
  destruct (default _ _) as [|t].
  - destruct (q_Count _ _ _ _ _) as [[n|e] ?] eqn:E; cbn [fst IsEstimated Count]; [by eauto|].
    exists e. split; [|done]. right. left. eauto.
  - destruct (q_Count _ _ _ _ _) as [[n|e1] w1] eqn:E; cbn [fst IsEstimated Count]; [by eauto|].
    destruct (is_deadline e1) eqn:Ed; cbn [negb fst]; [|exists e1; split; [right; left; eauto|done]].
    unfold estimate_func. destruct (q_QueryRow _ _ _ _ _) as [[j|e2] w2] eqn:E2.
    2:{ exists e2. split; [|done]. right. right. left. eauto. }
    destruct (ParseExplainEstimate j) as [est|e3] eqn:Ej; cbn [fst IsEstimated Count]; [by eauto 10|].
    exists e3. split; [|done]. do 3 right. eauto 10.
Qed.

Lemma run_group_settles first cfg tbl q d w :
  match run_group first cfg tbl q d w with
  | (Ok n, d', _) => counted tbl q n /\
      exists ctx w1 w2, q_Select s ctx d (buildDataSQL tbl q) (Args q) w1 = (None, d', w2)
  | (Err e, _, _) => exists cause, query_failed tbl q cause /\ same_cause e cause
  end.
Proof.
  assert (Hsel : forall gone w1 e1 d1 w2, run_select tbl q d gone w1 = (Some e1, d1, w2) ->
            exists cause, query_failed tbl q cause /\ same_cause e1 cause)
    by (unfold query_failed, run_select, same_cause; eauto 12).
  unfold run_group. destruct first.
  - pose proof (run_count_settles cfg tbl q false w) as Hc.
    destruct (run_count cfg tbl q false w) as [[n|e1] w1]; simpl in Hc;
      destruct (run_select tbl q d _ w1) as [[[e2|] d1] w2] eqn:Er; eauto.
  - destruct (run_select tbl q d false w) as [[r d1] w1] eqn:Er.
    pose proof (run_count_settles cfg tbl q (bool_decide (is_Some r)) w1) as Hc.
    destruct (run_count cfg tbl q _ w1) as [[n|e2] w2]; simpl in Hc; destruct r as [e1|]; eauto.
Qed.

(** C28: Every outcome of a search.  A request that does not validate, or does not
    compile, is refused with that error before any query: destination and
    database are untouched.  Otherwise the search succeeds only when the data
    were fetched with the data statement and the rows counted (or, after a
    timeout, estimated); and it fails only with an error one of the queries of
    the compiled request failed with, which counts as a timeout exactly when
    that error is an exceeded deadline, a cancellation or SQLSTATE 57014. *)
Theorem search_errors first cfg req tbl d opts w :
  match Validate cfg req, Compile cfg req opts with
  | Some ve, _ | None, Err ve => Search first cfg req tbl d opts w = (Err (ErrCompile ve), d, w)
  | None, Ok q =>
      match Search first cfg req tbl d opts w with
      | (Ok vm, d', _) =>
          (exists n, counted tbl q n /\
             vm_TotalCount vm = Count (CorrectEmptyFirstPage n (rb_Pagination req) (sliceLen d'))) /\
          exists ctx w1 w2, q_Select s ctx d (buildDataSQL tbl q) (Args q) w1 = (None, d', w2)
      | (Err (ErrCompile _), _, _) => False
      | (Err (ErrQuery qe), _, _) =>
          exists cause, query_failed tbl q cause /\
            (IsQueryTimeout (Some qe) = true <->
             is_deadline cause = true \/ is_canceled cause = true \/ pg_code cause = Some "57014")
      end
  end.
Proof.
  unfold Search. destruct (Validate cfg req) as [ve|]; [done|].
  destruct (Compile cfg req opts) as [q|ve]; [|done].
  pose proof (run_group_settles first cfg tbl q d w) as H.
  destruct (run_group first cfg tbl q d w) as [[[n|e] d'] w'].
  - destruct H as [Hc Hs]. split; [by exists n|done].
  - destruct H as (cause & Hf & Hd & Hc & Hp). exists cause. split; [done|].
    unfold IsQueryTimeout. rewrite Hd, Hc, Hp, !orb_true_iff, bool_decide_eq_true. tauto.
Qed.

End searcher.

(** ** A concrete database *)
Module PgxWitness.
Import SearchWitness.

Definition tbl0 : Table := {| Columns := "t.*"; From := "domains t" |}.
(** 45 rows of tenant "acme" and ten of another. *)
Definition table0 : list nat := seq 0 55.
Definition cols0 (x : nat) (col : string) : option string :=
  if bool_decide (col = "t.tenant_id") && (45 <=? x)%nat then Some "other" else SqlWitness.row0 col.

(** A small engine: it takes the FROM clause off the text, reads the rest as a
    statement and runs it on [table0].  It sorts by age only (all ages are the
    same) and refuses other orders; it counts the calls. *)
Definition run0 (head text : string) (args : list any) : option (statement * list nat) :=
  if HasPrefix text head then
    match read_statement (TrimPrefix text head) with
    | Some st => Some (st, filter (fun x => st_keeps SqlWitness.text_db st args (cols0 x) = true) table0)
    | None => None
    end
  else None.
Definition sorts0 (st : statement) : bool :=
  bool_decide (st_order st = [] \/ st_order st = [("t.age", true)]).
Definition querier0 : Querier nat nat :=
  {| q_Select := fun _ d text args w =>
       match run0 "SELECT t.* FROM domains t" text args with
       | Some (st, rows) => if sorts0 st then (None, SlicePtr (st_page st rows), S w)
                            else (Some (plain "cannot sort"), d, S w)
       | None => (Some (plain "syntax error"), d, S w)
       end;
     q_Count := fun _ text args w =>
       match run0 "SELECT COUNT(*) FROM domains t" text args with
       | Some (_, rows) => (Ok (Z.of_nat (length rows)), S w)
       | None => (Err (plain "syntax error"), S w)
       end;
     q_QueryRow := fun _ _ _ w => (Err (plain "no planner"), S w) |}.
Definition no_json (_ : string) : res string (list spec_float) := Err "no JSON".

Example statements :
  buildDataSQL tbl0 q0 =
    "SELECT t.* FROM domains t WHERE t.tenant_id = $1 AND ((t.age ILIKE $2 OR t.name ILIKE $2)) AND t.age IN ($3::bigint, $4::bigint) AND t.name = $5 ORDER BY t.age DESC LIMIT 20 OFFSET 40".
Proof. vm_compute. done. Qed.

Definition vm0 : PagedViewModel :=
  {| vm_PageSize := 20; vm_PageNumber := 3; vm_TotalCount := 45; vm_TotalPages := 3;
     vm_HasNextPage := false; vm_HasPreviousPage := true; vm_IsEstimatedCount := false |}.

(** Texts are compared by equality: the witness's rows tie on their sort key. *)
Definition text_ord (x y : option string) : comparison := if bool_decide (x = y) then Eq else Lt.

Lemma same_age l ks :
  ks = [] \/ ks = [("t.age", true)] ->
  StronglySorted (fun x y => row_le text_ord ks (cols0 x) (cols0 y)) l.
Proof.
  intros Hk. induction l as [|x l IH]; constructor; [done|]. apply Forall_forall. intros y _.
  destruct Hk as [-> | ->]; [done|]. assert (Ha : forall x, cols0 x "t.age" = Some "4") by done.
  cbn [row_le]. by rewrite !Ha.
Qed.

Lemma executes0 : executes querier0 SqlWitness.text_db text_ord cols0 tbl0 table0.
Proof.
  split.
  - intros ctx d tail st args w d' w' Hst. cbn [q_Select querier0 Columns From tbl0]. unfold run0.
    change ("SELECT " +:+ "t.*" +:+ " FROM " +:+ "domains t" +:+ tail) with ("SELECT t.* FROM domains t" +:+ tail).
    rewrite HasPrefix_app, TrimPrefix_app, Hst. destruct (sorts0 st) eqn:Es; [|done]. intros [= <- _].
    eexists. split; [reflexivity|]. split; [|done]. apply same_age. by apply bool_decide_eq_true in Es.
  - intros ctx tail e args w n w' Hst. cbn [q_Count querier0 From tbl0]. unfold run0.
    change ("SELECT COUNT(*) FROM " +:+ "domains t" +:+ tail) with ("SELECT COUNT(*) FROM domains t" +:+ tail).
    rewrite HasPrefix_app, TrimPrefix_app, Hst. by intros [= <- _].
Qed.

(** The third page of twenty of the 45 matching rows. *)
Lemma search_pages_witness :
  exists keep rows,
    (forall x, keep x = true <->
       request_holds SqlWitness.text_db cfg0 SqlWitness.no_custom req0 [WithTenant "acme"] (cols0 x)) /\
    rows ≡ₚ filter (fun x => keep x = true) table0 /\
    SlicePtr (seq 40 5) = SlicePtr (take 20 (drop 40 rows)).
Proof.
  destruct (search_pages no_json querier0 SqlWitness.text_db text_ord cols0 SqlWitness.no_custom true cfg0 req0 tbl0
              NilPtr [WithTenant "acme"] 0%nat table0 vm0 (SlicePtr (seq 40 5)) 2%nat)
    as (keep & rows & Hk & Hr & _ & Hd & _).
  - exact executes0.
  - exact SqlWitness.plain0.
  - assert (order_keys cfg0 (SortFields req0) = [("t.age", true)]) as -> by (vm_compute; reflexivity).
    constructor; [reflexivity|constructor].
  - split; discriminate.
  - discriminate.
  - discriminate.
  - vm_compute. reflexivity.
  - exists keep, rows. split; [exact Hk|]. split; [exact Hr|exact Hd].
Defined.

Definition bad_req : RequestBody :=
  {| SearchTerms := []; Filters := [{| f_Field := "ghost"; f_Operator := "eq"; f_Value := AString "x" |}];
     SortFields := []; rb_Pagination := {| PageSize := 0; PageNumber := 0 |} |}.

(** Refused without a call. *)
Example search_refused :
  Search no_json querier0 true cfg0 bad_req tbl0 NilPtr [] 0%nat =
  (Err (ErrCompile (InvalidFieldError "ghost" "domains")), NilPtr, 0%nat).
Proof. vm_compute. reflexivity. Qed.

End PgxWitness.
