(* ===== verification/OAuthProvider.v ===== *)
(** * The OAuth provider: [authn/oauthprovider/provider.go]

    Authorization codes with PKCE, client credentials and the device flow.
    Device records are shared by two indexes, so they live in a heap.  Random
    bytes, the clock (Unix nanoseconds) and the signing function are arguments
    of the operations; the clock does not advance within one operation. *)
From S2P Require Import Prelude GoStrings GoCrypto Principal Extractor Claims.

Local Open Scope string_scope.
Local Open Scope Z_scope.
Local Open Scope list_scope.

(** ** Data *)
Inductive oauth_err : Type :=
| ErrInvalidClient | ErrInvalidGrant | ErrPKCEVerificationFail | ErrDeviceAuthPending
| ErrDeviceAuthExpired | ErrOAuth (msg : string).

Record authCodeRecord : Type := {
  ac_Code : string; ac_ClientID : string; ac_UserID : string; ac_CodeChallenge : string;
  ac_CodeChallengeMethod : string; ac_Scopes : list string; ac_ExpiresAt : Z
}.

Record deviceCodeRecord : Type := {
  dc_DeviceCode : string; dc_UserCode : string; dc_ClientID : string; dc_Scopes : list string;
  dc_UserID : string; dc_Approved : bool; dc_ExpiresAt : Z
}.

Record DeviceAuthResponse : Type := {
  DeviceCode : string; UserCode : string; VerificationURI : string;
  VerificationURIComplete : string; ExpiresIn : Z; Interval : Z
}.

(** The provider less its key; [deviceCodes] and [userCodes] hold pointers
    into [heap]. *)
Record provider : Type := {
  issuer : string;
  audience : string;
  authCodes : gmap string authCodeRecord;
  heap : gmap nat deviceCodeRecord;
  deviceCodes : gmap string nat;
  userCodes : gmap string nat;
  clientSecret : gmap string string
}.

Definition new_state (iss aud : string) : provider :=
  {| issuer := iss; audience := aud; authCodes := ∅; heap := ∅; deviceCodes := ∅; userCodes := ∅;
     clientSecret := {["service-worker-client" := "secret-worker-password-123"]} |}.

(** Functional updates of the maps. *)
Definition with_authCodes m (p : provider) : provider :=
  {| issuer := issuer p; audience := audience p; authCodes := m; heap := heap p;
     deviceCodes := deviceCodes p; userCodes := userCodes p; clientSecret := clientSecret p |}.
Definition with_devices h d u (p : provider) : provider :=
  {| issuer := issuer p; audience := audience p; authCodes := authCodes p; heap := h;
     deviceCodes := d; userCodes := u; clientSecret := clientSecret p |}.

Definition second : Z := 1000000000.
Definition minute : Z := 60 * second.
Definition unix (now : Z) : Z := now / second.

(** ** Operations *)
Section ops.
(** [signToken]: RS256 over the claims with the provider's key. *)
Variable signToken : MapClaims -> res string string.

Definition sign (claims : MapClaims) : res oauth_err string :=
  match signToken claims with Ok t => Ok t | Err e => Err (ErrOAuth e) end.

Definition RegisterClient (clientID secret : string) (p : provider) : provider :=
  {| issuer := issuer p; audience := audience p; authCodes := authCodes p; heap := heap p;
     deviceCodes := deviceCodes p; userCodes := userCodes p;
     clientSecret := <[clientID := secret]> (clientSecret p) |}.

(** [KeyFunc]: the public key, for tokens whose method is RSA; [alg] is the
    header the error prints. *)
Definition KeyFunc {K} (publicKey : K) (rsa : bool) (alg : string) : res string K :=
  if rsa then Ok publicKey else Err ("unexpected signing method: " +:+ alg).

(** S256: the challenge of a verifier. *)
Definition s256 (verifier : string) : string :=
  b64_RawURLEncode (SHA256.sum (bytes_of verifier)).

(** [GeneratePKCEVerifierAndChallenge] on the bytes read. *)
Definition GeneratePKCEVerifierAndChallenge (random : res string (list Z)) : res string (string * string) :=
  let? buf := random in
  let verifier := b64_RawURLEncode buf in Ok (verifier, s256 verifier).

Definition AuthorizePKCE (clientID userID challenge method : string) (scopes : list string)
  (random : res string (list Z)) (now : Z) (p : provider) : res oauth_err string * provider :=
  if bool_decide (method <> "S256")
  then (Err (ErrOAuth "only S256 code_challenge_method is supported"), p)
  else match random with
       | Err e => (Err (ErrOAuth e), p)
       | Ok codeBytes =>
           let code := hex_EncodeToString codeBytes in
           let rec := {| ac_Code := code; ac_ClientID := clientID; ac_UserID := userID;
                         ac_CodeChallenge := challenge; ac_CodeChallengeMethod := method;
                         ac_Scopes := scopes; ac_ExpiresAt := now + 5 * minute |} in
           (Ok code, with_authCodes (<[code := rec]> (authCodes p)) p)
       end.

Definition code_claims (p : provider) (rec : authCodeRecord) (now : Z) : MapClaims :=
  list_to_map
    [("iss", AString (issuer p)); ("sub", AString (ac_UserID rec)); ("aud", AString (audience p));
     ("exp", AInt64 (unix (now + 60 * minute))); ("iat", AInt64 (unix now));
     ("gty", AString "authorization_code"); ("amr", AStrings ["pkce"; "pwd"]);
     ("scope", AString (Join (ac_Scopes rec) " ")); ("client_id", AString (ac_ClientID rec))].

(** The code is consumed before any check. *)
Definition ExchangeAuthCode (clientID code codeVerifier : string) (now : Z) (p : provider)
  : res oauth_err string * provider :=
  match authCodes p !! code with
  | None => (Err ErrInvalidGrant, p)
  | Some rec =>
      let p' := with_authCodes (delete code (authCodes p)) p in
      if bool_decide (ac_ExpiresAt rec < now) then (Err ErrInvalidGrant, p')
      else if bool_decide (ac_ClientID rec <> clientID) then (Err ErrInvalidGrant, p')
      else if bool_decide (s256 codeVerifier <> ac_CodeChallenge rec)
      then (Err ErrPKCEVerificationFail, p')
      else (sign (code_claims p rec now), p')
  end.

Definition client_claims (p : provider) (clientID : string) (scopes : list string) (now : Z)
  : MapClaims :=
  list_to_map
    [("iss", AString (issuer p)); ("sub", AString clientID); ("aud", AString (audience p));
     ("exp", AInt64 (unix (now + 120 * minute))); ("iat", AInt64 (unix now));
     ("gty", AString "client_credentials"); ("client_id", AString clientID);
     ("scope", AString (Join scopes " "))].

Definition IssueClientCredentialsToken (clientID secret : string) (scopes : list string) (now : Z)
  (p : provider) : res oauth_err string :=
  match clientSecret p !! clientID with
  | Some s => if bool_decide (s <> secret) then Err ErrInvalidClient
              else sign (client_claims p clientID scopes now)
  | None => Err ErrInvalidClient
  end.

Definition user_code (uBytes : list Z) : string :=
  let uHex := ToUpper (hex_EncodeToString uBytes) in
  String.substring 0 4 uHex +:+ "-" +:+ str_drop 4 uHex.

Definition RequestDeviceCode (clientID : string) (scopes : list string)
  (random1 random2 : res string (list Z)) (now : Z) (p : provider)
  : res oauth_err DeviceAuthResponse * provider :=
  match random1, random2 with
  | Err e, _ | Ok _, Err e => (Err (ErrOAuth e), p)
  | Ok dBytes, Ok uBytes =>
      let deviceCode := hex_EncodeToString dBytes in
      let userCode := user_code uBytes in
      let rec := {| dc_DeviceCode := deviceCode; dc_UserCode := userCode; dc_ClientID := clientID;
                    dc_Scopes := scopes; dc_UserID := ""; dc_Approved := false;
                    dc_ExpiresAt := now + 10 * minute |} in
      let ptr := fresh (dom (heap p)) in
      (Ok {| DeviceCode := deviceCode; UserCode := userCode;
             VerificationURI := "https://example.com/activate";
             VerificationURIComplete := "https://example.com/activate?user_code=" +:+ userCode;
             ExpiresIn := 600; Interval := 5 |},
       with_devices (<[ptr := rec]> (heap p)) (<[deviceCode := ptr]> (deviceCodes p))
         (<[userCode := ptr]> (userCodes p)) p)
  end.

Definition approve (userID : string) (r : deviceCodeRecord) : deviceCodeRecord :=
  {| dc_DeviceCode := dc_DeviceCode r; dc_UserCode := dc_UserCode r; dc_ClientID := dc_ClientID r;
     dc_Scopes := dc_Scopes r; dc_UserID := userID; dc_Approved := true;
     dc_ExpiresAt := dc_ExpiresAt r |}.

Definition ApproveDeviceCode (userCode userID : string) (now : Z) (p : provider)
  : option oauth_err * provider :=
  match userCodes p !! userCode with
  | None => (Some (ErrOAuth "user code not found"), p)
  | Some ptr =>
      match heap p !! ptr with
      | None => (Some (ErrOAuth "user code not found"), p)
      | Some rec =>
          if bool_decide (dc_ExpiresAt rec < now) then (Some ErrDeviceAuthExpired, p)
          else (None, with_devices (<[ptr := approve userID rec]> (heap p)) (deviceCodes p)
                        (userCodes p) p)
      end
  end.

Definition device_claims (p : provider) (rec : deviceCodeRecord) (deviceCode : string) (now : Z)
  : MapClaims :=
  list_to_map
    [("iss", AString (issuer p)); ("sub", AString (dc_UserID rec)); ("aud", AString (audience p));
     ("exp", AInt64 (unix (now + 60 * minute))); ("iat", AInt64 (unix now));
     ("gty", AString "urn:ietf:params:oauth:grant-type:device_code");
     ("client_id", AString (dc_ClientID rec)); ("device_code", AString deviceCode);
     ("scope", AString (Join (dc_Scopes rec) " "))].

Definition PollDeviceToken (clientID deviceCode : string) (now : Z) (p : provider)
  : res oauth_err string * provider :=
  match deviceCodes p !! deviceCode ≫= fun ptr => heap p !! ptr with
  | None => (Err ErrInvalidGrant, p)
  | Some rec =>
      if bool_decide (dc_ExpiresAt rec < now) then (Err ErrDeviceAuthExpired, p)
      else if bool_decide (dc_ClientID rec <> clientID) then (Err ErrInvalidGrant, p)
      else if negb (dc_Approved rec) then (Err ErrDeviceAuthPending, p)
      else (sign (device_claims p rec deviceCode now),
            with_devices (heap p) (delete (dc_DeviceCode rec) (deviceCodes p))
              (delete (dc_UserCode rec) (userCodes p)) p)
  end.

(** ** Runs *)
Inductive op : Type :=
| OAuthorize (clientID userID challenge method : string) (scopes : list string)
    (random : res string (list Z)) (now : Z)
| OExchange (clientID code verifier : string) (now : Z)
| ORegister (clientID secret : string)
| ORequest (clientID : string) (scopes : list string) (r1 r2 : res string (list Z)) (now : Z)
| OApprove (userCode userID : string) (now : Z)
| OPoll (clientID deviceCode : string) (now : Z).

Definition run_op (p : provider) (o : op) : provider :=
  match o with
  | OAuthorize cl u ch m sc r now => snd (AuthorizePKCE cl u ch m sc r now p)
  | OExchange cl code v now => snd (ExchangeAuthCode cl code v now p)
  | ORegister cl s => RegisterClient cl s p
  | ORequest cl sc r1 r2 now => snd (RequestDeviceCode cl sc r1 r2 now p)
  | OApprove uc u now => snd (ApproveDeviceCode uc u now p)
  | OPoll cl dc now => snd (PollDeviceToken cl dc now p)
  end.
Definition run (p : provider) (ops : list op) : provider := fold_left run_op ops p.

(** The operation issues that authorization code, that device code. *)
Definition issues_code (code : string) (o : op) : Prop :=
  match o with OAuthorize _ _ _ _ _ (Ok b) _ => hex_EncodeToString b = code | _ => False end.

Lemma authCodes_op code o p :
  ~ issues_code code o -> authCodes p !! code = None -> authCodes (run_op p o) !! code = None.
Proof.
  intros Hi H. destruct o; simpl; try done.
  - unfold AuthorizePKCE. destruct (bool_decide _); [done|]. destruct random; [|done]. simpl in *.
    by rewrite lookup_insert_ne.
  - unfold ExchangeAuthCode. destruct (authCodes p !! code0); [|done].
    assert (delete code0 (authCodes p) !! code = None) by (rewrite lookup_delete; by case_decide).
    by repeat case_bool_decide.
  - unfold RequestDeviceCode. by destruct r1, r2.
  - unfold ApproveDeviceCode. by repeat case_match.
  - unfold PollDeviceToken. by repeat case_match.
Qed.

Lemma authCodes_run code ops p :
  Forall (fun o => ~ issues_code code o) ops -> authCodes p !! code = None ->
  authCodes (run p ops) !! code = None.
Proof.
  intros F. revert p. induction F as [|o ops Ho F IH]; intros p H; [done|].
  apply IH. by apply authCodes_op.
Qed.

(** C33: An authorization code is single use: after one exchange of it, whether
    it succeeded or failed, every later exchange of that code is refused as an
    invalid grant, whatever else the provider does, unless the same code is
    issued again. *)
Theorem auth_code_single_use p code cl v now ops cl' v' now' :
  Forall (fun o => ~ issues_code code o) ops ->
  fst (ExchangeAuthCode cl' code v' now' (run (snd (ExchangeAuthCode cl code v now p)) ops))
    = Err ErrInvalidGrant.
Proof.
  intros F. assert (H : authCodes (run (snd (ExchangeAuthCode cl code v now p)) ops) !! code = None).
  { apply authCodes_run; [done|]. unfold ExchangeAuthCode.
    destruct (authCodes p !! code) as [rec|] eqn:E; [|done].
    repeat case_bool_decide; simpl; apply lookup_delete_eq. }
  revert H. generalize (run (snd (ExchangeAuthCode cl code v now p)) ops). intros q H.
  unfold ExchangeAuthCode. by rewrite H.
Qed.

(** A code is exchanged only by its own client, in time and with the PKCE
    verifier of its challenge, and then the token carries the claims of the
    user that authorized it. *)
Theorem exchange_requires_pkce cl u ch scopes rb now p cl' v now' :
  let code := hex_EncodeToString rb in
  let rec := {| ac_Code := code; ac_ClientID := cl; ac_UserID := u; ac_CodeChallenge := ch;
                ac_CodeChallengeMethod := "S256"; ac_Scopes := scopes;
                ac_ExpiresAt := now + 5 * minute |} in
  let p' := snd (AuthorizePKCE cl u ch "S256" scopes (Ok rb) now p) in
  fst (ExchangeAuthCode cl' code v now' p') =
    if bool_decide (now' <= now + 5 * minute /\ cl' = cl) then
      if bool_decide (s256 v = ch) then sign (code_claims p' rec now')
      else Err ErrPKCEVerificationFail
    else Err ErrInvalidGrant.
Proof.
  intros code rec p'. unfold p', AuthorizePKCE, ExchangeAuthCode. rewrite bool_decide_false by tauto.
  cbn [snd authCodes with_authCodes]. fold code. rewrite lookup_insert_eq.
  cbn [ac_ExpiresAt ac_ClientID ac_CodeChallenge]. generalize (now + 5 * minute). intros t.
  destruct (decide (t < now')) as [Ht|Ht].
  { rewrite (bool_decide_true (t < now')) by done. rewrite bool_decide_false by lia. done. }
  rewrite (bool_decide_false (t < now')) by done. destruct (decide (cl = cl')) as [<-|Hc].
  - rewrite (bool_decide_false (cl <> cl)) by tauto.
    rewrite (bool_decide_true (now' <= t /\ cl = cl)) by (split; [lia|done]).
    destruct (decide (s256 v = ch)) as [Hv|Hv].
    + rewrite (bool_decide_false (_ <> _)), (bool_decide_true (_ = _)) by (done || tauto). done.
    + rewrite (bool_decide_true (_ <> _)), (bool_decide_false (_ = _)) by done. done.
  - rewrite (bool_decide_true (cl <> cl')) by done. rewrite bool_decide_false by naive_solver. done.
Qed.

(** The record an authorization leaves. *)
Definition issued (cl u ch : string) (scopes : list string) (rb : list Z) (t0 : Z) : authCodeRecord :=
  {| ac_Code := hex_EncodeToString rb; ac_ClientID := cl; ac_UserID := u; ac_CodeChallenge := ch;
     ac_CodeChallengeMethod := "S256"; ac_Scopes := scopes; ac_ExpiresAt := t0 + 5 * minute |}.
Definition spends_code (code : string) (o : op) : Prop :=
  match o with OExchange _ c _ _ => c = code | _ => False end.

(** A record under a code was left by this operation, or before it and the
    operation did not spend the code. *)
Lemma authCodes_step p o code rec :
  authCodes (run_op p o) !! code = Some rec ->
  (exists cl u ch scopes rb t0, o = OAuthorize cl u ch "S256" scopes (Ok rb) t0 /\
     hex_EncodeToString rb = code /\ rec = issued cl u ch scopes rb t0) \/
  (authCodes p !! code = Some rec /\ ~ spends_code code o).
Proof.
  destruct o; cbn [run_op spends_code]; try (intros H; right; split; [exact H|tauto]).
  - unfold AuthorizePKCE. case_bool_decide as Hm; [by right; split; [|tauto]|].
    subst method. destruct random as [rb|e]; [|by right; split; [|tauto]].
    cbn [snd with_authCodes authCodes]. rewrite lookup_insert. case_decide as Hc; [|by right; split; [|tauto]].
    intros [= <-]. left. by exists clientID, userID, challenge, scopes, rb, now.
  - unfold ExchangeAuthCode. destruct (authCodes p !! code0) as [rec0|] eqn:E.
    + intros H. assert (Hd : delete code0 (authCodes p) !! code = Some rec)
        by (revert H; repeat case_bool_decide; done).
      apply lookup_delete_Some in Hd as [Hne Hd]. by right.
    + intros H. right. split; [exact H|]. intros ->. cbn [snd] in H. congruence.
  - unfold RequestDeviceCode. intros H. right. split; [|tauto]. by destruct r1, r2.
  - unfold ApproveDeviceCode. intros H. right. split; [|tauto]. revert H. by repeat case_match.
  - unfold PollDeviceToken. intros H. right. split; [|tauto]. revert H. by repeat case_match.
Qed.

Lemma authCodes_origin iss aud ops code rec :
  authCodes (run (new_state iss aud) ops) !! code = Some rec ->
  exists ops1 cl u ch scopes rb t0 ops2,
    ops = ops1 ++ OAuthorize cl u ch "S256" scopes (Ok rb) t0 :: ops2 /\
    hex_EncodeToString rb = code /\ rec = issued cl u ch scopes rb t0 /\
    Forall (fun o => ~ spends_code code o) ops2.
Proof.
  induction ops as [|o ops IH] using rev_ind; [done|]. unfold run. rewrite fold_left_app. cbn [fold_left].
  intros [(cl & u & ch & sc & rb & t0 & -> & Hh & ->)|[H Hn]]%authCodes_step.
  - exists ops, cl, u, ch, sc, rb, t0, []. by split_and!.
  - destruct (IH H) as (ops1 & cl & u & ch & sc & rb & t0 & ops2 & -> & Hh & Hr & F).
    exists ops1, cl, u, ch, sc, rb, t0, (ops2 ++ [o]). split_and!; [by rewrite <- app_assoc|done|done|].
    apply Forall_app. split; [done|]. by apply Forall_singleton.
Qed.

(** C34: Every token of the authorization code flow goes back to a user: in any
    run of the provider, a code is exchanged for a token only if a user
    authorized that client earlier in the run with the challenge of the
    presented verifier, not more than five minutes before, and nobody presented
    the code in between; the token carries that user, client and scopes. *)
Theorem code_token_authorized iss aud ops cl code v now t p' :
  let p := run (new_state iss aud) ops in
  ExchangeAuthCode cl code v now p = (Ok t, p') ->
  exists ops1 u scopes rb t0 ops2,
    ops = ops1 ++ OAuthorize cl u (s256 v) "S256" scopes (Ok rb) t0 :: ops2 /\
    hex_EncodeToString rb = code /\ now <= t0 + 5 * minute /\
    Forall (fun o => ~ spends_code code o) ops2 /\
    signToken (code_claims p (issued cl u (s256 v) scopes rb t0) now) = Ok t.
Proof.
  intros p. unfold ExchangeAuthCode. destruct (authCodes p !! code) as [rec|] eqn:E; [|done].
  apply authCodes_origin in E as (ops1 & cl0 & u & ch & sc & rb & t0 & ops2 & -> & Hh & -> & F).
  cbn [issued ac_ExpiresAt ac_ClientID ac_CodeChallenge].
  case_bool_decide as Ht; [done|]. case_bool_decide as Hc; [done|]. case_bool_decide as Hv; [done|].
  subst cl0 ch. unfold sign. intros H.
  exists ops1, u, sc, rb, t0, ops2. split_and!; [done|done|lia|done|].
  destruct (signToken _) eqn:Es in H; [|done]. injection H as -> _. exact Es.
Qed.

(** *** The device flow *)












End ops.

(** ** The provider with its key *)
Section keys.
Context {PrivateKey PublicKey_ : Type}.
(** [key.PublicKey], and RS256 signing of claims with a private key. *)
Variable public_of : PrivateKey -> PublicKey_.
Variable SignedString : PrivateKey -> MapClaims -> res string string.

Record MockOAuthProvider : Type := {
  privateKey : PrivateKey; publicKey : PublicKey_; mp_state : provider
}.

(** [generated] is what [rsa.GenerateKey] returned. *)
Definition NewMockOAuthProvider (generated : res string PrivateKey) (iss aud : string)
  : res string MockOAuthProvider :=
  match generated with
  | Err err => Err ("oauth: failed to generate RSA key: " +:+ err)
  | Ok key => Ok {| privateKey := key; publicKey := public_of key; mp_state := new_state iss aud |}
  end.

Definition signToken (m : MockOAuthProvider) (claims : MapClaims) : res string string :=
  SignedString (privateKey m) claims.

Definition PublicKey (m : MockOAuthProvider) : PublicKey_ := publicKey m.

(** An operation leaves the key as it is. *)
Definition step_provider (m : MockOAuthProvider) (o : op) : MockOAuthProvider :=
  {| privateKey := privateKey m; publicKey := publicKey m;
     mp_state := run_op (signToken m) (mp_state m) o |}.

(** The key pair of a provider is the generated one for its whole life, so the
    key [KeyFunc] hands out always belongs to the key tokens are signed with. *)
Lemma key_pair_kept generated iss aud m ops :
  NewMockOAuthProvider generated iss aud = Ok m ->
  let m' := fold_left step_provider ops m in
  generated = Ok (privateKey m') /\ PublicKey m' = public_of (privateKey m').
Proof.
  unfold NewMockOAuthProvider. intros E.
  assert (H0 : generated = Ok (privateKey m) /\ publicKey m = public_of (privateKey m))
    by (destruct generated; simplify_eq; done).
  clear E. revert m H0. unfold PublicKey. induction ops as [|o ops IH]; intros m H0; [done|].
  by apply (IH (step_provider m o)).
Qed.

End keys.

(** ** Tokens and principals *)
Section principals.
Context {K : Type} {jwt : JwtLib K}.

(** Claims as the validator sees them after the token's JSON: string claims keep
    their value, other values may change their type. *)
Definition decodes (minted claims : MapClaims) : Prop :=
  forall k s, minted !! k = Some (AString s) -> claims !! k = Some (AString s).

(** Claims that name subject, client, grant and scopes as the provider does. *)
Lemma minted_normalizes claims raw scopes sub cid gty m :
  Forall (fun w => no_char " " w = true /\ trimmed w /\ w <> "") scopes -> scopes <> [] ->
  claims !! "sub" = Some (AString sub) -> sub <> "" ->
  claims !! "client_id" = Some (AString cid) -> cid <> "" ->
  claims !! "gty" = Some (AString gty) -> gty <> "" -> grant_flow gty = Some m ->
  claims !! "scope" = Some (AString (Join scopes " ")) ->
  exists q, Standard_Normalize claims raw = Ok q /\ Subject q = sub /\ ClientID q = cid /\
    Method q = m /\ Scopes q = scopes.
Proof.
  intros Hs Hne E1 H1 E2 H2 E3 H3 Hg E4. unfold Standard_Normalize.
  assert (Hsub : claim_str claims "sub" = sub) by (unfold claim_str; by rewrite E1).
  rewrite bool_decide_false by (by rewrite Hsub). eexists. split; [done|]. cbn. split; [done|].
  assert (Hc : extractClientID claims = cid)
    by (unfold extractClientID, claim_str; rewrite E2; cbn; by rewrite bool_decide_true).
  split; [done|]. split.
  - unfold determineOAuthFlow, grant_type, claim_str. rewrite E3. cbn.
    rewrite bool_decide_true by done. by rewrite Hg.
  - unfold extractScopes. rewrite E4, scope_words_Join by done. by destruct scopes.
Qed.

(** C36: What the provider signs normalises to the right principal: a code
    token to the user with the PKCE flow, a device token to the user with the
    device flow, a client token to the client with client credentials, each
    with its client ID and exactly its scopes. *)
Theorem minted_claims_normalize p raw scopes now :
  Forall (fun w => no_char " " w = true /\ trimmed w /\ w <> "") scopes -> scopes <> [] ->
  (forall rec claims, decodes (code_claims p rec now) claims ->
     ac_Scopes rec = scopes -> ac_UserID rec <> "" -> ac_ClientID rec <> "" ->
     exists q, Standard_Normalize claims raw = Ok q /\
       Subject q = ac_UserID rec /\ ClientID q = ac_ClientID rec /\
       Method q = AuthMethodAuthCodePKCE /\ Scopes q = scopes) /\
  (forall rec d claims, decodes (device_claims p rec d now) claims ->
     dc_Scopes rec = scopes -> dc_UserID rec <> "" -> dc_ClientID rec <> "" ->
     exists q, Standard_Normalize claims raw = Ok q /\
       Subject q = dc_UserID rec /\ ClientID q = dc_ClientID rec /\
       Method q = AuthMethodDeviceFlow /\ Scopes q = scopes) /\
  (forall cid claims, decodes (client_claims p cid scopes now) claims -> cid <> "" ->
     exists q, Standard_Normalize claims raw = Ok q /\
       Subject q = cid /\ ClientID q = cid /\
       Method q = AuthMethodClientCredentials /\ Scopes q = scopes).
Proof.
  intros Hs Hne. split_and!.
  - intros rec claims D <- Hu Hc. by eapply minted_normalizes; try apply D.
  - intros rec d claims D <- Hu Hc. by eapply minted_normalizes; try apply D.
  - intros cid claims D Hc. by eapply minted_normalizes; try apply D.
Qed.

End principals.

(** ** Concrete runs *)
Module OAuthWitness.
Import ClaimsWitness.

Definition signer (c : MapClaims) : res string string := Ok ("token-for-" +:+ claim_str c "sub").
Definition dbytes : list Z := repeat 10 20.
Definition ubytes : list Z := [1; 2; 3; 4].
Definition dev_ops : list op :=
  [ORequest "tv" ["read"] (Ok dbytes) (Ok ubytes) 0; OApprove "0102-0304" "u1" 5].
Definition dev_provider : provider := run signer (new_state "iss" "aud") dev_ops.

Lemma auth_code_single_use_witness :
  fst (ExchangeAuthCode signer "c" "00ff" "v" 9
         (run signer (snd (ExchangeAuthCode signer "c" "00ff" "w" 1
            (snd (AuthorizePKCE "c" "u1" (s256 "v") "S256" ["read"] (Ok [0; 255]) 0
                    (new_state "iss" "aud"))))) [ORegister "x" "y"]))
    = Err ErrInvalidGrant.
Proof. apply auth_code_single_use. constructor; [simpl; tauto|constructor]. Defined.

Definition code_ops : list op :=
  [OAuthorize "c" "u1" (s256 "v") "S256" ["read"] (Ok [0; 255]) 0; ORegister "x" "y"].

Lemma code_token_authorized_witness :
  exists ops1 u scopes rb t0 ops2,
    code_ops = ops1 ++ OAuthorize "c" u (s256 "v") "S256" scopes (Ok rb) t0 :: ops2 /\
    hex_EncodeToString rb = "00ff" /\ 5 <= t0 + 5 * minute /\
    Forall (fun o => ~ spends_code "00ff" o) ops2 /\
    signer (code_claims (run signer (new_state "iss" "aud") code_ops)
              (issued "c" u (s256 "v") scopes rb t0) 5) = Ok "token-for-u1".
Proof.
  apply (code_token_authorized signer "iss" "aud" code_ops "c" "00ff" "v" 5 "token-for-u1"
           (snd (ExchangeAuthCode signer "c" "00ff" "v" 5 (run signer (new_state "iss" "aud") code_ops)))).
  vm_compute. reflexivity.
Defined.


#[local] Instance lib1 : JwtLib unit := lib0.

Definition minted_rec : authCodeRecord :=
  {| ac_Code := "x"; ac_ClientID := "c"; ac_UserID := "u1"; ac_CodeChallenge := "";
     ac_CodeChallengeMethod := "S256"; ac_Scopes := ["read"]; ac_ExpiresAt := 0 |}.

Lemma minted_claims_normalize_witness :
  exists q, Standard_Normalize (code_claims dev_provider minted_rec 0) "raw" = Ok q /\
    Subject q = "u1" /\ ClientID q = "c" /\ Method q = AuthMethodAuthCodePKCE /\ Scopes q = ["read"].
Proof.
  destruct (minted_claims_normalize dev_provider "raw" ["read"] 0) as [H _].
  - apply Forall_cons_2; [|apply Forall_nil_2]. split; [reflexivity|]. split; [|discriminate].
    split; vm_compute; reflexivity.
  - discriminate.
  - apply (H minted_rec); [intros k s E; exact E|reflexivity|discriminate|discriminate].
Defined.

End OAuthWitness.
