(* ===== verification/Pipeline.v ===== *)
(** * From a grant to a guarded endpoint

    The provider of [authn/oauthprovider] mints tokens, the JWT validator reads
    them, the authentication middleware attaches the principal, the pipeline
    middleware of [authz] stores the engine and [Authorize] guards the
    endpoint.  The theorems here are about that composition.  gin runs the next
    handler of a chain exactly when the previous one passed, on the context
    with its writes. *)
From S2P Require Import Prelude GoStrings GoCrypto Parc Principal Policy CacheIface RefWorld Engine Gin Extractor Claims AuthnMiddleware AuthzMiddleware OAuthProvider.

Local Open Scope string_scope.
Local Open Scope Z_scope.
Local Open Scope list_scope.

(** A [JWTValidator] as a [BearerTokenValidator]. *)
Definition jwt_bearer {K} `{!JwtLib K} (v : JWTValidator K) : validator := fun tok =>
  match JWT_ValidateToken v tok with Ok p => Ok (Some p) | Err e => Err e end.

(** ** What the validator relies on of golang-jwt *)
Section trust.
Context {K : Type} {jwt : JwtLib K}.

(** A parser option accepts the claims of an RS256 token. *)
Definition opt_accepts (claims : MapClaims) (o : ParserOption) : Prop :=
  match o with
  | WithLeeway _ => True
  | WithValidMethods algs => "RS256" ∈ algs
  | WithIssuer iss => claims !! "iss" = Some (AString iss)
  | WithAudience aud =>
      match claims !! "aud" with
      | Some (AString a) => a = aud
      | Some (AStrings l) => aud ∈ l
      | Some (ASlice l) => AString aud ∈ l
      | _ => False
      end
  end.

(** The key [k] verifies the tokens [signToken] makes, and the parser returns
    their claims when they are [current] (issued, not expired) and every option
    accepts them. *)
Class JwtTrust (signToken : MapClaims -> res string string) (k : K) (current : MapClaims -> Prop) := {
  trust_complete : forall claims t opts,
    signToken claims = Ok t -> current claims -> Forall (opt_accepts claims) opts ->
    exists claims', ParseWithClaims t k opts = Ok (claims', true) /\ decodes claims claims'
}.

End trust.

Section pipeline.
Context {W : Type} {codec : PermCodec} {K : Type} {jwt : JwtLib K}.
Abbreviation req := (request (option (PolicyEngine W))).
Abbreviation calls := (list (call (option (PolicyEngine W)))).

(** The request reaches the handler behind the two middlewares and the guard. *)
Definition reaches (h1 : req -> calls) (h2 : req -> W -> calls * W) (name : string) (c : req) (w : W)
  : Prop :=
  passes (h1 c) /\
  let c1 := with_keys (apply_sets (h1 c) (rq_keys c)) c in
  passes (fst (h2 c1 w)) /\
  let c2 := with_keys (apply_sets (fst (h2 c1 w)) (rq_keys c1)) c1 in
  exists tr w', Authorize name [] c2 (snd (h2 c1 w)) = (Ok tr, w') /\ passes tr.

Variables (v : JWTValidator K) (service : PolicyEngine W) (hs : list (Handler W)).
(** The engine has the standard handlers, as [NewAuthorizationService] registers
    them, and no fallback policy. *)
Hypothesis standard : handlers service = register_parc hs standard_handlers.
Hypothesis no_fallback : fallbackPolicy service = None.

(** The authentication middleware of a builder with the validator. *)
Lemma bearer_middleware (c : req) t :
  Extract DefaultExtractorConfig c = Ok {| cred_Type := CredentialTypeBearer; cred_Token := t |} ->
  exists h,
    AuthnMiddleware.BuildMiddleware (WithBearerValidator (Some (jwt_bearer v)) AuthnMiddleware.NewBuilder)
      = Ok h /\
    match JWT_ValidateToken v t with
    | Ok q => h c = [Set_ DefaultContextKeyPrincipal (VPrincipal (Some q)); Next]
    | Err _ => rejects StatusUnauthorized (h c)
    end.
Proof.
  intros He.
  assert (Ha : forall a, extractor a = DefaultExtractorConfig -> bearerValidator a = Some (jwt_bearer v) ->
            Authenticate a c = jwt_bearer v t).
  { intros a E1 E2. unfold Authenticate. rewrite E1, He. simpl. by rewrite E2. }
  eexists. split; [done|]. unfold authn_handler. rewrite Ha by done. unfold jwt_bearer.
  destruct (JWT_ValidateToken v t) as [q|e]; [done|]. by apply handleAuthError_rejects.
Qed.

(** Deciding such a policy changes nothing. *)
Lemma authorize_pure_world (c : req) w name policy tr w' :
  policies service !! name = Some policy -> forallb pure_req (Requirements policy) = true ->
  authorize_engine [] c = Some service -> Authorize name [] c w = (Ok tr, w') -> w' = w.
Proof.
  intros Hpol Hpure He. unfold authorize_engine in He. simpl in He. unfold Authorize. simpl. rewrite He.
  destruct (User c) as [q|]; [|by intros [= _ <-]]. unfold Engine_Authorize, EvaluatePolicy. rewrite Hpol.
  destruct (Engine_Evaluate _ _ _ _ _) as [[d err] w1] eqn:E.
  apply (standard_pure_world service hs) in E as [-> ->]; [|done|done]. simpl.
  destruct (Allowed d); by intros [= _ <-].
Qed.

(** The guard behind both middlewares, for a policy decided by the principal. *)
Lemma guard_decides (c : req) w q name policy :
  policies service !! name = Some policy -> forallb pure_req (Requirements policy) = true ->
  User c = Some q ->
  exists h2, AuthzMiddleware.New (Some service) [] = Ok h2 /\ passes (fst (h2 c w)) /\ snd (h2 c w) = w /\
    let c2 := with_keys (apply_sets (fst (h2 c w)) (rq_keys c)) c in
    exists tr w', Authorize name [] c2 w = (Ok tr, w') /\
      (passes tr <-> forallb (req_holds q (make_eval c (request_action c) zero_Resource)) (Requirements policy) = true).
Proof.
  intros Hpol Hpure Hq. eexists. split; [done|]. unfold authz_handler.
  cbn [fold_left mc_fallbackPolicy]. unfold Engine_FallbackPolicy; rewrite no_fallback. split_and!; [done|done|].
  destruct (authorize_enforces_engine service name []
    (with_keys (apply_sets [Set_ ContextKeyAuthorizationService (VExt (Some service)); Next] (rq_keys c)) c) w)
    as (tr & w' & E & H).
  { unfold authorize_engine, context_service. simpl. by rewrite lookup_insert_eq. }
  exists tr, w'. split; [exact E|].
  assert (Hw : w' = w) by (eapply authorize_pure_world; [exact Hpol|exact Hpure| |exact E];
    unfold authorize_engine, context_service; simpl; by rewrite lookup_insert_eq). subst w'.
  unfold enforces in H. simpl in H. rewrite User_set_service, Hq, Hpol in H.
  rewrite (standard_all_satisfied service hs) in H by done.
  destruct H as [[-> [H _]]|[Hr H]]; [done|]. split; [intros Hp; by apply refuses_not_passes in Hr|tauto].
Qed.

Abbreviation authn_builder := (WithBearerValidator (Some (jwt_bearer v)) AuthnMiddleware.NewBuilder).

(** The chain as a whole. *)
Lemma chain_decides (c : req) w t name policy :
  Extract DefaultExtractorConfig c = Ok {| cred_Type := CredentialTypeBearer; cred_Token := t |} ->
  policies service !! name = Some policy -> forallb pure_req (Requirements policy) = true ->
  exists h1 h2, AuthnMiddleware.BuildMiddleware authn_builder = Ok h1 /\
    AuthzMiddleware.New (Some service) [] = Ok h2 /\
    (reaches h1 h2 name c w <->
     exists q, JWT_ValidateToken v t = Ok q /\
       forallb (req_holds q (make_eval c (request_action c) zero_Resource)) (Requirements policy) = true).
Proof.
  intros He Hpol Hpure. destruct (bearer_middleware c t He) as (h1 & Hb & H1).
  exists h1. destruct (JWT_ValidateToken v t) as [q|e].
  - set (c1 := with_keys (apply_sets (h1 c) (rq_keys c)) c).
    assert (Hu : User c1 = Some q).
    { unfold c1. rewrite H1. by rewrite (User_after_set c DefaultContextKeyPrincipal (Some q)). }
    destruct (guard_decides c1 w q name policy Hpol Hpure Hu) as (h2 & Hn & P2 & Hw & tr & w' & E & Hd).
    exists h2. split_and!; [done|done|]. unfold reaches. fold c1. rewrite Hw. split.
    + intros (_ & _ & tr' & w2 & E' & Hp). rewrite E in E'. injection E' as <- <-. exists q.
      split; [done|]. by apply Hd.
    + intros (q' & [= <-] & Hq). split; [by rewrite H1|]. split; [done|]. exists tr, w'.
      split; [done|]. by apply Hd.
  - eexists. split_and!; [done|done|]. split; [|naive_solver]. intros (Hp & _).
    by destruct (passes_not_rejects _ _ Hp H1).
Qed.

(** The fallback policy of the engine, for a principal on a route. *)
Definition fallback_ok (q : Principal) (ev : EvaluationContext) (c : req) (w w' : W) : Prop :=
  match fallbackPolicy service with
  | Some fb => if hasExplicitAuth c then w' = w else all_satisfied service q ev (Requirements fb) w w'
  | None => w' = w
  end.

(** The pipeline middleware for an authenticated request. *)
Lemma middleware_passes (c : req) w q h2 :
  AuthzMiddleware.New (Some service) [] = Ok h2 -> User c = Some q ->
  let ev := make_eval c (request_action c) zero_Resource in
  (forall w1, fallback_ok q ev c w w1 <-> passes (fst (h2 c w)) /\ snd (h2 c w) = w1) /\
  (passes (fst (h2 c w)) ->
   fst (h2 c w) = [Set_ ContextKeyAuthorizationService (VExt (Some service)); Next]).
Proof using Type.
  clear standard no_fallback.
  intros [= <-] Hu ev. unfold fallback_ok. cbn [fold_left].
  set (cfg := {| mc_resultHandler := None; mc_fallbackPolicy := _; mc_defaultPolicy := _ |}).
  destruct (fallbackPolicy service) as [fb|] eqn:Ef.
  2:{ unfold authz_handler; subst cfg. unfold Engine_FallbackPolicy; rewrite Ef. cbn [mc_fallbackPolicy fst snd].
      split; [|done]. intros w1. split; [by intros ->|by intros [_ <-]]. }
  pose proof (fallback_handler service cfg fb c w Ef eq_refl) as H.
  pose proof (fallback_world service cfg fb c w q Ef Hu) as Hw.
  destruct (authz_handler service cfg c w) as [tr w']. cbn [fst snd] in *.
  destruct (hasExplicitAuth c);
    [destruct H as [-> ->]; split; [intros w1; split; [by intros ->|by intros [_ <-]]|done]|]. destruct H as (tr' & -> & H).
  specialize (Hw eq_refl). unfold enforces in H. rewrite Hu in H. fold ev in H, Hw.
  assert (Hdet : forall w1, all_satisfied service q ev (Requirements fb) w w1 -> w' = w1)
    by (intros w1 Ha%all_satisfied_evaluates; by rewrite Hw, Ha).
  destruct H as [[-> H]|[Hr H]]; [split; [|done]; intros w1; split; [by intros ->%Hdet|by intros [_ <-]]|].
  assert (~ passes (Set_ ContextKeyAuthorizationService (VExt (Some service)) :: tr'))
    by (intros Hp; by apply (refuses_not_passes tr')).
  split; [|done]. intros w1. split; [|naive_solver]. intros Ha. by rewrite (Hdet _ Ha) in H.
Qed.

(** The guard, for an authenticated request behind the middleware. *)
Lemma guard_passes (c : req) w q name policy :
  policies service !! name = Some policy -> User c = Some q -> authorize_engine [] c = Some service ->
  let ev := make_eval c (request_action c) zero_Resource in
  exists tr w2, Authorize name [] c w = (Ok tr, w2) /\
    forall w2', all_satisfied service q ev (Requirements policy) w w2' <-> passes tr /\ w2 = w2'.
Proof using Type.
  clear standard no_fallback.
  intros Hpol Hu He ev. destruct (authorize_enforces_engine service name [] c w He) as (tr & w2 & E & H).
  exists tr, w2. split; [done|]. unfold enforces in H. rewrite Hu, Hpol in H. simpl in H. fold ev in H.
  assert (Hdet : forall w2', all_satisfied service q ev (Requirements policy) w w2' -> w2 = w2').
  { intros w2' Ha%all_satisfied_evaluates. revert E. unfold Authorize, authorize_engine in *. simpl in *.
    rewrite He, Hu. unfold Engine_Authorize, EvaluatePolicy. rewrite Hpol. simpl. fold ev. rewrite Ha. simpl.
    by intros [= _ <-]. }
  intros w2'. destruct H as [[-> H]|[Hr H]].
  - split; [by intros ?%Hdet|by intros [_ <-]].
  - split; [intros Ha; by rewrite (Hdet _ Ha) in H|intros [Hp _]; by apply refuses_not_passes in Hr].
Qed.

(** A request reaches the endpoint exactly when its token is valid, and its
    principal satisfies the fallback policy, where it applies, and then the
    policy of the guard. *)
Lemma reaches_iff (c : req) w t name policy h1 h2 :
  Extract DefaultExtractorConfig c = Ok {| cred_Type := CredentialTypeBearer; cred_Token := t |} ->
  policies service !! name = Some policy ->
  AuthnMiddleware.BuildMiddleware authn_builder = Ok h1 -> AuthzMiddleware.New (Some service) [] = Ok h2 ->
  let ev := make_eval c (request_action c) zero_Resource in
  reaches h1 h2 name c w <->
  exists q w1 w2, JWT_ValidateToken v t = Ok q /\ fallback_ok q ev c w w1 /\
    all_satisfied service q ev (Requirements policy) w1 w2.
Proof using Type.
  clear standard no_fallback. intros He Hpol Hb Hn ev.
  destruct (bearer_middleware c t He) as (h & Hb' & H1). rewrite Hb in Hb'. injection Hb' as <-.
  unfold reaches. set (c1 := with_keys (apply_sets (h1 c) (rq_keys c)) c).
  destruct (JWT_ValidateToken v t) as [q|e].
  2:{ split; [|naive_solver]. intros (Hp & _). by destruct (passes_not_rejects _ _ Hp H1). }
  assert (Hu : User c1 = Some q)
    by (unfold c1; rewrite H1; by rewrite (User_after_set c DefaultContextKeyPrincipal (Some q))).
  destruct (middleware_passes c1 w q h2 Hn Hu) as [HF Htr]. change (forall w', fallback_ok q ev c w w' <-> passes (h2 c1 w).1 /\ (h2 c1 w).2 = w') in HF.
  destruct (h2 c1 w) as [tr2 w1]. cbn [fst snd] in *.
  set (c2 := with_keys (apply_sets tr2 (rq_keys c1)) c1).
  assert (HA : passes tr2 -> exists tr w2, Authorize name [] c2 w1 = (Ok tr, w2) /\
            forall w2', all_satisfied service q ev (Requirements policy) w1 w2' <-> passes tr /\ w2 = w2').
  { intros Hp. apply (guard_passes c2 w1 q name policy Hpol).
    - unfold c2. rewrite Htr by done. etrans; [exact (User_set_service c1 (Some service))|done].
    - unfold authorize_engine, context_service, c2. rewrite Htr by done. simpl. by rewrite lookup_insert_eq. }
  split.
  - intros (_ & P2 & tr & w2 & E & Hp). destruct (HA P2) as (tr' & w2' & E' & Hs).
    rewrite E in E'. injection E' as -> ->. exists q, w1, w2'. split_and!; [done|by apply HF|by apply Hs].
  - intros (q' & w1' & w2 & [= <-] & [P2 <-]%HF & Hs). split; [by rewrite H1|]. split; [done|].
    destruct (HA P2) as (tr' & w2' & E' & Hs'). exists tr', w2'. split; [done|]. exact (proj1 (proj1 (Hs' _) Hs)).
Qed.

(** Whatever the policy, a request that reaches the endpoint satisfies it. *)
Lemma reaches_satisfied (c : req) w t name policy h1 h2 :
  Extract DefaultExtractorConfig c = Ok {| cred_Type := CredentialTypeBearer; cred_Token := t |} ->
  policies service !! name = Some policy ->
  AuthnMiddleware.BuildMiddleware authn_builder = Ok h1 -> AuthzMiddleware.New (Some service) [] = Ok h2 ->
  reaches h1 h2 name c w ->
  exists q ev w', JWT_ValidateToken v t = Ok q /\ all_satisfied service q ev (Requirements policy) w w'.
Proof using no_fallback.
  intros He Hpol Hb Hn Hr. apply (reaches_iff c w t name policy h1 h2 He Hpol Hb Hn) in Hr as (q & w1 & w2 & Hv & Hf & Ha).
  unfold fallback_ok in Hf. rewrite no_fallback in Hf. subst w1. eauto.
Qed.

Variables (cfg : JWTValidatorConfig K) (signToken : MapClaims -> res string string)
  (current : MapClaims -> Prop).
Hypothesis built : NewJWTValidator cfg = Ok v.
Hypothesis default_normalizer : cfg_Normalizer cfg = None.
Context {trust : JwtTrust signToken (jv_key v) current}.

(** The options of the validator, by the configuration. *)
Lemma parser_options claims :
  Forall (opt_accepts claims) (parserOpts v) <->
    (AllowedSigningAlgs cfg = [] \/ "RS256" ∈ AllowedSigningAlgs cfg) /\
    (ExpectedIssuer cfg = "" \/ claims !! "iss" = Some (AString (ExpectedIssuer cfg))) /\
    (ExpectedAudience cfg = "" \/ opt_accepts claims (WithAudience (ExpectedAudience cfg))).
Proof using built.
  clear -built. unfold NewJWTValidator in built. destruct (Claims.KeyFunc cfg); [|done]. injection built as <-.
  unfold parserOpts. simpl. rewrite Forall_cons, !Forall_app. simpl.
  assert (HA : Forall (opt_accepts claims)
            (if (0 <? length (AllowedSigningAlgs cfg))%nat then [WithValidMethods (AllowedSigningAlgs cfg)] else [])
          <-> (AllowedSigningAlgs cfg = [] \/ "RS256" ∈ AllowedSigningAlgs cfg)).
  { destruct (AllowedSigningAlgs cfg); simpl; [rewrite Forall_nil; tauto|]. rewrite Forall_singleton. simpl.
    naive_solver. }
  rewrite HA. clear HA. repeat case_bool_decide; rewrite ?Forall_singleton, ?Forall_nil; simpl; naive_solver.
Qed.

Lemma validate_iff t q :
  JWT_ValidateToken v t = Ok q <->
  exists claims, ParseWithClaims t (jv_key v) (parserOpts v) = Ok (claims, true) /\ Standard_Normalize claims t = Ok q.
Proof using built default_normalizer.
  clear -built default_normalizer. unfold NewJWTValidator in built. destruct (Claims.KeyFunc cfg); [|done].
  injection built as <-. rewrite default_normalizer.
  unfold JWT_ValidateToken, NewStandardOIDCNormalizer, lift_sentinel. simpl.
  destruct (ParseWithClaims _ _ _) as [[claims []]|e]; simpl; [|naive_solver|naive_solver].
  destruct (Standard_Normalize claims t) as [p|e] eqn:E; naive_solver congruence.
Qed.

(** What the configuration asks of the parser. *)
Definition demanded (o : ParserOption) : Prop :=
  match o with
  | WithLeeway d => d = if decide (ClockSkewTolerance cfg = 0) then minute else ClockSkewTolerance cfg
  | WithValidMethods algs => algs = AllowedSigningAlgs cfg /\ algs <> []
  | WithIssuer iss => iss = ExpectedIssuer cfg /\ iss <> ""
  | WithAudience aud => aud = ExpectedAudience cfg /\ aud <> ""
  end.

Lemma parser_demands o : o ∈ parserOpts v <-> demanded o.
Proof using built.
  clear -built. unfold NewJWTValidator in built. destruct (Claims.KeyFunc cfg); [|done]. injection built as <-.
  unfold parserOpts. simpl. rewrite elem_of_cons, !elem_of_app.
  assert (HA : o ∈ (if (0 <? length (AllowedSigningAlgs cfg))%nat then [WithValidMethods (AllowedSigningAlgs cfg)] else [])
            <-> o = WithValidMethods (AllowedSigningAlgs cfg) /\ AllowedSigningAlgs cfg <> []).
  { destruct (AllowedSigningAlgs cfg); simpl; rewrite ?list_elem_of_singleton, ?elem_of_nil; naive_solver. }
  assert (HO : forall s o', o ∈ (if bool_decide (s <> "") then [o'] else []) <-> o = o' /\ s <> "").
  { intros s o'. case_bool_decide; rewrite ?list_elem_of_singleton, ?elem_of_nil; naive_solver. }
  rewrite HA, !HO. unfold demanded. change minute with 60000000000.
  destruct o; repeat case_decide; repeat case_bool_decide; naive_solver.
Qed.

(** C19: Who reaches a guarded endpoint.  Behind the authentication middleware
    with a JWT validator and the authorization middleware, a bearer request
    reaches the endpoint exactly when the parser accepts its token as valid
    under the configured key, the parser is asked for exactly what the
    configuration demands (leeway, allowed algorithms, issuer, audience), the
    claims normalise to a principal, and that principal satisfies the fallback
    policy, unless there is none or the route counts as explicit, and then every
    requirement of the guard's policy, whatever kinds they are. *)
Theorem bearer_chain_sound (c : req) w t name policy h1 h2 :
  Extract DefaultExtractorConfig c = Ok {| cred_Type := CredentialTypeBearer; cred_Token := t |} ->
  policies service !! name = Some policy ->
  AuthnMiddleware.BuildMiddleware authn_builder = Ok h1 -> AuthzMiddleware.New (Some service) [] = Ok h2 ->
  let ev := make_eval c (request_action c) zero_Resource in
  (reaches h1 h2 name c w <->
   exists key claims q w1 w2, Claims.KeyFunc cfg = Some key /\
     ParseWithClaims t key (parserOpts v) = Ok (claims, true) /\
     Standard_Normalize claims t = Ok q /\
     fallback_ok q ev c w w1 /\ all_satisfied service q ev (Requirements policy) w1 w2) /\
  (forall o, o ∈ parserOpts v <-> demanded o).
Proof using built default_normalizer.
  clear standard no_fallback trust. intros He Hpol Hb Hn ev. split; [|apply parser_demands].
  rewrite (reaches_iff c w t name policy h1 h2 He Hpol Hb Hn).
  assert (Hk : Claims.KeyFunc cfg = Some (jv_key v))
    by (revert built; unfold NewJWTValidator; destruct (Claims.KeyFunc cfg); [by intros [= <-]|done]).
  split.
  - intros (q & w1 & w2 & (claims & Hp & Hq)%validate_iff & Hf & Ha). by exists (jv_key v), claims, q, w1, w2.
  - intros (key & claims & q & w1 & w2 & Hk' & Hp & Hq & Hf & Ha). rewrite Hk in Hk'. injection Hk' as <-.
    exists q, w1, w2. split_and!; [apply validate_iff; by exists claims|done|done].
Qed.

(** C20: The authorization code flow end to end: a user who authorizes a client
    with a PKCE challenge lets that client, with the verifier and within five
    minutes, obtain a token with which a request reaches a guarded endpoint of
    a service that trusts the provider exactly when the policy's requirements
    hold of the user, with the client, the PKCE method and the granted scopes. *)
Theorem code_flow_reaches p cl u verifier scopes rb now now' t p' (c : req) w name policy :
  let p1 := snd (AuthorizePKCE cl u (s256 verifier) "S256" scopes (Ok rb) now p) in
  Forall (fun s => no_char " " s = true /\ trimmed s /\ s <> "") scopes -> scopes <> [] ->
  u <> "" -> cl <> "" -> now' <= now + 5 * minute ->
  ExchangeAuthCode signToken cl (hex_EncodeToString rb) verifier now' p1 = (Ok t, p') ->
  (forall claims, signToken claims = Ok t -> current claims) ->
  (ExpectedIssuer cfg = "" \/ ExpectedIssuer cfg = issuer p) ->
  (ExpectedAudience cfg = "" \/ ExpectedAudience cfg = audience p) ->
  (AllowedSigningAlgs cfg = [] \/ "RS256" ∈ AllowedSigningAlgs cfg) ->
  Extract DefaultExtractorConfig c = Ok {| cred_Type := CredentialTypeBearer; cred_Token := t |} ->
  policies service !! name = Some policy -> forallb pure_req (Requirements policy) = true ->
  exists h1 h2 q, AuthnMiddleware.BuildMiddleware authn_builder = Ok h1 /\
    AuthzMiddleware.New (Some service) [] = Ok h2 /\
    Subject q = u /\ ClientID q = cl /\ Method q = AuthMethodAuthCodePKCE /\ Scopes q = scopes /\
    (reaches h1 h2 name c w <->
     forallb (req_holds q (make_eval c (request_action c) zero_Resource)) (Requirements policy) = true).
Proof using built default_normalizer standard no_fallback trust.
  intros p1 Hs Hne Hu Hcl Ht Hx Hcur Hi Ha Hg He Hpol Hpure.
  destruct (chain_decides c w t name policy He Hpol Hpure) as (h1 & h2 & E1 & E2 & HC).
  assert (Hsign : exists rec, ac_UserID rec = u /\ ac_ClientID rec = cl /\ ac_Scopes rec = scopes /\
            signToken (code_claims p1 rec now') = Ok t).
  { revert Hx. unfold p1, AuthorizePKCE, ExchangeAuthCode. rewrite bool_decide_false by tauto.
    cbn [snd authCodes with_authCodes]. rewrite lookup_insert_eq. cbn [ac_ExpiresAt ac_ClientID ac_CodeChallenge].
    generalize (5 * minute) Ht. intros five Ht'. rewrite (bool_decide_false (now + five < now')) by lia.
    rewrite (bool_decide_false (cl <> cl)), (bool_decide_false (s256 verifier <> s256 verifier)) by tauto.
    unfold sign. set (rec := {| ac_Code := _ |}). set (p2 := with_authCodes _ p). intros Hx. exists rec.
    split_and!; [done|done|done|]. by destruct (signToken (code_claims p2 rec now')) as [t'|e]; simplify_eq. }
  destruct Hsign as (rec & <- & <- & <- & Hsign). set (minted := code_claims p1 rec now') in *.
  assert (Hiss : minted !! "iss" = Some (AString (issuer p)) /\ minted !! "aud" = Some (AString (audience p))) by done.
  destruct Hiss as [Hiss Haud].
  destruct (trust_complete minted t (parserOpts v)) as (seen & Hseen & Hdec); [done|by apply Hcur| |].
  { apply parser_options. split_and!; [done| |].
    - by destruct Hi as [->| ->]; [left|right].
    - destruct Ha as [->| ->]; [by left|right]. simpl. by rewrite Haud. }
  destruct (minted_normalizes seen t (ac_Scopes rec) (ac_UserID rec) (ac_ClientID rec) "authorization_code"
              AuthMethodAuthCodePKCE) as (q & Hq & Q1 & Q2 & Q3 & Q4); try done; try (by apply Hdec).
  assert (Hv : JWT_ValidateToken v t = Ok q) by (apply validate_iff; by exists seen).
  exists h1, h2, q. split_and!; try done. rewrite HC, Hv. naive_solver.
Qed.

End pipeline.

(** ** A signer and a parser that trust one token *)
Module PipelineWitness.
Import EngineWitness LineCodec.

Definition provider0 : provider := new_state "https://idp" "api".
Definition provider1 : provider :=
  snd (AuthorizePKCE "app" "user-1" (s256 "verifier") "S256" ["read"] (Ok [1; 2]) 0 provider0).
Definition record1 : authCodeRecord :=
  {| ac_Code := hex_EncodeToString [1; 2]; ac_ClientID := "app"; ac_UserID := "user-1";
     ac_CodeChallenge := s256 "verifier"; ac_CodeChallengeMethod := "S256"; ac_Scopes := ["read"];
     ac_ExpiresAt := 5 * minute |}.
Definition minted1 : MapClaims := code_claims provider1 record1 minute.

(** The signer signs claims for one audience whose texts are those of [minted1]. *)
Definition same_text (kv : string * any) : bool :=
  match kv.2 with
  | AString s => match minted1 !! kv.1 with Some (AString s') => bool_decide (s = s') | _ => false end
  | _ => true
  end.
Definition one_audience (claims : MapClaims) : bool :=
  match claims !! "aud" with Some (AString _) => true | _ => false end.
Definition signer1 (claims : MapClaims) : res string string :=
  if forallb same_text (map_to_list claims) && one_audience claims then Ok "tok" else Err "unknown claims".
Definition opt_ok (o : ParserOption) : bool :=
  match o with
  | WithLeeway _ => true
  | WithValidMethods algs => bool_decide ("RS256" ∈ algs)
  | WithIssuer iss => bool_decide (iss = "https://idp")
  | WithAudience aud => bool_decide (aud = "api")
  end.

#[export] Instance lib1 : JwtLib unit := {|
  GetIssuedAt _ := None; GetExpirationTime _ := None;
  GetIssuer c := claim_str c "iss"; GetAudience _ := [];
  ParseWithClaims t _ opts :=
    if bool_decide (t = "tok") && forallb opt_ok opts then Ok (minted1, true)
    else Err {| jwt_chain := []; jwt_text := "invalid" |} |}.

Lemma signer1_decodes claims t : signer1 claims = Ok t -> t = "tok" /\ decodes claims minted1.
Proof.
  unfold signer1. destruct (forallb same_text _) eqn:E; [|done]. destruct (one_audience claims); [|done].
  intros [= <-]. split; [done|].
  intros k s Hk. rewrite forallb_forall in E.
  specialize (E (k, AString s)). unfold same_text in E. simpl in E.
  rewrite <- list_elem_of_In, elem_of_map_to_list in E. specialize (E Hk).
  destruct (minted1 !! k) as [[]|]; try done. apply bool_decide_eq_true in E. by subst.
Qed.

Lemma accepts_ok claims o :
  signer1 claims = Ok "tok" -> opt_accepts claims o -> opt_ok o = true.
Proof.
  intros Hs. destruct (signer1_decodes _ _ Hs) as [_ Hd]. revert Hs. unfold signer1, one_audience.
  destruct o as [d|algs|iss|aud]; simpl; [done|by rewrite bool_decide_eq_true| |].
  - intros _ Hi%Hd. apply bool_decide_eq_true. by injection Hi.
  - destruct (claims !! "aud") as [[]|] eqn:Ea; rewrite ?andb_false_r; try done.
    intros _ ->. apply Hd in Ea. apply bool_decide_eq_true. by injection Ea.
Qed.

#[export] Instance trust1 : JwtTrust signer1 tt (fun _ => True).
Proof.
  split. intros claims t opts Hs _ Ho. destruct (signer1_decodes _ _ Hs) as [-> Hd]. exists minted1. split; [|done].
  simpl. cut (forallb opt_ok opts = true); [by intros ->|].
  clear -Hs Ho. induction Ho as [|o opts Ho _ IH]; [done|]. simpl. rewrite IH, andb_true_r. by apply (accepts_ok claims).
Defined.

Definition config1 : JWTValidatorConfig unit :=
  {| Claims.KeyFunc := Some tt; ExpectedIssuer := "https://idp"; ExpectedAudience := "api";
     AllowedSigningAlgs := ["RS256"]; ClockSkewTolerance := 0; cfg_Normalizer := None |}.
Definition validator1 : JWTValidator unit :=
  {| jv_key := tt; jv_issuer := "https://idp"; jv_audience := "api"; jv_algs := ["RS256"];
     jv_skew := 60000000000; jv_normalizer := lift_sentinel Standard_Normalize |}.

Definition readers : Policy := Policy.RequireUser (Policy.RequireScope ["read"] (Policy.NewPolicy "readers")).
Definition service1 : PolicyEngine World :=
  NewAuthorizationService (Some (AddPolicy "readers" readers NewAuthorizationOptions)) [].
Definition request1 : request (option (PolicyEngine World)) :=
  {| rq_Method := "GET"; rq_Path := "/"; rq_Query := fun _ => ""; rq_Param := fun _ => "";
     rq_GetHeader := fun k => if bool_decide (k = "Authorization") then "Bearer tok" else "";
     rq_HasHeader := fun k => bool_decide (k = "Authorization");
     rq_ClientIP := "10.0.0.1"; rq_HandlerNames := []; rq_keys := ∅; rq_now := 5 |}.

Definition chain1 (c : request (option (PolicyEngine World))) : Prop :=
  exists h1 h2, AuthnMiddleware.BuildMiddleware
      (WithBearerValidator (Some (jwt_bearer validator1)) AuthnMiddleware.NewBuilder) = Ok h1 /\
    AuthzMiddleware.New (Some service1) [] = Ok h2 /\ reaches h1 h2 "readers" c world1.

Lemma code_flow_reaches_witness : chain1 request1.
Proof.
  destruct (code_flow_reaches validator1 service1 [] eq_refl eq_refl config1 signer1 (fun _ => True)
    eq_refl eq_refl provider0 "app" "user-1" "verifier" ["read"] [1; 2] 0 minute "tok"
    (snd (ExchangeAuthCode signer1 "app" (hex_EncodeToString [1; 2]) "verifier" minute provider1))
    request1 world1 "readers" {| pol_Name := "readers"; Requirements := Requirements readers |})
    as (h1 & h2 & q & E1 & E2 & _ & _ & Hm & Hs & Hr).
  - constructor; [|constructor]. split_and!; [done|split; vm_compute; reflexivity|done].
  - done.
  - done.
  - done.
  - vm_compute. discriminate.
  - vm_compute. reflexivity.
  - done.
  - by right.
  - by right.
  - right. left.
  - vm_compute. reflexivity.
  - vm_compute. reflexivity.
  - reflexivity.
  - exists h1, h2. split_and!; [done|done|]. apply Hr. simpl. unfold IsUserPresent. simpl. rewrite Hs, Hm. done.
Defined.

Lemma bearer_chain_sound_witness : chain1 request1.
Proof.
  eexists _, _. split; [reflexivity|]. split; [reflexivity|].
  apply (bearer_chain_sound validator1 service1 config1 eq_refl eq_refl request1 world1 "tok" "readers"
    {| pol_Name := "readers"; Requirements := Requirements readers |}).
  - vm_compute. reflexivity.
  - vm_compute. reflexivity.
  - reflexivity.
  - reflexivity.
  - eexists tt, minted1, _, world1, world1. split_and!; [reflexivity|reflexivity|vm_compute; reflexivity|reflexivity|].
    repeat econstructor.
Defined.

End PipelineWitness.
