(* ===== verification/Endpoint.v ===== *)
(** * A revoked principal at a guarded endpoint

    The chain of [Pipeline] (bearer validation, both middlewares, the endpoint
    guard) in a deployment of [Revocation] (several processes over shared caches
    and a permission repository): a token outlives the permissions of its
    subject, the endpoint does not. *)
From S2P Require Import Prelude GoStrings Parc Principal Policy CacheIface Engine AuthzCache Cluster Revocation Gin Extractor Claims AuthnMiddleware AuthzMiddleware Pipeline.
Import Tiered.

Local Open Scope string_scope.
Local Open Scope Z_scope.
Local Open Scope list_scope.

Section endpoint.
Context {W : Type} (now : W -> Z) (n : nat) (node : nat -> TieredCacheProvider W)
  (L2 : CacheProvider W) {cluster : ClusterEnv now node L2 cacheKey}
  {codec : PermCodec} {laws : PermCodecLaws codec} (R : PermissionRepository W)
  (grant : nat -> Z) {env : SystemEnv now node L2 R} (G L D : Z).
Hypothesis grant_bound : forall j, 0 < grant j <= G.
Hypothesis l1TTL_bound : forall j, 0 < l1TTL (node j) <= L.
Context {K : Type} {jwt : JwtLib K} (v : JWTValidator K).

Abbreviation req := (request (option (PolicyEngine W))).

(** A service set up for bearer tokens: the authentication middleware of
    [NewBuilder().WithBearerValidator(v)] and the authorization middleware of
    [New(engine)] both build, and the request passes them and the guard of the
    policy [name]. *)
Definition bearer_service_reached (engine : PolicyEngine W) (name : string) (c : req) (w : W) : Prop :=
  exists h1 h2,
    AuthnMiddleware.BuildMiddleware (WithBearerValidator (Some (jwt_bearer v)) AuthnMiddleware.NewBuilder) = Ok h1 /\
    AuthzMiddleware.New (Some engine) [] = Ok h2 /\
    reaches h1 h2 name c w.

(** C21: Revocation at the edge: after a confirmed revocation of all permissions
    of a principal, no request with a token of that principal, however valid,
    reaches an endpoint whose policy has a PARC requirement, at the publisher and
    at any process whose listener has consumed the message, until rules are
    granted again. *)
Theorem revoked_request_refused p s i opts (c : req) t name policy :
  revoked_at now n node L2 R grant D i p s -> (i < n)%nat ->
  let engine := service node R grant i opts in
  policies engine !! name = Some policy -> fallbackPolicy engine = None ->
  (exists a ty, PARCRequirement a ty ∈ Requirements policy) ->
  Extract DefaultExtractorConfig c = Ok {| cred_Type := CredentialTypeBearer; cred_Token := t |} ->
  (forall q, JWT_ValidateToken v t = Ok q -> Subject q = p) ->
  ~ bearer_service_reached engine name c (gw s).
Proof.
  intros Hrev Hi engine Hpol Hfb Hparc He Hsub (h1 & h2 & Hb & Hn & Hr).
  destruct (reaches_satisfied v engine Hfb c (gw s) t name policy h1 h2 He Hpol Hb Hn Hr)
    as (q & ev & w' & Hv & Hall).
  apply all_satisfied_evaluates in Hall.
  pose proof (service_refuses node R grant i opts (Requirements policy) q ev (gw s) Hparc) as Hno.
  fold engine in Hno. rewrite Hall in Hno. discriminate Hno. intros a ty.
  eapply (revoked_handle now n node L2 R grant G L D grant_bound l1TTL_bound p s); eauto.
Qed.

End endpoint.

(** ** Two processes behind the provider of [PipelineWitness] *)
Module EndpointWitness.
Import ClusterWitness LineCodec RevocationWitness PipelineWitness.

(** The subject of the token may read reports and process 0 has cached that;
    then the rules are dropped and process 0 publishes the revocation, which
    process 1 hears. *)
Definition report_rule : PermissionRule :=
  {| ActionPattern := "read"; ResourceType := "report"; ResourceIDPattern := "*"; TenantID := "";
     Effect := "permit" |}.
Definition u0 : World3 := (world0, {["user-1" := [report_rule]]}).
Definition us0 : gstate (W := World3) :=
  {| gw := fetch_store (handler3 0) "user-1" (Some (MemoryPermissionRepository.GetPermissions "user-1" u0.2)) u0;
     fills := []; asides := [] |}.
Definition us1 : gstate := with_world (snd (RevokeAll repo3 "user-1" (gw us0))) us0.
Definition uw2 : World3 := snd (PublishRevocation (node3 0) "user-1" (gw us1)).
Definition us3 : gstate :=
  with_world (listener_recv (node3 1) "user-1" (recv time3 node3 shared_tier cacheKey 1 uw2)) us1.

Lemma us3_revoked : revoked_at time3 2 node3 shared_tier repo3 grant3 5 1 "user-1" us3.
Proof.
  exists us0, 0%nat, [GListen 1 "user-1"]. split; [|right; left].
  exists (gw us1), [], [us1], us1, uw2, [us3; with_world uw2 us1]. split_and!.
  - reflexivity.
  - apply grun_nil.
  - constructor.
  - lia.
  - split; intros; apply not_elem_of_nil.
  - split_and!; [vm_compute; reflexivity|by eexists|vm_compute; reflexivity].
  - eapply grun_snoc; [apply grun_nil|].
    pose proof (g_listen time3 2 node3 shared_tier repo3 grant3 5 1 "user-1" [] (with_world uw2 us1)) as H.
    apply H; [lia|]. vm_compute. reflexivity.
  - repeat constructor. intros [].
Qed.

Definition report_options : AuthorizationOptions :=
  AddPolicy "reports" (Policy.RequirePARC "read" "report" (Policy.NewPolicy "reports")) NewAuthorizationOptions.
Definition engine3 : PolicyEngine World3 := service node3 repo3 grant3 1 (Some report_options).
Definition request3 : request (option (PolicyEngine World3)) :=
  {| rq_Method := "GET"; rq_Path := "/"; rq_Query := fun _ => ""; rq_Param := fun _ => "";
     rq_GetHeader := fun k => if bool_decide (k = "Authorization") then "Bearer tok" else "";
     rq_HasHeader := fun k => bool_decide (k = "Authorization");
     rq_ClientIP := "10.0.0.1"; rq_HandlerNames := []; rq_keys := ∅; rq_now := 5 |}.

Definition chain3 (w : World3) : Prop :=
  bearer_service_reached validator1 engine3 "reports" request3 w.

(** Before the revocation the request reaches the endpoint. *)
Example reaches_before : chain3 (gw us0).
Proof.
  eexists _, _. split; [reflexivity|]. split; [reflexivity|].
  split; [by vm_compute|]. split; [by vm_compute|].
  eexists _, _. split; [vm_compute; reflexivity|]. by vm_compute.
Qed.

Lemma revoked_request_refused_witness : ~ chain3 (gw us3).
Proof.
  apply (revoked_request_refused time3 2 node3 shared_tier repo3 grant3 60 60 5
    grant3_bound node3_bound validator1 "user-1" us3 1 (Some report_options) request3 "tok" "reports"
    {| pol_Name := "reports"; Requirements := [PARCRequirement "read" "report"] |}).
  - exact us3_revoked.
  - lia.
  - vm_compute. reflexivity.
  - reflexivity.
  - exists "read", "report". left.
  - vm_compute. reflexivity.
  - intros q H. vm_compute in H. by injection H as <-.
Defined.

End EndpointWitness.
