(* ===== verification/Health.v ===== *)
(** * Health checks: [health/health.go], [health/bus], [health/database], [health/redis]

    A check is what one run of it yields; the goroutines of [Run] take the lock
    in some order, which is an argument.  Floating point is [SpecFloat]'s
    binary64.  A probe's outcome and the elapsed nanoseconds are arguments of
    the checks; the driver behind a probe is a parameter. *)
From Stdlib Require Import SpecFloat.
From S2P Require Import Prelude GoStrings GoFloat.

Local Open Scope string_scope.
Local Open Scope Z_scope.
Local Open Scope list_scope.

(** ** Durations *)

(** Decimal digits of a nonnegative number, zero-padded to [width]. *)
Fixpoint zeros (n : nat) : string := match n with O => "" | S n => "0" +:+ zeros n end.
Definition pad_to (width : nat) (s : string) : string := zeros (width - String.length s) +:+ s.
(** [%0<width>d]: the sign counts. *)
Definition fmt_0d (width : nat) (z : Z) : string :=
  if bool_decide (z < 0) then "-" +:+ pad_to (width - 1) (itoa (- z)) else pad_to width (itoa z).

(** [d.Hours()], [d.Minutes()], [d.Seconds()]: whole units plus the float
    quotient of the rest. *)
Definition in_units (unit d : Z) : spec_float :=
  fadd (f64 (Z.quot d unit)) (fdiv (f64 (Z.rem d unit)) (f64 unit)).
Definition second : Z := 1000000000.

Definition FormatDuration (d : Z) : string :=
  let hours := f_trunc (in_units (3600 * second) d) in
  let minutes := Z.rem (f_trunc (in_units (60 * second) d)) 60 in
  let seconds := Z.rem (f_trunc (in_units second d)) 60 in
  let nanoseconds := Z.rem d second in
  let ticks := Z.quot nanoseconds 100 in
  fmt_0d 2 hours +:+ ":" +:+ fmt_0d 2 minutes +:+ ":" +:+ fmt_0d 2 seconds +:+ "." +:+ fmt_0d 7 ticks.

Example format_durations :
  map FormatDuration [0; 1500000; 61 * second + 42; 25 * 3600 * second + 999999999]
  = ["00:00:00.0000000"; "00:00:00.0015000"; "00:01:01.0000000"; "25:00:00.9999999"].
Proof. vm_compute. done. Qed.

(** Past 4096 hours the float sum rounds up to the next hour early. *)
Example format_rounds_up : FormatDuration (4097 * 3600 * second - 1) = "4097:59:59.9999999".
Proof. vm_compute. done. Qed.

(** The reference: hours, minutes, seconds and 100-nanosecond ticks by integer
    division. *)
Definition timespan (d : Z) : string :=
  pad_to 2 (itoa (d / (3600 * second))) +:+ ":" +:+
  pad_to 2 (itoa (d / (60 * second) mod 60)) +:+ ":" +:+
  pad_to 2 (itoa (d / second mod 60)) +:+ "." +:+ pad_to 7 (itoa (d mod second / 100)).

Lemma in_units_exact unit d j :
  0 <= d -> 0 < unit <= 2 ^ j -> 3 <= j <= 52 -> (d / unit + 1) * 2 ^ j <= 2 ^ 53 ->
  f_trunc (in_units unit d) = d / unit.
Proof.
  intros Hd Hu Hj Hb. unfold in_units. rewrite Z.quot_div_nonneg, Z.rem_mod_nonneg by lia.
  by apply (units_trunc d unit j).
Qed.

Lemma fmt_0d_nonneg w z : 0 <= z -> fmt_0d w z = pad_to w (itoa z).
Proof. intros. unfold fmt_0d. by rewrite bool_decide_false by lia. Qed.

(** C40: Although it goes through floating point, [FormatDuration] prints the
    exact hours, minutes, seconds and ticks of every duration from zero up to
    2048 hours (and from 4096 hours on it need not). *)
Theorem format_duration_exact d :
  0 <= d < 2048 * 3600 * second -> FormatDuration d = timespan d.
Proof.
  unfold second. intros Hd. unfold FormatDuration, timespan, second.
  rewrite (in_units_exact (3600 * 1000000000) d 42), (in_units_exact (60 * 1000000000) d 36),
    (in_units_exact 1000000000 d 30); try lia.
  - rewrite !Z.rem_mod_nonneg, Z.quot_div_nonneg by (apply Z.div_pos || apply Z.mod_pos_bound || idtac; lia).
    rewrite !fmt_0d_nonneg; try done; try (apply Z.mod_pos_bound; lia); try (apply Z.div_pos; lia).
    apply Z.div_pos; [apply Z.mod_pos_bound|]; lia.
  - assert (d / 1000000000 < 7372800) by (apply Z.div_lt_upper_bound; lia). lia.
  - assert (d / (60 * 1000000000) < 122880) by (apply Z.div_lt_upper_bound; lia). lia.
  - assert (d / (3600 * 1000000000) < 2048) by (apply Z.div_lt_upper_bound; lia). lia.
Qed.

(** [time.Duration.String]. *)
Fixpoint strip_zeros (s : string) : string :=
  match s with
  | "" => ""
  | String a s' => match a, strip_zeros s' with "0"%char, "" => "" | _, t => String a t end
  end.
Definition fmt_frac (v : Z) (prec : nat) : string :=
  let frac := strip_zeros (pad_to prec (itoa (v mod 10 ^ Z.of_nat prec))) in
  if bool_decide (frac = "") then "" else "." +:+ frac.
Definition duration_abs (u : Z) : string :=
  if bool_decide (u < 1000) then itoa u +:+ "ns"
  else if bool_decide (u < 1000000) then itoa (u / 1000) +:+ fmt_frac u 3 +:+ "µs"
  else if bool_decide (u < second) then itoa (u / 1000000) +:+ fmt_frac u 6 +:+ "ms"
  else
    let s := u / second in
    let secs := itoa (s mod 60) +:+ fmt_frac u 9 +:+ "s" in
    let m := s / 60 in
    if bool_decide (m = 0) then secs
    else let mins := itoa (m mod 60) +:+ "m" +:+ secs in
         let h := m / 60 in
         if bool_decide (h = 0) then mins else itoa h +:+ "h" +:+ mins.
Definition duration_String (d : Z) : string :=
  if bool_decide (d = 0) then "0s"
  else if bool_decide (d < 0) then "-" +:+ duration_abs (- d) else duration_abs d.

Example duration_strings :
  map duration_String [150000000; 100000001; 1500; 3723 * second + 500000000; 0]
  = ["150ms"; "100.000001ms"; "1.5µs"; "1h2m3.5s"; "0s"].
Proof. vm_compute. done. Qed.

(** ** The checker *)
Abbreviation Status := string.
Definition StatusHealthy : Status := "Healthy".
Definition StatusDegraded : Status := "Degraded".
Definition StatusUnhealthy : Status := "Unhealthy".

Record Entry : Type := {
  e_Status : Status; e_Description : string; e_Duration : string; e_Tags : list string;
  e_Data : option (gmap string any)
}.
Record Response : Type := {
  r_Status : Status; r_TotalDuration : string; r_Entries : gmap string Entry
}.

Section checker.
Context {Ctx : Type}.
Definition Check_ : Type := Ctx -> Entry.
Abbreviation Checker := (gmap string Check_).

Definition NewChecker : Checker := ∅.
Definition Register (name : string) (check : Check_) (c : Checker) : Checker := <[name := check]> c.

(** The part of a goroutine under the lock. *)
Definition record_entry (acc : gmap string Entry * Status) (ne : string * Entry)
  : gmap string Entry * Status :=
  let '(entries, overall) := acc in
  let '(name, entry) := ne in
  (<[name := entry]> entries,
   if bool_decide (e_Status entry = StatusUnhealthy) then StatusUnhealthy
   else if bool_decide (e_Status entry = StatusDegraded) && bool_decide (overall <> StatusUnhealthy)
   then StatusDegraded
   else overall).

(** [done]: the goroutines in the order they take the lock; [elapsed]: the
    nanoseconds of the run. *)
Definition run_order (done : list (string * Check_)) (ctx : Ctx) (elapsed : Z) : Response :=
  let '(entries, overall) :=
    fold_left record_entry (map (fun nc => (nc.1, nc.2 ctx)) done) (∅, StatusHealthy) in
  {| r_Status := overall; r_TotalDuration := FormatDuration elapsed; r_Entries := entries |}.

(** A run settles in some order of the registered checks. *)
Definition Run (c : Checker) (ctx : Ctx) (elapsed : Z) (r : Response) : Prop :=
  exists done, done ≡ₚ map_to_list c /\ r = run_order done ctx elapsed.

(** ** The aggregate *)
Definition worst (l : list Status) : Status :=
  if bool_decide (StatusUnhealthy ∈ l) then StatusUnhealthy
  else if bool_decide (StatusDegraded ∈ l) then StatusDegraded else StatusHealthy.

Lemma worst_cons s l :
  worst (s :: l) =
    if bool_decide (s = StatusUnhealthy) then StatusUnhealthy
    else if bool_decide (s = StatusDegraded) && bool_decide (worst l <> StatusUnhealthy)
    then StatusDegraded else worst l.
Proof.
  unfold worst. destruct (decide (s = StatusUnhealthy)) as [->|H1].
  { rewrite !bool_decide_true; [done|done|set_solver]. }
  rewrite (bool_decide_false (s = _)) by done.
  destruct (decide (StatusUnhealthy ∈ l)).
  { rewrite !(bool_decide_true (StatusUnhealthy ∈ _)) by set_solver.
    rewrite (bool_decide_false (StatusUnhealthy <> _)) by tauto. by rewrite andb_false_r. }
  rewrite !(bool_decide_false (StatusUnhealthy ∈ _)) by set_solver.
  destruct (decide (s = StatusDegraded)) as [->|].
  { rewrite (bool_decide_true (StatusDegraded ∈ _ :: _)) by set_solver. simpl.
    destruct (decide (StatusDegraded ∈ l)); [by rewrite (bool_decide_true (_ ∈ l))|].
    by rewrite (bool_decide_false (_ ∈ l)). }
  rewrite (bool_decide_false (s = _)) by done. simpl.
  by rewrite (bool_decide_ext (StatusDegraded ∈ s :: l) (StatusDegraded ∈ l)) by set_solver.
Qed.

Lemma worst_perm l l' : l ≡ₚ l' -> worst l = worst l'.
Proof.
  intros H. unfold worst.
  rewrite (bool_decide_ext (StatusUnhealthy ∈ l) (StatusUnhealthy ∈ l')) by (by rewrite H).
  by rewrite (bool_decide_ext (StatusDegraded ∈ l) (StatusDegraded ∈ l')) by (by rewrite H).
Qed.

Lemma fold_record l :
  NoDup l.*1 ->
  fold_right (fun ne acc => record_entry acc ne) (∅, StatusHealthy) l
    = (list_to_map l, worst (map (fun ne => e_Status ne.2) l)).
Proof.
  induction l as [|[n e] l IH]; intros Hn; [done|]. inversion Hn; subst. simpl. rewrite IH by done.
  unfold record_entry at 1. by rewrite worst_cons.
Qed.

Lemma list_to_map_results (c : Checker) (l : list (string * Check_)) ctx :
  l ≡ₚ map_to_list c ->
  list_to_map (map (fun nc => (nc.1, nc.2 ctx)) l) = (fun check => check ctx) <$> c.
Proof.
  intros Hp. assert (Hn : NoDup l.*1) by (rewrite Hp; apply NoDup_fst_map_to_list).
  rewrite <- (list_to_map_to_list c), <- (list_to_map_proper l (map_to_list c)) by done. clear Hp.
  induction l as [|[n f] l IH]; simpl; [by rewrite fmap_empty|]. inversion Hn; subst.
  by rewrite fmap_insert, IH.
Qed.

(** C37: However its goroutines interleave, a run reports every registered check
    under its name and the worst of their statuses: unhealthy if any is, else
    degraded if any is, else healthy; so two runs whose checks yield the same
    entries differ in their duration only. *)
Theorem run_reports_worst (c : Checker) ctx elapsed r :
  Run c ctx elapsed r ->
  r = {| r_Status := worst (map (fun nc => e_Status (nc.2 ctx)) (map_to_list c));
         r_TotalDuration := FormatDuration elapsed;
         r_Entries := (fun check => check ctx) <$> c |}.
Proof.
  intros (done & Hp & ->). unfold run_order. rewrite <- fold_left_rev_right, fold_record.
  - f_equal.
    + apply worst_perm. rewrite <- map_rev, map_map. simpl. by rewrite <- Hp, <- Permutation_rev.
    + rewrite <- map_rev. apply list_to_map_results. by rewrite <- Permutation_rev.
  - rewrite <- map_rev, map_map. simpl. rewrite <- Permutation_rev, Hp. apply NoDup_fst_map_to_list.
Qed.

End checker.

(** ** The probes *)
Definition latencyThreshold : Z := 100000000.

(** Tags default when none is supplied. *)
Definition tags_or (tags dflt : list string) : list string :=
  if (length tags =? 0)%nat then dflt else tags.

(** The outcome of a probe: no client, or the error of the call if any; with
    the nanoseconds since the check started. *)
Inductive probe : Type := NoClient | Probed (err : option string).

Definition entry (st : Status) (desc : string) (elapsed : Z) (tags : list string)
  (data : option (gmap string any)) : Entry :=
  {| e_Status := st; e_Description := desc; e_Duration := FormatDuration elapsed; e_Tags := tags;
     e_Data := data |}.

Definition bus_Check (tags : list string) (conn : probe) (elapsed : Z) : Entry :=
  let tags := tags_or tags ["bus"; "messaging"] in
  match conn with
  | NoClient => entry StatusUnhealthy "Bus connection is not initialized" elapsed tags None
  | Probed (Some err) =>
      entry StatusUnhealthy ("Bus connect failed: " +:+ err) elapsed tags
        (Some {["error" := AString err]})
  | Probed None =>
      if bool_decide (latencyThreshold < elapsed)
      then entry StatusDegraded ("Bus connect latency is high (" +:+ duration_String elapsed +:+ ")")
             elapsed tags None
      else entry StatusHealthy "Bus is connected" elapsed tags None
  end.

Definition redis_Check (tags : list string) (client : probe) (elapsed : Z) : Entry :=
  let tags := tags_or tags ["redis"; "cache"] in
  match client with
  | NoClient => entry StatusUnhealthy "Redis client is not initialized" elapsed tags None
  | Probed (Some err) =>
      entry StatusUnhealthy ("Redis PING failed: " +:+ err) elapsed tags
        (Some {["error" := AString err]})
  | Probed None =>
      if bool_decide (latencyThreshold < elapsed)
      then entry StatusDegraded ("Redis latency is high (" +:+ duration_String elapsed +:+ ")")
             elapsed tags None
      else entry StatusHealthy "Redis is running and responsive" elapsed tags None
  end.

(** [pgxpool.Stat], four [int32] counters. *)
Record Stat : Type := { TotalConns : Z; AcquiredConns : Z; IdleConns : Z; MaxConns : Z }.
Definition stat_data (s : Stat) : gmap string any :=
  list_to_map [("total_conns", AInt (TotalConns s)); ("acquired_conns", AInt (AcquiredConns s));
               ("idle_conns", AInt (IdleConns s)); ("max_conns", AInt (MaxConns s))].

(** The float constant 0.8. *)
Definition poolPressureThreshold : spec_float := S754_finite false 7205759403792794 (-53).
Definition usageRatio (s : Stat) : spec_float := fdiv (f64 (AcquiredConns s)) (f64 (MaxConns s)).
Definition under_pressure (s : Stat) : bool :=
  bool_decide (0 < MaxConns s) && SFltb poolPressureThreshold (usageRatio s).

(** [%.0f] of a nonnegative float: to the nearest integer, ties to even. *)
Definition fmt_0f (f : spec_float) : string :=
  match f with
  | S754_finite _ m e =>
      if bool_decide (0 <= e) then itoa (Zpos m * 2 ^ e)
      else
        let d := 2 ^ (- e) in
        let '(q, r) := Z.div_eucl (Zpos m) d in
        itoa (match 2 * r ?= d with Lt => q | Gt => q + 1 | Eq => if Z.even q then q else q + 1 end)
  | _ => "0"
  end.

Definition database_Check (tags : list string) (pool : probe) (stats : Stat) (elapsed : Z) : Entry :=
  let tags := tags_or tags ["database"; "postgresql"] in
  match pool with
  | NoClient => entry StatusUnhealthy "Database pool is not initialized" elapsed tags None
  | Probed (Some err) =>
      entry StatusUnhealthy ("Database query failed: " +:+ err) elapsed tags
        (Some (<["error" := AString err]> (stat_data stats)))
  | Probed None =>
      let '(st, desc) :=
        if under_pressure stats
        then (StatusDegraded, "Database connection pool usage is high (" +:+
                                fmt_0f (fmul (usageRatio stats) (f64 100)) +:+ "%)")
        else (StatusHealthy, "Database is running and responsive") in
      let '(st, desc) :=
        if bool_decide (latencyThreshold < elapsed)
        then (StatusDegraded, "Database latency is high (" +:+ duration_String elapsed +:+ ")")
        else (st, desc) in
      entry st desc elapsed tags (Some (stat_data stats))
  end.

Example pool_pressure :
  e_Description (database_Check [] (Probed None)
    {| TotalConns := 10; AcquiredConns := 9; IdleConns := 1; MaxConns := 10 |} 5)
    = "Database connection pool usage is high (90%)"
  /\ under_pressure {| TotalConns := 10; AcquiredConns := 8; IdleConns := 2; MaxConns := 10 |} = false.
Proof. vm_compute. done. Qed.

(** What a probe's status has to be, by its outcome, its latency and whether
    the resource is short of capacity. *)
Definition probe_status (p : probe) (elapsed : Z) (short : bool) : Status :=
  match p with
  | Probed None => if short || bool_decide (latencyThreshold < elapsed) then StatusDegraded else StatusHealthy
  | _ => StatusUnhealthy
  end.

(** The float comparison decides the exact fraction: more than four fifths of
    the pool. *)
Lemma pressure_exact s :
  0 <= AcquiredConns s < 2 ^ 31 -> MaxConns s < 2 ^ 31 ->
  under_pressure s = bool_decide (0 < MaxConns s /\ 4 * MaxConns s < 5 * AcquiredConns s).
Proof.
  intros HA HM. unfold under_pressure, usageRatio. destruct (decide (0 < MaxConns s)) as [Hm|Hm].
  2:{ rewrite !bool_decide_false by tauto. done. }
  rewrite (bool_decide_true (0 < _)) by done. cbn [andb].
  destruct (Z.eq_dec (AcquiredConns s) 0) as [->|Ha].
  { destruct (f64_exact (MaxConns s)) as (m & i & -> & _); [lia|].
    rewrite bool_decide_false by lia. done. }
  unfold poolPressureThreshold. change (-53) with (- (53)).
  rewrite (rounded_ltb (AcquiredConns s) (MaxConns s)).
  - apply bool_decide_ext. lia.
  - done.
  - apply fdiv_rounded; lia.
  - lia.
  - lia.
  - lia.
Qed.

(** Each check classifies its probe as documented: unhealthy exactly when
    there is no client or the call failed, degraded when the call was slower
    than 100ms or more than four fifths of the pool are in use (the float
    comparison agrees with the exact fraction for 32-bit counters), healthy
    otherwise; it never carries an empty tag list, and it reports the error
    text exactly when the call failed. *)
Theorem checks_classify tags p stats elapsed :
  0 <= AcquiredConns stats < 2 ^ 31 -> MaxConns stats < 2 ^ 31 ->
  let failed e := match e_Data e with Some d => d !! "error" | None => None end in
  let error := match p with Probed (Some err) => Some (AString err) | _ => None end in
  let short := bool_decide (0 < MaxConns stats /\ 4 * MaxConns stats < 5 * AcquiredConns stats) in
  let ok e short := e_Status e = probe_status p elapsed short /\ e_Tags e <> [] /\
                    (tags <> [] -> e_Tags e = tags) /\ failed e = error in
  ok (bus_Check tags p elapsed) false /\ ok (redis_Check tags p elapsed) false /\
  ok (database_Check tags p stats elapsed) short.
Proof.
  intros HA HM failed error short ok. subst short. rewrite <- pressure_exact by done.
  assert (HT : forall dflt, dflt <> [] -> tags_or tags dflt <> [] /\ (tags <> [] -> tags_or tags dflt = tags))
    by (intros; unfold tags_or; by destruct tags).
  assert (HE : stat_data stats !! "error" = None) by (unfold stat_data; simpl; by simplify_map_eq).
  unfold ok, failed, error, bus_Check, redis_Check, database_Check, probe_status.
  destruct p as [|[err|]]; [| |destruct (under_pressure stats), (bool_decide _)];
    split_and!; cbn [entry e_Status e_Tags e_Data]; try done; try by apply HT.
  all: by simplify_map_eq.
Qed.

(** ** A concrete run *)
Module HealthWitness.

Definition checks0 : gmap string (unit -> Entry) :=
  Register "bus" (fun _ => bus_Check [] (Probed None) 150000000)
    (Register "redis" (fun _ => redis_Check [] (Probed None) 5) NewChecker).

Lemma run_reports_worst_witness :
  run_order (rev (map_to_list checks0)) tt 7 =
    {| r_Status := worst (map (fun nc : string * (unit -> Entry) => e_Status (nc.2 tt)) (map_to_list checks0));
       r_TotalDuration := FormatDuration 7;
       r_Entries := (fun check : unit -> Entry => check tt) <$> checks0 |}
  /\ r_Status (run_order (rev (map_to_list checks0)) tt 7) = StatusDegraded.
Proof.
  split.
  - apply (run_reports_worst checks0 tt 7). exists (rev (map_to_list checks0)).
    split; [symmetry; apply Permutation_rev|reflexivity].
  - vm_compute. reflexivity.
Defined.

Lemma format_duration_exact_witness :
  FormatDuration (61 * second + 42) = timespan (61 * second + 42).
Proof. apply format_duration_exact. unfold second. lia. Defined.

Definition busy : Stat := {| TotalConns := 10; AcquiredConns := 9; IdleConns := 1; MaxConns := 10 |}.

Lemma checks_classify_witness :
  e_Status (database_Check [] (Probed None) busy 5) = StatusDegraded.
Proof.
  destruct (checks_classify [] (Probed None) busy 5) as (_ & _ & H & _); [simpl; lia|simpl; lia|].
  exact H.
Defined.

End HealthWitness.
