(* ===== verification/GenericCache.v ===== *)
(** * The generic cache: [cache/cache.go], [cache/memory], [cache/rediscache]

    [CacheContract] is the contract of the package comment: what [Get] observes
    after [Set] and [Delete], and that [Dispose] may be repeated.  Histories of
    operations are verified against the contract; the in-process store (over
    go-cache, with its janitor) and the Redis store (over go-redis and a JSON
    codec) discharge it, and the result is stated of the two stores.  Times and
    durations are nanoseconds; every call takes the clock. *)
From S2P Require Import Prelude GoStrings.

Local Open Scope string_scope.
Local Open Scope Z_scope.
Local Open Scope list_scope.

(** ** The contract *)

(** [Get] returns [Ok None] on a miss. *)
Record Cache (W T : Type) : Type := {
  cSet : string -> T -> Z -> Z -> W -> option string * W;
  cGet : string -> Z -> W -> res string (option T) * W;
  cDelete : string -> W -> option string * W;
  cDispose : W -> W
}.
Arguments cSet {W T} _. Arguments cGet {W T} _. Arguments cDelete {W T} _. Arguments cDispose {W T} _.

(** When a value stored at [now] expires. *)
Definition deadline (now expiration : Z) : option Z :=
  if bool_decide (expiration <= 0) then None else Some (now + expiration).

(** What may be observed at [t] of a value stored with deadline [d] by a store
    that keeps deadlines up to [grain] nanoseconds. *)
Definition serves {T} (grain t : Z) (v : T) (d : option Z) (r : option T) : Prop :=
  match d with
  | None => r = Some v
  | Some d => (t < d - grain -> r = Some v) /\ (d + grain < t -> r = None)
  end.

(** [background] is what the backend does on its own, at any time. *)
Class CacheContract {W T} (C : Cache W T) := {
  grain : Z;
  valid : W -> Prop;
  obs : W -> Z -> string -> option T;
  background : Z -> W -> W;
  set_obs : forall k v expiration now w w', valid w -> cSet C k v expiration now w = (None, w') ->
    valid w' /\ forall t k', now <= t ->
      if decide (k' = k) then serves grain t v (deadline now expiration) (obs w' t k')
      else obs w' t k' = obs w t k';
  get_obs : forall k now w r w', valid w -> cGet C k now w = (Ok r, w') ->
    valid w' /\ r = obs w now k /\ forall t k', now <= t -> obs w' t k' = obs w t k';
  delete_obs : forall k w w', valid w -> cDelete C k w = (None, w') ->
    valid w' /\ forall t k', obs w' t k' = if decide (k' = k) then None else obs w t k';
  background_obs : forall now w, valid w -> valid (background now w) /\
    forall t k, now <= t -> obs (background now w) t k = obs w t k;
  dispose_twice : forall w, cDispose C (cDispose C w) = cDispose C w
}.

(** ** Histories *)
Section client.
Context {W T : Type} {C : Cache W T} {contract : CacheContract C}.

Inductive op : Type :=
| OpSet (k : string) (v : T) (expiration : Z) | OpGet (k : string) | OpDelete (k : string) | OpBackground.

(** One operation at [now], or a step of the backend's own; [None] when the
    backend failed. *)
Definition exec (now : Z) (o : op) (w : W) : option W :=
  match o with
  | OpSet k v e => match cSet C k v e now w with (None, w') => Some w' | _ => None end
  | OpGet k => match cGet C k now w with (Ok _, w') => Some w' | _ => None end
  | OpDelete k => match cDelete C k w with (None, w') => Some w' | _ => None end
  | OpBackground => Some (background now w)
  end.

(** A history: operations with the times they ran at, never decreasing. *)
Fixpoint run (ops : list (Z * op)) (w : W) : option W :=
  match ops with
  | [] => Some w
  | (now, o) :: ops' => match exec now o w with Some w' => run ops' w' | None => None end
  end.
Fixpoint ordered (t0 : Z) (ops : list (Z * op)) : Prop :=
  match ops with [] => True | (t, _) :: ops' => t0 <= t /\ ordered t ops' end.
Definition end_time (t0 : Z) (ops : list (Z * op)) : Z := List.last (map fst ops) t0.

(** The reference: the last value written under each key, with its deadline. *)
Definition ref_op (m : gmap string (T * option Z)) (no : Z * op) : gmap string (T * option Z) :=
  match no.2 with
  | OpSet k v e => <[k := (v, deadline no.1 e)]> m
  | OpGet _ | OpBackground => m
  | OpDelete k => delete k m
  end.
Definition reference (ops : list (Z * op)) : gmap string (T * option Z) := fold_left ref_op ops ∅.

Definition expected (g t : Z) (e : option (T * option Z)) (r : option T) : Prop :=
  match e with None => r = None | Some (v, d) => serves g t v d r end.

(** The store agrees with the reference from [t0] on. *)
Definition agrees (t0 : Z) (w : W) (m : gmap string (T * option Z)) : Prop :=
  valid w /\ forall t k, t0 <= t -> expected grain t (m !! k) (obs w t k).

Lemma last_cons_default (l : list Z) t t0 : List.last l t = List.last (t :: l) t0.
Proof.
  revert t t0. induction l as [|x l IH]; intros t t0; [done|].
  change (List.last (t :: x :: l) t0) with (List.last (x :: l) t0). rewrite <- !IH. done.
Qed.

Lemma exec_agrees t0 now o w w' m :
  t0 <= now -> agrees t0 w m -> exec now o w = Some w' -> agrees now w' (ref_op m (now, o)).
Proof.
  intros Ht [Hv Ha] He. destruct o; simpl in He.
  - destruct (cSet C k v expiration now w) as [[|] w1] eqn:E; simplify_eq.
    destruct (set_obs _ _ _ _ _ _ Hv E) as [Hv' Ho]. split; [done|]. intros t k' Hk. unfold ref_op. cbn [fst snd].
    specialize (Ho t k' Hk). case_decide; subst.
    + by rewrite lookup_insert_eq.
    + rewrite lookup_insert_ne, Ho by done. apply Ha. lia.
  - destruct (cGet C k now w) as [[|] w1] eqn:E; simplify_eq.
    destruct (get_obs _ _ _ _ _ Hv E) as (Hv' & _ & Ho). split; [done|]. intros t k' Hk. unfold ref_op. cbn [fst snd].
    rewrite Ho by done. apply Ha. lia.
  - destruct (cDelete C k w) as [[|] w1] eqn:E; simplify_eq.
    destruct (delete_obs _ _ _ Hv E) as [Hv' Ho]. split; [done|]. intros t k' Hk. unfold ref_op. cbn [fst snd].
    rewrite Ho. case_decide; subst; [by rewrite lookup_delete_eq|].
    rewrite lookup_delete_ne by done. apply Ha. lia.
  - injection He as <-. destruct (background_obs now w Hv) as [Hv' Ho]. split; [done|]. intros t k' Hk.
    unfold ref_op. cbn [fst snd]. rewrite Ho by done. apply Ha. lia.
Qed.

Lemma run_agrees ops t0 w w' m :
  ordered t0 ops -> agrees t0 w m -> run ops w = Some w' ->
  agrees (end_time t0 ops) w' (fold_left ref_op ops m).
Proof.
  revert t0 w m. induction ops as [|[now o] ops IH]; intros t0 w m Hord Ha Hr; simpl in *.
  { by simplify_eq. }
  destruct Hord as [Ht Hord]. destruct (exec now o w) as [w1|] eqn:E; [|done].
  replace (end_time t0 ((now, o) :: ops)) with (end_time now ops).
  - eapply IH; [done| |done]. by eapply exec_agrees.
  - unfold end_time. cbn [map fst]. by rewrite <- last_cons_default.
Qed.

(** After a history on an empty cache the observations are those of the
    reference. *)
Lemma run_reference w0 t0 ops w :
  valid w0 -> (forall t k, obs w0 t k = None) -> ordered t0 ops -> run ops w0 = Some w ->
  agrees (end_time t0 ops) w (reference ops).
Proof.
  intros Hv He Hord Hr. eapply run_agrees; [done| |done].
  split; [done|]. intros t k' _. rewrite lookup_empty. apply He.
Qed.

End client.

(** ** The in-process store *)
Module Memory.

Definition NoExpiration : Z := -1.

(** An entry is served up to and including its deadline. *)
Definition alive (now : Z) (d : option Z) : bool :=
  match d with Some d => bool_decide (now <= d) | None => true end.

(** go-cache, by its documentation: an item set with a positive duration
    expires after it, one set with [NoExpiration] never; [Get] does not find
    expired items; [DeleteExpired] removes them, [Flush] removes everything. *)
Class GoCache (G V : Type) := {
  gc_New : G;
  gc_Set : string -> V -> Z -> Z -> G -> G;
  gc_Get : string -> Z -> G -> option V;
  gc_Delete : string -> G -> G;
  gc_DeleteExpired : Z -> G -> G;
  gc_Flush : G -> G;
  gc_items : G -> gmap string (V * option Z);
  gc_New_items : gc_items gc_New = ∅;
  gc_Set_items : forall k v d now g, d = NoExpiration \/ 0 < d ->
    gc_items (gc_Set k v d now g) = <[k := (v, deadline now d)]> (gc_items g);
  gc_Get_items : forall k now g,
    gc_Get k now g =
      match gc_items g !! k with Some (v, d) => if alive now d then Some v else None | None => None end;
  gc_Delete_items : forall k g, gc_items (gc_Delete k g) = delete k (gc_items g);
  gc_DeleteExpired_items : forall now g,
    gc_items (gc_DeleteExpired now g) =
      filter (fun kvd : string * (V * option Z) => alive now kvd.2.2 = true) (gc_items g);
  gc_Flush_items : forall g, gc_items (gc_Flush g) = ∅
}.

(** A channel of [struct{}] that is only ever closed; [NilChan] is nil. *)
Inductive chan : Type := NilChan | Open | Closed.

Section store.
Context {G V T : Type} {gc : GoCache G V}.
(** Boxing a [T] and the type assertion [raw.(T)]. *)
Variables (box : T -> V) (unbox : V -> option T).

(** [stopOnce] records whether the once ran. *)
Record Store : Type := { underlying : G; stopOnce : bool; stopCh : chan }.

Definition New (cleanupInterval : Z) : Store :=
  {| underlying := gc_New; stopOnce := false;
     stopCh := if bool_decide (0 < cleanupInterval) then Open else NilChan |}.
Definition with_underlying (g : G) (s : Store) : Store :=
  {| underlying := g; stopOnce := stopOnce s; stopCh := stopCh s |}.

(** One tick of [runJanitor]: the goroutine runs while the channel is open. *)
Definition janitor_tick (now : Z) (s : Store) : Store :=
  match stopCh s with
  | Open => with_underlying (gc_DeleteExpired now (underlying s)) s
  | _ => s
  end.

Definition Set_ (key : string) (value : T) (expiration now : Z) (s : Store) : option string * Store :=
  let d := if bool_decide (expiration <= 0) then NoExpiration else expiration in
  (None, with_underlying (gc_Set key (box value) d now (underlying s)) s).

Definition Get (key : string) (now : Z) (s : Store) : res string (option T) * Store :=
  match gc_Get key now (underlying s) with
  | None => (Ok None, s)
  | Some raw => match unbox raw with None => (Ok None, s) | Some value => (Ok (Some value), s) end
  end.

Definition Delete (key : string) (s : Store) : option string * Store :=
  (None, with_underlying (gc_Delete key (underlying s)) s).

(** [close(stopCh)] panics on a closed channel: [None] is the panic. *)
Definition close (c : chan) : option chan :=
  match c with Open => Some Closed | NilChan | Closed => None end.
Definition Dispose_may_panic (s : Store) : option Store :=
  if stopOnce s then Some s
  else
    match stopCh s with
    | NilChan => Some {| underlying := gc_Flush (underlying s); stopOnce := true; stopCh := NilChan |}
    | c => match close c with
           | Some c' => Some {| underlying := gc_Flush (underlying s); stopOnce := true; stopCh := c' |}
           | None => None
           end
    end.
Definition Dispose (s : Store) : Store := default s (Dispose_may_panic s).

Definition memory_cache : Cache Store T :=
  {| cSet := Set_; cGet := Get; cDelete := Delete; cDispose := Dispose |}.

(** The channel is closed only by the once. *)
Definition wf (s : Store) : Prop := stopCh s = Closed -> stopOnce s = true.

Definition mobs (s : Store) (t : Z) (k : string) : option T :=
  match gc_items (underlying s) !! k with
  | Some (v, d) => if alive t d then unbox v else None
  | None => None
  end.

Hypothesis unbox_box : forall v, unbox (box v) = Some v.

(** A janitor's tick removes nothing that could still be read. *)
Lemma janitor_invisible now s :
  wf s -> wf (janitor_tick now s) /\ forall t k, now <= t -> mobs (janitor_tick now s) t k = mobs s t k.
Proof using Type.
  clear unbox_box. intros Hw. unfold janitor_tick. destruct (stopCh s) eqn:Ec; try done. split.
  { unfold wf. simpl. congruence. }
  intros t k Ht. unfold mobs. cbn [underlying with_underlying]. rewrite gc_DeleteExpired_items.
  destruct (gc_items (underlying s) !! k) as [[v d]|] eqn:E.
  - destruct (alive now d) eqn:Ea.
    + by rewrite (map_lookup_filter_Some_2 _ _ _ _ E Ea).
    + rewrite map_lookup_filter_None_2; [|right; intros x Hx; simplify_eq; simpl; congruence].
      destruct d as [d|]; [|done]. simpl in *. apply bool_decide_eq_false in Ea.
      by rewrite bool_decide_false by lia.
  - by rewrite map_lookup_filter_None_2 by (by left).
Qed.

#[export] Instance memory_contract : CacheContract memory_cache.
Proof.
  refine {| grain := 0; valid := wf; obs := mobs; background := janitor_tick |}.
  - intros k v e now w w' Hw [= <-]. split; [done|]. intros t k' Ht. unfold mobs, Set_.
    cbn [underlying with_underlying]. rewrite gc_Set_items by (case_bool_decide; [by left|right; lia]).
    case_decide; subst; [rewrite lookup_insert_eq|by rewrite lookup_insert_ne].
    unfold serves, deadline, NoExpiration. case_bool_decide as He.
    + by rewrite bool_decide_true, unbox_box.
    + rewrite (bool_decide_false (e <= 0)) by done. simpl.
      split; intros; [rewrite bool_decide_true by lia; apply unbox_box|by rewrite bool_decide_false by lia].
  - intros k now w r w' Hw. unfold mobs. cbn [cGet memory_cache]. unfold Get. rewrite gc_Get_items.
    destruct (gc_items (underlying w) !! k) as [[v d]|]; [|by intros [= <- <-]].
    destruct (alive now d); [|by intros [= <- <-]]. by destruct (unbox v); intros [= <- <-].
  - intros k w w' Hw [= <-]. split; [done|]. intros t k'. unfold mobs, Delete.
    cbn [underlying with_underlying]. rewrite gc_Delete_items.
    case_decide; subst; [by rewrite lookup_delete_eq|by rewrite lookup_delete_ne].
  - exact janitor_invisible.
  - intros w. unfold memory_cache, Dispose, Dispose_may_panic. cbn [cDispose].
    destruct (stopOnce w) eqn:E1; simpl; [by rewrite E1|].
    destruct (stopCh w) eqn:E2; simpl; by rewrite ?E1, ?E2.
Defined.

(** C39: The in-process store: every operation keeps the channel discipline, so
    [Dispose] never closes a closed channel however often it is called; no
    operation reports an error; a janitor's tick is invisible to readers; and
    after [Dispose] the store is empty and the janitor stopped. *)
Theorem memory_lifecycle s :
  wf s ->
  (forall k v e now, wf (snd (Set_ k v e now s)) /\ fst (Set_ k v e now s) = None) /\
  (forall k now, exists r, Get k now s = (Ok r, s)) /\
  (forall k, wf (snd (Delete k s)) /\ fst (Delete k s) = None) /\
  (forall now, wf (janitor_tick now s) /\
     forall t k, now <= t -> mobs (janitor_tick now s) t k = mobs s t k) /\
  (exists s', Dispose_may_panic s = Some s' /\ wf s' /\ stopOnce s' = true /\
     Dispose_may_panic s' = Some s' /\
     (stopOnce s = false -> (forall t k, mobs s' t k = None) /\ (forall now, janitor_tick now s' = s'))).
Proof.
  intros Hw. split_and!; [done| |done| |].
  - intros k now. unfold Get. destruct (gc_Get k now (underlying s)) as [raw|]; [|by eauto].
    destruct (unbox raw); eauto.
  - intros now. by apply janitor_invisible.
  - unfold wf, Dispose_may_panic, janitor_tick, mobs in *.
    destruct (stopOnce s) eqn:E1; [exists s; rewrite E1; by split_and!|].
    destruct (stopCh s) eqn:E2; simpl; [..|specialize (Hw eq_refl); done];
      (eexists; split_and!; [done|done|done|done|intros _; split;
        [intros t k; simpl; by rewrite gc_Flush_items, lookup_empty|done]]).
Qed.

(** No operation of the store fails. *)
Lemma memory_total ops s : exists s', run (C := memory_cache) ops s = Some s'.
Proof using Type.
  revert s. induction ops as [|[now o] ops IH]; intros s; simpl; [by eexists|].
  destruct o; simpl; try apply IH. unfold Get.
  destruct (gc_Get k now (underlying s)) as [raw|]; [|apply IH]. destruct (unbox raw); apply IH.
Qed.

Lemma memory_new_empty interval : wf (New interval) /\ forall t k, mobs (New interval) t k = None.
Proof using Type.
  clear unbox_box. split; [unfold wf, New; simpl; by case_bool_decide|].
  intros t k. unfold mobs. simpl. by rewrite gc_New_items, lookup_empty.
Qed.

Lemma get_observes k now s : exists r, Get k now s = (Ok r, s) /\ r = mobs s now k.
Proof using Type.
  clear unbox_box. unfold Get, mobs. rewrite gc_Get_items.
  destruct (gc_items (underlying s) !! k) as [[v d]|]; [|by eexists].
  destruct (alive now d); [|by eexists]. by destruct (unbox v); eexists.
Qed.

End store.
End Memory.

(** ** The Redis store *)
Module Redis.

Inductive redis_err : Type := RedisNil | RedisError (msg : string).

(** The commands of [*redis.Client] over the state [W] of client and server. *)
Record Client (W : Type) : Type := {
  r_Set : string -> string -> Z -> Z -> W -> option string * W;
  r_Get : string -> Z -> W -> res redis_err string * W;
  r_Del : string -> W -> option string * W;
  r_Close : W -> W
}.
Arguments r_Set {W} _. Arguments r_Get {W} _. Arguments r_Del {W} _. Arguments r_Close {W} _.

Definition millisecond : Z := 1000000.

(** go-redis and a server that does not evict: a TTL of 0 is kept for ever, a
    positive one to the millisecond; an expired or absent key answers
    [redis.Nil], and a command that answers did what it says. *)
Class ClientSpec {W} (c : Client W) := {
  items : W -> gmap string (string * option Z);
  r_Set_items : forall k data d now w w', 0 <= d -> r_Set c k data d now w = (None, w') ->
    exists dl, items w' = <[k := (data, dl)]> (items w) /\
      match dl with
      | None => d = 0
      | Some dl => 0 < d /\ now + d - millisecond <= dl <= now + d + millisecond
      end;
  r_Get_items : forall k now w r w', r_Get c k now w = (r, w') ->
    items w' = items w /\
    match r with
    | Ok data => exists dl, items w !! k = Some (data, dl) /\ (forall t, dl = Some t -> now < t)
    | Err RedisNil => forall data dl, items w !! k = Some (data, dl) -> exists t, dl = Some t /\ t <= now
    | Err (RedisError _) => True
    end;
  r_Del_items : forall k w w', r_Del c k w = (None, w') -> items w' = delete k (items w)
}.

Section store.
Context {W T : Type} {client : Client W} {spec : ClientSpec client}.
(** [json.Marshal] and [json.Unmarshal] at [T]. *)
Variables (marshal : T -> res string string) (unmarshal : string -> res string T).

Record Store : Type := { world : W; owned : bool; closeOnce : bool }.

(** [New] on the caller's client, [NewFromOptions] on one of its own. *)
Definition New (w : W) : Store := {| world := w; owned := false; closeOnce := false |}.
Definition NewFromOptions (w : W) : Store := {| world := w; owned := true; closeOnce := false |}.
Definition with_world (w : W) (s : Store) : Store :=
  {| world := w; owned := owned s; closeOnce := closeOnce s |}.

Definition Set_ (key : string) (value : T) (expiration now : Z) (s : Store) : option string * Store :=
  match marshal value with
  | Err e => (Some e, s)
  | Ok data =>
      let d := if bool_decide (expiration <= 0) then 0 else expiration in
      let '(err, w') := r_Set client key data d now (world s) in (err, with_world w' s)
  end.

Definition Get (key : string) (now : Z) (s : Store) : res string (option T) * Store :=
  match r_Get client key now (world s) with
  | (Err RedisNil, w') => (Ok None, with_world w' s)
  | (Err (RedisError e), w') => (Err e, with_world w' s)
  | (Ok data, w') =>
      match unmarshal data with
      | Err e => (Err e, with_world w' s)
      | Ok value => (Ok (Some value), with_world w' s)
      end
  end.

Definition Delete (key : string) (s : Store) : option string * Store :=
  let '(err, w') := r_Del client key (world s) in (err, with_world w' s).

Definition Dispose (s : Store) : Store :=
  if closeOnce s then s
  else {| world := if owned s then r_Close client (world s) else world s;
          owned := owned s; closeOnce := true |}.

Definition redis_cache : Cache Store T :=
  {| cSet := Set_; cGet := Get; cDelete := Delete; cDispose := Dispose |}.

Definition alive (now : Z) (d : option Z) : bool :=
  match d with Some d => bool_decide (now < d) | None => true end.
Definition robs (s : Store) (t : Z) (k : string) : option T :=
  match items (world s) !! k with
  | Some (data, d) =>
      if alive t d then match unmarshal data with Ok v => Some v | Err _ => None end else None
  | None => None
  end.

(** A failed decode is an error of [Get], never a miss. *)
Lemma decode_error_surfaces k now s data e w' :
  r_Get client k now (world s) = (Ok data, w') -> unmarshal data = Err e ->
  Get k now s = (Err e, with_world w' s).
Proof. intros Hg Hu. unfold Get. by rewrite Hg, Hu. Qed.

(** Only an owned client is closed, and only by the first [Dispose]. *)
Lemma dispose_ownership s :
  world (Dispose s) = (if owned s && negb (closeOnce s) then r_Close client (world s) else world s) /\
  Dispose (Dispose s) = Dispose s.
Proof. unfold Dispose. by destruct (closeOnce s) eqn:E, (owned s) eqn:E'; simpl; rewrite ?E, ?E'. Qed.

(** [T] survives JSON. *)
Hypothesis json_roundtrip : forall v data, marshal v = Ok data -> unmarshal data = Ok v.

(** Everything stored decodes. *)
Definition decodable (s : Store) : Prop :=
  forall k data d, items (world s) !! k = Some (data, d) -> exists v, unmarshal data = Ok v.

#[export] Instance redis_contract : CacheContract redis_cache.
Proof.
  refine {| grain := millisecond; valid := decodable; obs := robs; background := fun _ s => s |}.
  - intros k v e now w w' Hw. cbn [cSet redis_cache]. unfold Set_, robs.
    destruct (marshal v) as [data|] eqn:Em; [|done].
    destruct (r_Set client k data _ now (world w)) as [err w1] eqn:Er. intros [= -> <-].
    apply r_Set_items in Er as (dl & Hit & Hdl); [|case_bool_decide; lia]. split.
    { intros k' data' d'. cbn [world with_world]. rewrite Hit, lookup_insert_Some.
      intros [[_ [= <- <-]]|[_ H]]; [eauto|by eapply Hw]. }
    intros t k' Ht. cbn [world with_world]. rewrite Hit.
    destruct (decide (k' = k)) as [->|]; [rewrite lookup_insert_eq|by rewrite lookup_insert_ne].
    rewrite (json_roundtrip _ _ Em). unfold serves, deadline. case_bool_decide.
    + destruct dl; [lia|done].
    + destruct dl as [dl|]; [simpl|lia].
      split; intros; [by rewrite bool_decide_true by lia|by rewrite bool_decide_false by lia].
  - intros k now w r w' Hw. cbn [cGet redis_cache]. unfold Get, robs.
    destruct (r_Get client k now (world w)) as [ra w1] eqn:Er.
    apply r_Get_items in Er as [Hi Hr]. destruct ra as [data|[|e]]; [|intros [= <- <-]|done].
    + destruct (unmarshal data) eqn:Eu; [|done]. intros [= <- <-]. destruct Hr as (dl & Hk & Hd).
      split_and!; [by intros ???; simpl; rewrite Hi; apply Hw| |intros; simpl; by rewrite Hi]. rewrite Hk, Eu.
      destruct dl as [t|]; [|done]. simpl. by rewrite bool_decide_true by (by apply Hd).
    + split_and!; [by intros ???; simpl; rewrite Hi; apply Hw| |intros; simpl; by rewrite Hi].
      destruct (items (world w) !! k) as [[data dl]|] eqn:Hk; [|done].
      destruct (Hr _ _ eq_refl) as (t & -> & Ht). simpl. by rewrite bool_decide_false by lia.
  - intros k w w' Hw. cbn [cDelete redis_cache]. unfold Delete, robs.
    destruct (r_Del client k (world w)) as [err w1] eqn:Er. intros [= -> <-].
    split.
    { intros k' data d. cbn [world with_world]. rewrite (r_Del_items _ _ _ Er), lookup_delete_Some.
      intros [_ H]. by eapply Hw. }
    intros t k'. cbn [world with_world]. rewrite (r_Del_items _ _ _ Er).
    case_decide; subst; [by rewrite lookup_delete_eq|by rewrite lookup_delete_ne].
  - done.
  - intros w. apply dispose_ownership.
Defined.

Lemma redis_new_empty w0 : items w0 = ∅ -> decodable (New w0) /\ forall t k, robs (New w0) t k = None.
Proof using Type.
  clear json_roundtrip. intros H0. split; [intros k data d|intros t k; unfold robs]; simpl; by rewrite H0, lookup_empty.
Qed.

(** What stored values decode to never fails: an error is the client's. *)
Lemma get_error_client k now s e s' :
  decodable s -> Get k now s = (Err e, s') ->
  exists w', r_Get client k now (world s) = (Err (RedisError e), w').
Proof using Type.
  clear json_roundtrip. intros Hd. unfold Get. destruct (r_Get client k now (world s)) as [[data|[|m]] w'] eqn:Er.
  - pose proof (r_Get_items _ _ _ _ _ Er) as [_ (dl & Hk & _)]. destruct (Hd _ _ _ Hk) as [v ->]. done.
  - done.
  - intros [= <- _]. by exists w'.
Qed.

End store.
End Redis.

(** ** The two stores *)
Section stores.
Context {G V T W : Type} {gc : Memory.GoCache G V} {client : Redis.Client W} {spec : Redis.ClientSpec client}.
Context (box : T -> V) (unbox : V -> option T) (marshal : T -> res string string)
  (unmarshal : string -> res string T).
Hypothesis unbox_box : forall v, unbox (box v) = Some v.
Hypothesis json_roundtrip : forall v data, marshal v = Ok data -> unmarshal data = Ok v.

#[local] Instance memory_stores : CacheContract (Memory.memory_cache box unbox) :=
  Memory.memory_contract box unbox unbox_box.
#[local] Instance redis_stores : CacheContract (Redis.redis_cache (client := client) marshal unmarshal) :=
  Redis.redis_contract marshal unmarshal json_roundtrip.

(** C38: Both stores keep the last write.  Take any history of operations (sets,
    gets, deletes and, for the in-process store, janitor ticks) in the order of
    their times.  On a new in-process store all of them succeed and a [Get]
    after them returns the value last set under the key if it was not deleted
    since and its deadline lies ahead, and a miss if there is none or the
    deadline has passed; a value set without expiration stays.  On a Redis store
    over an empty server, if all of them succeed, a [Get] does the same up to a
    millisecond around the deadline, or fails with the client's own error, never
    with a decoding error. *)
Theorem get_last_write interval w0 t0 ops k now :
  ordered t0 ops -> end_time t0 ops <= now -> Redis.items w0 = ∅ ->
  (exists s r, run (C := Memory.memory_cache box unbox) ops (Memory.New interval) = Some s /\
     Memory.Get unbox k now s = (Ok r, s) /\ expected 0 now (reference ops !! k) r) /\
  (forall s s' a, run (C := Redis.redis_cache marshal unmarshal) ops (Redis.New w0) = Some s ->
     Redis.Get (client := client) unmarshal k now s = (a, s') ->
     match a with
     | Ok r => expected Redis.millisecond now (reference ops !! k) r
     | Err e => exists w', Redis.r_Get client k now (Redis.world s) = (Err (Redis.RedisError e), w')
     end).
Proof.
  intros Hord Hn H0. split.
  - destruct (Memory.memory_total box unbox unbox_box ops (Memory.New interval)) as [s Hs].
    destruct (Memory.memory_new_empty unbox interval) as [Hw He].
    destruct (run_reference (contract := memory_stores) _ _ _ _ Hw He Hord Hs) as [_ Ha].
    destruct (Memory.get_observes unbox k now s) as (r & Hg & ->). exists s, (Memory.mobs unbox s now k).
    split_and!; [done|done|]. by apply Ha.
  - intros s s' a Hs Hg. destruct (Redis.redis_new_empty unmarshal w0 H0) as [Hw He].
    destruct (run_reference (contract := redis_stores) _ _ _ _ Hw He Hord Hs) as [Hv Ha]. destruct a as [r|e].
    + pose proof (get_obs (C := Redis.redis_cache (client := client) marshal unmarshal) k now s r s' Hv Hg)
        as (_ & -> & _). by apply Ha.
    + exact (Redis.get_error_client unmarshal k now s e s' Hv Hg).
Qed.

End stores.

(** ** Concrete backends *)
Module CacheWitness.

(** go-cache as a map. *)
#[local] Instance gomap : Memory.GoCache (gmap string (string * option Z)) string.
Proof.
  refine {| Memory.gc_New := ∅;
            Memory.gc_Set k v d now g := <[k := (v, deadline now d)]> g;
            Memory.gc_Get k now g :=
              match g !! k with
              | Some (v, d) => if Memory.alive now d then Some v else None
              | None => None
              end;
            Memory.gc_Delete k g := delete k g;
            Memory.gc_DeleteExpired now g :=
              filter (fun kvd : string * (string * option Z) => Memory.alive now kvd.2.2 = true) g;
            Memory.gc_Flush g := ∅;
            Memory.gc_items g := g |}; done.
Defined.

Definition boxed (v : string) : string := v.
Lemma boxed_Some v : Some (boxed v) = Some v.
Proof. done. Qed.
#[local] Instance contract0 : CacheContract (Memory.memory_cache boxed Some) :=
  Memory.memory_contract boxed Some boxed_Some.

Definition store0 : Memory.Store := Memory.New 60.
Definition history0 : list (Z * op (T := string)) :=
  [(0, OpSet "a" "1" 10); (1, OpSet "b" "2" 0); (2, OpSet "a" "3" 5); (3, OpDelete "b"); (4, OpBackground)].
Definition state0 : Memory.Store := default store0 (run (C := Memory.memory_cache boxed Some) history0 store0).

Lemma memory_lifecycle_witness :
  exists s', Memory.Dispose_may_panic state0 = Some s' /\ Memory.stopOnce s' = true /\
    Memory.Dispose_may_panic s' = Some s'.
Proof.
  destruct (Memory.memory_lifecycle boxed Some state0) as (_ & _ & _ & _ & (s' & H1 & _ & H2 & H3 & _)).
  - vm_compute. discriminate.
  - by exists s'.
Defined.

(** Redis as a map, its clients never failing. *)
Definition redis0 : Redis.Client (gmap string (string * option Z)) :=
  {| Redis.r_Set k v d now w := (None, <[k := (v, deadline now d)]> w);
     Redis.r_Get k now w :=
       (match w !! k with
        | Some (v, d) => if Redis.alive now d then Ok v else Err Redis.RedisNil
        | None => Err Redis.RedisNil
        end, w);
     Redis.r_Del k w := (None, delete k w);
     Redis.r_Close w := w |}.

#[local] Instance redis0_spec : Redis.ClientSpec redis0.
Proof.
  refine {| Redis.items w := w |}.
  - intros k data d now w w' Hd [= <-]. exists (deadline now d). split; [done|].
    unfold deadline, Redis.millisecond. case_bool_decide; lia.
  - intros k now w r w' [= <- <-]. split; [done|]. destruct (w !! k) as [[v d]|]; [|done].
    destruct d as [d|]; simpl; [case_bool_decide|].
    + exists (Some d). split; [done|]. by intros t [= <-].
    + intros data dl [= <- <-]. exists d. split; [done|lia].
    + by exists None.
  - by intros k w w' [= <-].
Defined.

Lemma json_ok (v data : string) : @Ok string string v = Ok data -> @Ok string string data = Ok v.
Proof. by intros [= <-]. Qed.

Lemma get_last_write_witness :
  exists s r, Memory.Get Some "a" 6 s = (Ok r, s) /\ expected 0 6 (reference history0 !! "a") r.
Proof.
  destruct (get_last_write boxed Some (@Ok string string) (@Ok string string) boxed_Some json_ok
              60 (∅ : gmap string (string * option Z)) 0 history0 "a" 6) as [(s & r & _ & Hg & He) _].
  - simpl. lia.
  - vm_compute. discriminate.
  - reflexivity.
  - exists s, r. split; [exact Hg|exact He].
Defined.

End CacheWitness.
