(* ===== verification/Identity.v ===== *)
(** * Request-scoped identity: [identity/identity.go]

    A [context.Context] is a chain of key/value cells; keys of other packages
    are distinct from the package's unexported key type. *)
From S2P Require Import Prelude.

Local Open Scope string_scope.

Abbreviation ActorKind := string.
Definition ActorKindUser : ActorKind := "user".
Definition ActorKindSystem : ActorKind := "system".
Definition systemActorID : string := "system".

Record Actor : Type := { Kind : ActorKind; ID : string; Sub : string }.

Definition actor_String (a : Actor) : string := ID a.
Definition IsUser (a : Actor) : bool := bool_decide (Kind a = ActorKindUser).
Definition IsSystem (a : Actor) : bool := bool_decide (Kind a = ActorKindSystem).

(** [contextKey{}] and the keys other packages use. *)
Inductive key : Type := contextKey | OtherKey (k : string).
#[global] Instance key_eq_dec : EqDecision key.
Proof. solve_decision. Defined.
Inductive value : Type := VActor (a : Actor) | VOther (v : any).

Inductive Context : Type := Background | WithValue (parent : Context) (k : key) (v : value).
Fixpoint Value (c : Context) (k : key) : option value :=
  match c with
  | Background => None
  | WithValue parent k' v => if decide (k' = k) then Some v else Value parent k
  end.

Definition NewContext (ctx : Context) (actor : Actor) : Context :=
  WithValue ctx contextKey (VActor actor).

Definition system_actor : Actor := {| Kind := ActorKindSystem; ID := systemActorID; Sub := "" |}.

Definition FromContext (ctx : Context) : Actor :=
  match Value ctx contextKey with Some (VActor actor) => actor | _ => system_actor end.

Definition SystemContext (ctx : Context) : Context := NewContext ctx system_actor.

(** The actors set on a context, innermost first. *)
Fixpoint actors (c : Context) : list Actor :=
  match c with
  | Background => []
  | WithValue p contextKey (VActor a) => a :: actors p
  | WithValue p _ _ => actors p
  end.

(** Only this package can write its key, so its cells hold actors. *)
Fixpoint sealed (c : Context) : Prop :=
  match c with
  | Background => True
  | WithValue p contextKey (VOther _) => False
  | WithValue p _ _ => sealed p
  end.

(** The actor in force is the one set last, whatever other packages put on the
    context in between, and the system actor if none was set. *)
Lemma from_context_last c : sealed c -> FromContext c = default system_actor (head (actors c)).
Proof.
  unfold FromContext. induction c as [|p IH k v]; [done|]. destruct k as [|k]; [by destruct v|].
  simpl. by destruct v.
Qed.
